(* ===== verification/_CoqProject ===== *)
-Q . S2P
Prelude.v
Bytes.v
Node.v
Event.v
Text.v
Encoding.v
EncodingFacts.v
State.v
Printing.v
StateFacts.v
Samples.v
PrintingFacts.v
Membership.v
Probe.v
Network.v
Cluster.v
Rhythm.v
Process.v
Protocol.v
Scenarios.v
Refutation.v
Convergence.v
Evolution.v
Client.v
Server.v
Distributed.v
Logged.v
LoggedFacts.v
Recording.v
Tui.v
TuiServer.v
Races.v
Programs.v
Tests.v
