(* ===== verification/Prelude.v ===== *)
(** * libswim: a verification library

    libswim is a C library for cluster membership and failure detection by the
    SWIM protocol.  Every server keeps a view of the other nodes, probes them
    in turn by PING events, asks others for help by PING_REQ when a node is
    silent, and spreads what it knows as gossip attached to its events.

    ** The program and its model

    The parts of the program, in the order in which they build on each other,
    and the files of this library that model them:

    - [Prelude]: byte arrays of fixed size, the outcomes of a C function
      (a value, or a fault: a failed [assert], an access out of bounds, a null
      pointer, a division by zero, [exit]), [memcpy], the tactics and the
      generic lemmas.
    - [Bytes]: integers of a given width in memory, for hosts of either byte
      order ([Host]); [htons], [htonl], [htobe64] and their inverses.
    - [Node] ([swim/node.h], [swim/node.c]): [Status], [NodeInfo],
      [NodeState] and their operations.  A value outside the enumeration,
      which a packet can contain, is [STATUS_OTHER].  [uuid_compare] of libuuid
      is a parameter ([UuidLib]); that it is a total order, as documented, is
      the hypothesis [UuidLaws], and [lexicographic] is an instance.
    - [Event] ([swim/event.h], [swim/defs.h]): the events and the layout of
      the structures.  The union of the event structures is one record whose
      uuid is shared by the members that have one at the same offset.
    - [Text] ([swim/utils.h], [swim/utils.c], and what the program uses of
      [stdio.h], [string.h] and [time.h]): text as bytes, strings in buffers of
      a given size, [snprintf], [sprintf] and [strncpy] with their bounds, and
      the names of uuids and addresses.  [getnameinfo], [uuid_unparse],
      [localtime_r] and the texts of [strftime] are parameters ([TextEnv]) with
      documented properties ([TextLaws]); [plain_text] is an instance.
    - [Encoding] ([swim/encoding.h], [swim/encoding.c]): every encoder and
      decoder, as functions on byte lists; [EncodingFacts] has the format as a
      specification ([event_bytes], [received_event]) and its theorems.
    - [State] ([swim/state.h], [swim/state.c]): the record [SWIM], the world a
      function runs in (state, clock, random numbers, allocator, datagrams
      sent) with the monad [M] of state and faults, and the operations on the
      view.  A pointer into the view is an index.  [StateFacts] has the
      invariant [swim_wf], a calculus of weakest preconditions [wp], and what
      each operation does to the view as a finite map.
    - [Printing] ([swim/logging.h], [swim/logging.c], the printing of
      [swim/event.c] and [swim/state.c], and the messages logged by
      [swim/network.c] and [swim/process.c]): the static variables of the
      output as the record [Output], with the registered functions; the
      theorems are in [PrintingFacts].
    - [Samples]: a small cluster on which the theorems are evaluated.
    - [Membership]: the abstract specification of the view, a map from uuids
      to beliefs (incarnation and status) that grows by taking the larger
      belief.
    - [Probe] ([swim_probe_*] of [swim/state.c]): the probe schedule.
    - [Network] ([swim/network.c], [swim_event_*] of [swim/event.c]): creating
      events, filling them with gossip, sending and receiving.
    - [Cluster] ([swim/cluster.c]): join, leave, heartbeat, suspicion.
    - [Rhythm]: the probes of successive heartbeats ([rhythm]), with a measure
      ([wait]) that falls until a node is probed.
    - [Process] ([swim/process.c]): the handlers of the events and the
      dispatch; the abstract failure detector [detector] with [hear].
    - [Protocol]: the theorems about the handlers.
    - [Scenarios]: servers that exchange events, end to end: joining.
    - [Refutation]: three servers, of which one is suspected and refutes it.
    - [Convergence]: two servers that agree after one exchange.
    - [Evolution]: what an operation of a server keeps, given what the others
      have announced, as a calculus that follows the code ([steady],
      [evolves]).
    - [Client] ([examples/swim_client.c], [examples/swim_common.c]): the test
      client, with the memory image of the structure it sends.
    - [Server] ([swim/server.c], [swim/server_pthread.c], [swim_state_init]):
      initialisation, start and wait, the loop with its printouts and its stop
      flag, and the states a server can reach.
    - [Distributed]: a cluster of any number of servers and the network between
      them, as a step relation ([cluster_step]) on a map of servers: servers are
      started, join, leave, run their loop and crash; a server receives any
      datagram that was ever sent, or none.
    - [Logged]: the functions of [Network], [Cluster], [Process] and [Server]
      once more, with the lines they log, trace and write to [stderr], as
      computations ([V]) that have a [Log] beside the world; a text that cannot
      be written is an end of its own ([TextFault]).  The relation [shadows]
      says that such a function does what its counterpart does; [simulates]
      extends it to the loop, which also shows the view.
    - [LoggedFacts]: when texts can be written ([fluent]), and the theorems
      about the server with its log.
    - [Recording]: a history variable for the lines that are logged, and that a
      server runs the same with it.
    - [Tui] ([examples/swim_server_tui.c]): the log ring, the windows, the table
      of nodes and the signal handlers of the terminal interface.  Of curses
      the size of a new window is a parameter ([Curses]); a window is what has
      been drawn in it.
    - [TuiServer]: the terminal interface registered with a server that logs,
      and the lines its ring then holds.
    - [Races] ([create_windows], [render_log], [tui_state_print] and
      [handle_sigwinch] of the same file): the accesses of these functions to
      the windows, interleaved with the signal.
    - [Programs] ([examples/swim_server.c] and the rest of
      [examples/swim_server_tui.c]): the command line, with GNU [getopt] and
      [strtol], and the two main programs.
    - [Tests] ([swim/state_test.c], [swim/probe_test.c],
      [swim/encoding_test.c]): the unit tests of the program, run on the
      definitions.  [uuid_generate] and [uuid_parse] are parameters.

    What the operating system and the C library decide is an oracle ([Env],
    [InitEnv], [Incoming]): the results of [rand], [time], the allocator,
    [sendto], [recvfrom], [socket], [bind], [pthread_create], [getaddrinfo], and
    the contents of memory that is not initialised.  Nothing is assumed about
    it, except what a theorem says: mostly that allocations succeed, without which
    null pointers are used, and in the theorems about several servers that their
    clocks are between 1 and 2^32 - 1.  The definitions are
    executable, and every theorem with a hypothesis is applied to a concrete input in a lemma named
    after it with the suffix [_witness].

    ** What the theorems show

    - Wire format: events survive encoding and decoding, integers are
      independent of the byte order of the host, whatever the decoder accepts
      is well formed, and what it rejects; and two defects, the damaged time
      stamp and the overflow of an address.
    - View: binary search agrees with linear search; add, notice, merge and
      suspect on all their branches, as updates of a finite map; merging
      refines the join of beliefs.
    - Probing: the schedule is a permutation, a round probes every node that
      is not dead once, and one of 2N - 1 successive heartbeats sends a given
      node a PING, unless it is dead by then.
    - Sending: one datagram with the right contents, which the receiver
      decodes to the event that was sent.
    - Heartbeat: exactly how nodes age; silent nodes are declared dead; whom
      the indirect probes go to.
    - Events: with enough memory, arbitrary events cause no access out of bounds
      or through a null pointer, honest ones no failed assertion; what each handler changes and sends; gossip refines the
      abstract detector, is idempotent and independent of its order.
    - Server: the invariant of all reachable states and the safety of the loop,
      which is left only when it is stopped, by a failed assertion, by [exit],
      or because the view cannot be printed.
    - Cluster: in every reachable state of a cluster no server believes or
      announces an incarnation a node has not reached, no server commits a
      memory error on what the others send, and nobody is forgotten.  The
      network may lose, duplicate, reorder and misdirect datagrams but not forge
      them, memory is available, all hosts have the same byte order, and an
      incarnation less than 11 away from 2^32 is excluded.
    - Joining: the whole exchange between two servers, at the end of which
      each believes the other to be alive.
    - Refutation: a suspected server advances its incarnation, which brings it
      back to life in the view of others.
    - Convergence: after a PING and its ACK two servers agree about everybody
      else; each has the join of what both believed.
    - Printing: when exactly an event and the view can be printed and what is
      written; how a status outside the enumeration, received as gossip, makes
      the view unprintable.
    - Logging: a server that logs but is not traced ends as one that does not
      log, in the same state and with the same datagrams sent.  Every line can be
      written if addresses have names and the registered function does not
      fail, except one about an empty address, which may read beyond a buffer
      that [swim_addr_str_r] has not written.  If the server is traced, gossip
      with a status outside the enumeration makes it read beyond the table of
      names.
    - Terminal interface: the ring refines the list of all messages, the windows
      show its newest ones and the table of nodes, and the static variables keep
      their types; registered with a server that logs, it does not disturb it,
      and its ring holds exactly the lines that are logged; under which delivery of signals resizing the terminal is safe,
      and that it is not with the handler that is installed.
    - Programs: command lines are read as they are written; the server program
      as a whole, with its log; the client, which no server understands.
    - Tests: all unit tests pass, for all uuids and all contents of
      uninitialised buffers, except that of the event header on a big-endian
      host.
    - Several theorems are about behaviour that differs from the comments:
      the pointer returned by [swim_state_add] and the abort it leads to, the
      ACK that is never passed on to a witness, the LEAVE that names nobody, the
      indirect probe that asks nobody, dead nodes that return, stale bytes that
      are decoded.

    ** Bounds

    [bsearch_loop] has fuel [nmemb + 1], more than the iterations of a search
    that at least removes one element each time; [probe_loop] has the number
    of positions left in the round, and so has the loop of a test over a round
    ([walk_round]); [getopt_loop] has the number of arguments.  All are shown to
    be enough.  All other loops run over the structure they
    traverse.  The server loop runs over the list of its inputs, which may be of
    any length.  Text is written into buffers of the sizes of the source.
    Incarnations and event fields are integers with their width in the invariants ([wf_info], [wf_header]);
    the incarnation wraps around at 2^32.  The sizes of the view are natural
    numbers: the [int]s of the source would overflow at 2^31 nodes, far beyond
    what memory can hold.  Times are compared as mathematical
    integers: the clock is taken to be away from the ends of [time_t].

    ** What is not modelled

    The files before [Logged] describe the functions with [swim_verbose] and
    [swim_tracing_on] off, and without what they write to [stderr]; [Logged] has
    the rest.  The clock that the log reads is apart from the one that the
    program uses.  Memory is not freed, and the field [server] of [SWIM] is a value
    next to the state.  The server thread runs while the main thread waits for
    it; the state is accessed by the server thread only, except by the handler
    of a changed window size.  Of the interleaving of that handler with the
    thread the accesses to the windows are modelled, not those to the view.  The
    usage messages, and the functions that free the fixture of a test, are left
    out. *)

From Stdlib Require Import Init.Byte Strings.Byte ZArith Lia.
From stdpp Require Import base tactics option list vector sorting.

(** ** Bytes and fixed-size byte arrays

    [unsigned char[n]] is a vector of [n] bytes, so that the array bounds of
    [uuid_t] and [struct sockaddr_storage] are part of the type. *)

Abbreviation byte := Corelib.Init.Byte.byte.

#[export] Instance byte_eq_decision : EqDecision byte := Byte.byte_eq_dec.

Definition array (n : nat) : Type := vec byte n.

Definition zeros (n : nat) : array n := vreplicate n x00.

(** Reinterpret the first [n] bytes of a memory region as an array. *)
Definition array_of (n : nat) (l : list byte) : array n :=
  fun_to_vec (λ i : fin n, default x00 (l !! fin_to_nat i)).

(** ** Outcomes

    What a C function can do besides returning: fail an [assert], run into
    undefined behaviour, or leave the process through [exit]. *)

Inductive fault : Type :=
| AssertFailed
| OutOfBounds
| NullDeref
| DivisionByZero
| Exited (code : Z).

Inductive outcome (A : Type) : Type :=
| Ok (a : A)
| Fault (f : fault).
Arguments Ok {A} a.
Arguments Fault {A} f.

#[export] Instance fault_eq_decision : EqDecision fault.
Proof. solve_decision. Defined.

#[export] Instance outcome_eq_decision `{EqDecision A} : EqDecision (outcome A).
Proof. solve_decision. Defined.

#[export] Instance outcome_ret : MRet outcome := λ A a, Ok a.

#[export] Instance outcome_bind : MBind outcome := λ A B k m,
  match m with Ok a => k a | Fault f => Fault f end.

#[export] Instance outcome_fmap : FMap outcome := λ A B g m,
  match m with Ok a => Ok (g a) | Fault f => Fault f end.

(** [assert(b)], in a build where assertions are enabled. *)
Definition assert (b : bool) : outcome unit :=
  if b then Ok tt else Fault AssertFailed.

(** [memcpy(dst, src, n)]: both regions must hold [n] bytes. *)
Definition memcpy {m : nat} (dst : array m) (src : list byte) (n : Z)
  : outcome (array m) :=
  if (0 <=? n)%Z && (n <=? Z.of_nat m)%Z && (n <=? Z.of_nat (length src))%Z
  then Ok (array_of m (take (Z.to_nat n) src ++ drop (Z.to_nat n) (vec_to_list dst)))
  else Fault OutOfBounds.

(** ** Automation *)

Create HintDb swim.

Lemma Ok_inj {A} (a b : A) : Ok a = Ok b → a = b.
Proof. by intros [= ->]. Qed.

(** Reduce the binds of computations that are known to return. *)
Ltac bind_step := cbn [mbind outcome_bind].

(** Case analysis on a monadic sequence that returned [Ok]. *)
Ltac simplify_outcome :=
  repeat match goal with
  | H : mbind _ ?m = Ok _ |- _ =>
      let E := fresh "Hrun" in
      destruct m eqn:E; cbn [mbind outcome_bind] in H; [|discriminate H]
  | H : match ?p with pair _ _ => _ end = Ok _ |- _ => is_var p; destruct p
  | H : Ok _ = Ok _ |- _ => apply Ok_inj in H
  | H : assert ?b = Ok _ |- _ =>
      let E := fresh "Hassert" in
      destruct b eqn:E; cbn [assert] in H; [clear H|discriminate H]
  end; simplify_eq.

(** ** Generic lemmas on arrays and lists *)

Lemma array_of_to_list (n : nat) (l : list byte) :
  length l = n → vec_to_list (array_of n l) = l.
Proof.
  intros Hl. apply list_eq_same_length with n; [done| |].
  { apply length_vec_to_list. }
  intros i x y Hi Hx Hy.
  apply vlookup_lookup' in Hx as [Hlt Hx].
  unfold array_of in Hx. rewrite lookup_fun_to_vec, fin_to_nat_to_fin, Hy in Hx.
  done.
Qed.

Lemma array_to_of_list (n : nat) (a : array n) : array_of n (vec_to_list a) = a.
Proof.
  apply vec_to_list_inj2, array_of_to_list, length_vec_to_list.
Qed.

(** Cells for which there are no bytes are zero. *)
Lemma array_of_short (n : nat) (l : list byte) :
  length l ≤ n → vec_to_list (array_of n l) = l ++ replicate (n - length l) x00.
Proof.
  intros Hl. rewrite <-(array_of_to_list n (l ++ replicate (n - length l) x00))
    by (rewrite length_app, length_replicate; lia).
  f_equal. apply vec_eq. intros i. unfold array_of. rewrite !lookup_fun_to_vec.
  destruct (decide (fin_to_nat i < length l)) as [Hi|Hi]; [by rewrite lookup_app_l|].
  rewrite lookup_app_r, lookup_ge_None_2, lookup_replicate_2; [done|..];
    pose proof (fin_to_nat_lt i); lia.
Qed.

Lemma memcpy_ok {m : nat} (dst : array m) (src : list byte) (n : Z) :
  (0 ≤ n)%Z → (n ≤ Z.of_nat m)%Z → (n ≤ Z.of_nat (length src))%Z →
  memcpy dst src n =
    Ok (array_of m (take (Z.to_nat n) src ++ drop (Z.to_nat n) (vec_to_list dst))).
Proof.
  intros H1 H2 H3. unfold memcpy.
  by rewrite !(proj2 (Z.leb_le _ _)) by done.
Qed.

Lemma memcpy_inv {m : nat} (dst : array m) (src : list byte) (n : Z) a :
  memcpy dst src n = Ok a →
  (0 ≤ n ≤ Z.of_nat m)%Z ∧ (n ≤ Z.of_nat (length src))%Z.
Proof.
  unfold memcpy. case_match eqn:E; [|done]. intros _.
  rewrite !andb_true_iff, !Z.leb_le in E. tauto.
Qed.

Lemma memcpy_full {m : nat} (dst : array m) (src : list byte) :
  length src = m → memcpy dst src (Z.of_nat m) = Ok (array_of m src).
Proof.
  intros Hl. rewrite memcpy_ok by lia. rewrite Nat2Z.id.
  rewrite drop_ge, app_nil_r, take_ge by (rewrite ?length_vec_to_list; lia).
  done.
Qed.

Lemma length_array {n : nat} (a : array n) : length (vec_to_list a) = n.
Proof. apply length_vec_to_list. Qed.

Lemma StronglySorted_lookup {A} (R : A → A → Prop) (l : list A) i j x y :
  StronglySorted R l → l !! i = Some x → l !! j = Some y → i < j → R x y.
Proof.
  intros Hs. revert i j. induction Hs as [|z l Hs IH Hz]; intros i j Hi Hj Hij; [done|].
  destruct j as [|j]; [lia|]. destruct i as [|i]; simpl in *.
  - simplify_eq. rewrite Forall_lookup in Hz. eauto.
  - eapply IH; eauto with lia.
Qed.

Lemma StronglySorted_NoDup {A} (R : A → A → Prop) `{!Irreflexive R} (l : list A) :
  StronglySorted R l → NoDup l.
Proof.
  induction 1 as [|x l Hs IH Hx]; constructor; [|done].
  intros Hin. rewrite Forall_forall in Hx. by apply (irreflexivity R x), Hx.
Qed.

Lemma filter_none {A} (P : A → Prop) `{∀ x, Decision (P x)} (l : list A) :
  (∀ x, x ∈ l → ¬ P x) → filter P l = [].
Proof.
  induction l as [|x l IH]; intros Hl; [done|].
  rewrite filter_cons_False by (apply Hl; left). apply IH. intros y Hy. apply Hl. by right.
Qed.

(** A walk around a ring of [n] positions meets none of them twice. *)
Lemma NoDup_ring (pos n k : nat) :
  k ≤ n → NoDup ((λ i, (pos + i) mod n) <$> seq 0 k).
Proof.
  intros Hk. apply NoDup_fmap_2_strong; [|apply NoDup_seq].
  intros i j Hi%elem_of_seq Hj%elem_of_seq E.
  pose proof (Nat.div_mod_eq (pos + i) n). pose proof (Nat.div_mod_eq (pos + j) n).
  assert ((pos + i) / n = (pos + j) / n) by nia. nia.
Qed.

#[export] Hint Rewrite @length_array @array_to_of_list : swim.
#[export] Hint Rewrite @length_app @length_take @length_drop
  @length_replicate @length_insert : swim.
