(* ===== verification/Bytes.v ===== *)
(** * Machine integers in memory

    The representation of fixed-width integers: how the host stores and loads
    them, the byte-order conversions of [<endian.h>] and [<arpa/inet.h>] that
    [swim/encoding.h] uses, and the conversions between C integer types.
    The byte order of the host is a parameter of everything that depends on
    it, so that statements about the wire format hold for either order. *)

From Stdlib Require Import ZArith Lia.
From stdpp Require Import base tactics list.
From coqutil Require Byte Word.LittleEndianList.
From S2P Require Import Prelude.

Open Scope Z_scope.

Inductive endian : Type := LittleEndian | BigEndian.

Class Host := host_endian : endian.

Abbreviation le_split := LittleEndianList.le_split.
Abbreviation le_combine := LittleEndianList.le_combine.

(** Conversion to an [n]-byte unsigned, respectively signed, integer type. *)
Definition to_unsigned (n : nat) (z : Z) : Z := z mod 2 ^ (Z.of_nat n * 8).

Definition to_signed (n : nat) (z : Z) : Z :=
  let h := 2 ^ (Z.of_nat n * 8 - 1) in
  (z + h) mod 2 ^ (Z.of_nat n * 8) - h.

(** The value ranges of the integer types. *)
Definition is_unsigned (n : nat) (z : Z) : Prop := 0 ≤ z < 2 ^ (Z.of_nat n * 8).

Definition is_signed (n : nat) (z : Z) : Prop :=
  - 2 ^ (Z.of_nat n * 8 - 1) ≤ z < 2 ^ (Z.of_nat n * 8 - 1).

(** Network byte order, the reference for what is put on the wire. *)
Definition be_split (n : nat) (z : Z) : list byte := rev (le_split n z).
Definition be_combine (l : list byte) : Z := le_combine (rev l).

(** [bswap_16], [bswap_32] and [bswap_64]. *)
Definition bswap (n : nat) (z : Z) : Z := be_combine (le_split n z).

Section Memory.
Context `{Host}.

(** Store an [n]-byte integer through a pointer, and load one. *)
Definition store (n : nat) (z : Z) : list byte :=
  match host_endian with
  | LittleEndian => le_split n z
  | BigEndian => be_split n z
  end.

Definition load (l : list byte) : Z :=
  match host_endian with
  | LittleEndian => le_combine l
  | BigEndian => be_combine l
  end.

(** [htons], [htonl], [htobe64]; [ntohs], [ntohl] and [be64toh] are the same
    permutation of the bytes. *)
Definition hton (n : nat) (z : Z) : Z :=
  match host_endian with
  | LittleEndian => bswap n z
  | BigEndian => to_unsigned n z
  end.

Definition ntoh (n : nat) (z : Z) : Z := hton n z.

End Memory.

(** ** Lemmas *)

Lemma length_le_split n z : length (le_split n z) = n.
Proof. apply LittleEndianList.length_le_split. Qed.

Lemma length_be_split n z : length (be_split n z) = n.
Proof. unfold be_split. rewrite length_rev. apply length_le_split. Qed.

Lemma le_combine_split n z : le_combine (le_split n z) = to_unsigned n z.
Proof. apply LittleEndianList.le_combine_split. Qed.

Lemma le_split_combine l n : length l = n → le_split n (le_combine l) = l.
Proof. apply LittleEndianList.split_le_combine'. Qed.

Lemma le_split_to_unsigned n z : le_split n (to_unsigned n z) = le_split n z.
Proof. unfold to_unsigned. symmetry. apply LittleEndianList.le_split_mod. Qed.

Lemma be_combine_split n z : be_combine (be_split n z) = to_unsigned n z.
Proof.
  unfold be_combine, be_split. rewrite rev_involutive. apply le_combine_split.
Qed.

Lemma be_split_combine l n : length l = n → be_split n (be_combine l) = l.
Proof.
  intros Hl. unfold be_combine, be_split.
  rewrite le_split_combine by by rewrite length_rev. apply rev_involutive.
Qed.

Lemma be_split_to_unsigned n z : be_split n (to_unsigned n z) = be_split n z.
Proof. unfold be_split. by rewrite le_split_to_unsigned. Qed.

Lemma is_unsigned_to_unsigned n z : is_unsigned n (to_unsigned n z).
Proof. apply Z.mod_pos_bound. lia. Qed.

Lemma to_unsigned_id n z : is_unsigned n z → to_unsigned n z = z.
Proof. apply Z.mod_small. Qed.

Lemma is_unsigned_be_combine l n : length l = n → is_unsigned n (be_combine l).
Proof.
  intros <-. unfold is_unsigned, be_combine.
  rewrite <-(length_rev l), Z.mul_comm.
  apply LittleEndianList.le_combine_bound.
Qed.

Lemma pow_half n : (0 < n)%nat →
  2 ^ (Z.of_nat n * 8) = 2 * 2 ^ (Z.of_nat n * 8 - 1).
Proof.
  intros Hn. rewrite <-Z.pow_succ_r by lia. f_equal. lia.
Qed.

Lemma to_signed_id n z : (0 < n)%nat → is_signed n z → to_signed n z = z.
Proof.
  unfold is_signed, to_signed. intros Hn Hz. pose proof (pow_half n Hn).
  rewrite Z.mod_small; lia.
Qed.

Lemma to_signed_to_unsigned n z : to_signed n (to_unsigned n z) = to_signed n z.
Proof.
  unfold to_signed, to_unsigned. rewrite Zplus_mod_idemp_l. done.
Qed.

Lemma to_signed_small n z : (0 < n)%nat →
  0 ≤ z < 2 ^ (Z.of_nat n * 8 - 1) → to_signed n z = z.
Proof. intros Hn Hz. apply to_signed_id; [done|]. unfold is_signed. lia. Qed.

Lemma le_split_succ n z :
  le_split (S n) z = coqutil.Byte.byte.of_Z z :: le_split n (Z.shiftr z 8).
Proof. reflexivity. Qed.

Lemma le_split_app n m z :
  le_split (n + m) z = le_split n z ++ le_split m (Z.shiftr z (8 * Z.of_nat n)).
Proof.
  revert z; induction n as [|n IH]; intros z.
  { by rewrite Z.shiftr_0_r. }
  cbn [Nat.add]. rewrite !le_split_succ, IH. cbn [app]. do 3 f_equal.
  rewrite Z.shiftr_shiftr by lia. f_equal. lia.
Qed.

(** The upper half of a 64-bit value comes first in network order. *)
Lemma be_split_8 z : be_split 8 z = be_split 4 (Z.shiftr z 32) ++ be_split 4 z.
Proof.
  unfold be_split. change 8%nat with (4 + 4)%nat.
  rewrite le_split_app, rev_app_distr. done.
Qed.

Section MemoryFacts.
Context `{Host}.

(** Whatever the host's byte order, storing a value converted by [hton]
    leaves its big-endian representation in memory. *)
Lemma store_hton n z : store n (hton n z) = be_split n z.
Proof.
  unfold store, hton, bswap. destruct host_endian.
  - unfold be_split, be_combine.
    by rewrite le_split_combine by by rewrite length_rev, length_le_split.
  - apply be_split_to_unsigned.
Qed.

(** And loading followed by [ntoh] reads a big-endian value back. *)
Lemma ntoh_load n l : length l = n → ntoh n (load l) = be_combine l.
Proof.
  intros Hl. unfold ntoh, hton, load, bswap. destruct host_endian.
  - by rewrite le_split_combine by done.
  - by apply to_unsigned_id, is_unsigned_be_combine.
Qed.

Lemma length_store n z : length (store n z) = n.
Proof.
  unfold store. destruct host_endian; [apply length_le_split|apply length_be_split].
Qed.

End MemoryFacts.

#[export] Hint Rewrite length_le_split length_be_split @length_store : swim.
