(* ===== verification/Node.v ===== *)
(** * Nodes: [swim/node.h], [swim/node.c] and the uuid library

    The data a process keeps about a peer, and the functions that initialise,
    copy and reset it.  The uuid library itself is not part of the sources:
    what the code relies on is the interface [UuidLib] and its laws. *)

From Stdlib Require Import Init.Byte ZArith Lia.
From stdpp Require Import base tactics list vector countable.
From S2P Require Import Prelude Bytes.

Open Scope Z_scope.

(** ** Data *)

Definition uuid_t : Type := array 16.

Definition sockaddr_storage : Type := array 128.

(** Status of a node.  A C enumeration is an integer: the decoder assigns any
    16-bit value to it, so the values outside the enumeration are kept. *)
Inductive Status : Type :=
| SWIM_STATUS_UNKNOWN
| SWIM_STATUS_ALIVE
| SWIM_STATUS_SUSPECT
| SWIM_STATUS_DEAD
| STATUS_OTHER (code : Z).

(** The integer value of a status and the status an integer stands for. *)
Definition status_code (s : Status) : Z :=
  match s with
  | SWIM_STATUS_UNKNOWN => 0
  | SWIM_STATUS_ALIVE => 1
  | SWIM_STATUS_SUSPECT => 2
  | SWIM_STATUS_DEAD => 3
  | STATUS_OTHER c => c
  end.

Definition status_of (c : Z) : Status :=
  match c with
  | 0 => SWIM_STATUS_UNKNOWN
  | 1 => SWIM_STATUS_ALIVE
  | 2 => SWIM_STATUS_SUSPECT
  | 3 => SWIM_STATUS_DEAD
  | _ => STATUS_OTHER c
  end.

#[export] Instance status_eq_decision : EqDecision Status.
Proof. solve_decision. Defined.

(** Instance data that is sent out to the cluster. *)
Record NodeInfo : Type := {
  ni_uuid : uuid_t;
  ni_last_seen : Z;
  ni_incarnation : Z;
  ni_status : Status;
  ni_addr : sockaddr_storage;
  ni_addrlen : Z
}.

Record Witness : Type := {
  wi_addr : sockaddr_storage;
  wi_addrlen : Z
}.

(** Node state: the node info and what is recorded locally about the node. *)
Record NodeState : Type := {
  ns_info : NodeInfo;
  ns_ping_time : Z;
  ns_suspect_time : Z;
  ns_witness : Witness
}.

#[export] Instance node_info_eq_decision : EqDecision NodeInfo.
Proof. solve_decision. Defined.

(** Assignments to the fields. *)
Definition set_ni_status (v : Status) (n : NodeInfo) : NodeInfo :=
  {| ni_uuid := ni_uuid n; ni_last_seen := ni_last_seen n;
     ni_incarnation := ni_incarnation n; ni_status := v;
     ni_addr := ni_addr n; ni_addrlen := ni_addrlen n |}.

Definition set_ni_last_seen (v : Z) (n : NodeInfo) : NodeInfo :=
  {| ni_uuid := ni_uuid n; ni_last_seen := v;
     ni_incarnation := ni_incarnation n; ni_status := ni_status n;
     ni_addr := ni_addr n; ni_addrlen := ni_addrlen n |}.

Definition set_ni_incarnation (v : Z) (n : NodeInfo) : NodeInfo :=
  {| ni_uuid := ni_uuid n; ni_last_seen := ni_last_seen n;
     ni_incarnation := v; ni_status := ni_status n;
     ni_addr := ni_addr n; ni_addrlen := ni_addrlen n |}.

Definition set_ns_info (v : NodeInfo) (n : NodeState) : NodeState :=
  {| ns_info := v; ns_ping_time := ns_ping_time n;
     ns_suspect_time := ns_suspect_time n; ns_witness := ns_witness n |}.

Definition set_ns_witness (v : Witness) (n : NodeState) : NodeState :=
  {| ns_info := ns_info n; ns_ping_time := ns_ping_time n;
     ns_suspect_time := ns_suspect_time n; ns_witness := v |}.

Definition no_witness : Witness := {| wi_addr := zeros 128; wi_addrlen := 0 |}.

Definition zero_info : NodeInfo :=
  {| ni_uuid := zeros 16; ni_last_seen := 0; ni_incarnation := 0;
     ni_status := SWIM_STATUS_UNKNOWN; ni_addr := zeros 128; ni_addrlen := 0 |}.

Definition zero_node : NodeState :=
  {| ns_info := zero_info; ns_ping_time := 0; ns_suspect_time := 0;
     ns_witness := no_witness |}.

(** ** Operations of [swim/node.c] *)

Definition swim_node_init (uuid : uuid_t) (addr : sockaddr_storage) (addrlen : Z)
  : outcome NodeInfo :=
  a ← memcpy (ni_addr zero_info) (vec_to_list addr) addrlen;
  Ok {| ni_uuid := uuid; ni_last_seen := ni_last_seen zero_info;
        ni_incarnation := ni_incarnation zero_info;
        ni_status := ni_status zero_info;
        ni_addr := a; ni_addrlen := addrlen |}.

Definition swim_node_copy (dst src : NodeInfo) : outcome NodeInfo :=
  a ← memcpy (ni_addr dst) (vec_to_list (ni_addr src)) (ni_addrlen src);
  Ok {| ni_uuid := ni_uuid src; ni_last_seen := ni_last_seen src;
        ni_incarnation := ni_incarnation src; ni_status := ni_status src;
        ni_addr := a; ni_addrlen := ni_addrlen src |}.

Definition swim_node_has_witness (node : NodeState) : bool :=
  0 <? wi_addrlen (ns_witness node).

Definition swim_node_reset (node : NodeState) : NodeState :=
  {| ns_info := ns_info node; ns_ping_time := 0; ns_suspect_time := 0;
     ns_witness := no_witness |}.

Definition swim_node_reset_witness (node : NodeState) : NodeState :=
  set_ns_witness no_witness node.

(** ** The uuid library

    [uuid_compare(3)]: "returns an integer less than, equal to, or greater
    than zero if uu1 is found, respectively, to be lexicographically less
    than, equal, or greater than uu2". *)

Class UuidLib := uuid_compare : uuid_t → uuid_t → Z.

Class UuidLaws (U : UuidLib) : Prop := {
  uuid_compare_eq a b : uuid_compare a b = 0 ↔ a = b;
  uuid_compare_gt a b : 0 < uuid_compare a b ↔ uuid_compare b a < 0;
  uuid_compare_trans a b c :
    uuid_compare a b < 0 → uuid_compare b c < 0 → uuid_compare a c < 0
}.

Definition uuid_lt `{UuidLib} (a b : uuid_t) : Prop := uuid_compare a b < 0.

#[export] Instance uuid_lt_dec `{UuidLib} : RelDecision uuid_lt :=
  λ a b, Z_lt_dec (uuid_compare a b) 0.

#[export] Instance uuid_eq_decision : EqDecision uuid_t := vec_dec.

#[export] Instance byte_countable : Countable byte :=
  inj_countable Byte.to_N Byte.of_N Byte.of_to_N.

#[export] Instance uuid_countable : Countable uuid_t :=
  inj_countable' vec_to_list (array_of 16) (array_to_of_list 16).

(** A concrete [uuid_compare]: byte-wise lexicographic comparison, as
    [memcmp] computes it. *)
Fixpoint bytes_compare (a b : list byte) : Z :=
  match a, b with
  | x :: a', y :: b' =>
      let d := Z.of_N (Byte.to_N x) - Z.of_N (Byte.to_N y) in
      if d =? 0 then bytes_compare a' b' else d
  | [], [] => 0
  | [], _ :: _ => -1
  | _ :: _, [] => 1
  end.

Definition lexicographic : UuidLib :=
  λ a b, bytes_compare (vec_to_list a) (vec_to_list b).

(** ** Lemmas *)

Lemma status_code_of c : status_code (status_of c) = c.
Proof. unfold status_of. by repeat case_match. Qed.

(** A status that is a value of the enumeration. *)
Definition status_valid (s : Status) : Prop :=
  match s with STATUS_OTHER _ => False | _ => True end.

#[export] Instance status_valid_dec s : Decision (status_valid s).
Proof. destruct s; simpl; apply _. Defined.

Lemma status_of_code s : status_valid s → status_of (status_code s) = s.
Proof. by destruct s. Qed.

Lemma status_code_inj s t :
  status_valid s → status_valid t → status_code s = status_code t → s = t.
Proof. intros Hs Ht E. rewrite <-(status_of_code s), E by done. by apply status_of_code. Qed.

Lemma byte_diff_zero (x y : byte) :
  Z.of_N (Byte.to_N x) - Z.of_N (Byte.to_N y) = 0 → x = y.
Proof.
  intros Hd. assert (Byte.to_N x = Byte.to_N y) as E by lia.
  pose proof (Byte.of_to_N x) as Hx. pose proof (Byte.of_to_N y) as Hy.
  rewrite E in Hx. congruence.
Qed.

Lemma bytes_compare_eq a b : bytes_compare a b = 0 ↔ a = b.
Proof.
  revert b; induction a as [|x a IH]; intros [|y b]; simpl; try done.
  case_match eqn:E; rewrite ?Z.eqb_eq, ?Z.eqb_neq in E.
  - apply byte_diff_zero in E as ->. rewrite IH. naive_solver.
  - split; [done|]. intros [= -> ->]. lia.
Qed.

Lemma bytes_compare_opp a b : bytes_compare b a = - bytes_compare a b.
Proof.
  revert b; induction a as [|x a IH]; intros [|y b]; simpl; try done.
  do 2 case_match; rewrite ?Z.eqb_eq, ?Z.eqb_neq in *; (done || lia).
Qed.

Lemma bytes_compare_trans a b c :
  bytes_compare a b < 0 → bytes_compare b c < 0 → bytes_compare a c < 0.
Proof.
  revert b c; induction a as [|x a IH]; intros [|y b] [|z c]; simpl; try done.
  repeat case_match; rewrite ?Z.eqb_eq, ?Z.eqb_neq in *; try lia.
  apply IH.
Qed.

#[export] Instance lexicographic_laws : UuidLaws lexicographic.
Proof.
  split; unfold uuid_compare, lexicographic; intros.
  - rewrite bytes_compare_eq. split; [apply vec_to_list_inj2|by intros ->].
  - rewrite (bytes_compare_opp (vec_to_list a)). lia.
  - eapply bytes_compare_trans; eauto.
Qed.

Section UuidOrder.
Context {U : UuidLib} {UL : UuidLaws U}.

#[export] Instance uuid_lt_strict : StrictOrder uuid_lt.
Proof.
  split.
  - intros a Ha. unfold uuid_lt in Ha.
    rewrite (proj2 (uuid_compare_eq a a) eq_refl) in Ha. lia.
  - intros a b c. apply uuid_compare_trans.
Qed.

Lemma uuid_compare_refl a : uuid_compare a a = 0.
Proof. by apply uuid_compare_eq. Qed.

Lemma uuid_compare_lt_gt a b : uuid_lt a b ↔ 0 < uuid_compare b a.
Proof. unfold uuid_lt. by rewrite uuid_compare_gt. Qed.

Lemma uuid_eqb_spec a b : (uuid_compare a b =? 0) = bool_decide (a = b).
Proof.
  destruct (Z.eqb_spec (uuid_compare a b) 0) as [E|E];
    rewrite uuid_compare_eq in E; symmetry; [by rewrite bool_decide_eq_true|].
  by rewrite bool_decide_eq_false.
Qed.

Lemma uuid_lt_neq a b : uuid_lt a b → a ≠ b.
Proof. intros Hlt ->. by apply (irreflexivity uuid_lt b). Qed.

Lemma uuid_total a b : a = b ∨ uuid_lt a b ∨ uuid_lt b a.
Proof.
  rewrite <-uuid_compare_eq. unfold uuid_lt.
  rewrite <-(uuid_compare_gt a b). lia.
Qed.

End UuidOrder.
