(* ===== verification/Event.v ===== *)
(** * Events: [swim/event.h], [swim/defs.h]

    The data of the messages nodes exchange, and the sizes of the structures
    in memory that the code computes with. *)

From Stdlib Require Import Init.Byte ZArith Lia.
From stdpp Require Import base tactics list vector.
From S2P Require Import Prelude Bytes Node.

Open Scope Z_scope.

(** ** Constants of [swim/defs.h] *)

Definition SWIM_PROTOCOL_VERSION : Z := 1.
Definition SWIM_MAX_PACKET_SIZE : Z := 2048.
Definition SWIM_MAXLEAVE : Z := 5.
Definition SWIM_MAX_GOSSIP_SIZE : Z := 10.
Definition SWIM_MAXPINGREQ : Z := 5.
Definition SWIM_HEARTBEAT_INTERVAL : Z := 1.

(** ** Event types *)

Inductive EventType : Type :=
| EVENT_TYPE_PING
| EVENT_TYPE_ACK
| EVENT_TYPE_PING_REQ
| EVENT_TYPE_JOIN
| EVENT_TYPE_LEAVE
| EVENT_TYPE_OTHER (code : Z).

Definition event_type_code (t : EventType) : Z :=
  match t with
  | EVENT_TYPE_PING => 0
  | EVENT_TYPE_ACK => 1
  | EVENT_TYPE_PING_REQ => 2
  | EVENT_TYPE_JOIN => 16
  | EVENT_TYPE_LEAVE => 17
  | EVENT_TYPE_OTHER c => c
  end.

Definition event_type_of (c : Z) : EventType :=
  match c with
  | 0 => EVENT_TYPE_PING
  | 1 => EVENT_TYPE_ACK
  | 2 => EVENT_TYPE_PING_REQ
  | 16 => EVENT_TYPE_JOIN
  | 17 => EVENT_TYPE_LEAVE
  | _ => EVENT_TYPE_OTHER c
  end.

#[export] Instance event_type_eq_decision : EqDecision EventType.
Proof. solve_decision. Defined.

(** ** Structures *)

Record EventHeader : Type := {
  eh_type : EventType;
  eh_uuid : uuid_t;
  eh_time : Z;
  eh_incarnation : Z
}.

(** The union of the event structures.  [AckEvent], [PingReqEvent],
    [JoinEvent] and [LeaveEvent] all consist of the header followed by a
    uuid, at the same offset; only [JoinEvent] continues, with the address.
    So the union is the memory of a [JoinEvent], and the uuid fields of the
    four structures are one field. [gossip] is the flexible array member: the
    cells that the allocation of the event provides. *)
Record Event : Type := {
  ev_hdr : EventHeader;
  ev_uuid : uuid_t;
  ev_join_addrlen : Z;
  ev_join_addr : sockaddr_storage;
  ev_gossip_count : Z;
  ev_gossip : list NodeInfo
}.

Definition ack_uuid (e : Event) : uuid_t := ev_uuid e.
Definition ping_req_uuid (e : Event) : uuid_t := ev_uuid e.
Definition join_uuid (e : Event) : uuid_t := ev_uuid e.
Definition leave_uuid (e : Event) : uuid_t := ev_uuid e.

#[export] Instance event_header_eq_decision : EqDecision EventHeader.
Proof. solve_decision. Defined.

#[export] Instance event_eq_decision : EqDecision Event.
Proof. solve_decision. Defined.

(** Assignments to the fields. *)
Definition set_ev_hdr (v : EventHeader) (e : Event) : Event :=
  {| ev_hdr := v; ev_uuid := ev_uuid e; ev_join_addrlen := ev_join_addrlen e;
     ev_join_addr := ev_join_addr e; ev_gossip_count := ev_gossip_count e;
     ev_gossip := ev_gossip e |}.

Definition set_ev_uuid (v : uuid_t) (e : Event) : Event :=
  {| ev_hdr := ev_hdr e; ev_uuid := v; ev_join_addrlen := ev_join_addrlen e;
     ev_join_addr := ev_join_addr e; ev_gossip_count := ev_gossip_count e;
     ev_gossip := ev_gossip e |}.

Definition set_ev_join_addr (a : sockaddr_storage) (len : Z) (e : Event) : Event :=
  {| ev_hdr := ev_hdr e; ev_uuid := ev_uuid e; ev_join_addrlen := len;
     ev_join_addr := a; ev_gossip_count := ev_gossip_count e;
     ev_gossip := ev_gossip e |}.

Definition set_ev_gossip (count : Z) (g : list NodeInfo) (e : Event) : Event :=
  {| ev_hdr := ev_hdr e; ev_uuid := ev_uuid e; ev_join_addrlen := ev_join_addrlen e;
     ev_join_addr := ev_join_addr e; ev_gossip_count := count; ev_gossip := g |}.

(** ** Structure sizes

    The LP64 layout rules: each member is placed at the next offset that is a
    multiple of its alignment, and the size of the structure is a multiple of
    the largest alignment.  A member is given by its size and alignment. *)

Definition align_up (a n : Z) : Z := (n + a - 1) / a * a.

Fixpoint struct_end (ms : list (Z * Z)) (off : Z) : Z :=
  match ms with
  | [] => off
  | (sz, al) :: ms' => struct_end ms' (align_up al off + sz)
  end.

Definition struct_align (ms : list (Z * Z)) : Z := foldr (λ m, Z.max m.2) 1 ms.

Definition struct_sizeof (ms : list (Z * Z)) : Z :=
  align_up (struct_align ms) (struct_end ms 0).

(** uuid, last_seen, incarnation, status, addr, addrlen *)
Definition sizeof_NodeInfo : Z :=
  struct_sizeof [(16, 1); (8, 8); (4, 4); (4, 4); (128, 8); (4, 4)].

(** type, uuid, time, incarnation *)
Definition sizeof_EventHeader : Z := struct_sizeof [(4, 4); (16, 1); (8, 8); (4, 4)].

(** hdr, join_uuid, join_addrlen, join_addr: the largest member of the union *)
Definition sizeof_JoinEvent : Z :=
  struct_sizeof [(sizeof_EventHeader, 8); (16, 1); (4, 4); (128, 8)].

(** the union, gossip_count, gossip[] *)
Definition sizeof_Event : Z :=
  struct_sizeof [(sizeof_JoinEvent, 8); (2, 2); (0, 8)].

Example sizeof_values :
  (sizeof_NodeInfo, sizeof_EventHeader, sizeof_JoinEvent, sizeof_Event)
  = (168, 40, 192, 200).
Proof. reflexivity. Qed.

(** ** Lemmas *)

Lemma event_type_code_of c : event_type_code (event_type_of c) = c.
Proof. unfold event_type_of. by repeat case_match. Qed.

Definition event_type_valid (t : EventType) : Prop :=
  match t with EVENT_TYPE_OTHER _ => False | _ => True end.

#[export] Instance event_type_valid_dec t : Decision (event_type_valid t).
Proof. destruct t; simpl; apply _. Defined.

Lemma event_type_of_code t : event_type_valid t → event_type_of (event_type_code t) = t.
Proof. by destruct t. Qed.

Lemma event_type_code_range t :
  event_type_valid t → is_unsigned 2 (event_type_code t).
Proof. unfold is_unsigned. destruct t; simpl; lia || done. Qed.
