(* ===== verification/Text.v ===== *)
(** * Text: C strings, the formatting functions, [swim/utils.h], [swim/utils.c]

    A text is the list of its characters; a buffer is the list of the bytes of
    its memory, in which a C string ends at the first null byte.  Reading a
    buffer without a null byte and writing beyond its end are faults, and so is
    a null pointer as the argument of a [%s] conversion, which C leaves
    undefined.  What the system decides (names of addresses, the calendar, the
    contents of local variables that have not been assigned) and the text that
    libuuid writes are parameters. *)

From Stdlib Require Import Init.Byte Strings.Byte Strings.String ZArith Lia.
From stdpp Require Import base tactics list vector pretty.
From S2P Require Import Prelude Bytes Node Event.

Open Scope Z_scope.

(** ** Strings in memory *)

Abbreviation text := (list byte).

(** A string literal. *)
Definition lit (s : String.string) : text := String.list_byte_of_string s.

Arguments lit s%_string_scope.

(** The string a pointer to the beginning of [buf] denotes. *)
Fixpoint cstring (buf : list byte) : outcome text :=
  match buf with
  | [] => Fault OutOfBounds
  | b :: buf => if decide (b = x00) then Ok [] else cons b <$> cstring buf
  end.

(** A store of the bytes [s] at offset [off]. *)
Definition write (buf : list byte) (off : nat) (s : list byte) : outcome (list byte) :=
  if (off + length s <=? length buf)%nat
  then Ok (take off buf ++ s ++ drop (off + length s) buf)
  else Fault OutOfBounds.

(** [snprintf] of a text to a buffer, with the size it is given, and
    [sprintf] to an offset in a buffer; both return the length of the text. *)
Definition snprintf (buf : list byte) (size : nat) (s : text) : outcome (list byte * Z) :=
  match size with
  | O => Ok (buf, Z.of_nat (length s))
  | S n => buf ← write buf 0 (take n s ++ [x00]); Ok (buf, Z.of_nat (length s))
  end.

Definition sprintf (buf : list byte) (off : nat) (s : text) : outcome (list byte * Z) :=
  buf ← write buf off (s ++ [x00]); Ok (buf, Z.of_nat (length s)).

(** [table[i]], for a table of pointers or a table of arrays. *)
Definition index {A} (table : list A) (i : Z) : outcome A :=
  if i <? 0 then Fault OutOfBounds
  else match table !! Z.to_nat i with Some a => Ok a | None => Fault OutOfBounds end.

(** The argument of [%s]; the conversions [%-ws], [%.*s] (a negative precision
    counts as none) and [%d]. *)
Definition arg (p : option (list byte)) : outcome text :=
  match p with Some buf => cstring buf | None => Fault NullDeref end.

Definition pad (width : nat) (s : text) : text := s ++ replicate (width - length s) x20.

Definition precision (p : Z) (s : text) : text :=
  if p <? 0 then s else take (Z.to_nat p) s.

Definition decimal (z : Z) : text := lit (pretty z).

(** [strncpy(dst, src, n)] pads the destination with null bytes. *)
Definition strncpy (dst : list byte) (src : text) (n : nat) : outcome (list byte) :=
  write dst 0 (take n src ++ replicate (n - length src) x00).

(** ** The environment *)

Inductive NameFlags : Type := NI_NUMERICSERV | NI_NAMEREQD.

Definition NI_MAXHOST : nat := 1025.
Definition NI_MAXSERV : nat := 32.

(** [getnameinfo] gives host and service, or fails; [strftime_text] is the
    text [strftime] has to write, and [strftime_rest] what is left in a buffer
    that is too small for it; [stack_bytes] is the memory of the [k]-th local
    variable before its first assignment. *)
Class TextEnv := {
  tm : Type;
  getnameinfo : sockaddr_storage → Z → NameFlags → option (text * text);
  uuid_unparse : uuid_t → text;
  localtime_r : Z → option tm;
  strftime_text : text → tm → text;
  strftime_rest : list byte → list byte;
  stack_bytes : nat → list byte
}.

Definition nul_free (s : text) : Prop := x00 ∉ s.

#[export] Instance nul_free_dec s : Decision (nul_free s).
Proof. unfold nul_free. apply _. Defined.

(** Documented behaviour: the results of [getnameinfo] are strings that fit
    the buffers of [NI_MAXHOST] and [NI_MAXSERV] bytes, [uuid_unparse] writes
    36 characters, and times are formatted without null characters. *)
Class TextLaws (T : TextEnv) : Prop := {
  getnameinfo_fits a len flags host service :
    getnameinfo a len flags = Some (host, service) →
    (length host < NI_MAXHOST)%nat ∧ (length service < NI_MAXSERV)%nat ∧
    nul_free host ∧ nul_free service;
  uuid_unparse_length u : length (uuid_unparse u) = 36%nat;
  uuid_unparse_nul_free u : nul_free (uuid_unparse u);
  strftime_nul_free fmt t : nul_free fmt → nul_free (strftime_text fmt t);
  strftime_rest_length buf : length (strftime_rest buf) = length buf
}.

Definition SWIM_UUID_STR_LEN : nat := 37.

Section Operations.
Context `{TextEnv}.

(** The memory of a local array of [n] characters. *)
Definition uninit (k n : nat) : list byte := take n (stack_bytes k ++ replicate n x00).

(** [strftime(buf, sizeof(buf), fmt, t)]: 0 if the text does not fit. *)
Definition strftime (buf : list byte) (fmt : text) (t : tm) : list byte * Z :=
  let s := strftime_text fmt t in
  if (length s <? length buf)%nat
  then (s ++ [x00] ++ drop (S (length s)) buf, Z.of_nat (length s))
  else (strftime_rest buf, 0).

(** ** [swim/utils.c]

    The result is the buffer that is returned, or [None] for a null pointer,
    in which case the buffer has not been changed. *)

Definition swim_addr_str_r (addr : sockaddr_storage) (addrlen : Z) (buf : list byte)
  (buflen : nat) : outcome (option (list byte)) :=
  if 0 <? addrlen then
    match getnameinfo addr addrlen NI_NUMERICSERV with
    | None => Ok None
    | Some (host, service) =>
        '(buf, _) ← snprintf buf buflen (host ++ lit ":" ++ service);
        Ok (Some buf)
    end
  else Ok (Some buf).

Definition swim_uuid_str_r (uuid : uuid_t) (buf : list byte) (buflen : nat)
  : outcome (option (list byte)) :=
  if (buflen <? SWIM_UUID_STR_LEN)%nat then Ok None
  else
    buf ← write buf 0 (uuid_unparse uuid ++ [x00]);
    Ok (Some buf).

(** The local buffers the callers use: [ubuf], and [abuf] or [wbuf], the
    [k]-th variable of the function. *)
Definition uuid_arg (k : nat) (uuid : uuid_t) : outcome text :=
  p ← swim_uuid_str_r uuid (uninit k SWIM_UUID_STR_LEN) SWIM_UUID_STR_LEN;
  arg p.

Definition ABUF_SIZE : nat := NI_MAXHOST + NI_MAXSERV + 2.

Definition addr_buf (k : nat) (addr : sockaddr_storage) (addrlen : Z)
  : outcome (option (list byte)) :=
  swim_addr_str_r addr addrlen (uninit k ABUF_SIZE) ABUF_SIZE.

Definition addr_arg (k : nat) (addr : sockaddr_storage) (addrlen : Z) : outcome text :=
  p ← addr_buf k addr addrlen;
  arg p.

End Operations.

(** ** Lemmas *)

Lemma cstring_app (s rest : list byte) : nul_free s → cstring (s ++ x00 :: rest) = Ok s.
Proof.
  unfold nul_free. induction s as [|b s IH]; intros Hs; simpl; [done|].
  apply not_elem_of_cons in Hs as [Hb Hs]. rewrite decide_False by congruence.
  by rewrite IH.
Qed.

Lemma cstring_nul_free (buf : list byte) s : cstring buf = Ok s → nul_free s.
Proof.
  revert s. unfold nul_free. induction buf as [|b buf IH]; intros s; simpl; [done|].
  case_decide; [intros [= <-]; apply not_elem_of_nil|].
  destruct (cstring buf) as [s'|]; simpl; [|done]. intros [= <-].
  apply not_elem_of_cons. split; [congruence|by apply IH].
Qed.

Lemma cstring_length (buf : list byte) s : cstring buf = Ok s → (length s < length buf)%nat.
Proof.
  revert s. induction buf as [|b buf IH]; intros s; simpl; [done|].
  case_decide; [intros [= <-]; simpl; lia|].
  destruct (cstring buf) as [s'|]; simpl; [|done]. intros [= <-]. simpl.
  specialize (IH s' eq_refl). lia.
Qed.

(** A buffer denotes a string exactly if it has a null byte. *)
Lemma cstring_ok (buf : list byte) : x00 ∈ buf ↔ ∃ s, cstring buf = Ok s.
Proof.
  induction buf as [|b buf IH]; simpl.
  { split; [by intros ?%elem_of_nil|by intros [? ?]]. }
  rewrite elem_of_cons. case_decide as Hb; [split; [by eexists|by left]|]. rewrite IH. split.
  - intros [E|[s ->]]; [congruence|by eexists].
  - intros [s Hs]. right. destruct (cstring buf); [by eexists|done].
Qed.

Lemma nul_free_app s t : nul_free (s ++ t) ↔ nul_free s ∧ nul_free t.
Proof. unfold nul_free. rewrite elem_of_app. tauto. Qed.

Lemma cstring_unterminated (buf : list byte) : x00 ∉ buf → cstring buf = Fault OutOfBounds.
Proof.
  induction buf as [|b buf IH]; simpl; [done|]. intros [Hb Hbuf]%not_elem_of_cons.
  rewrite decide_False by congruence. by rewrite IH.
Qed.

Lemma nul_free_take n s : nul_free s → nul_free (take n s).
Proof. rewrite <-(take_drop n s) at 1. by intros [? _]%nul_free_app. Qed.

Lemma write_length buf off s buf' : write buf off s = Ok buf' → length buf' = length buf.
Proof.
  unfold write. case_match eqn:E; [|done]. apply Nat.leb_le in E. intros [= <-].
  autorewrite with swim. lia.
Qed.

Lemma write_ok buf off s :
  (off + length s ≤ length buf)%nat →
  write buf off s = Ok (take off buf ++ s ++ drop (off + length s) buf).
Proof. intros E. unfold write. by rewrite (proj2 (Nat.leb_le _ _)). Qed.

Lemma write_fault buf off s :
  (length buf < off + length s)%nat → write buf off s = Fault OutOfBounds.
Proof. intros E. unfold write. by rewrite (proj2 (Nat.leb_gt _ _)). Qed.

(** [snprintf] to a buffer of the size it is told: the beginning of the text,
    as a string. *)
Lemma snprintf_ok buf size s :
  (0 < size)%nat → (size ≤ length buf)%nat → nul_free s →
  ∃ buf', snprintf buf size s = Ok (buf', Z.of_nat (length s)) ∧ length buf' = length buf ∧
    cstring buf' = Ok (take (size - 1) s).
Proof.
  intros Hs Hl Hf. destruct size as [|n]; [lia|]. unfold snprintf.
  rewrite write_ok by (autorewrite with swim; simpl; lia). bind_step. eexists. split; [done|].
  split; [autorewrite with swim; simpl; autorewrite with swim; lia|].
  rewrite <-app_assoc, Nat.sub_succ, Nat.sub_0_r. by apply cstring_app, nul_free_take.
Qed.

Lemma strncpy_ok dst src n :
  (n ≤ length dst)%nat →
  strncpy dst src n = Ok (take n src ++ replicate (n - length src) x00 ++ drop n dst).
Proof.
  intros Hn. unfold strncpy. rewrite write_ok by (autorewrite with swim; lia).
  rewrite take_0, app_nil_l, <-app_assoc. do 3 f_equal. autorewrite with swim. f_equal. lia.
Qed.

Lemma length_pad w s : length (pad w s) = Nat.max w (length s).
Proof. unfold pad. autorewrite with swim. lia. Qed.

Section Facts.
Context {T : TextEnv} {TL : TextLaws T}.

Lemma length_uninit k n : length (uninit k n) = n.
Proof. unfold uninit. autorewrite with swim. lia. Qed.

Lemma uuid_str_run uuid buf buflen :
  (SWIM_UUID_STR_LEN ≤ buflen)%nat → (buflen ≤ length buf)%nat →
  ∃ buf', swim_uuid_str_r uuid buf buflen = Ok (Some buf') ∧ length buf' = length buf ∧
    cstring buf' = Ok (uuid_unparse uuid).
Proof.
  intros Hb Hl. unfold swim_uuid_str_r. rewrite (proj2 (Nat.ltb_ge _ _)) by done.
  unfold SWIM_UUID_STR_LEN in *.
  rewrite write_ok by (autorewrite with swim; rewrite uuid_unparse_length; simpl; lia).
  bind_step. eexists. split; [done|]. split.
  - autorewrite with swim. rewrite uuid_unparse_length. simpl. lia.
  - rewrite take_0, app_nil_l, <-app_assoc. apply cstring_app, uuid_unparse_nul_free.
Qed.

Lemma uuid_arg_run k uuid : uuid_arg k uuid = Ok (uuid_unparse uuid).
Proof.
  unfold uuid_arg.
  destruct (uuid_str_run uuid (uninit k SWIM_UUID_STR_LEN) SWIM_UUID_STR_LEN) as (b & -> & _ & Hb);
    [done|by rewrite length_uninit|]. done.
Qed.

(** The text of an address, if it has one. *)
Definition addr_text (addr : sockaddr_storage) (addrlen : Z) : option text :=
  '(host, service) ← getnameinfo addr addrlen NI_NUMERICSERV;
  Some (host ++ lit ":" ++ service).

Lemma addr_text_fits addr addrlen s :
  addr_text addr addrlen = Some s → (length s < ABUF_SIZE - 1)%nat ∧ nul_free s.
Proof.
  unfold addr_text. destruct (getnameinfo _ _ _) as [[host service]|] eqn:E; simpl; [|done].
  intros [= <-]. apply getnameinfo_fits in E as (? & ? & ? & ?). split.
  - autorewrite with swim. simpl. autorewrite with swim. unfold ABUF_SIZE, NI_MAXHOST, NI_MAXSERV in *. lia.
  - apply nul_free_app. split; [done|]. apply (nul_free_app (lit ":")). split; [|done].
    by apply (bool_decide_unpack _).
Qed.

Lemma addr_str_run addr addrlen buf buflen s :
  0 < addrlen → addr_text addr addrlen = Some s → (0 < buflen)%nat → (buflen ≤ length buf)%nat →
  ∃ buf', swim_addr_str_r addr addrlen buf buflen = Ok (Some buf') ∧ length buf' = length buf ∧
    cstring buf' = Ok (take (buflen - 1) s).
Proof.
  intros Hlen Hs H0 Hl. pose proof (addr_text_fits _ _ _ Hs) as [_ Hf].
  unfold swim_addr_str_r. rewrite (proj2 (Z.ltb_lt _ _)) by done. unfold addr_text in Hs.
  destruct (getnameinfo _ _ _) as [[host service]|]; [|done].
  assert (s = host ++ lit ":" ++ service) as -> by (by injection Hs).
  destruct (snprintf_ok buf buflen _ H0 Hl Hf) as (b & -> & Hb & Hc). bind_step. by exists b.
Qed.

Lemma addr_str_fails addr addrlen buf buflen :
  0 < addrlen → addr_text addr addrlen = None →
  swim_addr_str_r addr addrlen buf buflen = Ok None.
Proof.
  intros Hlen Hs. unfold swim_addr_str_r. rewrite (proj2 (Z.ltb_lt _ _)) by done.
  unfold addr_text in Hs. by destruct (getnameinfo _ _ _) as [[host service]|].
Qed.

End Facts.

(** ** An instance

    An environment that satisfies the laws: uuids in hexadecimal with dashes,
    internet addresses (16 bytes) by the digits of host and port, and times
    up to the last year a calendar with 32-bit years can represent. *)

Definition hex_digit (n : N) : byte := default x30 (lit "0123456789abcdef" !! N.to_nat n).

Fixpoint hex (l : list byte) : text :=
  match l with
  | [] => []
  | b :: l => hex_digit (Byte.to_N b / 16) :: hex_digit (Byte.to_N b mod 16) :: hex l
  end.

Definition hex_uuid (u : uuid_t) : text :=
  let l := vec_to_list u in
  hex (take 4 l) ++ lit "-" ++ hex (take 2 (drop 4 l)) ++ lit "-" ++ hex (take 2 (drop 6 l))
    ++ lit "-" ++ hex (take 2 (drop 8 l)) ++ lit "-" ++ hex (drop 10 l).

Definition plain_text : TextEnv := {|
  tm := Z;
  getnameinfo := λ a len _,
    if len =? 16 then Some (hex (take 4 (drop 4 (vec_to_list a))),
                            hex (take 2 (drop 2 (vec_to_list a)))) else None;
  uuid_unparse := hex_uuid;
  localtime_r := λ t, if Z.abs t <? 67767976233532799 then Some t else None;
  strftime_text := λ _ _, lit "2026-01-31 12:34:56";
  strftime_rest := id;
  stack_bytes := λ _, []
|}.

Lemma length_hex l : length (hex l) = (2 * length l)%nat.
Proof. induction l as [|b l IH]; simpl; [done|]. rewrite IH. lia. Qed.

Lemma hex_digit_nonzero n : x00 ≠ hex_digit n.
Proof.
  unfold hex_digit. destruct (lit _ !! _) as [b|] eqn:E; [|done]. simpl.
  apply list_elem_of_lookup_2 in E. intros <-. revert E.
  by apply (bool_decide_unpack (¬ x00 ∈ lit "0123456789abcdef")).
Qed.

Lemma nul_free_hex l : nul_free (hex l).
Proof.
  unfold nul_free. induction l as [|b l IH]; simpl; [by apply not_elem_of_nil|].
  rewrite !not_elem_of_cons. auto using hex_digit_nonzero.
Qed.

#[export] Instance plain_text_laws : TextLaws plain_text.
Proof.
  split.
  - intros a len flags host service. simpl. case_match; [|done]. intros [= <- <-].
    rewrite !length_hex. autorewrite with swim. unfold NI_MAXHOST, NI_MAXSERV.
    split; [lia|]. split; [lia|]. auto using nul_free_hex.
  - intros u. simpl. unfold hex_uuid. rewrite !length_app, !length_hex. autorewrite with swim.
    done.
  - intros u. simpl. unfold hex_uuid. rewrite !nul_free_app.
    split_and!; auto using nul_free_hex; by apply (bool_decide_unpack _).
  - intros fmt t _. by apply (bool_decide_unpack _).
  - done.
Qed.

Example hex_uuid_zeros : hex_uuid (zeros 16) = lit "00000000-0000-0000-0000-000000000000".
Proof. reflexivity. Qed.
