(* ===== verification/Encoding.v ===== *)
(** * The wire format: [swim/encoding.h], [swim/encoding.c]

    Encoders return the bytes they write at [buf]; [buflen] is the room left
    there.  Decoders take the bytes between [ptr] and [end] and return the
    decoded value with the bytes after it, so that [ptr += decode(ptr, ...)]
    is one step of the monad.  An [assert] that fails and a write or read
    outside an object are faults. *)

From Stdlib Require Import Init.Byte ZArith Lia.
From stdpp Require Import base tactics list vector.
From S2P Require Import Prelude Bytes Node Event.

Open Scope Z_scope.

(** ** Primitive types *)

Section Primitives.
Context `{Host}.

Definition SWIM_MAKE_ENCODER (size : nat) (buflen : nat) (val : Z)
  : outcome (list byte) :=
  assert (size <=? buflen)%nat;;
  Ok (store size (hton size val)).

Definition SWIM_MAKE_DECODER (size : nat) (conv : nat → Z → Z) (buf : list byte)
  : outcome (Z * list byte) :=
  assert (size <=? length buf)%nat;;
  Ok (conv size (ntoh size (load (take size buf))), drop size buf).

Definition swim_encode_int16 := SWIM_MAKE_ENCODER 2.
Definition swim_encode_int32 := SWIM_MAKE_ENCODER 4.
Definition swim_encode_uint16 := SWIM_MAKE_ENCODER 2.
Definition swim_encode_uint32 := SWIM_MAKE_ENCODER 4.
Definition swim_encode_uint64 := SWIM_MAKE_ENCODER 8.
Definition swim_encode_int64 := SWIM_MAKE_ENCODER 8.

Definition swim_decode_int16 := SWIM_MAKE_DECODER 2 to_signed.
Definition swim_decode_int32 := SWIM_MAKE_DECODER 4 to_signed.
Definition swim_decode_uint16 := SWIM_MAKE_DECODER 2 to_unsigned.
Definition swim_decode_uint32 := SWIM_MAKE_DECODER 4 to_unsigned.
Definition swim_decode_uint64 := SWIM_MAKE_DECODER 8 to_unsigned.
Definition swim_decode_int64 := SWIM_MAKE_DECODER 8 to_signed.

(** [bytes] is a [size_t]. *)
Definition swim_encode_fixlen (buflen : nat) (data : list byte) (bytes : Z)
  : outcome (list byte) :=
  assert (bytes <=? Z.of_nat buflen);;
  if bytes <=? Z.of_nat (length data) then Ok (take (Z.to_nat bytes) data)
  else Fault OutOfBounds.

Definition swim_decode_fixlen {m : nat} (buf : list byte) (data : array m) (bytes : Z)
  : outcome (array m * list byte) :=
  assert (bytes <=? Z.of_nat (length buf));;
  data ← memcpy data buf bytes;
  Ok (data, drop (Z.to_nat bytes) buf).

(** [ptr += encode(ptr, end - ptr, ...)], where [ptr] stands for the bytes
    written since [buf]. *)
Definition emit (buflen : nat) (ptr : list byte)
  (encode : nat → outcome (list byte)) : outcome (list byte) :=
  b ← encode (buflen - length ptr)%nat;
  Ok (ptr ++ b).

(** [length] is an [int16_t]. *)
Definition swim_encode_varlen (buflen : nat) (data : list byte) (length : Z)
  : outcome (list byte) :=
  assert (to_unsigned 8 length <=? Z.of_nat buflen);;
  assert (length <? 32767);;
  ptr ← emit buflen [] (λ n, swim_encode_int16 n length);
  emit buflen ptr (λ n, swim_encode_fixlen n data (to_unsigned 8 length)).

Definition swim_decode_varlen {m : nat} (buf : list byte) (data : array m)
  : outcome (array m * Z * list byte) :=
  '(len, ptr) ← swim_decode_int16 buf;
  assert ((0 <=? len) && (to_unsigned 8 len <=? Z.of_nat (length buf)));;
  '(data, ptr) ← swim_decode_fixlen ptr data (to_unsigned 8 len);
  Ok (data, len, ptr).

Definition swim_encode_uuid (buflen : nat) (uuid : uuid_t) : outcome (list byte) :=
  swim_encode_fixlen buflen (vec_to_list uuid) 16.

Definition swim_decode_uuid (buf : list byte) (uuid : uuid_t)
  : outcome (uuid_t * list byte) :=
  swim_decode_fixlen buf uuid 16.

(** The [socklen_t] is converted to the [int16_t] parameter of
    [swim_encode_varlen], and back. *)
Definition swim_encode_sockaddr (buflen : nat) (addr : sockaddr_storage) (addrlen : Z)
  : outcome (list byte) :=
  swim_encode_varlen buflen (vec_to_list addr) (to_signed 2 addrlen).

Definition swim_decode_sockaddr (buf : list byte) (addr : sockaddr_storage)
  : outcome (sockaddr_storage * Z * list byte) :=
  '(addr, bytes, ptr) ← swim_decode_varlen buf addr;
  Ok (addr, to_unsigned 4 bytes, ptr).

End Primitives.

(** ** Event header *)

Section Messages.
Context `{Host}.

(** A store of [b] at offset [off] of what was written so far. *)
Definition patch (off : nat) (b : list byte) (l : list byte) : list byte :=
  take off l ++ b ++ drop (off + length b) l.

(** [plen] points at the 32-bit size field but has type [uint64_t*], so that
    the final [*plen = ptr - buf] stores eight bytes there. *)
Definition swim_encode_event_header (buflen : nat) (header : EventHeader)
  : outcome (list byte) :=
  ptr ← emit buflen [] (λ n, swim_encode_uint16 n SWIM_PROTOCOL_VERSION);
  ptr ← emit buflen ptr (λ n, swim_encode_uint16 n (event_type_code (eh_type header)));
  let plen := length ptr in
  ptr ← emit buflen ptr (λ n, swim_encode_uint32 n 0);
  ptr ← emit buflen ptr (λ n, swim_encode_int64 n (eh_time header));
  ptr ← emit buflen ptr (λ n, swim_encode_uuid n (eh_uuid header));
  ptr ← emit buflen ptr (λ n, swim_encode_uint32 n (eh_incarnation header));
  Ok (patch plen (store 8 (Z.of_nat (length ptr))) ptr).

Definition swim_decode_event_header (buf : list byte) (header : EventHeader)
  : outcome (EventHeader * list byte) :=
  '(protocol_version, ptr) ← swim_decode_uint16 buf;
  '(type, ptr) ← swim_decode_uint16 ptr;
  '(event_size, ptr) ← swim_decode_uint32 ptr;
  '(time, ptr) ← swim_decode_int64 ptr;
  '(uuid, ptr) ← swim_decode_uuid ptr (eh_uuid header);
  '(incarnation, ptr) ← swim_decode_uint32 ptr;
  Ok ({| eh_type := event_type_of type; eh_uuid := uuid; eh_time := time;
         eh_incarnation := incarnation |}, ptr).

(** ** Event bodies *)

Definition swim_encode_event_ack (buflen : nat) (event : Event) : outcome (list byte) :=
  emit buflen [] (λ n, swim_encode_uuid n (ack_uuid event)).

Definition swim_decode_event_ack (buf : list byte) (event : Event)
  : outcome (Event * list byte) :=
  '(u, ptr) ← swim_decode_uuid buf (ack_uuid event);
  Ok (set_ev_uuid u event, ptr).

Definition swim_encode_event_join (buflen : nat) (event : Event) : outcome (list byte) :=
  ptr ← emit buflen [] (λ n, swim_encode_uuid n (join_uuid event));
  emit buflen ptr (λ n, swim_encode_sockaddr n (ev_join_addr event) (ev_join_addrlen event)).

Definition swim_decode_event_join (buf : list byte) (event : Event)
  : outcome (Event * list byte) :=
  '(u, ptr) ← swim_decode_uuid buf (join_uuid event);
  '(addr, addrlen, ptr) ← swim_decode_sockaddr ptr (ev_join_addr event);
  Ok (set_ev_join_addr addr addrlen (set_ev_uuid u event), ptr).

Definition swim_encode_event_leave (buflen : nat) (event : Event) : outcome (list byte) :=
  emit buflen [] (λ n, swim_encode_uuid n (leave_uuid event)).

Definition swim_decode_event_leave (buf : list byte) (event : Event)
  : outcome (Event * list byte) :=
  '(u, ptr) ← swim_decode_uuid buf (leave_uuid event);
  Ok (set_ev_uuid u event, ptr).

Definition swim_encode_event_ping_req (buflen : nat) (event : Event) : outcome (list byte) :=
  emit buflen [] (λ n, swim_encode_uuid n (ping_req_uuid event)).

Definition swim_decode_event_ping_req (buf : list byte) (event : Event)
  : outcome (Event * list byte) :=
  '(u, ptr) ← swim_decode_uuid buf (ping_req_uuid event);
  Ok (set_ev_uuid u event, ptr).

(** ** Gossip *)

Definition swim_encode_info (buflen : nat) (info : NodeInfo) : outcome (list byte) :=
  ptr ← emit buflen [] (λ n, swim_encode_fixlen n (vec_to_list (ni_uuid info)) 16);
  ptr ← emit buflen ptr (λ n, swim_encode_int64 n (ni_last_seen info));
  ptr ← emit buflen ptr (λ n, swim_encode_uint16 n (status_code (ni_status info)));
  ptr ← emit buflen ptr (λ n, swim_encode_uint32 n (ni_incarnation info));
  emit buflen ptr (λ n, swim_encode_sockaddr n (ni_addr info) (ni_addrlen info)).

Definition swim_decode_info (buf : list byte) (info : NodeInfo)
  : outcome (NodeInfo * list byte) :=
  '(uuid, ptr) ← swim_decode_fixlen buf (ni_uuid info) 16;
  '(last_seen, ptr) ← swim_decode_int64 ptr;
  '(status, ptr) ← swim_decode_uint16 ptr;
  '(incarnation, ptr) ← swim_decode_uint32 ptr;
  '(addr, addrlen, ptr) ← swim_decode_sockaddr ptr (ni_addr info);
  Ok ({| ni_uuid := uuid; ni_last_seen := last_seen; ni_incarnation := incarnation;
         ni_status := status_of status; ni_addr := addr; ni_addrlen := addrlen |}, ptr).

(** [for (i = 0; i < count; ++i) ptr += swim_encode_info(..., &gossip[i])] *)
Fixpoint encode_infos (buflen : nat) (ptr : list byte) (gossip : list NodeInfo)
  (count : nat) {struct count} : outcome (list byte) :=
  match count, gossip with
  | O, _ => Ok ptr
  | S _, [] => Fault OutOfBounds
  | S count', info :: gossip' =>
      ptr ← emit buflen ptr (λ n, swim_encode_info n info);
      encode_infos buflen ptr gossip' count'
  end.

Definition swim_encode_gossip (buflen : nat) (gossip : list NodeInfo) (gossip_count : Z)
  : outcome (list byte) :=
  ptr ← emit buflen [] (λ n, swim_encode_uint16 n gossip_count);
  encode_infos buflen ptr gossip (Z.to_nat gossip_count).

(** [for (i = 0; i < *gossip_count; ++i) ptr += swim_decode_info(..., &gossip[i])] *)
Fixpoint decode_infos (ptr : list byte) (gossip : list NodeInfo) (count : nat)
  {struct count} : outcome (list NodeInfo * list byte) :=
  match count, gossip with
  | O, _ => Ok (gossip, ptr)
  | S _, [] => Fault OutOfBounds
  | S count', info :: gossip' =>
      '(info, ptr) ← swim_decode_info ptr info;
      '(gossip', ptr) ← decode_infos ptr gossip' count';
      Ok (info :: gossip', ptr)
  end.

(** The result is [None] where the function returns -1; [*gossip_count] has
    been assigned by then. *)
Definition swim_decode_gossip (buf : list byte) (gossip : list NodeInfo)
  (gossip_capacity : Z) : outcome (Z * list NodeInfo * option (list byte)) :=
  '(gossip_count, ptr) ← swim_decode_uint16 buf;
  if gossip_capacity <? gossip_count then Ok (gossip_count, gossip, None)
  else
    '(gossip, ptr) ← decode_infos ptr gossip (Z.to_nat gossip_count);
    Ok (gossip_count, gossip, Some ptr).

(** ** Events *)

(** The body that belongs to the type of the event, if there is such a type. *)
Definition encode_body (buflen : nat) (event : Event) : option (outcome (list byte)) :=
  match eh_type (ev_hdr event) with
  | EVENT_TYPE_PING => Some (Ok [])
  | EVENT_TYPE_ACK => Some (swim_encode_event_ack buflen event)
  | EVENT_TYPE_JOIN => Some (swim_encode_event_join buflen event)
  | EVENT_TYPE_LEAVE => Some (swim_encode_event_leave buflen event)
  | EVENT_TYPE_PING_REQ => Some (swim_encode_event_ping_req buflen event)
  | EVENT_TYPE_OTHER _ => None
  end.

(** [None] is the return value -1. *)
Definition swim_encode_event (buflen : nat) (event : Event)
  : outcome (option (list byte)) :=
  ptr ← emit buflen [] (λ n, swim_encode_event_header n (ev_hdr event));
  match encode_body (buflen - length ptr) event with
  | None => Ok None
  | Some body =>
      ptr ← emit buflen ptr (λ _, body);
      ptr ← emit buflen ptr
        (λ n, swim_encode_gossip n (ev_gossip event) (ev_gossip_count event));
      Ok (Some ptr)
  end.

Definition decode_body (ptr : list byte) (event : Event)
  : option (outcome (Event * list byte)) :=
  match eh_type (ev_hdr event) with
  | EVENT_TYPE_PING => Some (Ok (event, ptr))
  | EVENT_TYPE_ACK => Some (swim_decode_event_ack ptr event)
  | EVENT_TYPE_JOIN => Some (swim_decode_event_join ptr event)
  | EVENT_TYPE_LEAVE => Some (swim_decode_event_leave ptr event)
  | EVENT_TYPE_PING_REQ => Some (swim_decode_event_ping_req ptr event)
  | EVENT_TYPE_OTHER _ => None
  end.

(** The number of [NodeInfo]s for which there is room, computed in [size_t]
    from the bytes that remain and assigned to a [uint16_t]. *)
Definition gossip_capacity (remaining : nat) : Z :=
  to_unsigned 2 (to_unsigned 8 (Z.of_nat remaining - 2) / sizeof_NodeInfo).

(** Decode into the memory of [event]; the second component is the value
    returned, the number of bytes decoded or -1. *)
Definition swim_decode_event (buf : list byte) (event : Event) : outcome (Event * Z) :=
  '(hdr, ptr) ← swim_decode_event_header buf (ev_hdr event);
  let event := set_ev_hdr hdr event in
  match decode_body ptr event with
  | None => Ok (event, -1)
  | Some body =>
      '(event, ptr) ← body;
      '(count, gossip, rest) ←
        swim_decode_gossip ptr (ev_gossip event) (gossip_capacity (length ptr));
      let event := set_ev_gossip count gossip event in
      match rest with
      | None => Ok (event, -1)
      | Some ptr => Ok (event, Z.of_nat (length buf) - Z.of_nat (length ptr))
      end
  end.

End Messages.
