(* ===== verification/EncodingFacts.v ===== *)
(** * What the wire format guarantees

    A closed form of the bytes each encoder writes, and that the decoders
    invert them.  The closed forms ([info_bytes], [header_bytes],
    [event_bytes]) are the specification of the format: every integer in
    network byte order, addresses prefixed by their length. *)

From Stdlib Require Import Init.Byte ZArith Lia.
From stdpp Require Import base tactics list vector.
From S2P Require Import Prelude Bytes Node Event Encoding.

Open Scope Z_scope.

(** ** The specification of the format *)

Definition sockaddr_bytes (addr : sockaddr_storage) (addrlen : Z) : list byte :=
  be_split 2 addrlen ++ take (Z.to_nat addrlen) (vec_to_list addr).

Definition info_bytes (i : NodeInfo) : list byte :=
  vec_to_list (ni_uuid i) ++ be_split 8 (ni_last_seen i) ++
  be_split 2 (status_code (ni_status i)) ++ be_split 4 (ni_incarnation i) ++
  sockaddr_bytes (ni_addr i) (ni_addrlen i).

Definition infos_bytes (g : list NodeInfo) : list byte := g ≫= info_bytes.

Definition body_bytes (e : Event) : list byte :=
  match eh_type (ev_hdr e) with
  | EVENT_TYPE_PING | EVENT_TYPE_OTHER _ => []
  | EVENT_TYPE_ACK | EVENT_TYPE_PING_REQ | EVENT_TYPE_LEAVE => vec_to_list (ev_uuid e)
  | EVENT_TYPE_JOIN =>
      vec_to_list (ev_uuid e) ++ sockaddr_bytes (ev_join_addr e) (ev_join_addrlen e)
  end.

(** Values for which the format is faithful. *)
Definition wf_sockaddr (addrlen : Z) : Prop := 0 ≤ addrlen ≤ 128.

Definition wf_status (s : Status) : Prop :=
  is_unsigned 2 (status_code s) ∧ status_of (status_code s) = s.

Record wf_info (i : NodeInfo) : Prop := {
  wf_info_last_seen : is_signed 8 (ni_last_seen i);
  wf_info_incarnation : is_unsigned 4 (ni_incarnation i);
  wf_info_status : wf_status (ni_status i);
  wf_info_addrlen : wf_sockaddr (ni_addrlen i)
}.

Record wf_header (h : EventHeader) : Prop := {
  wf_header_type : event_type_valid (eh_type h);
  wf_header_incarnation : is_unsigned 4 (eh_incarnation h)
}.

(** The entries of the gossip array that are in use. *)
Definition ev_entries (e : Event) : list NodeInfo :=
  take (Z.to_nat (ev_gossip_count e)) (ev_gossip e).

Record wf_event (e : Event) : Prop := {
  wf_event_header : wf_header (ev_hdr e);
  wf_event_join : eh_type (ev_hdr e) = EVENT_TYPE_JOIN → wf_sockaddr (ev_join_addrlen e);
  wf_event_count : 0 ≤ ev_gossip_count e ≤ Z.of_nat (length (ev_gossip e));
  wf_event_gossip : Forall wf_info (ev_entries e)
}.

(** What a decoder leaves in memory: only [addrlen] bytes of an address are
    written, the bytes after them keep their old value. *)
Definition received_addr (old src : sockaddr_storage) (addrlen : Z) : sockaddr_storage :=
  array_of 128 (take (Z.to_nat addrlen) (vec_to_list src) ++
                drop (Z.to_nat addrlen) (vec_to_list old)).

Definition received_info (old src : NodeInfo) : NodeInfo :=
  {| ni_uuid := ni_uuid src; ni_last_seen := ni_last_seen src;
     ni_incarnation := ni_incarnation src; ni_status := ni_status src;
     ni_addr := received_addr (ni_addr old) (ni_addr src) (ni_addrlen src);
     ni_addrlen := ni_addrlen src |}.

Fixpoint received_infos (old src : list NodeInfo) : list NodeInfo :=
  match old, src with
  | o :: old', s :: src' => received_info o s :: received_infos old' src'
  | _, _ => old
  end.

Section Format.
Context `{Host}.

(** What becomes of a time stamp: the eight-byte store of the size runs over
    its upper half. *)
Definition wire_time (t : Z) : Z :=
  match host_endian with
  | LittleEndian => t mod 2 ^ 32
  | BigEndian => 36 * 2 ^ 32 + t mod 2 ^ 32
  end.

(** The 36 bytes of a header: version and type, the eight bytes of the size
    in host order, the lower half of the time, uuid and incarnation. *)
Definition header_bytes (h : EventHeader) : list byte :=
  be_split 2 SWIM_PROTOCOL_VERSION ++ be_split 2 (event_type_code (eh_type h)) ++
  store 8 36 ++ be_split 4 (eh_time h) ++
  vec_to_list (eh_uuid h) ++ be_split 4 (eh_incarnation h).

Definition event_bytes (e : Event) : list byte :=
  header_bytes (ev_hdr e) ++ body_bytes e ++
  be_split 2 (ev_gossip_count e) ++ infos_bytes (ev_entries e).

Definition received_header (src : EventHeader) : EventHeader :=
  {| eh_type := eh_type src; eh_uuid := eh_uuid src;
     eh_time := wire_time (eh_time src); eh_incarnation := eh_incarnation src |}.

Definition received_event (old src : Event) : Event :=
  {| ev_hdr := received_header (ev_hdr src);
     ev_uuid := match eh_type (ev_hdr src) with
                | EVENT_TYPE_PING => ev_uuid old | _ => ev_uuid src end;
     ev_join_addrlen := match eh_type (ev_hdr src) with
                | EVENT_TYPE_JOIN => ev_join_addrlen src | _ => ev_join_addrlen old end;
     ev_join_addr := match eh_type (ev_hdr src) with
                | EVENT_TYPE_JOIN =>
                    received_addr (ev_join_addr old) (ev_join_addr src) (ev_join_addrlen src)
                | _ => ev_join_addr old end;
     ev_gossip_count := ev_gossip_count src;
     ev_gossip := received_infos (ev_gossip old) (ev_entries src) |}.

End Format.

(** ** Primitive types *)

Lemma assert_then {A} b (k : outcome A) : b = true → (assert b;; k) = k.
Proof. by intros ->. Qed.

Section PrimitiveFacts.
Context `{Host}.

Lemma make_encoder_ok size n v :
  (size ≤ n)%nat → SWIM_MAKE_ENCODER size n v = Ok (be_split size v).
Proof.
  intros Hn. unfold SWIM_MAKE_ENCODER.
  rewrite assert_then by by apply Nat.leb_le. by rewrite store_hton.
Qed.

Lemma make_decoder_ok size conv b rest :
  length b = size →
  SWIM_MAKE_DECODER size conv (b ++ rest) = Ok (conv size (be_combine b), rest).
Proof.
  intros Hb. unfold SWIM_MAKE_DECODER.
  rewrite assert_then by (apply Nat.leb_le; rewrite length_app; lia).
  rewrite take_app_length', drop_app_length' by done.
  by rewrite ntoh_load by done.
Qed.

Lemma decode_unsigned_ok size v rest :
  is_unsigned size v →
  SWIM_MAKE_DECODER size to_unsigned (be_split size v ++ rest) = Ok (v, rest).
Proof.
  intros Hv. rewrite make_decoder_ok by apply length_be_split.
  rewrite be_combine_split, !to_unsigned_id by (rewrite ?to_unsigned_id; done).
  done.
Qed.

Lemma decode_signed_ok size v rest :
  (0 < size)%nat → is_signed size v →
  SWIM_MAKE_DECODER size to_signed (be_split size v ++ rest) = Ok (v, rest).
Proof.
  intros Hs Hv. rewrite make_decoder_ok by apply length_be_split.
  by rewrite be_combine_split, to_signed_to_unsigned, to_signed_id by done.
Qed.

(** The instances of the macros that nothing else uses. *)
Lemma swim_int32_roundtrip n v rest :
  (4 ≤ n)%nat → is_signed 4 v →
  (b ← swim_encode_int32 n v; swim_decode_int32 (b ++ rest)) = Ok (v, rest).
Proof.
  intros Hn Hv. unfold swim_encode_int32, swim_decode_int32. rewrite make_encoder_ok by done.
  bind_step. by apply (decode_signed_ok 4); [lia|].
Qed.

Lemma swim_uint64_roundtrip n v rest :
  (8 ≤ n)%nat → is_unsigned 8 v →
  (b ← swim_encode_uint64 n v; swim_decode_uint64 (b ++ rest)) = Ok (v, rest).
Proof.
  intros Hn Hv. unfold swim_encode_uint64, swim_decode_uint64. rewrite make_encoder_ok by done.
  bind_step. by apply (decode_unsigned_ok 8).
Qed.

Lemma emit_ok buflen ptr f b :
  f (buflen - length ptr)%nat = Ok b → emit buflen ptr f = Ok (ptr ++ b).
Proof. intros E. unfold emit. by rewrite E. Qed.

Lemma encode_fixlen_ok n data bytes :
  bytes ≤ Z.of_nat n → bytes ≤ Z.of_nat (length data) →
  swim_encode_fixlen n data bytes = Ok (take (Z.to_nat bytes) data).
Proof.
  intros H1 H2. unfold swim_encode_fixlen.
  rewrite assert_then by by apply Z.leb_le.
  by rewrite (proj2 (Z.leb_le _ _)) by done.
Qed.

Lemma encode_uuid_ok n u :
  (16 ≤ n)%nat → swim_encode_fixlen n (vec_to_list (u : uuid_t)) 16 = Ok (vec_to_list u).
Proof.
  intros Hn. rewrite encode_fixlen_ok by (rewrite ?length_array; lia).
  by rewrite take_ge by (rewrite length_array; lia).
Qed.

Lemma decode_uuid_ok (u old : uuid_t) rest :
  swim_decode_fixlen (vec_to_list u ++ rest) old 16 = Ok (u, rest).
Proof.
  unfold swim_decode_fixlen.
  rewrite assert_then by (apply Z.leb_le; rewrite length_app, length_array; lia).
  rewrite memcpy_ok by (rewrite ?length_app, ?length_array; lia). simpl.
  rewrite take_app_length', drop_app_length', drop_ge, app_nil_r
    by (rewrite ?length_array; done).
  by rewrite array_to_of_list.
Qed.

Lemma to_unsigned_small n z k :
  0 ≤ z ≤ k → k < 2 ^ (Z.of_nat n * 8) → to_unsigned n z = z.
Proof. intros Hz Hk. apply to_unsigned_id. unfold is_unsigned. lia. Qed.

Lemma encode_sockaddr_ok n addr addrlen :
  wf_sockaddr addrlen → 2 + addrlen ≤ Z.of_nat n →
  swim_encode_sockaddr n addr addrlen = Ok (sockaddr_bytes addr addrlen).
Proof.
  unfold wf_sockaddr. intros Hl Hn. unfold swim_encode_sockaddr, swim_encode_varlen.
  rewrite (to_signed_small 2 addrlen) by (simpl; lia).
  rewrite (to_unsigned_small 8 addrlen 128) by (simpl; lia).
  rewrite assert_then by (apply Z.leb_le; lia).
  rewrite assert_then by (apply Z.ltb_lt; lia).
  rewrite emit_ok with (b := be_split 2 addrlen) by (apply make_encoder_ok; simpl; lia).
  simpl. rewrite emit_ok with (b := take (Z.to_nat addrlen) (vec_to_list addr)); [done|].
  apply encode_fixlen_ok; autorewrite with swim; lia.
Qed.

Lemma length_sockaddr_bytes addr addrlen :
  wf_sockaddr addrlen →
  length (sockaddr_bytes addr addrlen) = (2 + Z.to_nat addrlen)%nat.
Proof.
  unfold wf_sockaddr, sockaddr_bytes. intros Hl. autorewrite with swim. lia.
Qed.

Lemma decode_sockaddr_ok addr old addrlen rest :
  wf_sockaddr addrlen →
  swim_decode_sockaddr (sockaddr_bytes addr addrlen ++ rest) old
  = Ok (received_addr old addr addrlen, addrlen, rest).
Proof.
  unfold wf_sockaddr. intros Hl.
  unfold swim_decode_sockaddr, swim_decode_varlen, sockaddr_bytes.
  rewrite <-(assoc_L (++)).
  unfold swim_decode_int16.
  rewrite (decode_signed_ok 2) by (unfold is_signed; simpl; lia). simpl.
  rewrite (to_unsigned_small 8 addrlen 128) by (simpl; lia).
  assert (length (take (Z.to_nat addrlen) (vec_to_list addr)) = Z.to_nat addrlen) as Hlen
    by (autorewrite with swim; lia).
  rewrite assert_then.
  2:{ apply andb_true_intro; split; apply Z.leb_le; [lia|].
      rewrite !length_app, Hlen. lia. }
  unfold swim_decode_fixlen.
  rewrite assert_then by (apply Z.leb_le; rewrite length_app, Hlen; lia).
  rewrite memcpy_ok by (rewrite ?length_app, ?Hlen; lia). simpl.
  rewrite take_app_length', drop_app_length' by done.
  by rewrite (to_unsigned_small 4 addrlen 128) by (simpl; lia).
Qed.

End PrimitiveFacts.

(** Run one [emit] whose encoder is known to succeed. *)
Ltac emit_step :=
  erewrite emit_ok by
    (cbn beta;
     first [ apply make_encoder_ok | apply encode_uuid_ok
           | apply encode_sockaddr_ok; [assumption|] | eassumption ];
     autorewrite with swim; simpl; lia);
  cbn [mbind outcome_bind].

(** ** Node infos and gossip *)

Section GossipFacts.
Context `{Host}.

Lemma length_info_bytes i :
  wf_info i → length (info_bytes i) = (32 + Z.to_nat (ni_addrlen i))%nat.
Proof.
  intros [_ _ _ Hl]. unfold info_bytes. autorewrite with swim.
  rewrite length_sockaddr_bytes by done. lia.
Qed.

Lemma encode_info_ok n i :
  wf_info i → (length (info_bytes i) ≤ n)%nat →
  swim_encode_info n i = Ok (info_bytes i).
Proof.
  intros Hi Hn. rewrite length_info_bytes in Hn by done.
  destruct Hi as [_ _ _ Hl]. pose proof Hl as [? ?].
  unfold swim_encode_info. do 5 emit_step.
  unfold info_bytes. by rewrite !(assoc_L (++)).
Qed.

Lemma decode_info_ok old i rest :
  wf_info i →
  swim_decode_info (info_bytes i ++ rest) old = Ok (received_info old i, rest).
Proof.
  intros [Hls Hinc [Hst Hst'] Hl]. unfold swim_decode_info, info_bytes.
  rewrite <-!(assoc_L (++)).
  rewrite decode_uuid_ok. bind_step.
  unfold swim_decode_int64. rewrite (decode_signed_ok 8) by (done || lia). bind_step.
  unfold swim_decode_uint16. rewrite (decode_unsigned_ok 2) by done. bind_step.
  unfold swim_decode_uint32. rewrite (decode_unsigned_ok 4) by done. bind_step.
  rewrite decode_sockaddr_ok by done. bind_step. by rewrite Hst'.
Qed.

Lemma encode_infos_ok n ptr g k :
  (k ≤ length g)%nat → Forall wf_info (take k g) →
  (length ptr + length (infos_bytes (take k g)) ≤ n)%nat →
  encode_infos n ptr g k = Ok (ptr ++ infos_bytes (take k g)).
Proof.
  revert ptr k; induction g as [|i g IH]; intros ptr [|k] Hk Hg Hn; simpl in *;
    rewrite ?app_nil_r; [done..|lia|done|].
  apply Forall_cons in Hg as [Hi Hg]. rewrite length_app in Hn.
  rewrite emit_ok with (b := info_bytes i) by (apply encode_info_ok; [done|lia]).
  bind_step. rewrite IH by (rewrite ?length_app; done || lia).
  by rewrite <-(assoc_L (++)).
Qed.

Lemma decode_infos_ok old g rest :
  Forall wf_info g → (length g ≤ length old)%nat →
  decode_infos (infos_bytes g ++ rest) old (length g)
  = Ok (received_infos old g, rest).
Proof.
  revert old; induction g as [|i g IH]; intros [|o old] Hg Hl; simpl in *; try done.
  { lia. }
  apply Forall_cons in Hg as [Hi Hg].
  rewrite <-(assoc_L (++)), decode_info_ok by done. bind_step.
  by rewrite IH by (done || lia).
Qed.

Lemma encode_gossip_ok n g count :
  0 ≤ count ≤ Z.of_nat (length g) → Forall wf_info (take (Z.to_nat count) g) →
  (2 + length (infos_bytes (take (Z.to_nat count) g)) ≤ n)%nat →
  swim_encode_gossip n g count
  = Ok (be_split 2 count ++ infos_bytes (take (Z.to_nat count) g)).
Proof.
  intros Hc Hg Hn. unfold swim_encode_gossip. emit_step.
  by rewrite encode_infos_ok by (autorewrite with swim; done || lia).
Qed.

Lemma decode_gossip_ok old g rest capacity :
  Forall wf_info g → (length g ≤ length old)%nat →
  Z.of_nat (length g) ≤ capacity → capacity < 2 ^ 16 →
  swim_decode_gossip (be_split 2 (Z.of_nat (length g)) ++ infos_bytes g ++ rest) old capacity
  = Ok (Z.of_nat (length g), received_infos old g, Some rest).
Proof.
  intros Hg Hl Hc Hc'. unfold swim_decode_gossip, swim_decode_uint16.
  rewrite (decode_unsigned_ok 2) by (unfold is_unsigned; simpl in *; lia). bind_step.
  rewrite (proj2 (Z.ltb_ge _ _)) by done. rewrite Nat2Z.id.
  by rewrite decode_infos_ok by done.
Qed.

Lemma length_received_infos old g : length (received_infos old g) = length old.
Proof.
  revert g; induction old as [|o old IH]; intros [|i g]; simpl; auto.
Qed.

(** A message that announces more gossip than there is room for is rejected,
    before any of it is decoded. *)
Lemma decode_gossip_reject old count rest capacity :
  is_unsigned 2 count → capacity < count →
  swim_decode_gossip (be_split 2 count ++ rest) old capacity = Ok (count, old, None).
Proof.
  intros Hu Hc. unfold swim_decode_gossip, swim_decode_uint16.
  rewrite (decode_unsigned_ok 2) by done. bind_step.
  by rewrite (proj2 (Z.ltb_lt _ _)) by done.
Qed.

End GossipFacts.

(** ** Event headers *)

Section HeaderFacts.
Context `{Host}.

Lemma length_header_bytes h : length (header_bytes h) = 36%nat.
Proof. unfold header_bytes. autorewrite with swim. done. Qed.

Lemma patch_middle a b c b' :
  length b' = length b → patch (length a) b' (a ++ b ++ c) = a ++ b' ++ c.
Proof.
  intros Hb. unfold patch. rewrite take_app_length, Hb.
  rewrite <-drop_drop, drop_app_length, drop_app_length. done.
Qed.

Lemma encode_header_ok n h :
  (36 ≤ n)%nat → swim_encode_event_header n h = Ok (header_bytes h).
Proof.
  intros Hn. unfold swim_encode_event_header, swim_encode_uuid.
  do 6 emit_step. f_equal. rewrite be_split_8. cbn [app].
  set (v := be_split 2 SWIM_PROTOCOL_VERSION ++ be_split 2 (event_type_code (eh_type h))).
  set (t := Z.shiftr (eh_time h) 32).
  replace (_ ++ be_split 4 (eh_incarnation h)) with
    (v ++ (be_split 4 0 ++ be_split 4 t) ++
     (be_split 4 (eh_time h) ++ vec_to_list (eh_uuid h) ++ be_split 4 (eh_incarnation h)))
    by by rewrite !(assoc_L (++)).
  assert (length (v ++ (be_split 4 0 ++ be_split 4 t) ++
     (be_split 4 (eh_time h) ++ vec_to_list (eh_uuid h) ++ be_split 4 (eh_incarnation h)))
     = 36%nat) as -> by (subst v; autorewrite with swim; done).
  rewrite patch_middle by (autorewrite with swim; done).
  unfold header_bytes. subst v. by rewrite !(assoc_L (++)).
Qed.

Lemma be_split_wire_time t :
  drop 4 (store 8 36) ++ be_split 4 t = be_split 8 (wire_time t).
Proof.
  rewrite be_split_8. f_equal.
  - assert (Z.shiftr (wire_time t) 32
            = match host_endian with LittleEndian => 0 | BigEndian => 36 end) as ->.
    { unfold wire_time. rewrite Z.shiftr_div_pow2 by lia.
      pose proof (Z.mod_pos_bound t (2 ^ 32) ltac:(lia)).
      destruct host_endian; [by apply Z.div_small|].
      rewrite Z.div_add_l, Z.div_small by lia. lia. }
    unfold store. by destruct host_endian.
  - rewrite <-(be_split_to_unsigned 4 t), <-(be_split_to_unsigned 4 (wire_time t)). f_equal.
    unfold to_unsigned, wire_time. simpl.
    destruct host_endian; [by rewrite Zmod_mod|].
    rewrite Z.add_comm, Z_mod_plus_full. by rewrite Zmod_mod.
Qed.

Lemma wire_time_signed t : is_signed 8 (wire_time t).
Proof.
  pose proof (Z.mod_pos_bound t (2 ^ 32) ltac:(lia)).
  unfold is_signed, wire_time. simpl in *. destruct host_endian; lia.
Qed.

Lemma decode_header_ok old h rest :
  wf_header h →
  swim_decode_event_header (header_bytes h ++ rest) old = Ok (received_header h, rest).
Proof.
  intros [Ht Hi]. unfold swim_decode_event_header, header_bytes.
  rewrite <-(take_drop 4 (store 8 36)), <-!(assoc_L (++)).
  unfold swim_decode_uint16. rewrite (decode_unsigned_ok 2) by done. bind_step.
  rewrite (decode_unsigned_ok 2) by by apply event_type_code_range. bind_step.
  unfold swim_decode_uint32.
  rewrite make_decoder_ok by (autorewrite with swim; done). bind_step.
  rewrite (assoc_L (++) (drop _ _)), be_split_wire_time.
  unfold swim_decode_int64.
  rewrite (decode_signed_ok 8) by (apply wire_time_signed || lia). bind_step.
  unfold swim_decode_uuid. rewrite decode_uuid_ok. bind_step.
  rewrite (decode_unsigned_ok 4) by done. bind_step.
  by rewrite event_type_of_code.
Qed.

End HeaderFacts.

(** ** Events *)

Section EventFacts.
Context `{Host}.

Lemma length_infos_bytes g :
  Forall wf_info g → (length (infos_bytes g) ≤ 160 * length g)%nat.
Proof.
  induction 1 as [|i g Hi Hg IH]; [done|].
  change (infos_bytes (i :: g)) with (info_bytes i ++ infos_bytes g).
  rewrite length_app, length_info_bytes, length_cons by done.
  destruct Hi as [_ _ _ [? ?]]. lia.
Qed.

Lemma length_body_bytes e : wf_event e → (length (body_bytes e) ≤ 146)%nat.
Proof.
  intros [_ Hj _ _]. unfold body_bytes.
  destruct (eh_type (ev_hdr e)) eqn:E; autorewrite with swim; try (simpl; lia).
  specialize (Hj eq_refl). rewrite length_sockaddr_bytes by done.
  destruct Hj. lia.
Qed.

Lemma length_ev_entries e :
  wf_event e → Z.of_nat (length (ev_entries e)) = ev_gossip_count e.
Proof. intros [_ _ Hc _]. unfold ev_entries. rewrite length_take. lia. Qed.

(** The size of an encoded event. *)
Lemma length_event_bytes e :
  wf_event e →
  Z.of_nat (length (event_bytes e)) ≤ 36 + 146 + 2 + 160 * ev_gossip_count e.
Proof.
  intros He. unfold event_bytes. rewrite !length_app, length_header_bytes, length_be_split.
  pose proof (length_body_bytes e He). pose proof (length_ev_entries e He).
  pose proof (length_infos_bytes _ (wf_event_gossip e He)). lia.
Qed.

Lemma encode_body_ok n e :
  wf_event e → (length (body_bytes e) ≤ n)%nat →
  encode_body n e = Some (Ok (body_bytes e)).
Proof.
  intros [[Ht _] Hj _ _] Hn. unfold encode_body, body_bytes in *.
  destruct (eh_type (ev_hdr e)) eqn:E; try done; f_equal;
    unfold swim_encode_event_ack, swim_encode_event_ping_req,
      swim_encode_event_leave, swim_encode_event_join, swim_encode_uuid;
    rewrite ?length_app, ?length_array in Hn.
  1,2,4: by emit_step.
  specialize (Hj eq_refl). rewrite length_sockaddr_bytes in Hn by done.
  pose proof Hj as [? ?]. emit_step. by emit_step.
Qed.

Lemma encode_event_ok n e :
  wf_event e → (length (event_bytes e) ≤ n)%nat →
  swim_encode_event n e = Ok (Some (event_bytes e)).
Proof.
  intros He Hn. unfold event_bytes in Hn.
  rewrite !length_app, length_header_bytes, length_be_split in Hn.
  unfold swim_encode_event.
  rewrite emit_ok with (b := header_bytes (ev_hdr e)) by (apply encode_header_ok; simpl; lia).
  bind_step. cbn [app]. rewrite encode_body_ok by (rewrite ?length_header_bytes; done || lia).
  rewrite emit_ok with (b := body_bytes e) by done. bind_step.
  erewrite emit_ok; [bind_step|].
  2:{ apply encode_gossip_ok; [apply He|apply He|].
      rewrite length_app, length_header_bytes. unfold ev_entries in Hn. lia. }
  unfold event_bytes, ev_entries. by rewrite !(assoc_L (++)).
Qed.

Lemma decode_body_ok old e rest :
  wf_event e → ev_hdr old = received_header (ev_hdr e) →
  decode_body (body_bytes e ++ rest) old =
  Some (Ok (set_ev_gossip (ev_gossip_count old) (ev_gossip old) (received_event old e), rest)).
Proof.
  intros [[Ht _] Hj _ _] Hh. unfold decode_body, body_bytes. rewrite Hh.
  cbn [eh_type received_header].
  assert (∀ o h u l a c g, ev_hdr o = h → ev_uuid o = u → ev_join_addrlen o = l →
    ev_join_addr o = a → ev_gossip_count o = c → ev_gossip o = g →
    o = Build_Event h u l a c g) as Heta by (intros []; naive_solver).
  unfold swim_decode_event_ack, swim_decode_event_ping_req, swim_decode_event_leave,
    swim_decode_event_join, swim_decode_uuid, received_event.
  destruct (eh_type (ev_hdr e)) eqn:E; rewrite <-?(assoc_L (++)), ?decode_uuid_ok;
    bind_step; try (do 3 f_equal; by apply Heta); try done.
  rewrite decode_sockaddr_ok by auto. bind_step. do 3 f_equal. by apply Heta.
Qed.

Lemma decode_event_ok old e rest :
  wf_event e →
  ev_gossip_count e ≤ Z.of_nat (length (ev_gossip old)) →
  ev_gossip_count e ≤ gossip_capacity (2 + length (infos_bytes (ev_entries e)) + length rest) →
  swim_decode_event (event_bytes e ++ rest) old
  = Ok (received_event old e, Z.of_nat (length (event_bytes e))).
Proof.
  intros He Hold Hcap. unfold swim_decode_event.
  replace (event_bytes e ++ rest) with
    (header_bytes (ev_hdr e) ++ body_bytes e ++
     be_split 2 (ev_gossip_count e) ++ infos_bytes (ev_entries e) ++ rest)
    by (unfold event_bytes; by rewrite <-!(assoc_L (++))).
  rewrite decode_header_ok by apply He. bind_step.
  rewrite decode_body_ok by done. bind_step.
  pose proof (length_ev_entries e He) as Hlen.
  rewrite !length_app, length_be_split. cbn [ev_gossip set_ev_gossip set_ev_hdr].
  rewrite <-Nat.add_assoc in Hcap. rewrite <-Hlen in Hold, Hcap |- *.
  rewrite decode_gossip_ok; [bind_step|apply He|lia|done|apply is_unsigned_to_unsigned].
  do 2 f_equal; [|unfold event_bytes; rewrite !length_app, length_be_split; lia].
  unfold received_event, set_ev_gossip. simpl. rewrite <-Hlen. done.
Qed.

(** In a receive buffer, whatever the body, there is room for exactly as many
    entries as fit in the memory of the received event. *)
Lemma gossip_capacity_packet (remaining : nat) :
  1866 ≤ Z.of_nat remaining ≤ 2012 → gossip_capacity remaining = 11.
Proof.
  intros Hr. unfold gossip_capacity.
  rewrite (to_unsigned_small 8 _ 2048) by (simpl; lia).
  assert ((Z.of_nat remaining - 2) / sizeof_NodeInfo = 11) as ->; [|done].
  change sizeof_NodeInfo with 168.
  symmetry. apply (Z.div_unique _ _ _ (Z.of_nat remaining - 2 - 168 * 11)); lia.
Qed.

End EventFacts.

(** ** Arbitrary input

    What holds of a decoded value when nothing is known about the bytes. *)

Section Arbitrary.
Context `{Host}.

Lemma is_signed_to_signed n z : (0 < n)%nat → is_signed n (to_signed n z).
Proof.
  intros Hn. unfold is_signed, to_signed. pose proof (pow_half n Hn).
  pose proof (Z.mod_pos_bound (z + 2 ^ (Z.of_nat n * 8 - 1))
    (2 ^ (Z.of_nat n * 8)) ltac:(lia)). lia.
Qed.

Lemma make_decoder_inv size conv buf v rest :
  SWIM_MAKE_DECODER size conv buf = Ok (v, rest) →
  (size ≤ length buf)%nat ∧ rest = drop size buf ∧
  v = conv size (ntoh size (load (take size buf))).
Proof.
  unfold SWIM_MAKE_DECODER. intros E. simplify_outcome.
  apply Nat.leb_le in Hassert. naive_solver.
Qed.

Lemma decode_fixlen_inv {m} buf (old : array m) bytes data rest :
  swim_decode_fixlen buf old bytes = Ok (data, rest) →
  0 ≤ bytes ≤ Z.of_nat m ∧ bytes ≤ Z.of_nat (length buf) ∧
  rest = drop (Z.to_nat bytes) buf.
Proof.
  unfold swim_decode_fixlen. intros E. simplify_outcome.
  match goal with E : memcpy _ _ _ = _ |- _ => apply memcpy_inv in E end.
  naive_solver.
Qed.

Lemma decode_sockaddr_inv buf old addr addrlen rest :
  swim_decode_sockaddr buf old = Ok (addr, addrlen, rest) →
  wf_sockaddr addrlen ∧ (length rest ≤ length buf)%nat.
Proof.
  unfold swim_decode_sockaddr, swim_decode_varlen. intros E. simplify_outcome.
  match goal with E : swim_decode_int16 _ = _ |- _ => rename E into Ei end.
  match goal with E : swim_decode_fixlen _ _ _ = _ |- _ => rename E into Ef end.
  apply make_decoder_inv in Ei as (_&->&Hz).
  apply decode_fixlen_inv in Ef as (Hb&_&->).
  apply andb_true_iff in Hassert as [Hnn _]. apply Z.leb_le in Hnn.
  assert (is_signed 2 z) as [_ Hs] by (rewrite Hz; apply is_signed_to_signed; lia).
  simpl in Hs. rewrite (to_unsigned_small 8 z 32767) in * by (simpl; lia).
  rewrite (to_unsigned_small 4 z 32767) by (simpl; lia).
  rewrite !length_drop. unfold wf_sockaddr. lia.
Qed.

End Arbitrary.

(** Use the inversion lemma of each decoder that returned. *)
Ltac invert_decoders :=
  repeat match goal with
  | E : swim_decode_uuid _ _ = Ok _ |- _ => unfold swim_decode_uuid in E
  | E : swim_decode_fixlen _ _ _ = Ok _ |- _ =>
      apply decode_fixlen_inv in E as (?&?&->)
  | E : swim_decode_sockaddr _ _ = Ok _ |- _ =>
      apply decode_sockaddr_inv in E as (?&?)
  | E : swim_decode_int64 _ = Ok _ |- _ => apply make_decoder_inv in E as (?&->&->)
  | E : swim_decode_uint32 _ = Ok _ |- _ => apply make_decoder_inv in E as (?&->&->)
  | E : swim_decode_uint16 _ = Ok _ |- _ => apply make_decoder_inv in E as (?&->&->)
  end.

Section ArbitraryInfos.
Context `{Host}.

Lemma wf_status_of c : is_unsigned 2 c → wf_status (status_of c).
Proof. intros Hc. split; by rewrite status_code_of. Qed.

Lemma decode_info_wf buf old i rest :
  swim_decode_info buf old = Ok (i, rest) →
  wf_info i ∧ (length rest ≤ length buf)%nat.
Proof.
  unfold swim_decode_info. intros E. simplify_outcome. invert_decoders. split.
  - split; simpl; [by apply is_signed_to_signed; lia
      |apply is_unsigned_to_unsigned|apply wf_status_of, is_unsigned_to_unsigned|done].
  - rewrite !length_drop in *. lia.
Qed.

Lemma decode_infos_wf ptr g k g' rest :
  decode_infos ptr g k = Ok (g', rest) →
  (k ≤ length g)%nat ∧ length g' = length g ∧ Forall wf_info (take k g') ∧
  (length rest ≤ length ptr)%nat.
Proof.
  revert ptr g g' rest; induction k as [|k IH]; intros ptr g g' rest E; simpl in E.
  { simplify_eq. rewrite take_0. split_and!; [lia|done|constructor|done]. }
  destruct g as [|i g]; [done|]. simplify_outcome.
  apply IH in Hrun0 as (?&?&?&?). apply decode_info_wf in Hrun as [? ?].
  simpl. split_and!; [lia|lia|by constructor|lia].
Qed.

Lemma decode_gossip_wf buf g capacity count g' ptr :
  swim_decode_gossip buf g capacity = Ok (count, g', Some ptr) →
  0 ≤ count ≤ capacity ∧ count ≤ Z.of_nat (length g') ∧ length g' = length g ∧
  Forall wf_info (take (Z.to_nat count) g') ∧ (2 + length ptr ≤ length buf)%nat.
Proof.
  unfold swim_decode_gossip. intros E. simplify_outcome.
  case_match eqn:Hc; [by simplify_eq|]. apply Z.ltb_ge in Hc. simplify_outcome.
  apply decode_infos_wf in Hrun0 as (?&?&?&?). invert_decoders.
  rewrite length_drop in *.
  match goal with |- 0 ≤ ?c ≤ _ ∧ _ => assert (0 ≤ c) by apply is_unsigned_to_unsigned end.
  split_and!; lia || done.
Qed.

End ArbitraryInfos.

Section ArbitraryEvent.
Context `{Host}.

Lemma decode_header_inv buf old h ptr :
  swim_decode_event_header buf old = Ok (h, ptr) →
  (36 ≤ length buf)%nat ∧ ptr = drop 36 buf ∧ is_unsigned 4 (eh_incarnation h) ∧
  eh_type h = event_type_of (to_unsigned 2 (ntoh 2 (load (take 2 (drop 2 buf))))).
Proof.
  unfold swim_decode_event_header. intros E. simplify_outcome. invert_decoders.
  rewrite ?drop_drop, ?length_drop in *.
  split_and!; [lia|done|apply is_unsigned_to_unsigned|done].
Qed.

(** A body writes neither the header nor the gossip, and consumes bytes. *)
Lemma decode_body_inv ptr old body e rest :
  decode_body ptr old = Some body → body = Ok (e, rest) →
  ev_hdr e = ev_hdr old ∧ ev_gossip e = ev_gossip old ∧
  event_type_valid (eh_type (ev_hdr old)) ∧
  (eh_type (ev_hdr old) = EVENT_TYPE_JOIN → wf_sockaddr (ev_join_addrlen e)) ∧
  (length rest ≤ length ptr)%nat.
Proof.
  unfold decode_body, swim_decode_event_ack, swim_decode_event_ping_req,
    swim_decode_event_leave, swim_decode_event_join. intros Eb E.
  destruct (eh_type (ev_hdr old)) eqn:Ht; simplify_eq; simplify_outcome;
    invert_decoders; rewrite ?length_drop in *; split_and!; done || lia.
Qed.

Lemma gossip_capacity_le remaining :
  (2 ≤ remaining)%nat → Z.of_nat remaining ≤ 2012 → gossip_capacity remaining ≤ 11.
Proof.
  intros Hr Hr'. unfold gossip_capacity.
  rewrite (to_unsigned_small 8 _ 2048) by (simpl; lia).
  change sizeof_NodeInfo with 168.
  assert (0 ≤ (Z.of_nat remaining - 2) / 168 ≤ 11) as [? ?].
  { split; [apply Z.div_pos; lia|]. apply Z.lt_succ_r, Z.div_lt_upper_bound; lia. }
  rewrite (to_unsigned_small 2 _ 11) by (simpl; lia). done.
Qed.

Lemma decode_header_time buf old h ptr :
  swim_decode_event_header buf old = Ok (h, ptr) → is_signed 8 (eh_time h).
Proof.
  unfold swim_decode_event_header. intros E. simplify_outcome. invert_decoders. simpl.
  apply is_signed_to_signed. lia.
Qed.

(** Whatever is accepted from a packet is well formed. *)
Lemma decode_event_wf buf old e r :
  Z.of_nat (length buf) ≤ 2048 → swim_decode_event buf old = Ok (e, r) → 0 ≤ r →
  wf_event e ∧ is_signed 8 (eh_time (ev_hdr e)) ∧
  ev_gossip_count e ≤ 11 ∧ 36 ≤ r ≤ Z.of_nat (length buf).
Proof.
  intros Hbuf E Hr. unfold swim_decode_event in E. simplify_outcome.
  pose proof (decode_header_time _ _ _ _ Hrun).
  apply decode_header_inv in Hrun as (Hl&->&Hinc&_).
  destruct (decode_body _ _) as [body|] eqn:Eb; [|simplify_eq; lia]. simplify_outcome.
  eapply decode_body_inv in Eb as (Eh&Eg&Hv&Hj&Hlen); [|done]. simpl in Eh, Eg, Hv, Hj.
  match goal with o : option (list byte) |- _ => destruct o as [ptr|] end;
    [|simplify_eq; lia]. simplify_eq.
  match goal with E : swim_decode_gossip ?p _ _ = _ |- _ =>
    apply decode_gossip_wf in E as (?&?&?&?&?); rewrite length_drop in Hlen;
    pose proof (gossip_capacity_le (length p) ltac:(lia) ltac:(lia))
  end.
  split; [split; unfold ev_entries; simpl; [by split|done..|lia|done]|].
  simpl. by split_and!; [|lia..].
Qed.


(** An event in a receive buffer. *)
Lemma decode_packet_ok (e old : Event) (pad : list byte) :
  wf_event e → ev_gossip_count e ≤ 11 → length (ev_gossip old) = 11%nat →
  Z.of_nat (length (event_bytes e) + length pad) = 2048 →
  swim_decode_event (event_bytes e ++ pad) old
    = Ok (received_event old e, Z.of_nat (length (event_bytes e))).
Proof.
  intros He Hc Hold Hlen. apply decode_event_ok; [done|lia|].
  unfold event_bytes in Hlen. rewrite !length_app, length_header_bytes, length_be_split in Hlen.
  pose proof (length_body_bytes e He).
  rewrite gossip_capacity_packet by lia. done.
Qed.

End ArbitraryEvent.

(** ** Theorems *)

Section Theorems.

(** Integers are put on the wire with the most significant byte first,
    whatever the byte order of the host, and a value written by one host is
    read back unchanged by any other. *)
Theorem swim_integers_portable (hA hB : Host) size n v rest :
  (0 < size ≤ n)%nat →
  ∃ b, @SWIM_MAKE_ENCODER hA size n v = Ok b ∧ b = be_split size v ∧
    (is_unsigned size v → @SWIM_MAKE_DECODER hB size to_unsigned (b ++ rest) = Ok (v, rest)) ∧
    (is_signed size v → @SWIM_MAKE_DECODER hB size to_signed (b ++ rest) = Ok (v, rest)).
Proof.
  intros Hn. eexists. split; [apply make_encoder_ok; lia|]. split; [done|].
  split; intros; [by apply decode_unsigned_ok|apply decode_signed_ok; [lia|done]].
Qed.

(** C13: The round trip of a whole event, on hosts of either byte order.  A
    well-formed event with at most 11 gossip entries always fits the packet
    buffer (no assertion of the encoder fails), and decoding the packet,
    followed by whatever was in the rest of the receive buffer, recovers the
    number of bytes, the gossip entries, the fields of the body (the address
    bytes after [addrlen] keeping the value the receiver had there) and the
    header except for its time stamp, which is recovered on a little-endian
    host for times from 0 to 2^32 - 1; what becomes of it otherwise is
    [wire_time]. *)
Theorem swim_event_roundtrip `{Host} (e old : Event) (pad : list byte) :
  wf_event e → ev_gossip_count e ≤ 11 → length (ev_gossip old) = 11%nat →
  Z.of_nat (length (event_bytes e) + length pad) = SWIM_MAX_PACKET_SIZE →
  swim_encode_event (Z.to_nat SWIM_MAX_PACKET_SIZE) e = Ok (Some (event_bytes e)) ∧
  ∃ e', swim_decode_event (event_bytes e ++ pad) old
      = Ok (e', Z.of_nat (length (event_bytes e))) ∧
    e' = received_event old e ∧
    eh_type (ev_hdr e') = eh_type (ev_hdr e) ∧ eh_uuid (ev_hdr e') = eh_uuid (ev_hdr e) ∧
    eh_incarnation (ev_hdr e') = eh_incarnation (ev_hdr e) ∧
    ev_gossip_count e' = ev_gossip_count e ∧
    (host_endian = LittleEndian → 0 ≤ eh_time (ev_hdr e) < 2 ^ 32 → ev_hdr e' = ev_hdr e).
Proof.
  change SWIM_MAX_PACKET_SIZE with 2048. intros He Hc Hold Hlen. split.
  { apply encode_event_ok; [done|lia]. }
  exists (received_event old e). split; [by apply decode_packet_ok|]. do 5 (split; [done|]).
  intros Hle Ht. unfold received_event, received_header, wire_time. simpl. rewrite Hle.
  rewrite Z.mod_small by done. by destruct (ev_hdr e).
Qed.

(** C14: Whatever bytes arrive, an event that [swim_decode_event] accepts is
    well formed: its type is one of the five, it has at most as many gossip
    entries as the receiver's event has room for (11), and every address
    length fits [struct sockaddr_storage]. *)
Theorem swim_decode_event_accepts_wf `{Host} (buf : list byte) (old e : Event) (r : Z) :
  Z.of_nat (length buf) ≤ SWIM_MAX_PACKET_SIZE →
  swim_decode_event buf old = Ok (e, r) → 0 ≤ r →
  wf_event e ∧ ev_gossip_count e ≤ 11 ∧ 36 ≤ r ≤ Z.of_nat (length buf).
Proof.
  change SWIM_MAX_PACKET_SIZE with 2048. intros Hbuf E Hr.
  by destruct (decode_event_wf buf old e r Hbuf E Hr) as (? & _ & ?).
Qed.

(** What the decoder rejects.  An event whose type is not one of the five
    is refused with -1; and whenever -1 is returned, for that reason or
    because more gossip is announced than there is room for, no gossip entry
    has been overwritten. *)
Theorem swim_decode_event_rejects `{Host} (buf : list byte) (old e : Event) (r : Z) :
  swim_decode_event buf old = Ok (e, r) →
  (¬ event_type_valid (eh_type (ev_hdr e)) → r = -1) ∧
  (r < 0 → r = -1 ∧ ev_gossip e = ev_gossip old ∧
    (¬ event_type_valid (eh_type (ev_hdr e)) ∨
     ∃ remaining, (remaining ≤ length buf)%nat ∧
       gossip_capacity remaining < ev_gossip_count e)).
Proof.
  intros E. unfold swim_decode_event in E. simplify_outcome.
  apply decode_header_inv in Hrun as (Hl&->&Hinc&_).
  destruct (decode_body _ _) as [body|] eqn:Eb; simplify_outcome.
  2:{ split; [done|]. intros _. split_and!; [done..|left].
      unfold decode_body in Eb. simpl in *. destruct (eh_type _); naive_solver. }
  eapply decode_body_inv in Eb as (Eh&Eg&Hv&Hj&Hlen); [|done]. simpl in Eh, Eg, Hv, Hj.
  rewrite length_drop in Hlen.
  match goal with E : swim_decode_gossip ?p _ _ = _ |- _ => rename E into Hg end.
  destruct o as [ptr|]; simplify_eq.
  - apply decode_gossip_wf in Hg as (?&?&?&?&?). simpl. split; [done|lia].
  - unfold swim_decode_gossip in Hg. simplify_outcome.
    case_match eqn:Hc; simplify_outcome. simpl. split; [done|]. intros _.
    apply Z.ltb_lt in Hc. split_and!; [done..|right]. eexists. split; [|exact Hc]. lia.
Qed.

(** C39: The time stamp of a header is damaged: the size is stored through a
    pointer to a 64-bit integer, over the upper half of the time.  Encoding
    and decoding preserves type, uuid and incarnation, but the time only on
    a little-endian host and for times from 0 to 2^32 - 1. *)
Theorem swim_header_time_truncated `{Host} (h old : EventHeader) (rest : list byte) :
  wf_header h →
  ∃ b h', swim_encode_event_header (Z.to_nat SWIM_MAX_PACKET_SIZE) h = Ok b ∧
    swim_decode_event_header (b ++ rest) old = Ok (h', rest) ∧
    eh_type h' = eh_type h ∧ eh_uuid h' = eh_uuid h ∧
    eh_incarnation h' = eh_incarnation h ∧
    (eh_time h' = eh_time h ↔
     host_endian = LittleEndian ∧ 0 ≤ eh_time h < 2 ^ 32 ∨
     host_endian = BigEndian ∧ 36 * 2 ^ 32 ≤ eh_time h < 37 * 2 ^ 32).
Proof.
  intros Hh. exists (header_bytes h), (received_header h).
  split; [apply encode_header_ok; vm_compute; lia|].
  split; [by apply decode_header_ok|]. split_and!; [done..|]. simpl. unfold wire_time.
  pose proof (Z.mod_pos_bound (eh_time h) (2 ^ 32) ltac:(lia)).
  destruct host_endian; (split; [intros E; solve [left; split; [done|lia] | right; split; [done|lia]]|]); intros [[? ?]|[? ?]]; try done.
  - by apply Z.mod_small.
  - rewrite (Z.mod_eq _ (2 ^ 32)) by lia.
    rewrite <-(Z.div_unique (eh_time h) (2 ^ 32) 36 (eh_time h - 36 * 2 ^ 32)) by lia. lia.
Qed.

(** C40: A length above [sizeof(struct sockaddr_storage)] is not rejected:
    both assertions of [swim_decode_varlen] hold as long as the buffer is
    long enough, and the [memcpy] runs past the 128 bytes of the address. *)
Theorem swim_decode_sockaddr_overflow `{Host} (old : sockaddr_storage) (len : Z)
  (data rest : list byte) :
  128 < len < 2 ^ 15 → Z.of_nat (length data) = len →
  swim_decode_sockaddr (be_split 2 len ++ data ++ rest) old = Fault OutOfBounds.
Proof.
  intros Hl Hd. unfold swim_decode_sockaddr, swim_decode_varlen, swim_decode_int16.
  rewrite (decode_signed_ok 2) by (unfold is_signed; simpl in *; lia). bind_step.
  rewrite (to_unsigned_small 8 len 32767) by (simpl in *; lia).
  rewrite assert_then by
    (apply andb_true_intro; split; apply Z.leb_le; rewrite ?length_app; lia).
  unfold swim_decode_fixlen.
  rewrite assert_then by (apply Z.leb_le; rewrite length_app; lia).
  unfold memcpy. rewrite (proj2 (Z.leb_gt len (Z.of_nat 128))) by lia.
  by rewrite andb_false_r.
Qed.

End Theorems.

(** ** Witnesses *)

Definition sample_uuid (n : Z) : uuid_t := array_of 16 (be_split 16 n).

Definition sample_addr : sockaddr_storage :=
  array_of 128 ([x02; x00; x1f; x0a; x7f; x00; x00; x01] ++ replicate 120 x00).

Definition sample_info : NodeInfo :=
  {| ni_uuid := sample_uuid 7; ni_last_seen := 1766383853; ni_incarnation := 3;
     ni_status := SWIM_STATUS_SUSPECT; ni_addr := sample_addr; ni_addrlen := 16 |}.

Definition sample_header (t : EventType) : EventHeader :=
  {| eh_type := t; eh_uuid := sample_uuid 1; eh_time := 1766383853; eh_incarnation := 2 |}.

Definition sample_event (t : EventType) : Event :=
  {| ev_hdr := sample_header t; ev_uuid := sample_uuid 9; ev_join_addrlen := 16;
     ev_join_addr := sample_addr; ev_gossip_count := 1; ev_gossip := [sample_info] |}.

(** The memory a server decodes into. *)
Definition blank_event : Event :=
  {| ev_hdr := {| eh_type := EVENT_TYPE_PING; eh_uuid := zeros 16; eh_time := 0;
                  eh_incarnation := 0 |};
     ev_uuid := zeros 16; ev_join_addrlen := 0; ev_join_addr := zeros 128;
     ev_gossip_count := 0; ev_gossip := replicate 11 zero_info |}.

Lemma sample_info_wf : wf_info sample_info.
Proof. repeat split; vm_compute; congruence. Qed.

Lemma sample_event_wf t : event_type_valid t → wf_event (sample_event t).
Proof.
  intros Ht. split; simpl; [by split|done|lia|].
  constructor; [apply sample_info_wf|constructor].
Qed.

Lemma swim_integers_portable_witness :
  ∃ b, @SWIM_MAKE_ENCODER LittleEndian 4 4 1234567890 = Ok b ∧ b = be_split 4 1234567890 ∧
    (is_unsigned 4 1234567890 →
     @SWIM_MAKE_DECODER BigEndian 4 to_unsigned (b ++ [x2a]) = Ok (1234567890, [x2a])) ∧
    (is_signed 4 1234567890 →
     @SWIM_MAKE_DECODER BigEndian 4 to_signed (b ++ [x2a]) = Ok (1234567890, [x2a])).
Proof. apply (swim_integers_portable LittleEndian BigEndian). lia. Defined.

Lemma swim_event_roundtrip_witness :
  @swim_encode_event LittleEndian 2048 (sample_event EVENT_TYPE_JOIN)
    = Ok (Some (@event_bytes LittleEndian (sample_event EVENT_TYPE_JOIN))) ∧
  ∃ e', @swim_decode_event LittleEndian
      (@event_bytes LittleEndian (sample_event EVENT_TYPE_JOIN) ++ replicate 1928 xff) blank_event
    = Ok (e', 120) ∧ ev_hdr e' = sample_header EVENT_TYPE_JOIN.
Proof.
  destruct (@swim_event_roundtrip LittleEndian (sample_event EVENT_TYPE_JOIN) blank_event
    (replicate 1928 xff)) as (He & e' & Hd & _ & _ & _ & _ & _ & Hh).
  - by apply sample_event_wf.
  - by vm_compute.
  - by vm_compute.
  - by vm_compute.
  - split; [exact He|]. exists e'. split; [exact Hd|]. apply Hh; [done|]. simpl. lia.
Defined.

(** A packet as it is in the receive buffer. *)
Definition sample_packet (t : EventType) : list byte :=
  @event_bytes LittleEndian (sample_event t) ++ replicate 1928 xff.

Lemma swim_decode_event_accepts_wf_witness :
  let e := @received_event LittleEndian blank_event (sample_event EVENT_TYPE_JOIN) in
  wf_event e ∧ ev_gossip_count e ≤ 11 ∧
  36 ≤ 120 ≤ Z.of_nat (length (sample_packet EVENT_TYPE_JOIN)).
Proof.
  apply (@swim_decode_event_accepts_wf LittleEndian (sample_packet EVENT_TYPE_JOIN) blank_event).
  - vm_compute. congruence.
  - vm_compute. reflexivity.
  - lia.
Defined.

(** A packet that announces 12 gossip entries. *)
Definition crowded_packet : list byte :=
  @header_bytes LittleEndian (sample_header EVENT_TYPE_PING) ++ be_split 2 12 ++
  replicate 2010 x00.

Lemma swim_decode_event_rejects_witness :
  let e := set_ev_gossip 12 (replicate 11 zero_info)
             (set_ev_hdr (sample_header EVENT_TYPE_PING) blank_event) in
  (¬ event_type_valid (eh_type (ev_hdr e)) → -1 = -1) ∧
  (-1 < 0 → -1 = -1 ∧ ev_gossip e = ev_gossip blank_event ∧
    (¬ event_type_valid (eh_type (ev_hdr e)) ∨
     ∃ remaining, (remaining ≤ length crowded_packet)%nat ∧
       gossip_capacity remaining < ev_gossip_count e)).
Proof.
  apply (@swim_decode_event_rejects LittleEndian crowded_packet blank_event).
  vm_compute. reflexivity.
Defined.

(** A time stamp of the year 2106 comes back as one of 1970. *)
Definition late_header : EventHeader :=
  {| eh_type := EVENT_TYPE_PING; eh_uuid := sample_uuid 1; eh_time := 2 ^ 32 + 5;
     eh_incarnation := 0 |}.

Lemma swim_header_time_truncated_witness :
  ∃ b h', @swim_encode_event_header LittleEndian 2048 late_header = Ok b ∧
    @swim_decode_event_header LittleEndian (b ++ []) late_header = Ok (h', []) ∧
    eh_type h' = EVENT_TYPE_PING ∧ eh_uuid h' = sample_uuid 1 ∧
    eh_incarnation h' = 0 ∧
    (eh_time h' = 2 ^ 32 + 5 ↔
     LittleEndian = LittleEndian ∧ 0 ≤ 2 ^ 32 + 5 < 2 ^ 32 ∨
     LittleEndian = BigEndian ∧ 36 * 2 ^ 32 ≤ 2 ^ 32 + 5 < 37 * 2 ^ 32).
Proof.
  apply (@swim_header_time_truncated LittleEndian late_header late_header []).
  split; vm_compute; [done|split; congruence].
Defined.

Lemma swim_decode_sockaddr_overflow_witness :
  @swim_decode_sockaddr LittleEndian
    (be_split 2 200 ++ replicate 200 x41 ++ replicate 50 x00) (zeros 128)
  = Fault OutOfBounds.
Proof.
  apply (@swim_decode_sockaddr_overflow LittleEndian (zeros 128) 200).
  - split; vm_compute; congruence.
  - rewrite length_replicate. reflexivity.
Defined.
