(* ===== verification/State.v ===== *)
(** * The state of a server: [swim/state.h], [swim/state.c]

    The view of the cluster, the world a C function runs in, and the
    operations on the view.  A [NodeState *] into the view is an index; a null
    pointer is [None].  What the operating system and the C library decide
    (random numbers, the clock, whether an allocation succeeds and what fresh
    memory contains) is given by an oracle, on which nothing is assumed. *)

From Stdlib Require Import Init.Byte ZArith Lia.
From stdpp Require Import base tactics list vector sorting.
From S2P Require Import Prelude Bytes Node Event.

Open Scope Z_scope.

(** ** Data *)

Record ProbeSchedule : Type := {
  pr_order : list nat;
  pr_pos : nat;
  pr_size : nat
}.

(** [struct sockaddr_in] *)
Definition sockaddr_in : Type := array 16.

(** [view] is the allocated memory, of [view_capacity] cells, of which the
    first [view_size] are in use.  The sizes are
    natural numbers, where the source has [int].  The pointer [server] to the state of the
    thread is left out: that state is an argument of the functions that use it. *)
Record SWIM : Type := {
  sw_sockfd : Z;
  sw_last_heartbeat : Z;
  sw_addr : sockaddr_in;
  sw_uuid : uuid_t;
  sw_incarnation : Z;
  sw_view_capacity : nat;
  sw_view_size : nat;
  sw_view : list NodeState;
  sw_probe : ProbeSchedule
}.

Definition set_sw_view (v : list NodeState) (s : SWIM) : SWIM :=
  {| sw_sockfd := sw_sockfd s; sw_last_heartbeat := sw_last_heartbeat s;
     sw_addr := sw_addr s; sw_uuid := sw_uuid s; sw_incarnation := sw_incarnation s;
     sw_view_capacity := sw_view_capacity s; sw_view_size := sw_view_size s;
     sw_view := v; sw_probe := sw_probe s |}.

Definition set_sw_view_size (n : nat) (s : SWIM) : SWIM :=
  {| sw_sockfd := sw_sockfd s; sw_last_heartbeat := sw_last_heartbeat s;
     sw_addr := sw_addr s; sw_uuid := sw_uuid s; sw_incarnation := sw_incarnation s;
     sw_view_capacity := sw_view_capacity s; sw_view_size := n;
     sw_view := sw_view s; sw_probe := sw_probe s |}.

Definition set_sw_view_capacity (n : nat) (s : SWIM) : SWIM :=
  {| sw_sockfd := sw_sockfd s; sw_last_heartbeat := sw_last_heartbeat s;
     sw_addr := sw_addr s; sw_uuid := sw_uuid s; sw_incarnation := sw_incarnation s;
     sw_view_capacity := n; sw_view_size := sw_view_size s;
     sw_view := sw_view s; sw_probe := sw_probe s |}.

Definition set_sw_probe (p : ProbeSchedule) (s : SWIM) : SWIM :=
  {| sw_sockfd := sw_sockfd s; sw_last_heartbeat := sw_last_heartbeat s;
     sw_addr := sw_addr s; sw_uuid := sw_uuid s; sw_incarnation := sw_incarnation s;
     sw_view_capacity := sw_view_capacity s; sw_view_size := sw_view_size s;
     sw_view := sw_view s; sw_probe := p |}.

Definition set_sw_incarnation (v : Z) (s : SWIM) : SWIM :=
  {| sw_sockfd := sw_sockfd s; sw_last_heartbeat := sw_last_heartbeat s;
     sw_addr := sw_addr s; sw_uuid := sw_uuid s; sw_incarnation := v;
     sw_view_capacity := sw_view_capacity s; sw_view_size := sw_view_size s;
     sw_view := sw_view s; sw_probe := sw_probe s |}.

Definition set_sw_last_heartbeat (v : Z) (s : SWIM) : SWIM :=
  {| sw_sockfd := sw_sockfd s; sw_last_heartbeat := v;
     sw_addr := sw_addr s; sw_uuid := sw_uuid s; sw_incarnation := sw_incarnation s;
     sw_view_capacity := sw_view_capacity s; sw_view_size := sw_view_size s;
     sw_view := sw_view s; sw_probe := sw_probe s |}.

Definition set_sw_addr (a : sockaddr_in) (s : SWIM) : SWIM :=
  {| sw_sockfd := sw_sockfd s; sw_last_heartbeat := sw_last_heartbeat s;
     sw_addr := a; sw_uuid := sw_uuid s; sw_incarnation := sw_incarnation s;
     sw_view_capacity := sw_view_capacity s; sw_view_size := sw_view_size s;
     sw_view := sw_view s; sw_probe := sw_probe s |}.

(** The part of the view that is in use. *)
Definition live (s : SWIM) : list NodeState := take (sw_view_size s) (sw_view s).

Definition node_uuid (n : NodeState) : uuid_t := ni_uuid (ns_info n).
Definition node_status (n : NodeState) : Status := ni_status (ns_info n).

Definition set_node_status (v : Status) (n : NodeState) : NodeState :=
  set_ns_info (set_ni_status v (ns_info n)) n.
Definition set_node_last_seen (v : Z) (n : NodeState) : NodeState :=
  set_ns_info (set_ni_last_seen v (ns_info n)) n.
Definition set_node_incarnation (v : Z) (n : NodeState) : NodeState :=
  set_ns_info (set_ni_incarnation v (ns_info n)) n.

(** ** The world *)

(** A datagram handed to [sendto]. *)
Record Datagram : Type := {
  dg_bytes : list byte;
  dg_addr : sockaddr_storage;
  dg_addrlen : Z
}.

(** The answers of the system: the [k]-th [rand()] and [time()], whether the
    [k]-th allocation succeeds, the contents of the cells it returns, and the
    result of the [k]-th [sendto]. [rand()] is never negative. *)
Class Env := {
  env_rand : nat → N;
  env_time : nat → Z;
  env_alloc : nat → bool;
  env_heap : nat → nat → NodeState;
  env_sendto : nat → Z
}.

Record World : Type := {
  w_swim : SWIM;
  w_rands : nat;
  w_times : nat;
  w_allocs : nat;
  w_out : list Datagram
}.

Definition M (A : Type) : Type := World → outcome A * World.

#[export] Instance M_ret : MRet M := λ A a w, (Ok a, w).

#[export] Instance M_bind : MBind M := λ A B k m w,
  match m w with
  | (Ok a, w') => k a w'
  | (Fault f, w') => (Fault f, w')
  end.

Definition lift {A} (o : outcome A) : M A := λ w, (o, w).
Definition fail {A} (f : fault) : M A := lift (Fault f).

(** The use of a pointer that may be null. *)
Definition deref {A} (p : option A) : M A :=
  match p with Some a => mret a | None => fail NullDeref end.

Definition get_swim : M SWIM := λ w, (Ok (w_swim w), w).

Definition with_swim (s : SWIM) (w : World) : World :=
  {| w_swim := s; w_rands := w_rands w; w_times := w_times w;
     w_allocs := w_allocs w; w_out := w_out w |}.

Definition put_swim (s : SWIM) : M unit := λ w, (Ok tt, with_swim s w).

Definition modify (f : SWIM → SWIM) : M unit := s ← get_swim; put_swim (f s).

(** A read of, and an assignment through, a pointer to a node of the view. *)
Definition node_at (i : nat) : M NodeState :=
  s ← get_swim;
  match sw_view s !! i with
  | Some n => mret n
  | None => fail OutOfBounds
  end.

Definition set_node (i : nat) (f : NodeState → NodeState) : M unit :=
  n ← node_at i;
  modify (λ s, set_sw_view (<[i := f n]> (sw_view s)) s).

(** [for (...) state = body(i, state)] over the given indices. *)
Fixpoint for_each {S} (l : list nat) (body : nat → S → M S) (state : S) : M S :=
  match l with
  | [] => mret state
  | i :: l => state ← body i state; for_each l body state
  end.

Section System.
Context `{Env}.

Definition rand : M N := λ w,
  (Ok (env_rand (w_rands w)),
   {| w_swim := w_swim w; w_rands := S (w_rands w); w_times := w_times w;
      w_allocs := w_allocs w; w_out := w_out w |}).

Definition time : M Z := λ w,
  (Ok (env_time (w_times w)),
   {| w_swim := w_swim w; w_rands := w_rands w; w_times := S (w_times w);
      w_allocs := w_allocs w; w_out := w_out w |}).

(** [malloc], [calloc] and [realloc]: [None] for a null pointer, otherwise a
    number that identifies the contents of the fresh memory. *)
Definition alloc : M (option nat) := λ w,
  (Ok (if env_alloc (w_allocs w) then Some (w_allocs w) else None),
   {| w_swim := w_swim w; w_rands := w_rands w; w_times := w_times w;
      w_allocs := S (w_allocs w); w_out := w_out w |}).

Definition sendto (d : Datagram) : M Z := λ w,
  (Ok (env_sendto (length (w_out w))),
   {| w_swim := w_swim w; w_rands := w_rands w; w_times := w_times w;
      w_allocs := w_allocs w; w_out := w_out w ++ [d] |}).

(** [rand() % swim->view_size] *)
Definition random_index : M nat :=
  r ← rand;
  s ← get_swim;
  if (sw_view_size s =? 0)%nat then fail DivisionByZero
  else mret (N.to_nat (r mod N.of_nat (sw_view_size s))).

End System.

(** ** Lookup *)

Section Operations.
Context `{UuidLib} `{Env}.

(** [uuid_compare] applied to a key and a node; the uuid is the first field
    of a node, so that [qsort] can pass two nodes. *)
Definition node_compare (key : uuid_t) (node : NodeState) : Z :=
  uuid_compare key (node_uuid node).

(** [bsearch(3)], with the comparison given as a function of the index. *)
Fixpoint bsearch_loop (fuel : nat) (cmp : nat → Z) (l u : nat) : option nat :=
  match fuel with
  | O => None
  | S fuel =>
      if (l <? u)%nat then
        let idx := ((l + u) / 2)%nat in
        if cmp idx <? 0 then bsearch_loop fuel cmp l idx
        else if 0 <? cmp idx then bsearch_loop fuel cmp (S idx) u
        else Some idx
      else None
  end.

Definition bsearch (key : uuid_t) (view : list NodeState) (nmemb : nat) : option nat :=
  bsearch_loop (S nmemb)
    (λ i, match view !! i with Some n => node_compare key n | None => 0 end) 0 nmemb.

(** [qsort(3)]: the comparison of two nodes. *)
Definition node_le (a b : NodeState) : Prop := node_compare (node_uuid a) b ≤ 0.

#[export] Instance node_le_dec : RelDecision node_le :=
  λ a b, Z_le_dec (node_compare (node_uuid a) b) 0.

Definition qsort (l : list NodeState) : list NodeState := merge_sort node_le l.

Definition swim_state_get_node (s : SWIM) (uuid : uuid_t) : option nat :=
  bsearch uuid (sw_view s) (sw_view_size s).

(** ** Operations *)

Definition swim_probe_invalidate : M unit :=
  modify (λ s, set_sw_probe {| pr_order := pr_order (sw_probe s);
                               pr_pos := pr_pos (sw_probe s); pr_size := 0 |} s).

Definition swim_state_suspect (uuid : uuid_t) (addr : sockaddr_storage) (addrlen : Z)
  : M (option nat) :=
  s ← get_swim;
  match swim_state_get_node s uuid with
  | Some node =>
      set_node node (set_node_status SWIM_STATUS_SUSPECT);;
      n ← node_at node;
      a ← lift (memcpy (wi_addr (ns_witness n)) (vec_to_list addr) addrlen);
      set_node node (set_ns_witness {| wi_addr := a; wi_addrlen := addrlen |});;
      mret (Some node)
  | None => mret None
  end.

(** The assignments [swim_state_notice] makes to a node it knows. *)
Definition notice_node (time incarnation : Z) (n : NodeState) : NodeState :=
  let stored := ni_incarnation (ns_info n) in
  if stored <? incarnation then
    set_node_last_seen time
      (set_node_status SWIM_STATUS_ALIVE (set_node_incarnation incarnation n))
  else if incarnation =? stored then
    match node_status n with
    | SWIM_STATUS_UNKNOWN | SWIM_STATUS_SUSPECT =>
        set_node_last_seen time (set_node_status SWIM_STATUS_ALIVE n)
    | SWIM_STATUS_ALIVE => set_node_last_seen time n
    | SWIM_STATUS_DEAD | STATUS_OTHER _ => n
    end
  else n.

(** The assertion of [swim_state_notice] and of gossip processing. *)
Definition known_info (i : NodeInfo) : bool :=
  (0 <? ni_last_seen i) && negb (bool_decide (ni_status i = SWIM_STATUS_UNKNOWN)).

Definition swim_state_notice (uuid : uuid_t) (time incarnation : Z) : M (option nat) :=
  s ← get_swim;
  match swim_state_get_node s uuid with
  | Some node =>
      n ← node_at node;
      lift (assert (known_info (ns_info n)));;
      set_node node (notice_node time incarnation);;
      mret (Some node)
  | None => mret None
  end.

(** [realloc] to twice the capacity: the old cells are kept, the new ones
    hold whatever the memory contains. *)
Definition view_grow : M bool :=
  s ← get_swim;
  k ← alloc;
  match k with
  | None => mret false
  | Some k =>
      put_swim (set_sw_view (sw_view s ++ (env_heap k <$> seq 0 (sw_view_capacity s)))
                 (set_sw_view_capacity (2 * sw_view_capacity s)%nat s));;
      mret true
  end.

(** The returned pointer is taken before the view is sorted. *)
Definition swim_state_add (info : NodeInfo) : M (option nat) :=
  s ← get_swim;
  lift (assert (negb (uuid_compare (ni_uuid info) (sw_uuid s) =? 0)));;
  lift (assert (bool_decide (swim_state_get_node s (ni_uuid info) = None)));;
  grown ← (if (sw_view_capacity s <=? sw_view_size s)%nat then view_grow else mret true);
  if grown : bool then
    s ← get_swim;
    let node := sw_view_size s in
    modify (set_sw_view_size (S (sw_view_size s)));;
    set_node node (set_ns_info info);;
    modify (λ s, set_sw_view (qsort (live s) ++ drop (sw_view_size s) (sw_view s)) s);;
    swim_probe_invalidate;;
    mret (Some node)
  else mret None.

(** The assignments [swim_state_merge] makes to a node it knows. *)
Definition merge_node (info : NodeInfo) (n : NodeState) : NodeState :=
  let stored := ni_incarnation (ns_info n) in
  if stored <? ni_incarnation info then
    swim_node_reset
      (set_node_status (ni_status info)
        (set_node_last_seen (ni_last_seen info)
          (set_node_incarnation (ni_incarnation info) n)))
  else if ni_incarnation info =? stored then
    match node_status n with
    | SWIM_STATUS_ALIVE | SWIM_STATUS_SUSPECT =>
        if status_code (node_status n) <? status_code (ni_status info) then
          swim_node_reset
            (set_node_last_seen (ni_last_seen info) (set_node_status (ni_status info) n))
        else if (status_code (ni_status info) =? status_code (node_status n))
                && (ni_last_seen (ns_info n) <? ni_last_seen info) then
          set_node_last_seen (ni_last_seen info) n
        else n
    | SWIM_STATUS_DEAD | SWIM_STATUS_UNKNOWN => swim_node_reset n
    | STATUS_OTHER _ => n
    end
  else n.

Definition swim_state_merge (info : NodeInfo) : M unit :=
  s ← get_swim;
  if uuid_compare (ni_uuid info) (sw_uuid s) =? 0 then mret tt
  else
    match swim_state_get_node s (ni_uuid info) with
    | None => swim_state_add info;; mret tt
    | Some node => set_node node (merge_node info)
    end.

Definition swim_state_del (uuid : uuid_t) : M (option nat) :=
  s ← get_swim;
  if uuid_compare uuid (sw_uuid s) =? 0 then mret None
  else
    match swim_state_get_node s uuid with
    | Some node =>
        set_node node (set_node_status SWIM_STATUS_DEAD);;
        swim_probe_invalidate;;
        mret (Some node)
    | None => mret None
    end.

End Operations.
