(* ===== verification/Printing.v ===== *)
(** * Printing: the texts of [swim/event.c], [swim/state.c], [swim/logging.h]
    and [swim/logging.c]

    How events and the view are shown, and where the texts go: to the standard
    error output, or to the functions an application has registered for log
    lines ([swim_set_log_sink]) and for the view
    ([swim_state_set_print_callback]).  The application is a parameter: its
    state, and functions on it. *)

From Stdlib Require Import Init.Byte Strings.Byte Strings.String ZArith Lia.
From stdpp Require Import base tactics list vector.
From S2P Require Import Prelude Bytes Node Event Text State.

Open Scope Z_scope.

(** ** Events: [swim/event.c] *)

(** [typedef int print_callback_t(Event* event, char* buf, size_t buflen)] *)
Definition print_callback_t : Type := Event → list byte → nat → outcome (list byte * Z).

(** [static char buf[128]] of [swim_event_print]. *)
Definition EVENT_BUF_SIZE : nat := 128.

Section Events.
Context `{TextEnv}.

Definition swim_print_ping : print_callback_t := λ event buf buflen,
  snprintf buf buflen (lit "PING").

Definition swim_print_ack : print_callback_t := λ event buf buflen,
  u ← uuid_arg 0 (ack_uuid event);
  snprintf buf buflen (lit "ACK(" ++ u ++ lit ")").

Definition swim_print_ping_req : print_callback_t := λ event buf buflen,
  u ← uuid_arg 0 (ping_req_uuid event);
  snprintf buf buflen (lit "PING_REQ(" ++ u ++ lit ")").

Definition swim_print_join : print_callback_t := λ event buf buflen,
  if 0 <? ev_join_addrlen event then
    u ← uuid_arg 0 (join_uuid event);
    a ← addr_arg 1 (ev_join_addr event) (ev_join_addrlen event);
    snprintf buf buflen (lit "JOIN(" ++ u ++ lit ", " ++ a ++ lit ")")
  else
    u ← uuid_arg 0 (join_uuid event);
    snprintf buf buflen (lit "JOIN(" ++ u ++ lit ")").

Definition swim_print_leave : print_callback_t := λ event buf buflen,
  u ← uuid_arg 0 (leave_uuid event);
  snprintf buf buflen (lit "LEAVE(" ++ u ++ lit ")").

(** The entries of the table that have no initialiser are null pointers. *)
Definition swim_event : list (option print_callback_t) :=
  [Some swim_print_ping; Some swim_print_ack; Some swim_print_ping_req]
  ++ replicate 13 None ++ [Some swim_print_join; Some swim_print_leave].

(** [buf] is the static buffer, whose contents are returned. *)
Definition swim_event_print (event : Event) (buf : list byte) : outcome (list byte) :=
  print ← index swim_event (event_type_code (eh_type (ev_hdr event)));
  match print with
  | None => Fault NullDeref
  | Some print =>
      '(buf, _) ← print event buf EVENT_BUF_SIZE;
      Ok buf
  end.

(** [buf] is the memory [ptr] points into, of which the first [buflen] bytes
    are cleared. *)
Definition swim_event_string (event : Event) (buf : list byte) (buflen : nat)
  : outcome (bool * list byte) :=
  buf ← write buf 0 (replicate buflen x00);
  let unparse (p : list byte * Z) :=
    buf ← write p.1 (Z.to_nat p.2) (uuid_unparse (eh_uuid (ev_hdr event)) ++ [x00]);
    Ok (true, buf) in
  match eh_type (ev_hdr event) with
  | EVENT_TYPE_PING => sprintf buf 0 (lit "ping from ") ≫= unparse
  | EVENT_TYPE_ACK => sprintf buf 0 (lit "ack from ") ≫= unparse
  | EVENT_TYPE_JOIN => sprintf buf 0 (lit "join from ") ≫= unparse
  | EVENT_TYPE_LEAVE => sprintf buf 0 (lit "leave from ") ≫= unparse
  | EVENT_TYPE_PING_REQ | EVENT_TYPE_OTHER _ => Ok (false, buf)
  end.

End Events.

(** [memcpy(event, buf, buflen)], on the memory of the event. *)
Definition swim_event_decode (event buf : list byte) (buflen : nat)
  : outcome (bool * list byte) :=
  if (buflen <=? length buf)%nat then
    event ← write event 0 (take buflen buf);
    Ok (true, event)
  else Fault OutOfBounds.

(** ** Names of the statuses *)

Definition status_name : list text :=
  [lit "UNKNOWN"; lit "ALIVE"; lit "SUSPECT"; lit "DEAD"].

Definition swim_status_name (status : Status) : outcome text :=
  index status_name (status_code status).

(** ** Where texts go *)

(** The static variables of [swim/logging.c], [swim/state.c] and
    [swim/event.c]: the switches, the registered functions (the data passed to
    them is part of the application), the buffer of [swim_event_print]; and
    what has been written to [stderr]. *)
Record Output (App : Type) : Type := {
  out_stderr : text;
  out_verbose : bool;
  out_tracing : bool;
  out_log_sink : option (text → App → outcome App);
  out_print : option (SWIM → App → outcome App);
  out_event_buf : list byte;
  out_app : App
}.
Arguments out_stderr {App} _.
Arguments out_verbose {App} _.
Arguments out_tracing {App} _.
Arguments out_log_sink {App} _.
Arguments out_print {App} _.
Arguments out_event_buf {App} _.
Arguments out_app {App} _.

Definition newline : text := [x0a].

Section Logging.
Context `{TextEnv} {App : Type}.
Implicit Types out : Output App.

Definition set_out_app (app : App) out : Output App :=
  {| out_stderr := out_stderr out; out_verbose := out_verbose out;
     out_tracing := out_tracing out; out_log_sink := out_log_sink out;
     out_print := out_print out; out_event_buf := out_event_buf out; out_app := app |}.

(** [fprintf(stderr, ...)] *)
Definition put_stderr (s : text) out : Output App :=
  {| out_stderr := out_stderr out ++ s; out_verbose := out_verbose out;
     out_tracing := out_tracing out; out_log_sink := out_log_sink out;
     out_print := out_print out; out_event_buf := out_event_buf out;
     out_app := out_app out |}.

Definition set_out_event_buf (buf : list byte) out : Output App :=
  {| out_stderr := out_stderr out; out_verbose := out_verbose out;
     out_tracing := out_tracing out; out_log_sink := out_log_sink out;
     out_print := out_print out; out_event_buf := buf; out_app := out_app out |}.

Definition swim_set_log_sink (sink : option (text → App → outcome App)) out : Output App :=
  {| out_stderr := out_stderr out; out_verbose := out_verbose out;
     out_tracing := out_tracing out; out_log_sink := sink;
     out_print := out_print out; out_event_buf := out_event_buf out;
     out_app := out_app out |}.

Definition swim_state_set_print_callback (cb : option (SWIM → App → outcome App)) out
  : Output App :=
  {| out_stderr := out_stderr out; out_verbose := out_verbose out;
     out_tracing := out_tracing out; out_log_sink := out_log_sink out;
     out_print := cb; out_event_buf := out_event_buf out; out_app := out_app out |}.

Definition LOG_BUF_SIZE : nat := 1024.

(** [msg] is the text the format and its arguments stand for. *)
Definition swim_log_write (msg : text) out : outcome (Output App) :=
  '(buf, _) ← snprintf (uninit 0 LOG_BUF_SIZE) LOG_BUF_SIZE msg;
  s ← cstring buf;
  match out_log_sink out with
  | Some log_sink => app ← log_sink s (out_app out); Ok (set_out_app app out)
  | None => Ok (put_stderr (s ++ newline) out)
  end.

(** The macro [LOG]: [now] is the result of [time(NULL)], and the message is
    made, by [msg], only if the log is on. *)
Definition LOG (now : Z) (msg : Output App → outcome (text * Output App)) out
  : outcome (Output App) :=
  if out_verbose out then
    match localtime_r now with
    | None => Fault NullDeref
    | Some t =>
        let '(timestr, n) := strftime (uninit 0 200) (lit "%c") t in
        if n =? 0 then Ok out
        else
          '(s, out) ← msg out;
          t ← cstring timestr;
          swim_log_write (t ++ lit " " ++ s) out
    end
  else Ok out.

Definition TRACE (func msg : text) out : outcome (Output App) :=
  if out_tracing out then swim_log_write (func ++ lit ": " ++ msg) out else Ok out.

(** The texts of the log lines: of [swim_recv_event] and [swim_send_event],
    which differ in the arrow, and of [swim_process_event]. *)
Definition transfer_message (arrow : text) (event : Event) (bytes : Z)
  (addr : sockaddr_storage) (addrlen : Z) out : outcome (text * Output App) :=
  buf ← swim_event_print event (out_event_buf out);
  e ← cstring buf;
  u ← uuid_arg 0 (eh_uuid (ev_hdr event));
  a ← addr_arg 1 addr addrlen;
  Ok (arrow ++ lit " " ++ e ++ lit " (" ++ decimal bytes ++ lit " bytes) node " ++ u
        ++ lit " addr " ++ a, set_out_event_buf buf out).

Definition process_message (event : Event) (addr : sockaddr_storage) (addrlen : Z) out
  : outcome (text * Output App) :=
  buf ← swim_event_print event (out_event_buf out);
  e ← cstring buf;
  u ← uuid_arg 0 (eh_uuid (ev_hdr event));
  a ← addr_arg 1 addr addrlen;
  Ok (lit "=== " ++ e ++ lit " from node " ++ u ++ lit " addr " ++ a,
      set_out_event_buf buf out).

End Logging.

(** ** The view: [swim_state_print] *)

Section State.
Context `{TextEnv} {App : Type}.

Definition time_as_string (time : Z) (buf : list byte) : option (list byte) :=
  match localtime_r time with
  | None => None
  | Some t => Some (strftime buf (lit "%F %T") t).1
  end.

Definition INET_ADDRSTRLEN : nat := 16.

(** The line of the [i]-th node, whose local buffers are numbered from [3 i],
    if its address has a text, and in any case. *)
Definition print_line (i : nat) (node : NodeState) (address : list byte) : outcome text :=
  witness ← (if 0 <? wi_addrlen (ns_witness node)
             then addr_buf (3 * i + 2) (wi_addr (ns_witness node))
                    (wi_addrlen (ns_witness node))
             else Ok (Some [x00]));
  u ← uuid_arg 0 (node_uuid node);
  t ← arg (time_as_string (ni_last_seen (ns_info node)) (uninit (3 * i + 3) 128));
  st ← swim_status_name (node_status node);
  a ← cstring address;
  w ← arg witness;
  Ok (pad 40 u ++ lit " " ++ pad 26 t ++ lit " " ++ pad 10 st ++ lit " "
        ++ pad (INET_ADDRSTRLEN + 5) a ++ lit " " ++ pad (INET_ADDRSTRLEN + 5) w
        ++ newline).

Definition print_node (i : nat) (node : NodeState) : outcome text :=
  address ← addr_buf (3 * i + 1) (ni_addr (ns_info node)) (ni_addrlen (ns_info node));
  match address with
  | Some address => print_line i node address
  | None =>
      u ← uuid_arg 0 (node_uuid node);
      t ← arg (time_as_string (ni_last_seen (ns_info node)) (uninit (3 * i + 3) 128));
      st ← swim_status_name (node_status node);
      Ok (pad 40 u ++ lit " " ++ pad 20 t ++ lit " " ++ pad 10 st ++ newline)
  end.

Definition print_heading (u : text) : text :=
  lit "UUID: " ++ u ++ newline
  ++ pad 40 (lit "UUID") ++ lit " " ++ pad 26 (lit "LAST_SEEN") ++ lit " "
  ++ pad 10 (lit "STATUS") ++ lit " " ++ pad (INET_ADDRSTRLEN + 5) (lit "ADDRESS")
  ++ lit " " ++ pad (INET_ADDRSTRLEN + 5) (lit "WITNESS") ++ newline.

(** [for (int i = 0; i < swim->view_size; ++i)] *)
Definition print_nodes (s : SWIM) : outcome (list text) :=
  mapM (λ i, node ← index (sw_view s) (Z.of_nat i); print_node i node)
    (seq 0 (sw_view_size s)).

Definition swim_state_print (s : SWIM) (out : Output App) : outcome (Output App) :=
  match out_print out with
  | Some print_callback => app ← print_callback s (out_app out); Ok (set_out_app app out)
  | None =>
      u ← uuid_arg 0 (sw_uuid s);
      rows ← print_nodes s;
      Ok (put_stderr (print_heading u ++ concat rows) out)
  end.

End State.
