(* ===== verification/StateFacts.v ===== *)
(** * Correctness of the operations on the view

    The invariant of a server's state, the equivalence of the binary search
    with a search of the whole view, and what each operation does to the view
    seen as a finite map from uuids to nodes. *)

From Stdlib Require Import Init.Byte ZArith Lia.
From stdpp Require Import base tactics list vector sorting gmap.
From S2P Require Import Prelude Bytes Node Event State.

Open Scope Z_scope.

(** ** The view as a map *)

Definition uuids (s : SWIM) : list uuid_t := node_uuid <$> live s.

Definition nodes_map (l : list NodeState) : gmap uuid_t NodeState :=
  list_to_map ((λ n, (node_uuid n, n)) <$> l).

Definition view_map (s : SWIM) : gmap uuid_t NodeState := nodes_map (live s).

(** ** Reasoning about computations

    [wp m Q F w]: from the world [w], [m] either returns a value and a world
    in [Q] or faults with a fault and a world in [F]. *)

Definition wp {A} (m : M A) (Q : A → World → Prop) (F : fault → World → Prop)
  (w : World) : Prop :=
  match m w with
  | (Ok a, w') => Q a w'
  | (Fault f, w') => F f w'
  end.

Section Wp.
Context {A B : Type}.

Lemma wp_bind (m : M A) (k : A → M B) Q F w :
  wp m (λ a, wp (k a) Q F) F w → wp (a ← m; k a) Q F w.
Proof. unfold wp, mbind, M_bind. by destruct (m w) as [[?|?] ?]. Qed.

Lemma bind_run (m : M A) (k : A → M B) w a w' :
  m w = (Ok a, w') → (a ← m; k a) w = k a w'.
Proof. unfold mbind, M_bind. by intros ->. Qed.

Lemma wp_ret (a : A) Q F w : Q a w → wp (mret a) Q F w.
Proof. done. Qed.

Lemma wp_mono (m : M A) (Q Q' : A → World → Prop) (F F' : fault → World → Prop) w :
  wp m Q F w → (∀ a w', Q a w' → Q' a w') → (∀ f w', F f w' → F' f w') → wp m Q' F' w.
Proof. unfold wp. destruct (m w) as [[?|?] ?]; auto. Qed.

Lemma wp_step (m : M A) (k : A → M B) Q F w a w' :
  m w = (Ok a, w') → wp (k a) Q F w' → wp (a ← m; k a) Q F w.
Proof. intros Hm. unfold wp. by rewrite (bind_run _ _ _ _ _ Hm). Qed.

Lemma wp_run (m : M A) Q F w a w' : m w = (Ok a, w') → Q a w' → wp m Q F w.
Proof. unfold wp. by intros ->. Qed.

End Wp.

(** ** The invariant *)

Section Invariant.
Context `{UuidLib}.

(** The schedule is either invalid or a permutation of the whole view. *)
Definition probe_wf (s : SWIM) : Prop :=
  pr_size (sw_probe s) = 0%nat ∨
  (pr_size (sw_probe s) = sw_view_size s ∧
   pr_order (sw_probe s) ≡ₚ seq 0 (sw_view_size s)).

(** The nodes of a view: strictly sorted by uuid, without the server itself. *)
Definition nodes_wf (self : uuid_t) (l : list NodeState) : Prop :=
  StronglySorted uuid_lt (node_uuid <$> l) ∧ self ∉ node_uuid <$> l.

Record swim_wf (s : SWIM) : Prop := {
  wf_capacity : length (sw_view s) = sw_view_capacity s;
  wf_capacity_pos : (0 < sw_view_capacity s)%nat;
  wf_size : (sw_view_size s ≤ sw_view_capacity s)%nat;
  wf_nodes : nodes_wf (sw_uuid s) (live s);
  wf_probe : probe_wf s
}.

End Invariant.

(** ** Binary search *)

Lemma bsearch_loop_sound fuel cmp l u i :
  bsearch_loop fuel cmp l u = Some i → (l ≤ i < u)%nat ∧ cmp i = 0.
Proof.
  revert l u; induction fuel as [|fuel IH]; intros l u E; cbn [bsearch_loop] in E; [done|].
  destruct (Nat.ltb_spec l u); [|done].
  pose proof (Nat.div_lt_upper_bound (l + u) 2 u ltac:(lia) ltac:(lia)).
  pose proof (Nat.div_le_lower_bound (l + u) 2 l ltac:(lia) ltac:(lia)).
  destruct (Z.ltb_spec (cmp ((l + u) / 2)%nat) 0); [apply IH in E; lia|].
  destruct (Z.ltb_spec 0 (cmp ((l + u) / 2)%nat)); [apply IH in E; lia|].
  simplify_eq. lia.
Qed.

(** On an array that [cmp] orders, the loop finds an element if there is one:
    it terminates within [u - l] iterations. *)
Lemma bsearch_loop_complete fuel cmp l u k :
  (∀ i j, (l ≤ i < j)%nat → (j < u)%nat → cmp j = 0 → 0 < cmp i) →
  (∀ i j, (l ≤ i < j)%nat → (j < u)%nat → cmp i = 0 → cmp j < 0) →
  (l ≤ k < u)%nat → cmp k = 0 → (u - l < fuel)%nat →
  bsearch_loop fuel cmp l u = Some k.
Proof.
  revert l u; induction fuel as [|fuel IH]; intros l u Hlo Hhi Hk Ek Hf; [lia|]. cbn [bsearch_loop].
  destruct (Nat.ltb_spec l u); [|lia].
  pose proof (Nat.div_lt_upper_bound (l + u) 2 u ltac:(lia) ltac:(lia)).
  pose proof (Nat.div_le_lower_bound (l + u) 2 l ltac:(lia) ltac:(lia)).
  set (m := ((l + u) / 2)%nat) in *.
  destruct (Nat.lt_trichotomy m k) as [Hm|[->|Hm]].
  - pose proof (Hlo m k ltac:(lia) ltac:(lia) Ek).
    rewrite (proj2 (Z.ltb_ge _ _)), (proj2 (Z.ltb_lt _ _)) by lia.
    apply IH; [intros; eapply Hlo|intros; eapply Hhi|..]; eauto; lia.
  - by rewrite Ek.
  - pose proof (Hhi k m ltac:(lia) ltac:(lia) Ek).
    rewrite (proj2 (Z.ltb_lt _ _)) by lia.
    apply IH; [intros; eapply Hlo|intros; eapply Hhi|..]; eauto; lia.
Qed.

Section Lookup.
Context {U : UuidLib} {UL : UuidLaws U}.

Lemma live_lookup_Some s i n :
  live s !! i = Some n ↔ sw_view s !! i = Some n ∧ (i < sw_view_size s)%nat.
Proof. unfold live. by rewrite lookup_take_Some. Qed.

Lemma nodes_wf_NoDup self l : nodes_wf self l → NoDup (node_uuid <$> l).
Proof.
  intros [Hs _]. by apply (StronglySorted_NoDup uuid_lt).
Qed.

(** The binary search finds exactly the nodes of the view. *)
Lemma get_node_Some s u i :
  swim_wf s →
  swim_state_get_node s u = Some i ↔ ∃ n, live s !! i = Some n ∧ node_uuid n = u.
Proof.
  intros [Hcap _ Hsz [Hs _] _]. unfold swim_state_get_node, bsearch. split.
  - intros E. apply bsearch_loop_sound in E as [Hi E].
    destruct (lookup_lt_is_Some_2 (sw_view s) i ltac:(lia)) as [n Hn]. rewrite Hn in E.
    exists n. rewrite live_lookup_Some. split; [by split; [|lia]|].
    symmetry. by apply uuid_compare_eq.
  - intros (n & Hn & <-). apply live_lookup_Some in Hn as [Hn Hlt].
    assert (∀ a b x y, (a < b)%nat → (b < sw_view_size s)%nat →
      sw_view s !! a = Some x → sw_view s !! b = Some y → uuid_lt (node_uuid x) (node_uuid y))
      as Hord.
    { intros a b x y Hab Hb Hx Hy. eapply StronglySorted_lookup; [exact Hs| | |exact Hab];
        rewrite list_lookup_fmap;
        [rewrite (proj2 (live_lookup_Some s a x)) by (split; [done|lia])
        |rewrite (proj2 (live_lookup_Some s b y)) by (split; [done|lia])]; done. }
    apply bsearch_loop_complete; [| |lia| |lia].
    + intros a b [_ Hab] Hb E.
      destruct (lookup_lt_is_Some_2 (sw_view s) a ltac:(lia)) as [x Hx]. rewrite Hx.
      destruct (lookup_lt_is_Some_2 (sw_view s) b ltac:(lia)) as [y Hy]. rewrite Hy in E.
      unfold node_compare in *. apply uuid_compare_eq in E. rewrite E.
      apply uuid_compare_lt_gt. eauto.
    + intros a b [_ Hab] Hb E.
      destruct (lookup_lt_is_Some_2 (sw_view s) a ltac:(lia)) as [x Hx]. rewrite Hx in E.
      destruct (lookup_lt_is_Some_2 (sw_view s) b ltac:(lia)) as [y Hy]. rewrite Hy.
      unfold node_compare in *. apply uuid_compare_eq in E. rewrite E.
      change (uuid_lt (node_uuid x) (node_uuid y)). eauto.
    + rewrite Hn. apply uuid_compare_refl.
Qed.

Lemma get_node_None s u :
  swim_wf s → swim_state_get_node s u = None ↔ u ∉ uuids s.
Proof.
  intros Hwf. rewrite eq_None_not_Some. unfold uuids.
  rewrite list_elem_of_fmap. split; intros Hn Hu; apply Hn; clear Hn.
  - destruct Hu as (n & -> & Hu). apply list_elem_of_lookup in Hu as [i Hi].
    exists i. apply get_node_Some; eauto.
  - destruct Hu as [i Hi]. apply get_node_Some in Hi as (n & Hi & <-); [|done].
    exists n. split; [done|]. apply list_elem_of_lookup. eauto.
Qed.

End Lookup.

(** ** Updates of the view *)

Section Updates.
Context {U : UuidLib} {UL : UuidLaws U}.

Lemma nodes_map_Some l u n :
  NoDup (node_uuid <$> l) → nodes_map l !! u = Some n ↔ n ∈ l ∧ node_uuid n = u.
Proof.
  intros Hnd. unfold nodes_map. rewrite <-elem_of_list_to_map.
  - rewrite list_elem_of_fmap. naive_solver.
  - rewrite <-list_fmap_compose. done.
Qed.

Lemma view_map_lookup s u n : view_map s !! u = Some n → n ∈ live s ∧ node_uuid n = u.
Proof.
  unfold view_map, nodes_map. intros Hm%elem_of_list_to_map_2.
  apply list_elem_of_fmap in Hm as (m & [= -> ->] & Hm). done.
Qed.

Lemma nodes_map_None l u : nodes_map l !! u = None ↔ u ∉ node_uuid <$> l.
Proof.
  unfold nodes_map. rewrite <-not_elem_of_list_to_map.
  rewrite <-list_fmap_compose. done.
Qed.

Lemma nodes_map_cons n l : nodes_map (n :: l) = <[node_uuid n := n]> (nodes_map l).
Proof. done. Qed.

Lemma nodes_map_permutation l l' :
  NoDup (node_uuid <$> l) → l ≡ₚ l' → nodes_map l = nodes_map l'.
Proof.
  intros Hnd Hp. unfold nodes_map. apply list_to_map_proper.
  - rewrite <-list_fmap_compose. done.
  - by rewrite Hp.
Qed.

Lemma uuids_insert (l : list NodeState) i n n' :
  l !! i = Some n → node_uuid n' = node_uuid n →
  node_uuid <$> <[i := n']> l = node_uuid <$> l.
Proof.
  intros Hi Hu. rewrite list_fmap_insert. apply list_insert_id.
  by rewrite list_lookup_fmap, Hi, Hu.
Qed.

Lemma nodes_map_insert (l : list NodeState) i n n' :
  NoDup (node_uuid <$> l) → l !! i = Some n → node_uuid n' = node_uuid n →
  nodes_map (<[i := n']> l) = <[node_uuid n := n']> (nodes_map l).
Proof.
  intros Hnd Hi Hu.
  assert (l ≡ₚ n :: delete i l) as Hp by by apply delete_Permutation.
  assert (<[i := n']> l ≡ₚ n' :: delete i l) as Hp'.
  { rewrite insert_take_drop by (by eapply lookup_lt_Some).
    by rewrite delete_take_drop, Permutation_middle. }
  rewrite (nodes_map_permutation _ _ ltac:(by erewrite uuids_insert) Hp').
  rewrite (nodes_map_permutation _ _ Hnd Hp).
  by rewrite !nodes_map_cons, Hu, insert_insert_eq.
Qed.

(** What is shared by all operations on the view: the identity of the server
    and its clock are left alone. *)
Record same_self (s s' : SWIM) : Prop := {
  same_uuid : sw_uuid s' = sw_uuid s;
  same_incarnation : sw_incarnation s' = sw_incarnation s;
  same_last_heartbeat : sw_last_heartbeat s' = sw_last_heartbeat s;
  same_sockfd : sw_sockfd s' = sw_sockfd s
}.

(** [s'] is [s] with the node at index [i] replaced by [n']. *)
Record node_updated (s : SWIM) (i : nat) (n' : NodeState) (s' : SWIM) : Prop := {
  nu_wf : swim_wf s';
  nu_live : live s' = <[i := n']> (live s);
  nu_map : view_map s' = <[node_uuid n' := n']> (view_map s);
  nu_same : same_self s s';
  nu_size : sw_view_size s' = sw_view_size s
}.

Lemma live_insert s i n' :
  live (set_sw_view (<[i := n']> (sw_view s)) s) = <[i := n']> (live s).
Proof.
  unfold live. simpl. destruct (decide (i < sw_view_size s)%nat).
  - by rewrite take_insert_lt.
  - rewrite take_insert_ge by lia. rewrite list_insert_ge; [done|].
    rewrite length_take. lia.
Qed.

Lemma node_updated_intro s i n n' :
  swim_wf s → live s !! i = Some n → node_uuid n' = node_uuid n →
  node_updated s i n' (set_sw_view (<[i := n']> (sw_view s)) s).
Proof.
  intros Hwf Hi Hu. pose proof (nodes_wf_NoDup _ _ (wf_nodes s Hwf)).
  destruct Hwf as [Hc Hp Hsz [Hs Hself] Hpr]. split; [|apply live_insert| |done..].
  - split; simpl; [by rewrite length_insert|done..| |done].
    unfold nodes_wf. rewrite live_insert. by erewrite uuids_insert by done.
  - unfold view_map. rewrite live_insert, Hu. by erewrite nodes_map_insert.
Qed.

(** The two possible answers of a lookup. *)
Lemma get_node_cases s u :
  swim_wf s →
  (swim_state_get_node s u = None ∧ view_map s !! u = None) ∨
  (∃ i n, swim_state_get_node s u = Some i ∧ live s !! i = Some n ∧
          sw_view s !! i = Some n ∧ node_uuid n = u ∧ view_map s !! u = Some n).
Proof.
  intros Hwf. pose proof (nodes_wf_NoDup _ _ (wf_nodes s Hwf)) as Hnd.
  destruct (swim_state_get_node s u) as [i|] eqn:E; [right|left].
  - apply get_node_Some in E as (n & Hn & Hu); [|done]. exists i, n.
    split_and!; [done..|by apply live_lookup_Some in Hn as []|done|].
    apply nodes_map_Some; [done|]. split; [|done]. apply list_elem_of_lookup. eauto.
  - apply get_node_None in E; [|done]. split; [done|]. by apply nodes_map_None.
Qed.

Lemma set_node_run i f n w :
  sw_view (w_swim w) !! i = Some n →
  set_node i f w =
    (Ok tt, with_swim (set_sw_view (<[i := f n]> (sw_view (w_swim w))) (w_swim w)) w).
Proof.
  intros Hi. unfold set_node, node_at, modify, mbind, M_bind, get_swim. by rewrite Hi.
Qed.

Lemma node_at_run i n w :
  sw_view (w_swim w) !! i = Some n → node_at i w = (Ok n, w).
Proof. intros Hi. unfold node_at, mbind, M_bind, get_swim. by rewrite Hi. Qed.

Lemma with_swim_id w : with_swim (w_swim w) w = w.
Proof. by destruct w. Qed.

End Updates.

(** ** Operations on known nodes *)

(** Run a computation whose first steps are known. *)
Ltac run_step :=
  cbn [mbind M_bind mret M_ret get_swim put_swim lift fail outcome_bind] in *.

Section Operations.
Context {U : UuidLib} {UL : UuidLaws U} {E : Env}.

Lemma uuid_compare_neq a b : a ≠ b → (uuid_compare a b =? 0) = false.
Proof. intros Hab. rewrite uuid_eqb_spec. by apply bool_decide_eq_false. Qed.

Lemma uuid_compare_same a : (uuid_compare a a =? 0) = true.
Proof. rewrite uuid_eqb_spec. by apply bool_decide_eq_true. Qed.

Lemma node_uuid_notice t inc n : node_uuid (notice_node t inc n) = node_uuid n.
Proof. unfold notice_node. by repeat case_match. Qed.

Lemma node_uuid_merge info n : node_uuid (merge_node info n) = node_uuid n.
Proof. unfold merge_node. by repeat case_match. Qed.

Lemma notice_run u t inc w :
  swim_wf (w_swim w) →
  (view_map (w_swim w) !! u = None ∧ swim_state_notice u t inc w = (Ok None, w)) ∨
  (∃ i n, view_map (w_swim w) !! u = Some n ∧ live (w_swim w) !! i = Some n ∧
     if known_info (ns_info n)
     then ∃ s', swim_state_notice u t inc w = (Ok (Some i), with_swim s' w) ∧
            node_updated (w_swim w) i (notice_node t inc n) s'
     else swim_state_notice u t inc w = (Fault AssertFailed, w)).
Proof.
  intros Hwf. unfold swim_state_notice, mbind, M_bind. run_step.
  destruct (get_node_cases (w_swim w) u Hwf) as [[-> ?]|(i & n & -> & Hi & Hi' & Hu & Hm)];
    [by left|right].
  exists i, n. split; [done|]. split; [done|]. rewrite (node_at_run i n) by done.
  destruct (known_info (ns_info n)); [|done]. simpl.
  rewrite (set_node_run i _ n) by done. eexists. split; [done|].
  by eapply node_updated_intro; [..|apply node_uuid_notice].
Qed.

Lemma suspect_run u addr addrlen w :
  swim_wf (w_swim w) → 0 ≤ addrlen ≤ 128 →
  (view_map (w_swim w) !! u = None ∧ swim_state_suspect u addr addrlen w = (Ok None, w)) ∨
  (∃ i n s', view_map (w_swim w) !! u = Some n ∧ live (w_swim w) !! i = Some n ∧
     swim_state_suspect u addr addrlen w = (Ok (Some i), with_swim s' w) ∧
     node_updated (w_swim w) i
       (set_ns_witness
          {| wi_addr := array_of 128 (take (Z.to_nat addrlen) (vec_to_list addr) ++
               drop (Z.to_nat addrlen) (vec_to_list (wi_addr (ns_witness n))));
             wi_addrlen := addrlen |} (set_node_status SWIM_STATUS_SUSPECT n)) s').
Proof.
  intros Hwf Hl. unfold swim_state_suspect, mbind, M_bind. run_step.
  destruct (get_node_cases (w_swim w) u Hwf) as [[-> ?]|(i & n & -> & Hi & Hi' & Hu & Hm)];
    [by left|right].
  exists i, n. rewrite (set_node_run i _ n) by done.
  assert (i < length (sw_view (w_swim w)))%nat as Hlt by by eapply lookup_lt_Some.
  rewrite (node_at_run i (set_node_status SWIM_STATUS_SUSPECT n)).
  2:{ simpl. by rewrite list_lookup_insert_eq. }
  rewrite memcpy_ok by (rewrite ?length_array; lia). simpl.
  rewrite (set_node_run i _ (set_node_status SWIM_STATUS_SUSPECT n)).
  2:{ simpl. by rewrite list_lookup_insert_eq. }
  eexists. split_and!; [done..|]. simpl. unfold set_sw_view at 1. simpl.
  rewrite list_insert_insert_eq. by eapply node_updated_intro.
Qed.

Lemma del_run u w :
  swim_wf (w_swim w) →
  (u = sw_uuid (w_swim w) ∧ swim_state_del u w = (Ok None, w)) ∨
  (u ≠ sw_uuid (w_swim w) ∧ view_map (w_swim w) !! u = None ∧
     swim_state_del u w = (Ok None, w)) ∨
  (∃ i n s', u ≠ sw_uuid (w_swim w) ∧ view_map (w_swim w) !! u = Some n ∧
     live (w_swim w) !! i = Some n ∧
     swim_state_del u w = (Ok (Some i), with_swim s' w) ∧ pr_size (sw_probe s') = 0%nat ∧
     node_updated (w_swim w) i (set_node_status SWIM_STATUS_DEAD n) s').
Proof.
  intros Hwf. unfold swim_state_del, mbind, M_bind. run_step.
  destruct (decide (u = sw_uuid (w_swim w))) as [->|Hne].
  { left. by rewrite uuid_compare_same. }
  rewrite uuid_compare_neq by done. right.
  destruct (get_node_cases (w_swim w) u Hwf) as [[-> ?]|(i & n & -> & Hi & Hi' & Hu & Hm)];
    [by left|right].
  exists i, n. rewrite (set_node_run i _ n) by done.
  eexists. split_and!; [done..|].
  pose proof (node_updated_intro (w_swim w) i n (set_node_status SWIM_STATUS_DEAD n)
    Hwf Hi eq_refl) as [[] ? ? [] ?].
  split; [|done..]. split; [done..|]. by left.
Qed.

End Operations.

(** ** Adding a node *)

Section Adding.
Context {U : UuidLib} {UL : UuidLaws U} {E : Env}.

Lemma node_le_spec a b :
  node_le a b ↔ uuid_lt (node_uuid a) (node_uuid b) ∨ node_uuid a = node_uuid b.
Proof.
  unfold node_le, node_compare, uuid_lt. rewrite <-uuid_compare_eq. lia.
Qed.

#[export] Instance node_le_total : Total node_le.
Proof.
  intros a b. rewrite !node_le_spec.
  destruct (uuid_total (node_uuid a) (node_uuid b)) as [|[|]]; auto.
Qed.

#[export] Instance node_le_trans : Transitive node_le.
Proof.
  intros a b c. rewrite !node_le_spec. intros [Hab| ->] [Hbc|Hbc]; rewrite <-?Hbc; auto.
  left. by transitivity (node_uuid b).
Qed.

Lemma qsort_permutation l : qsort l ≡ₚ l.
Proof. apply merge_sort_Permutation. Qed.

Lemma strongly_sorted_strict l :
  StronglySorted node_le l → NoDup (node_uuid <$> l) →
  StronglySorted uuid_lt (node_uuid <$> l).
Proof.
  induction 1 as [|n l Hs IH Hn]; intros Hnd; [constructor|].
  rewrite fmap_cons in *. apply NoDup_cons in Hnd as [Hin Hnd].
  constructor; [auto|]. apply Forall_fmap. rewrite Forall_forall in Hn |- *.
  intros m Hm. simpl. specialize (Hn m Hm). apply node_le_spec in Hn as [|Heq]; [done|].
  exfalso. apply Hin. rewrite Heq. by apply list_elem_of_fmap_2.
Qed.

Lemma qsort_sorted l :
  NoDup (node_uuid <$> l) → StronglySorted uuid_lt (node_uuid <$> qsort l).
Proof.
  intros Hnd. apply strongly_sorted_strict; [apply (StronglySorted_merge_sort node_le)|].
  by rewrite qsort_permutation.
Qed.

(** With distinct keys there is one sorted arrangement only: whatever sorting
    algorithm [qsort] uses, the result is the same. *)
Lemma sorted_unique (l l' : list NodeState) :
  l ≡ₚ l' → StronglySorted uuid_lt (node_uuid <$> l) →
  StronglySorted uuid_lt (node_uuid <$> l') → l = l'.
Proof.
  revert l'; induction l as [|a l IH]; intros l' Hp Hs Hs'.
  { by apply Permutation_nil_l in Hp. }
  destruct l' as [|b l']; [by apply Permutation_nil_r in Hp|].
  rewrite fmap_cons in *. inversion Hs as [|? ? Hs1 Ha]; subst.
  inversion Hs' as [|? ? Hs1' Hb]; subst.
  rewrite Forall_fmap in Ha, Hb. rewrite Forall_forall in Ha, Hb.
  assert (a = b) as ->.
  { assert (a ∈ b :: l') as Ha' by (rewrite <-Hp; left).
    assert (b ∈ a :: l) as Hb' by (rewrite Hp; left).
    apply elem_of_cons in Ha' as [|Ha']; [done|].
    apply elem_of_cons in Hb' as [|Hb']; [done|].
    exfalso. apply (irreflexivity uuid_lt (node_uuid a)).
    transitivity (node_uuid b); [by apply Ha|by apply Hb]. }
  f_equal. apply IH; [|done..]. by apply Permutation_cons_inv in Hp.
Qed.

Record node_added (s : SWIM) (info : NodeInfo) (cell : NodeState) (s' : SWIM) : Prop := {
  na_wf : swim_wf s';
  na_live : live s' = qsort (live s ++ [set_ns_info info cell]);
  na_map : view_map s' = <[ni_uuid info := set_ns_info info cell]> (view_map s);
  na_same : same_self s s';
  na_size : sw_view_size s' = S (sw_view_size s);
  na_probe : pr_size (sw_probe s') = 0%nat
}.

(** The body of [swim_state_add] once there is room for the node. *)
Definition place (info : NodeInfo) (cell : NodeState) (s : SWIM) : SWIM :=
  let v := <[sw_view_size s := set_ns_info info cell]> (sw_view s) in
  set_sw_probe {| pr_order := pr_order (sw_probe s); pr_pos := pr_pos (sw_probe s); pr_size := 0 |}
    (set_sw_view (qsort (take (S (sw_view_size s)) v) ++ drop (S (sw_view_size s)) v)
      (set_sw_view_size (S (sw_view_size s)) s)).

Lemma place_added s info cell :
  swim_wf s → sw_view s !! sw_view_size s = Some cell →
  ni_uuid info ≠ sw_uuid s → view_map s !! ni_uuid info = None →
  node_added s info cell (place info cell s).
Proof.
  intros Hwf Hcell Hself Hnew.
  pose proof (nodes_wf_NoDup _ _ (wf_nodes s Hwf)) as Hnd.
  destruct Hwf as [Hc Hp Hsz [Hs Hs'] Hpr].
  apply nodes_map_None in Hnew.
  pose proof (lookup_lt_Some _ _ _ Hcell) as Hlt.
  assert (take (S (sw_view_size s)) (<[sw_view_size s := set_ns_info info cell]> (sw_view s))
          = live s ++ [set_ns_info info cell]) as Htake.
  { rewrite (take_S_r _ _ (set_ns_info info cell)) by by apply list_lookup_insert_eq.
    by rewrite take_insert_ge. }
  assert (NoDup (node_uuid <$> live s ++ [set_ns_info info cell])) as Hnd'.
  { rewrite fmap_app, NoDup_app. split_and!; [done| |apply NoDup_singleton].
    intros u Hu ->%list_elem_of_singleton. by apply Hnew. }
  assert (live (place info cell s) = qsort (live s ++ [set_ns_info info cell])) as Hlive.
  { unfold live at 1. simpl. rewrite Htake. rewrite take_app_length'; [done|].
    rewrite qsort_permutation, <-Htake, length_take, length_insert. lia. }
  assert (view_map (place info cell s)
          = <[ni_uuid info := set_ns_info info cell]> (view_map s)) as Hmap.
  { unfold view_map. rewrite Hlive.
    rewrite (nodes_map_permutation _ (set_ns_info info cell :: live s)); [done| |].
    - by rewrite qsort_permutation.
    - rewrite qsort_permutation. by rewrite <-Permutation_cons_append. }
  split; [|done..]. split.
  - simpl. rewrite length_app, qsort_permutation, <-length_app, take_drop. by rewrite length_insert.
  - done.
  - simpl. lia.
  - rewrite Hlive. split; [by apply qsort_sorted|].
    rewrite qsort_permutation, fmap_app, elem_of_app.
    intros [?|Hin%list_elem_of_singleton]; [done|]. by apply Hself.
  - by left.
Qed.

(** A view that has been reallocated. *)
Definition grown (k : nat) (s : SWIM) : SWIM :=
  set_sw_view (sw_view s ++ (env_heap k <$> seq 0 (sw_view_capacity s)))
    (set_sw_view_capacity (2 * sw_view_capacity s)%nat s).

Lemma live_grown k s : swim_wf s → live (grown k s) = live s.
Proof.
  intros [Hc _ Hsz _ _]. unfold live, grown. simpl. by rewrite take_app_le by lia.
Qed.

Lemma grown_wf k s : swim_wf s → swim_wf (grown k s).
Proof.
  intros Hwf. pose proof (live_grown k s Hwf) as Hl. destruct Hwf as [Hc Hp Hsz Hn Hpr].
  split; [..|by rewrite Hl|done]; simpl; [|lia..].
  rewrite length_app, length_fmap, length_seq, Hc. lia.
Qed.

Lemma view_grow_run w :
  ∃ w', view_grow w = (Ok (env_alloc (w_allocs w)), w') ∧ w_out w' = w_out w ∧
    w_swim w' = if env_alloc (w_allocs w) then grown (w_allocs w) (w_swim w) else w_swim w.
Proof.
  unfold view_grow, alloc, mbind, M_bind. run_step.
  destruct (env_alloc (w_allocs w)); eexists; by split_and!.
Qed.

Lemma place_run info cell w :
  sw_view (w_swim w) !! sw_view_size (w_swim w) = Some cell →
  (modify (set_sw_view_size (S (sw_view_size (w_swim w))));;
   set_node (sw_view_size (w_swim w)) (set_ns_info info);;
   modify (λ s, set_sw_view (qsort (live s) ++ drop (sw_view_size s) (sw_view s)) s);;
   swim_probe_invalidate;;
   mret (Some (sw_view_size (w_swim w)))) w
  = (Ok (Some (sw_view_size (w_swim w))), with_swim (place info cell (w_swim w)) w).
Proof.
  intros Hc. unfold mbind at 1, M_bind at 1. simpl.
  unfold mbind at 1, M_bind at 1. by rewrite (set_node_run _ _ cell) by done.
Qed.

(** What is left of [swim_state_add] once its assertions hold. *)
Definition add_checked (info : NodeInfo) (s : SWIM) : M (option nat) :=
  grown ← (if (sw_view_capacity s <=? sw_view_size s)%nat then view_grow else mret true);
  if grown : bool then
    s ← get_swim;
    let node := sw_view_size s in
    modify (set_sw_view_size (S (sw_view_size s)));;
    set_node node (set_ns_info info);;
    modify (λ s, set_sw_view (qsort (live s) ++ drop (sw_view_size s) (sw_view s)) s);;
    swim_probe_invalidate;;
    mret (Some node)
  else mret None.

Lemma add_checks info w :
  swim_wf (w_swim w) → ni_uuid info ≠ sw_uuid (w_swim w) →
  view_map (w_swim w) !! ni_uuid info = None →
  swim_state_add info w = add_checked info (w_swim w) w.
Proof.
  intros Hwf Hself Hnew. unfold swim_state_add, mbind at 1, M_bind at 1. run_step.
  rewrite uuid_compare_neq by done.
  destruct (get_node_cases (w_swim w) (ni_uuid info) Hwf) as [[Hg _]|(?&?&_&_&_&_&?)];
    [|congruence].
  by rewrite bool_decide_eq_true_2.
Qed.

Lemma add_run info w :
  swim_wf (w_swim w) → ni_uuid info ≠ sw_uuid (w_swim w) →
  view_map (w_swim w) !! ni_uuid info = None →
  (∃ w', swim_state_add info w = (Ok None, w') ∧ w_swim w' = w_swim w ∧
     w_out w' = w_out w ∧ env_alloc (w_allocs w) = false ∧
     sw_view_size (w_swim w) = sw_view_capacity (w_swim w)) ∨
  (∃ cell w', swim_state_add info w = (Ok (Some (sw_view_size (w_swim w))), w') ∧
     w_out w' = w_out w ∧ node_added (w_swim w) info cell (w_swim w') ∧
     cell = default (env_heap (w_allocs w) 0) (sw_view (w_swim w) !! sw_view_size (w_swim w))).
Proof.
  intros Hwf Hself Hnew. rewrite add_checks by done. unfold add_checked.
  pose proof (wf_size _ Hwf). pose proof (wf_capacity _ Hwf) as Hc.
  destruct (Nat.leb_spec (sw_view_capacity (w_swim w)) (sw_view_size (w_swim w))) as [Hle|Hlt].
  - destruct (view_grow_run w) as (w1 & Hrun & Hout & Hw1).
    rewrite (bind_run _ _ _ _ _ Hrun). destruct (env_alloc (w_allocs w)) eqn:Ea; [right|left].
    2:{ exists w1. split_and!; [done..|lia]. }
    set (k := w_allocs w).
    assert (sw_view (w_swim w) !! sw_view_size (w_swim w) = None) as Hnone
      by (apply lookup_ge_None_2; lia).
    assert (sw_view (grown k (w_swim w)) !! sw_view_size (w_swim w) = Some (env_heap k 0)) as Hcell.
    { unfold grown. simpl. rewrite lookup_app_r, list_lookup_fmap by lia.
      pose proof (wf_capacity_pos _ Hwf).
      replace (_ - _)%nat with 0%nat by lia. by rewrite lookup_seq_lt by lia. }
    exists (env_heap k 0). eexists. rewrite Hnone.
    rewrite (bind_run get_swim _ w1 (w_swim w1) w1) by done. rewrite Hw1. split_and!; [|..|done].
    + rewrite <-Hw1. rewrite (place_run info (env_heap k 0)) by (rewrite Hw1; exact Hcell).
      by rewrite Hw1.
    + by rewrite <-Hout.
    + simpl. pose proof (place_added (grown k (w_swim w)) info (env_heap k 0)
        (grown_wf _ _ Hwf) Hcell) as [? Hl Hm [] ? ?]; [done| |].
      { unfold view_map. by rewrite live_grown. }
      unfold view_map in Hm at 2. rewrite live_grown in Hl, Hm by done. by split.
  - right. destruct (lookup_lt_is_Some_2 (sw_view (w_swim w)) (sw_view_size (w_swim w)))
      as [cell Hcell]; [lia|].
    exists cell. eexists. rewrite Hcell.
    rewrite (bind_run (mret true) _ w true w), (bind_run get_swim _ w (w_swim w) w) by done.
    split_and!; [|..|done].
    + by rewrite (place_run info cell).
    + done.
    + by apply place_added.
Qed.

Lemma merge_run info w :
  swim_wf (w_swim w) →
  (ni_uuid info = sw_uuid (w_swim w) ∧ swim_state_merge info w = (Ok tt, w)) ∨
  (ni_uuid info ≠ sw_uuid (w_swim w) ∧
   ((∃ i n s', view_map (w_swim w) !! ni_uuid info = Some n ∧ live (w_swim w) !! i = Some n ∧
       swim_state_merge info w = (Ok tt, with_swim s' w) ∧
       node_updated (w_swim w) i (merge_node info n) s') ∨
    (view_map (w_swim w) !! ni_uuid info = None ∧ ∃ w', swim_state_merge info w = (Ok tt, w') ∧
       w_out w' = w_out w ∧
       ((w_swim w' = w_swim w ∧ env_alloc (w_allocs w) = false ∧
           sw_view_size (w_swim w) = sw_view_capacity (w_swim w)) ∨
        (∃ cell, node_added (w_swim w) info cell (w_swim w')))))).
Proof.
  intros Hwf. unfold swim_state_merge.
  rewrite (bind_run get_swim _ w (w_swim w) w) by done.
  destruct (decide (ni_uuid info = sw_uuid (w_swim w))) as [Heq|Hne].
  { left. rewrite Heq, uuid_compare_same. done. }
  rewrite uuid_compare_neq by done. right. split; [done|].
  destruct (get_node_cases (w_swim w) (ni_uuid info) Hwf)
    as [[Hg Hm]|(i & n & Hg & Hi & Hi' & Hu & Hm)]; rewrite Hg; [right|left].
  - split; [done|]. unfold mbind, M_bind.
    destruct (add_run info w Hwf Hne Hm) as [(w' & -> & ? & ? & ?)|(cell & w' & -> & ? & ? & ?)];
      eexists; (split; [done|]); (split; [done|]); [left|right]; naive_solver.
  - exists i, n. rewrite (set_node_run i _ n) by done. eexists. split_and!; [done..|].
    by eapply node_updated_intro; [..|apply node_uuid_merge].
Qed.

End Adding.
