(* ===== verification/Samples.v ===== *)
(** * Concrete worlds

    A small cluster on which the theorems are evaluated. *)

From Stdlib Require Import Init.Byte ZArith Lia.
From stdpp Require Import base tactics list vector sorting gmap.
From S2P Require Import Prelude Bytes Node Event Encoding EncodingFacts State StateFacts.

Open Scope Z_scope.

#[local] Existing Instance lexicographic.

Definition sample_env : Env :=
  {| env_rand := λ k, N.of_nat (7 * k + 3); env_time := λ _, 1766383900;
     env_alloc := λ _, true; env_heap := λ _ _, zero_node; env_sendto := λ _, 0 |}.

(** A system whose allocations fail. *)
Definition starved_env : Env :=
  {| env_rand := λ k, N.of_nat (7 * k + 3); env_time := λ _, 1766383900;
     env_alloc := λ _, false; env_heap := λ _ _, zero_node; env_sendto := λ _, 0 |}.

(** A system whose clock advances. *)
Definition ticking_env : Env :=
  {| env_rand := λ k, N.of_nat (7 * k + 3); env_time := λ k, 1766383900 + 3 * Z.of_nat k;
     env_alloc := λ _, true; env_heap := λ _ _, zero_node; env_sendto := λ _, 0 |}.

Definition sample_node_info (k : Z) (st : Status) (seen inc : Z) : NodeInfo :=
  {| ni_uuid := sample_uuid k; ni_last_seen := seen; ni_incarnation := inc;
     ni_status := st; ni_addr := sample_addr; ni_addrlen := 16 |}.

Definition sample_node (k : Z) (st : Status) (seen inc : Z) : NodeState :=
  {| ns_info := sample_node_info k st seen inc; ns_ping_time := 0; ns_suspect_time := 0;
     ns_witness := no_witness |}.

Definition sample_swim (nodes : list NodeState) : SWIM :=
  {| sw_sockfd := 3; sw_last_heartbeat := 1766383800; sw_addr := zeros 16; sw_uuid := sample_uuid 1;
     sw_incarnation := 2; sw_view_capacity := length nodes + 2;
     sw_view_size := length nodes; sw_view := nodes ++ replicate 2 zero_node;
     sw_probe := {| pr_order := []; pr_pos := 0; pr_size := 0 |} |}.

Definition sample_world (s : SWIM) : World :=
  {| w_swim := s; w_rands := 0; w_times := 0; w_allocs := 0; w_out := [] |}.

(** Three nodes, one of them dead and one suspect. *)
Definition sample_nodes : list NodeState :=
  [sample_node 10 SWIM_STATUS_ALIVE 1766383890 1;
   sample_node 20 SWIM_STATUS_DEAD 1766383000 1;
   sample_node 30 SWIM_STATUS_SUSPECT 1766383800 4].

(** The first node has not been heard of for a long time. *)
Definition aging_nodes : list NodeState :=
  [sample_node 10 SWIM_STATUS_ALIVE 1766383000 1;
   sample_node 20 SWIM_STATUS_ALIVE 1766383890 1;
   sample_node 30 SWIM_STATUS_SUSPECT 1766383800 4].

Lemma live_sample nodes : live (sample_swim nodes) = nodes.
Proof. unfold live. simpl. by rewrite take_app_length. Qed.

Lemma sample_swim_wf nodes :
  nodes_wf (sample_uuid 1) nodes → swim_wf (sample_swim nodes).
Proof.
  intros Hn. split; [..|by rewrite live_sample|by left]; simpl;
    rewrite ?length_app; simpl; lia.
Qed.

(** Decide concrete instances of [nodes_wf]. *)
Definition nodes_wfb (self : uuid_t) (l : list NodeState) : bool :=
  bool_decide (Sorted uuid_lt (node_uuid <$> l)) && bool_decide (self ∉ node_uuid <$> l).

Lemma nodes_wfb_sound self l : nodes_wfb self l = true → nodes_wf self l.
Proof.
  unfold nodes_wfb. rewrite andb_true_iff, !bool_decide_eq_true. intros [Hs Hn].
  split; [|done]. by apply Sorted_StronglySorted; [apply _|].
Qed.

Lemma sample_nodes_wf : swim_wf (sample_swim sample_nodes).
Proof. apply sample_swim_wf, nodes_wfb_sound. vm_compute. reflexivity. Qed.

Lemma aging_nodes_wf : swim_wf (sample_swim aging_nodes).
Proof. apply sample_swim_wf, nodes_wfb_sound. vm_compute. reflexivity. Qed.
