(* ===== verification/PrintingFacts.v ===== *)
(** * What is printed

    The texts of events and of the view, that they stay within their buffers,
    and exactly when printing the view is defined. *)

From Stdlib Require Import Init.Byte Strings.Byte Strings.String ZArith Lia.
From stdpp Require Import base tactics list vector.
From S2P Require Import Prelude Bytes Node Event Text EncodingFacts State Printing StateFacts Samples.

Open Scope Z_scope.

(** ** Sequences that return *)

Lemma bind_ok {A B} (m : outcome A) (k : A → outcome B) :
  (∃ b, m ≫= k = Ok b) ↔ ∃ a, m = Ok a ∧ ∃ b, k a = Ok b.
Proof.
  destruct m as [a|f]; bind_step.
  - split; [eauto|]. by intros (a' & [= ->] & ?).
  - split; [by intros [? ?]|by intros (? & ? & _)].
Qed.

Lemma bind_ok_ret {A B} (m : outcome A) (f : A → B) :
  (∃ b, m ≫= (λ a, Ok (f a)) = Ok b) ↔ ∃ a, m = Ok a.
Proof. rewrite bind_ok. split; [intros (a & ? & _)|intros (a & ?)]; eauto. Qed.

(** A step that always comes to the same condition. *)
Lemma bind_ok_iff {A B} (m : outcome A) (k : A → outcome B) (P Q : Prop) :
  ((∃ a, m = Ok a) ↔ P) → (∀ a, m = Ok a → (∃ b, k a = Ok b) ↔ Q) →
  (∃ b, m ≫= k = Ok b) ↔ P ∧ Q.
Proof.
  intros <- Hk. rewrite bind_ok. split.
  - intros (a & Ha & Hb). split; [eauto|]. by apply (Hk a).
  - intros [[a Ha] HQ]. exists a. split; [done|]. by apply (Hk a).
Qed.

Lemma mapM_outcome {A B} (f : A → outcome B) (l : list A) (l' : list B) :
  mapM f l = Ok l' ↔ Forall2 (λ x y, f x = Ok y) l l'.
Proof.
  revert l'. induction l as [|x l IH]; intros l'; simpl.
  { split; [by intros [= <-]|by intros ->%Forall2_nil_inv_l]. }
  split.
  - intros Hrun. destruct (f x) as [y|] eqn:Ex; bind_step; [|done].
    cbn [mbind outcome_bind] in Hrun. destruct (mapM f l) as [k|]; [|done].
    cbn [mbind outcome_bind] in Hrun. injection Hrun as <-. constructor; [done|by apply IH].
  - intros (y & k & Hy & Hk & ->)%Forall2_cons_inv_l. rewrite Hy. bind_step.
    apply IH in Hk as ->. done.
Qed.

Lemma mapM_outcome_ok {A B} (f : A → outcome B) (l : list A) :
  (∃ l', mapM f l = Ok l') ↔ Forall (λ x, ∃ y, f x = Ok y) l.
Proof.
  split.
  - intros [l' Hl%mapM_outcome]. induction Hl; constructor; eauto.
  - induction 1 as [|x l [y Hy] _ [l' Hl]]; [by eexists|]. exists (y :: l').
    apply mapM_outcome. constructor; [done|by apply mapM_outcome].
Qed.

Lemma index_ok {A} (l : list A) (i : nat) (a : A) :
  l !! i = Some a → index l (Z.of_nat i) = Ok a.
Proof.
  intros Hi. unfold index. rewrite (proj2 (Z.ltb_ge _ _)) by lia. by rewrite Nat2Z.id, Hi.
Qed.

Lemma index_fault {A} (l : list A) (i : Z) :
  i < 0 ∨ Z.of_nat (length l) ≤ i → index l i = Fault OutOfBounds.
Proof.
  intros Hi. unfold index. destruct (Z.ltb_spec i 0); [done|].
  by rewrite lookup_ge_None_2 by lia.
Qed.

(** ** The texts *)

Section Texts.
Context {T : TextEnv}.

(** What [swim_event_print] is to show: a text, unless the type is none of the
    five, or the address in a JOIN has no name. *)
Definition event_text (e : Event) : option text :=
  let u := uuid_unparse (ev_uuid e) in
  match eh_type (ev_hdr e) with
  | EVENT_TYPE_PING => Some (lit "PING")
  | EVENT_TYPE_ACK => Some (lit "ACK(" ++ u ++ lit ")")
  | EVENT_TYPE_PING_REQ => Some (lit "PING_REQ(" ++ u ++ lit ")")
  | EVENT_TYPE_JOIN =>
      if 0 <? ev_join_addrlen e then
        a ← addr_text (ev_join_addr e) (ev_join_addrlen e);
        Some (lit "JOIN(" ++ u ++ lit ", " ++ a ++ lit ")")
      else Some (lit "JOIN(" ++ u ++ lit ")")
  | EVENT_TYPE_LEAVE => Some (lit "LEAVE(" ++ u ++ lit ")")
  | EVENT_TYPE_OTHER _ => None
  end.

(** The beginning of the text of [swim_event_string]. *)
Definition string_prefix (t : EventType) : option text :=
  match t with
  | EVENT_TYPE_PING => Some (lit "ping from ")
  | EVENT_TYPE_ACK => Some (lit "ack from ")
  | EVENT_TYPE_JOIN => Some (lit "join from ")
  | EVENT_TYPE_LEAVE => Some (lit "leave from ")
  | EVENT_TYPE_PING_REQ | EVENT_TYPE_OTHER _ => None
  end.

(** A time the calendar can represent in a buffer of 128 bytes. *)
Definition time_printable (k : nat) (time : Z) : Prop :=
  ∃ t, localtime_r time = Some t ∧
    ((length (strftime_text (lit "%F %T") t) < 128)%nat ∨ x00 ∈ strftime_rest (uninit k 128)).

(** When the line of a node is defined: its status is one of the four, its
    time can be represented, it has an address or the buffer happens to contain
    a string, and if its address can be shown, so can that of its witness. *)
Record printable (i : nat) (n : NodeState) : Prop := {
  pn_status : 0 ≤ status_code (node_status n) < 4;
  pn_time : time_printable (3 * i + 3) (ni_last_seen (ns_info n));
  pn_addr : 0 < ni_addrlen (ns_info n) ∨ x00 ∈ uninit (3 * i + 1) ABUF_SIZE;
  pn_witness :
    (0 < ni_addrlen (ns_info n) →
     is_Some (addr_text (ni_addr (ns_info n)) (ni_addrlen (ns_info n)))) →
    0 < wi_addrlen (ns_witness n) →
    is_Some (addr_text (wi_addr (ns_witness n)) (wi_addrlen (ns_witness n)))
}.

End Texts.

(** ** Events *)

Section EventFacts.
Context {T : TextEnv} {TL : TextLaws T}.

Lemma addr_buf_none k addr addrlen :
  addrlen ≤ 0 → addr_buf k addr addrlen = Ok (Some (uninit k ABUF_SIZE)).
Proof. intros Hl. unfold addr_buf, swim_addr_str_r. by rewrite (proj2 (Z.ltb_ge _ _)). Qed.

Lemma addr_buf_unnamed k addr addrlen :
  0 < addrlen → addr_text addr addrlen = None → addr_buf k addr addrlen = Ok None.
Proof. apply addr_str_fails. Qed.

Lemma addr_buf_named k addr addrlen s :
  0 < addrlen → addr_text addr addrlen = Some s →
  ∃ buf, addr_buf k addr addrlen = Ok (Some buf) ∧ cstring buf = Ok s.
Proof.
  intros Hl Hs. pose proof (addr_text_fits _ _ _ Hs) as [Hfit _].
  destruct (addr_str_run addr addrlen (uninit k ABUF_SIZE) ABUF_SIZE s) as (b & Hrun & _ & Hc);
    [done|done|unfold ABUF_SIZE; lia|by rewrite length_uninit|].
  exists b. split; [done|]. rewrite Hc, take_ge by lia. done.
Qed.

Lemma addr_arg_named k addr addrlen s :
  0 < addrlen → addr_text addr addrlen = Some s → addr_arg k addr addrlen = Ok s.
Proof.
  intros Hl Hs. unfold addr_arg. by destruct (addr_buf_named k _ _ _ Hl Hs) as (b & -> & ?).
Qed.

Lemma addr_arg_unnamed k addr addrlen :
  0 < addrlen → addr_text addr addrlen = None → addr_arg k addr addrlen = Fault NullDeref.
Proof. intros Hl Hs. unfold addr_arg. by rewrite addr_buf_unnamed. Qed.

Lemma nul_free_parens (p u q : text) :
  nul_free p → nul_free u → nul_free q → nul_free (p ++ u ++ q).
Proof. intros ???. by rewrite !nul_free_app. Qed.

Lemma event_text_nul_free e s : event_text e = Some s → nul_free s.
Proof.
  assert (∀ p q, nul_free p → nul_free q → nul_free (p ++ uuid_unparse (ev_uuid e) ++ q)) as Hu
    by (intros; apply nul_free_parens; auto using uuid_unparse_nul_free).
  unfold event_text. destruct (eh_type (ev_hdr e)); intros Hs;
    try (apply (inj Some) in Hs as <-; apply Hu; by apply (bool_decide_unpack _)).
  - apply (inj Some) in Hs as <-. by apply (bool_decide_unpack _).
  - case_match; [|apply (inj Some) in Hs as <-; apply Hu; by apply (bool_decide_unpack _)].
    apply bind_Some in Hs as (a & [_ Ha]%addr_text_fits & <-%(inj Some)).
    apply (Hu (lit "JOIN(") (lit ", " ++ a ++ lit ")")); [by apply (bool_decide_unpack _)|].
    apply nul_free_parens; [|done|]; by apply (bool_decide_unpack _).
  - done.
Qed.

(** The callbacks print the text of the event. *)
Lemma event_print_run e buf s :
  (EVENT_BUF_SIZE ≤ length buf)%nat → event_text e = Some s →
  ∃ buf', swim_event_print e buf = Ok buf' ∧ length buf' = length buf ∧
    cstring buf' = Ok (take (EVENT_BUF_SIZE - 1) s).
Proof.
  intros Hb Hs.
  destruct (snprintf_ok buf EVENT_BUF_SIZE s) as (b & Hrun & Hl & Hc);
    [unfold EVENT_BUF_SIZE; lia|done|by eapply event_text_nul_free|].
  exists b. split; [|done]. unfold swim_event_print, event_text in *.
  destruct (eh_type (ev_hdr e)); [| | | | |done].
  - change (index swim_event _) with (Ok (Some swim_print_ping)). bind_step.
    apply (inj Some) in Hs as <-. unfold swim_print_ping. by rewrite Hrun.
  - change (index swim_event _) with (Ok (Some swim_print_ack)). bind_step.
    apply (inj Some) in Hs as <-. unfold swim_print_ack, ack_uuid. rewrite uuid_arg_run. bind_step.
    by rewrite Hrun.
  - change (index swim_event _) with (Ok (Some swim_print_ping_req)). bind_step.
    apply (inj Some) in Hs as <-. unfold swim_print_ping_req, ping_req_uuid.
    rewrite uuid_arg_run. bind_step. by rewrite Hrun.
  - change (index swim_event _) with (Ok (Some swim_print_join)). bind_step.
    unfold swim_print_join, join_uuid. destruct (Z.ltb_spec 0 (ev_join_addrlen e)).
    + apply bind_Some in Hs as (a & Ha & <-%(inj Some)). rewrite uuid_arg_run. bind_step.
      erewrite addr_arg_named by done. bind_step. by rewrite Hrun.
    + apply (inj Some) in Hs as <-. rewrite uuid_arg_run. bind_step. by rewrite Hrun.
  - change (index swim_event _) with (Ok (Some swim_print_leave)). bind_step.
    apply (inj Some) in Hs as <-. unfold swim_print_leave, leave_uuid. rewrite uuid_arg_run.
    bind_step. by rewrite Hrun.
Qed.

(** The entries of the dispatch table between those of the known types. *)
Lemma swim_event_gap (c : Z) :
  event_type_of c = EVENT_TYPE_OTHER c →
  index swim_event c = Ok None ∧ 3 ≤ c < 16 ∨
  index swim_event c = Fault OutOfBounds ∧ (c < 0 ∨ 18 ≤ c).
Proof.
  intros Hc. destruct (decide (c < 0 ∨ 18 ≤ c)) as [Ho|Ho].
  { right. split; [|done]. apply index_fault. simpl. lia. }
  left. assert (c = 0 ∨ c = 1 ∨ c = 2 ∨ c = 16 ∨ c = 17 ∨ 3 ≤ c < 16) as Hcase by lia.
  destruct Hcase as [->|[->|[->|[->|[->|Hr]]]]]; try done. split; [|done].
  rewrite <-(Z2Nat.id c) by lia. apply index_ok.
  assert (Z.to_nat c ∈ seq 3 13) as Hin by (apply elem_of_seq; lia).
  revert Hin. generalize (Z.to_nat c). intros k Hin. simpl in Hin.
  repeat (apply elem_of_cons in Hin as [->|Hin]; [done|]). by apply elem_of_nil in Hin.
Qed.

Lemma event_print_fault e buf c :
  eh_type (ev_hdr e) = event_type_of c → event_text e = None →
  swim_event_print e buf =
    Fault (if decide (c < 0 ∨ 18 ≤ c) then OutOfBounds else NullDeref).
Proof.
  intros Hc Hs. unfold swim_event_print, event_text in *.
  assert (event_type_code (eh_type (ev_hdr e)) = c) as Hcode
    by (by rewrite Hc, event_type_code_of).
  destruct (eh_type (ev_hdr e)) as [| | | | |c'] eqn:Et; try done.
  - simpl in Hcode. subst c. change (index swim_event _) with (Ok (Some swim_print_join)).
    bind_step. unfold swim_print_join.
    destruct (Z.ltb_spec 0 (ev_join_addrlen e)); [|done]. rewrite uuid_arg_run. bind_step.
    destruct (addr_text _ _) eqn:Ea; [done|]. by rewrite addr_arg_unnamed.
  - simpl in Hcode. subst c'. cbn [event_type_code].
    destruct (swim_event_gap c (eq_sym Hc)) as [[-> ?]|[-> ?]]; bind_step.
    + by rewrite decide_False by lia.
    + by rewrite decide_True.
Qed.

(** [swim_event_string] writes the whole text, whatever [buflen] says. *)
Lemma event_string_run e buf buflen :
  (buflen ≤ length buf)%nat →
  match string_prefix (eh_type (ev_hdr e)) with
  | None => swim_event_string e buf buflen = Ok (false, replicate buflen x00 ++ drop buflen buf)
  | Some p =>
      let s := p ++ uuid_unparse (eh_uuid (ev_hdr e)) in
      if decide (length s < length buf)%nat
      then ∃ buf', swim_event_string e buf buflen = Ok (true, buf') ∧
             length buf' = length buf ∧ cstring buf' = Ok s
      else swim_event_string e buf buflen = Fault OutOfBounds
  end.
Proof.
  intros Hb. unfold swim_event_string.
  rewrite write_ok by (rewrite length_replicate; lia). rewrite take_0, app_nil_l. bind_step.
  rewrite Nat.add_0_l, length_replicate. set (m := replicate buflen x00 ++ drop buflen buf).
  assert (length m = length buf) as Hm by (unfold m; autorewrite with swim; lia).
  set (u := uuid_unparse (eh_uuid (ev_hdr e))).
  assert (∀ p : text, nul_free p → (length p ≤ 36)%nat →
    if decide (length (p ++ u) < length buf)%nat
    then ∃ buf', sprintf m 0 p ≫= (λ q, b ← write q.1 (Z.to_nat q.2) (u ++ [x00]); Ok (true, b))
             = Ok (true, buf') ∧ length buf' = length buf ∧ cstring buf' = Ok (p ++ u)
    else sprintf m 0 p ≫= (λ q, b ← write q.1 (Z.to_nat q.2) (u ++ [x00]); Ok (true, b))
           = Fault OutOfBounds) as Hp.
  { intros p Hp Hp36. pose proof (uuid_unparse_length (eh_uuid (ev_hdr e))) as Hu. fold u in Hu.
    unfold sprintf. case_decide as Hd; rewrite length_app, Hu in Hd.
    - rewrite write_ok by (rewrite length_app; simpl; lia). bind_step. simpl fst. simpl snd.
      rewrite write_ok by (autorewrite with swim; simpl; autorewrite with swim; lia).
      bind_step. eexists. split; [done|]. split.
      + rewrite Nat2Z.id. autorewrite with swim. simpl. autorewrite with swim. simpl. lia.
      + rewrite Nat2Z.id, <-app_assoc, (take_app_le _ _ (length p)), take_ge by lia.
        rewrite <-app_assoc, (app_assoc p). apply cstring_app, nul_free_app.
        split; [done|apply uuid_unparse_nul_free].
    - destruct (decide (S (length p) ≤ length buf)%nat) as [Hs|Hs].
      + rewrite write_ok by (rewrite length_app; simpl; lia). bind_step. simpl fst. simpl snd.
        rewrite write_fault; [done|]. rewrite Nat2Z.id. autorewrite with swim. simpl.
        autorewrite with swim. lia.
      + by rewrite write_fault by (rewrite length_app; simpl; lia). }
  destruct (eh_type (ev_hdr e)); cbn [string_prefix]; try done;
    apply Hp; (by apply (bool_decide_unpack _)) || (simpl; lia).
Qed.

End EventFacts.

(** ** Log lines *)

Section LogFacts.
Context {T : TextEnv} {TL : TextLaws T} {App : Type}.
Implicit Types out : Output App.

Lemma log_write_run msg out :
  nul_free msg →
  swim_log_write msg out =
    match out_log_sink out with
    | Some log_sink =>
        app ← log_sink (take (LOG_BUF_SIZE - 1) msg) (out_app out); Ok (set_out_app app out)
    | None => Ok (put_stderr (take (LOG_BUF_SIZE - 1) msg ++ newline) out)
    end.
Proof.
  intros Hm. unfold swim_log_write.
  destruct (snprintf_ok (uninit 0 LOG_BUF_SIZE) LOG_BUF_SIZE msg) as (b & -> & _ & Hc);
    [unfold LOG_BUF_SIZE; lia|by rewrite length_uninit|done|].
  bind_step. by rewrite Hc.
Qed.

(** A line about an event with a text, from or to an address with a name. *)
Lemma transfer_message_run arrow e bytes addr addrlen out s a :
  length (out_event_buf out) = EVENT_BUF_SIZE →
  event_text e = Some s → 0 < addrlen → addr_text addr addrlen = Some a →
  ∃ buf, length buf = EVENT_BUF_SIZE ∧ cstring buf = Ok (take (EVENT_BUF_SIZE - 1) s) ∧
    transfer_message arrow e bytes addr addrlen out =
      Ok (arrow ++ lit " " ++ take (EVENT_BUF_SIZE - 1) s ++ lit " (" ++ decimal bytes
            ++ lit " bytes) node " ++ uuid_unparse (eh_uuid (ev_hdr e)) ++ lit " addr " ++ a,
          set_out_event_buf buf out).
Proof.
  intros Hb Hs Hl Ha. destruct (event_print_run e (out_event_buf out) s) as (b & Hrun & Hlen & Hc);
    [by rewrite Hb|done|].
  exists b. split; [by rewrite Hlen|]. split; [done|]. unfold transfer_message.
  rewrite Hrun. bind_step. rewrite Hc. bind_step. rewrite uuid_arg_run. bind_step.
  by rewrite (addr_arg_named _ _ _ a).
Qed.

End LogFacts.

(** ** The view *)

Section StateFacts.
Context {T : TextEnv} {TL : TextLaws T} {App : Type}.
Implicit Types out : Output App.

Lemma status_name_ok st :
  (∃ s, swim_status_name st = Ok s) ↔ 0 ≤ status_code st < 4.
Proof.
  unfold swim_status_name. split.
  - intros [s Hs]. destruct (decide (0 ≤ status_code st < 4)); [done|].
    rewrite index_fault in Hs by (simpl; lia). done.
  - intros Hc. destruct (status_name !! Z.to_nat (status_code st)) as [s|] eqn:E.
    + exists s. rewrite <-(Z2Nat.id (status_code st)) by lia. by apply index_ok.
    + apply lookup_ge_None in E. simpl in E. lia.
Qed.

Lemma time_arg_ok k time :
  (∃ s, arg (time_as_string time (uninit k 128)) = Ok s) ↔ time_printable k time.
Proof.
  unfold time_as_string, time_printable, strftime.
  destruct (localtime_r time) as [t|]; [|by split; [intros [? ?]|intros (? & ? & _)]].
  rewrite length_uninit. destruct (Nat.ltb_spec (length (strftime_text (lit "%F %T") t)) 128);
    cbn [arg fst].
  - split; [by eauto|]. intros _. eexists. simpl. apply cstring_app, strftime_nul_free.
    by apply (bool_decide_unpack _).
  - rewrite <-cstring_ok. split; [by eauto|]. intros (t' & [= <-] & [?|?]); [lia|done].
Qed.

Lemma addr_text_dec k addr addrlen :
  addrlen ≤ 0 ∧ addr_buf k addr addrlen = Ok (Some (uninit k ABUF_SIZE)) ∨
  0 < addrlen ∧ (addr_text addr addrlen = None ∧ addr_buf k addr addrlen = Ok None ∨
    ∃ s buf, addr_text addr addrlen = Some s ∧ addr_buf k addr addrlen = Ok (Some buf) ∧
             cstring buf = Ok s).
Proof.
  destruct (decide (0 < addrlen)) as [Hl|Hl]; [right|left].
  - split; [done|]. destruct (addr_text addr addrlen) as [s|] eqn:E; [right|left].
    + destruct (addr_buf_named k _ _ _ Hl E) as (b & ? & ?). eauto.
    + split; [done|by apply addr_buf_unnamed].
  - split; [lia|]. apply addr_buf_none. lia.
Qed.

(** The part of a line that does not depend on the addresses. *)
Lemma common_ok {A} i n (k : text → text → outcome A) (Q : Prop) :
  (∀ t st, (∃ s, k t st = Ok s) ↔ Q) →
  (∃ s, (t ← arg (time_as_string (ni_last_seen (ns_info n)) (uninit (3 * i + 3) 128));
         st ← swim_status_name (node_status n);
         k t st) = Ok s) ↔
  time_printable (3 * i + 3) (ni_last_seen (ns_info n)) ∧
  0 ≤ status_code (node_status n) < 4 ∧ Q.
Proof.
  intros Hk. apply bind_ok_iff; [apply time_arg_ok|]. intros t _.
  apply bind_ok_iff; [apply status_name_ok|]. intros st _. apply Hk.
Qed.

Lemma witness_ok k wi :
  (∃ p w, (if 0 <? wi_addrlen wi then addr_buf k (wi_addr wi) (wi_addrlen wi)
           else Ok (Some [x00])) = Ok p ∧ arg p = Ok w) ↔
  (0 < wi_addrlen wi → is_Some (addr_text (wi_addr wi) (wi_addrlen wi))).
Proof.
  destruct (Z.ltb_spec 0 (wi_addrlen wi)) as [Hl|Hl].
  - destruct (addr_text_dec k (wi_addr wi) (wi_addrlen wi))
      as [[? _]|[_ [[Ha ->]|(s & b & Ha & -> & Hb)]]]; [lia| |]; rewrite Ha.
    + split; [by intros (? & ? & [= <-] & ?)|]. intros Hs. by apply is_Some_None in Hs.
    + split; [by eexists|]. intros _. by eexists _, _.
  - split; [lia|]. intros _. by eexists _, [].
Qed.

Lemma print_line_ok i n address :
  (∃ s, print_line i n address = Ok s) ↔
  time_printable (3 * i + 3) (ni_last_seen (ns_info n)) ∧
  0 ≤ status_code (node_status n) < 4 ∧ x00 ∈ address ∧
  (0 < wi_addrlen (ns_witness n) →
   is_Some (addr_text (wi_addr (ns_witness n)) (wi_addrlen (ns_witness n)))).
Proof.
  rewrite <-(witness_ok (3 * i + 2)). unfold print_line. rewrite bind_ok.
  setoid_rewrite uuid_arg_run. bind_step.
  setoid_rewrite (λ p F, common_ok i n F (x00 ∈ address ∧ ∃ w, arg p = Ok w)).
  - split.
    + intros (p & Hp & ? & ? & ? & w & Hw). do 3 (split; [done|]). by exists p, w.
    + intros (? & ? & ? & p & w & Hp & Hw). exists p. do 4 (split; [done|]). by exists w.
  - intros t st. apply bind_ok_iff; [by rewrite cstring_ok|]. intros ? _. apply bind_ok_ret.
Qed.

(** The conditions [printable] are exactly what a line needs. *)
Lemma print_node_ok i n : (∃ s, print_node i n = Ok s) ↔ printable i n.
Proof.
  unfold print_node.
  destruct (addr_text_dec (3 * i + 1) (ni_addr (ns_info n)) (ni_addrlen (ns_info n)))
    as [[Hl ->]|[Hl [[Ha ->]|(s & b & Ha & -> & Hb)]]]; bind_step.
  - rewrite print_line_ok. split.
    + intros (? & ? & ? & Hw). split; [done..|by right|]. auto.
    + intros [? ? [?|?] Hw]; [lia|]. do 3 (split; [done|]). intros. apply Hw; [lia|done].
  - rewrite uuid_arg_run. bind_step. rewrite (common_ok i n _ True) by (intros; naive_solver).
    split; [intros (? & ? & _); split; [done..|by left|]|by intros [? ? _ _]].
    intros Hs. specialize (Hs Hl). rewrite Ha in Hs. by apply is_Some_None in Hs.
  - rewrite print_line_ok. split.
    + intros (? & ? & ? & Hw). split; [done..|by left|]. auto.
    + intros [? ? _ Hw]. do 2 (split; [done|]). split; [apply cstring_ok; eauto|]. intros. apply Hw; [|done].
      by rewrite Ha.
Qed.

(** A line starts with the uuid and ends the line. *)
Lemma print_node_shape i n s :
  print_node i n = Ok s →
  ∃ rest, s = uuid_unparse (node_uuid n) ++ lit "     " ++ rest ++ newline.
Proof.
  assert (∀ r, pad 40 (uuid_unparse (node_uuid n)) ++ lit " " ++ r
    = uuid_unparse (node_uuid n) ++ lit "     " ++ r) as Hpad.
  { intros r. unfold pad. rewrite uuid_unparse_length, <-app_assoc. done. }
  unfold print_node, print_line. intros Hrun. rewrite uuid_arg_run in Hrun. simplify_outcome.
  destruct a as [address|]; simplify_outcome; rewrite Hpad.
  - exists (pad 26 a0 ++ lit " " ++ pad 10 a1 ++ lit " " ++ pad (INET_ADDRSTRLEN + 5) a2
      ++ lit " " ++ pad (INET_ADDRSTRLEN + 5) a3). by rewrite <-!app_assoc.
  - exists (pad 20 a ++ lit " " ++ pad 10 a0). by rewrite <-!app_assoc.
Qed.

Lemma print_nodes_ok s :
  (sw_view_size s ≤ length (sw_view s))%nat →
  (∃ rows, print_nodes s = Ok rows) ↔ ∀ i n, live s !! i = Some n → printable i n.
Proof.
  intros Hsz. unfold print_nodes. rewrite mapM_outcome_ok, Forall_lookup. split.
  - intros Hall i n Hi. unfold live in Hi. apply lookup_take_Some in Hi as [Hi Hlt].
    destruct (Hall i i) as [row Hrow]; [by apply lookup_seq|].
    rewrite (index_ok _ _ n) in Hrow by done. apply print_node_ok. by exists row.
  - intros Hall j i [-> Hlt]%lookup_seq.
    destruct (lookup_lt_is_Some_2 (sw_view s) (0 + j)%nat) as [n Hn]; [lia|].
    rewrite (index_ok _ _ n) by done. bind_step. apply print_node_ok, Hall.
    unfold live. apply lookup_take_Some. by split.
Qed.

Lemma print_nodes_rows s rows :
  print_nodes s = Ok rows → (sw_view_size s ≤ length (sw_view s))%nat →
  Forall2 (λ n row, ∃ rest,
    row = uuid_unparse (node_uuid n) ++ lit "     " ++ rest ++ newline) (live s) rows.
Proof.
  intros Hrows%mapM_outcome Hsz. apply Forall2_same_length_lookup_2.
  { apply Forall2_length in Hrows. rewrite length_seq in Hrows. unfold live.
    rewrite length_take. etrans; [|exact Hrows]. lia. }
  intros i n row [Hn Hlt]%lookup_take_Some Hrow.
  assert (seq 0 (sw_view_size s) !! i = Some i) as Hi by (by apply lookup_seq).
  pose proof (Forall2_lookup_lr _ _ _ _ _ _ Hrows Hi Hrow) as Hp. simpl in Hp.
  rewrite (index_ok _ _ n) in Hp by done. by eapply print_node_shape.
Qed.

End StateFacts.

Section StatePrint.
Context {T : TextEnv} {TL : TextLaws T} {App : Type}.

Lemma state_print_ok s (out : Output App) :
  (sw_view_size s ≤ length (sw_view s))%nat → out_print out = None →
  (∃ out', swim_state_print s out = Ok out') ↔ ∀ i n, live s !! i = Some n → printable i n.
Proof.
  intros Hsz Hcb. unfold swim_state_print. rewrite Hcb, uuid_arg_run. bind_step.
  by rewrite bind_ok_ret, print_nodes_ok.
Qed.

Lemma state_print_fault s (out : Output App) i n :
  (sw_view_size s ≤ length (sw_view s))%nat → out_print out = None →
  live s !! i = Some n → ¬ printable i n → ∃ f, swim_state_print s out = Fault f.
Proof.
  intros Hsz Hcb Hi Hn. destruct (swim_state_print s out) as [out'|f] eqn:Hrun; [|by exists f].
  exfalso. apply Hn. revert i n Hi Hn. intros i n Hi _.
  apply (proj1 (state_print_ok s out Hsz Hcb)); [by exists out'|done].
Qed.

End StatePrint.

(** ** Theorems *)

Section Theorems.
Context {T : TextEnv} {TL : TextLaws T}.

(** Printing an event to the static buffer: the text of the
    event, cut to 127 characters, if it has one; otherwise the program faults,
    because the type has no function (or lies outside the table), or because
    the address of a JOIN has no name. *)
Theorem swim_event_print_correct (e : Event) (buf : list byte) (c : Z) :
  length buf = EVENT_BUF_SIZE → eh_type (ev_hdr e) = event_type_of c →
  match event_text e with
  | Some s =>
      ∃ buf', swim_event_print e buf = Ok buf' ∧ length buf' = EVENT_BUF_SIZE ∧
        cstring buf' = Ok (take 127 s)
  | None =>
      swim_event_print e buf = Fault (if decide (c < 0 ∨ 18 ≤ c) then OutOfBounds else NullDeref)
  end.
Proof.
  intros Hb Hc. destruct (event_text e) as [s|] eqn:Hs; [|by apply event_print_fault].
  destruct (event_print_run e buf s) as (b & Hrun & Hl & Hstr); [by rewrite Hb|done|].
  exists b. split; [done|]. split; [by rewrite Hl|done].
Qed.

(** [swim_event_string] describes PING, ACK, JOIN and LEAVE by
    the sender and reports that it knows no other type, PING_REQ included; it
    writes the whole text whatever the length it is given, so that it needs 47
    or 48 bytes, and writes out of bounds if the memory is smaller. *)
Theorem swim_event_string_correct (e : Event) (buf : list byte) (buflen : nat) :
  (buflen ≤ length buf)%nat →
  match string_prefix (eh_type (ev_hdr e)) with
  | None => ∃ buf', swim_event_string e buf buflen = Ok (false, buf')
  | Some p =>
      if decide (length p + 36 < length buf)%nat
      then ∃ buf', swim_event_string e buf buflen = Ok (true, buf') ∧
             length buf' = length buf ∧
             cstring buf' = Ok (p ++ uuid_unparse (eh_uuid (ev_hdr e)))
      else swim_event_string e buf buflen = Fault OutOfBounds
  end.
Proof.
  intros Hb. pose proof (event_string_run e buf buflen Hb) as Hrun.
  destruct (string_prefix _) as [p|]; [|by eexists]. simpl in Hrun.
  by rewrite length_app, uuid_unparse_length in Hrun.
Qed.

(** C33: Printing the view: without a registered function, the view
    can be printed exactly if every node in use is [printable]: a status that
    is one of the four, a time the calendar represents, an address, and a
    witness whose address has a name.  Then a heading and one line per node, in
    order, each starting with the uuid of the node, are written to [stderr]. *)
Theorem swim_state_print_correct {App : Type} (s : SWIM) (out : Output App) :
  (sw_view_size s ≤ length (sw_view s))%nat → out_print out = None →
  ((∃ out', swim_state_print s out = Ok out') ↔
   ∀ i n, live s !! i = Some n → printable i n) ∧
  ∀ out', swim_state_print s out = Ok out' →
    ∃ rows, out' = put_stderr (print_heading (uuid_unparse (sw_uuid s)) ++ concat rows) out ∧
      Forall2 (λ n row, ∃ rest,
        row = uuid_unparse (node_uuid n) ++ lit "     " ++ rest ++ newline) (live s) rows.
Proof.
  intros Hsz Hcb. split; [by apply state_print_ok|].
  unfold swim_state_print. rewrite Hcb, uuid_arg_run. bind_step. intros out' Hrun.
  destruct (print_nodes s) as [rows|] eqn:Hrows; [|done].
  cbn [mbind outcome_bind] in Hrun. injection Hrun as <-. exists rows. split; [done|].
  by apply print_nodes_rows.
Qed.

(** Log lines are cut to 1023 characters and go to the function
    that is registered for them, or else to [stderr]; nothing is written, and
    nothing evaluated, while the log is switched off. *)
Theorem swim_log_correct {App : Type} (now : Z) (t : tm) (msg : text) (out : Output App) :
  localtime_r now = Some t → nul_free msg →
  (0 < length (strftime_text (lit "%c") t) < 200)%nat →
  let line := take 1023 (strftime_text (lit "%c") t ++ lit " " ++ msg) in
  LOG now (λ out, Ok (msg, out)) out =
    if out_verbose out then
      match out_log_sink out with
      | Some log_sink => app ← log_sink line (out_app out); Ok (set_out_app app out)
      | None => Ok (put_stderr (line ++ newline) out)
      end
    else Ok out.
Proof.
  intros Ht Hm Hlen line. unfold LOG. destruct (out_verbose out); [|done]. rewrite Ht.
  assert (nul_free (strftime_text (lit "%c") t)) as Hf
    by (apply strftime_nul_free; by apply (bool_decide_unpack _)).
  unfold strftime. rewrite length_uninit, (proj2 (Nat.ltb_lt _ 200)) by lia.
  rewrite (proj2 (Z.eqb_neq _ _)) by lia. bind_step. cbn [app].
  rewrite cstring_app by done. bind_step. rewrite log_write_run; [done|].
  rewrite !nul_free_app. split_and!; [done|by apply (bool_decide_unpack _)|done].
Qed.

End Theorems.

(** ** Witnesses *)

#[local] Existing Instance plain_text.

Definition sample_output : Output unit :=
  {| out_stderr := []; out_verbose := true; out_tracing := false; out_log_sink := None;
     out_print := None; out_event_buf := replicate EVENT_BUF_SIZE x00; out_app := tt |}.

Lemma swim_event_print_correct_witness :
  ∃ buf', swim_event_print (sample_event EVENT_TYPE_JOIN) (replicate 128 x00) = Ok buf' ∧
    length buf' = EVENT_BUF_SIZE ∧
    cstring buf' = Ok (take 127
      (lit "JOIN(00000000-0000-0000-0000-000000000009, 7f000001:1f0a)")).
Proof.
  pose proof (swim_event_print_correct (sample_event EVENT_TYPE_JOIN) (replicate 128 x00) 16
    (length_replicate _ _) eq_refl) as Hp.
  assert (event_text (sample_event EVENT_TYPE_JOIN)
    = Some (lit "JOIN(00000000-0000-0000-0000-000000000009, 7f000001:1f0a)")) as Et
    by (vm_compute; reflexivity).
  rewrite Et in Hp. exact Hp.
Defined.

(** 46 bytes are too few for a PING. *)
Lemma swim_event_string_correct_witness :
  swim_event_string (sample_event EVENT_TYPE_PING) (replicate 46 x00) 20 = Fault OutOfBounds ∧
  ∃ buf', swim_event_string (sample_event EVENT_TYPE_PING) (replicate 47 x00) 20
      = Ok (true, buf') ∧ length buf' = length (replicate 47 x00) ∧
    cstring buf' = Ok (lit "ping from " ++ hex_uuid (sample_uuid 1)).
Proof.
  split.
  - apply (swim_event_string_correct (sample_event EVENT_TYPE_PING) (replicate 46 x00) 20).
    rewrite length_replicate. lia.
  - pose proof (swim_event_string_correct (sample_event EVENT_TYPE_PING) (replicate 47 x00) 20
      ltac:(rewrite length_replicate; lia)) as Hp.
    change (string_prefix _) with (Some (lit "ping from ")) in Hp. cbv iota beta in Hp.
    rewrite decide_True in Hp by (simpl; lia). exact Hp.
Defined.

Lemma sample_printable i n : live (sample_swim sample_nodes) !! i = Some n → printable i n.
Proof.
  rewrite live_sample. intros Hi. assert (n ∈ sample_nodes) as Hn by (by eapply list_elem_of_lookup_2).
  unfold sample_nodes in Hn.
  repeat (apply elem_of_cons in Hn as [->|Hn]);
    [..|by apply elem_of_nil in Hn]; (split; simpl; [lia| |by left|lia]);
    (eexists; split; [reflexivity|]); left; simpl; lia.
Qed.

Lemma swim_state_print_correct_witness :
  ∃ out' rows, swim_state_print (sample_swim sample_nodes) sample_output = Ok out' ∧
    out_stderr out' = print_heading (hex_uuid (sample_uuid 1)) ++ concat rows ∧
    length rows = 3%nat.
Proof.
  destruct (swim_state_print_correct (sample_swim sample_nodes) sample_output) as [Hiff Hrows];
    [simpl; lia|done|].
  destruct (proj2 Hiff sample_printable) as [out' Hrun].
  destruct (Hrows out' Hrun) as (rows & -> & Hall). exists (put_stderr
    (print_heading (uuid_unparse (sample_uuid 1)) ++ concat rows) sample_output), rows.
  split; [exact Hrun|]. split; [done|]. apply Forall2_length in Hall. by rewrite <-Hall.
Defined.

Lemma swim_log_correct_witness :
  LOG 1766383895 (λ out, Ok (lit "hello", out)) sample_output =
    Ok (put_stderr (lit "2026-01-31 12:34:56 hello" ++ newline) sample_output).
Proof.
  apply (swim_log_correct (T := plain_text) 1766383895 1766383895 (lit "hello") sample_output).
  - reflexivity.
  - by apply (bool_decide_unpack _).
  - simpl. lia.
Defined.
