(* ===== verification/Membership.v ===== *)
(** * What the view means

    The abstract state of a failure detector is a map from uuids to beliefs: an
    incarnation number and a status.  Beliefs are ordered, first by
    incarnation and then by status (alive < suspect < dead), and merging
    gossip takes the larger one.  The operations of [swim/state.c] implement
    this specification. *)

From Stdlib Require Import Init.Byte ZArith Lia.
From stdpp Require Import base tactics list vector sorting gmap.
From S2P Require Import Prelude Bytes Node Event Encoding EncodingFacts State StateFacts Samples.

Open Scope Z_scope.

(** ** Beliefs *)

Definition belief : Type := Z * Z.

Definition belief_join (a b : belief) : belief :=
  if a.1 <? b.1 then b
  else if b.1 <? a.1 then a
  else (a.1, Z.max a.2 b.2).

Definition belief_le (a b : belief) : Prop := belief_join a b = b.

Definition info_belief (i : NodeInfo) : belief :=
  (ni_incarnation i, status_code (ni_status i)).

Definition node_belief (n : NodeState) : belief := info_belief (ns_info n).

Definition beliefs (s : SWIM) : gmap uuid_t belief := node_belief <$> view_map s.

(** Learn one belief. *)
Definition learn (m : gmap uuid_t belief) (u : uuid_t) (b : belief) : gmap uuid_t belief :=
  <[u := match m !! u with Some a => belief_join a b | None => b end]> m.

(** What the code asserts of gossip, with the status a value of the
    enumeration. *)
Definition known (i : NodeInfo) : Prop := known_info i = true ∧ status_valid (ni_status i).

Definition all_known (s : SWIM) : Prop := ∀ u n, view_map s !! u = Some n → known (ns_info n).

(** ** The order of beliefs *)

(** Case analysis on the comparisons of incarnations. *)
Ltac solve_belief :=
  unfold belief_le, belief_join in *;
  repeat match goal with b : belief |- _ => destruct b end; simpl in *;
  repeat case_match; simpl in *; rewrite ?Z.ltb_lt, ?Z.ltb_ge in *;
  simplify_eq; try (f_equal; lia); try lia.

#[export] Instance belief_join_comm : Comm (=) belief_join.
Proof. intros a b. solve_belief. Qed.

#[export] Instance belief_join_assoc : Assoc (=) belief_join.
Proof. intros a b c. solve_belief. Qed.

#[export] Instance belief_join_idemp : IdemP (=) belief_join.
Proof. intros a. solve_belief. Qed.

Lemma belief_le_join_l a b : belief_le a (belief_join a b).
Proof. unfold belief_le. by rewrite (assoc_L belief_join), (idemp_L belief_join). Qed.

Lemma learn_comm m u a v b : learn (learn m u a) v b = learn (learn m v b) u a.
Proof.
  unfold learn. destruct (decide (u = v)) as [->|Hne].
  - rewrite !lookup_insert_eq, !insert_insert_eq. f_equal.
    destruct (m !! v) as [x|]; [|apply (comm_L belief_join)].
    rewrite <-!(assoc_L belief_join). f_equal. apply (comm_L belief_join).
  - rewrite !lookup_insert_ne by done. by apply insert_insert_ne.
Qed.

(** ** Merging implements learning *)

Lemma known_status i :
  known i → ni_status i = SWIM_STATUS_ALIVE ∨ ni_status i = SWIM_STATUS_SUSPECT ∨
            ni_status i = SWIM_STATUS_DEAD.
Proof.
  intros [Hk Hv]. unfold known_info in Hk. rewrite andb_true_iff, negb_true_iff in Hk.
  destruct Hk as [_ Hk]. apply bool_decide_eq_false in Hk.
  destruct (ni_status i); auto; done.
Qed.

Lemma merge_node_belief info n :
  known info → known (ns_info n) →
  node_belief (merge_node info n) = belief_join (node_belief n) (info_belief info).
Proof.
  intros Hi Hn. unfold merge_node, node_belief, info_belief, belief_join, node_status.
  simpl. apply known_status in Hi, Hn.
  destruct (Z.ltb_spec (ni_incarnation (ns_info n)) (ni_incarnation info)); [done|].
  destruct (Z.ltb_spec (ni_incarnation info) (ni_incarnation (ns_info n))) as [Hlt|Hge].
  { by rewrite (proj2 (Z.eqb_neq _ _)) by lia. }
  rewrite (proj2 (Z.eqb_eq _ _)) by lia.
  destruct Hi as [Ei|[Ei|Ei]], Hn as [En|[En|En]]; rewrite ?Ei, ?En; simpl; rewrite ?Ei, ?En;
    try done; by case_match; simpl; rewrite ?En.
Qed.

Lemma merge_node_known info n : known info → known (ns_info n) → known (ns_info (merge_node info n)).
Proof.
  intros Hi Hn. unfold merge_node. repeat case_match; try done;
    destruct Hi as [Hi1 Hi2], Hn as [Hn1 Hn2]; split; simpl; try done;
    unfold known_info, node_status in *; simpl in *; rewrite ?andb_true_iff, ?negb_true_iff in *;
    intuition congruence.
Qed.

Section Merging.
Context {U : UuidLib} {UL : UuidLaws U} {E : Env}.

Lemma beliefs_updated s i n' s' :
  node_updated s i n' s' → beliefs s' = <[node_uuid n' := node_belief n']> (beliefs s).
Proof. intros [_ _ Hm _ _]. unfold beliefs. by rewrite Hm, fmap_insert. Qed.

Lemma all_known_updated s i n' s' :
  node_updated s i n' s' → known (ns_info n') → all_known s → all_known s'.
Proof.
  intros [_ _ Hm _ _] Hn Hs u n. rewrite Hm. intros [[_ <-]|[_ Hu]]%lookup_insert_Some; eauto.
Qed.

Lemma beliefs_added s info cell s' :
  node_added s info cell s' → beliefs s' = <[ni_uuid info := info_belief info]> (beliefs s).
Proof. intros [_ _ Hm _ _ _]. unfold beliefs. by rewrite Hm, fmap_insert. Qed.

Lemma all_known_added s info cell s' :
  node_added s info cell s' → known info → all_known s → all_known s'.
Proof.
  intros [_ _ Hm _ _ _] Hn Hs u n. rewrite Hm. intros [[_ <-]|[_ Hu]]%lookup_insert_Some; eauto.
Qed.

Lemma beliefs_lookup s u : beliefs s !! u = node_belief <$> view_map s !! u.
Proof. unfold beliefs. apply lookup_fmap. Qed.

(** [swim_state_merge] always returns and keeps the invariant; it implements
    [learn] unless memory for a new node is refused. *)
Lemma merge_refines info w :
  swim_wf (w_swim w) →
  ∃ w', swim_state_merge info w = (Ok tt, w') ∧ swim_wf (w_swim w') ∧
    same_self (w_swim w) (w_swim w') ∧ w_out w' = w_out w ∧
    (known info → all_known (w_swim w) → all_known (w_swim w') ∧
     ((∀ k, env_alloc k = true) → beliefs (w_swim w') =
        if decide (ni_uuid info = sw_uuid (w_swim w)) then beliefs (w_swim w)
        else learn (beliefs (w_swim w)) (ni_uuid info) (info_belief info))).
Proof.
  intros Hwf. destruct (merge_run info w Hwf) as
    [[Hself Hrun]|[Hne [(i & n & s' & Hm & Hi & Hrun & Hup)|(Hm & w' & Hrun & Hout & Hadd)]]].
  - exists w. split_and!; try done. intros _ Hk. split; [done|]. by rewrite decide_True.
  - exists (with_swim s' w). split_and!; try done; [apply Hup|apply Hup|].
    intros Hki Hks. pose proof (Hks _ _ Hm) as Hn.
    split; [eapply all_known_updated; [done|by apply merge_node_known|done]|].
    intros _. rewrite decide_False by done. simpl.
    rewrite (beliefs_updated _ _ _ _ Hup), merge_node_belief, node_uuid_merge by done.
    unfold learn. rewrite beliefs_lookup, Hm. simpl.
    assert (node_uuid n = ni_uuid info) as ->; [|done].
    by apply view_map_lookup in Hm as [].
  - exists w'. destruct Hadd as [(Hs & Ha & Hfull)|[cell Hadd]].
    + rewrite Hs. split_and!; try done. intros _ Hk. split; [done|]. intros Hall.
      by rewrite Hall in Ha.
    + split_and!; try done; [apply Hadd|apply Hadd|]. intros Hki Hks.
      split; [by eapply all_known_added|]. intros _. rewrite decide_False by done.
      rewrite (beliefs_added _ _ _ _ Hadd). unfold learn. by rewrite beliefs_lookup, Hm.
Qed.

(** After adding a node, the last one of the view is the one with the greatest
    uuid. *)
Lemma added_last s info cell s' :
  node_added s info cell s' → view_map s !! ni_uuid info = None →
  ∃ n, live s' !! sw_view_size s = Some n ∧
    (∀ m, m ∈ live s' → m = n ∨ uuid_lt (node_uuid m) (node_uuid n)) ∧
    (ns_info n = info ↔ ∀ u, u ∈ uuids s → uuid_lt u (ni_uuid info)) ∧
    (n ∈ live s ∨ n = set_ns_info info cell).
Proof.
  intros [Hwf' Hlive _ _ Hsz _] Hnew.
  assert (length (live s') = S (sw_view_size s)) as Hlen.
  { destruct Hwf' as [Hc _ Hle _ _]. unfold live. rewrite length_take. lia. }
  destruct (lookup_lt_is_Some_2 (live s') (sw_view_size s)) as [n Hn]; [lia|].
  exists n. split; [done|].
  assert (∀ m, m ∈ live s' → m = n ∨ uuid_lt (node_uuid m) (node_uuid n)) as Hmax.
  { intros m [j Hj]%list_elem_of_lookup.
    destruct (decide (j = sw_view_size s)) as [->|]; [left; congruence|right].
    destruct Hwf' as [_ _ _ [Hs _] _].
    eapply (StronglySorted_lookup _ _ j (sw_view_size s)); [exact Hs|..];
      rewrite ?list_lookup_fmap, ?Hj, ?Hn; try done.
    apply lookup_lt_Some in Hj. lia. }
  split; [done|].
  assert (∀ m, m ∈ live s' ↔ m ∈ live s ∨ m = set_ns_info info cell) as Hin.
  { intros m. by rewrite Hlive, qsort_permutation, elem_of_app, list_elem_of_singleton. }
  assert (n ∈ live s') as Hnin by (apply list_elem_of_lookup; eauto).
  split; [|by apply Hin]. split.
  - intros <- u (m & -> & Hm)%list_elem_of_fmap.
    destruct (Hmax m) as [->|]; [by apply Hin; left| |done].
    exfalso. apply nodes_map_None in Hnew. apply Hnew.
    change (node_uuid n ∈ node_uuid <$> live s). by apply list_elem_of_fmap_2.
  - intros Hgt. destruct (Hmax (set_ns_info info cell)) as [<-|Hlt]; [by apply Hin; right|done|].
    apply Hin in Hnin as [Hm| ->]; [|done].
    exfalso. apply (irreflexivity uuid_lt (node_uuid n)).
    transitivity (ni_uuid info); [|done]. by apply Hgt, list_elem_of_fmap_2.
Qed.

(** ** Theorems *)

(** C19: Binary search is equivalent to looking through the whole view: in a
    well-formed state [swim_state_get_node] returns the index of the node with
    the given uuid if there is one, and a null pointer otherwise. *)
Theorem swim_state_get_node_correct (s : SWIM) (u : uuid_t) :
  swim_wf s →
  swim_state_get_node s u = fst <$> list_find (λ n, node_uuid n = u) (live s).
Proof.
  intros Hwf. destruct (list_find (λ n, node_uuid n = u) (live s)) as [[i n]|] eqn:Hf; simpl.
  - apply list_find_Some in Hf as (Hi & Hu & _). apply get_node_Some; eauto.
  - apply get_node_None; [done|]. apply list_find_None in Hf. rewrite Forall_forall in Hf.
    unfold uuids. intros (n & -> & Hn)%list_elem_of_fmap. by apply (Hf n Hn).
Qed.

(** C20: Adding a node.  For a uuid that is neither the server's own nor in the
    view, [swim_state_add] keeps the invariant (the view stays sorted, within
    its capacity and without the server itself), enters the node in the map
    and leaves all other nodes as they are, growing the memory if needed; the
    probe schedule is invalidated.  The one alternative is that memory is
    refused, and then the state is unchanged and a null pointer returned. *)
Theorem swim_state_add_correct (info : NodeInfo) (w : World) :
  swim_wf (w_swim w) → ni_uuid info ≠ sw_uuid (w_swim w) →
  view_map (w_swim w) !! ni_uuid info = None →
  ∃ r w', swim_state_add info w = (Ok r, w') ∧ swim_wf (w_swim w') ∧ w_out w' = w_out w ∧
    match r with
    | Some _ => ∃ n, ns_info n = info ∧ pr_size (sw_probe (w_swim w')) = 0%nat ∧
        view_map (w_swim w') = <[ni_uuid info := n]> (view_map (w_swim w)) ∧
        sw_view_size (w_swim w') = S (sw_view_size (w_swim w))
    | None => w_swim w' = w_swim w ∧ env_alloc (w_allocs w) = false ∧
        sw_view_size (w_swim w) = sw_view_capacity (w_swim w)
    end.
Proof.
  intros Hwf Hself Hnew.
  destruct (add_run info w Hwf Hself Hnew) as [(w' & Hrun & Hs & Ho & Ha & Hf)
    |(cell & w' & Hrun & Ho & [Hwf' _ Hm _ Hsz Hp] & _)].
  - exists None, w'. rewrite Hs. by split_and!.
  - eexists _, w'. split_and!; try done. simpl. exists (set_ns_info info cell). by split_and!.
Qed.

(** The pointer [swim_state_add] returns is taken before the view is
    sorted: afterwards it points to the node with the greatest uuid of the
    view, which is the new node only if its uuid is greater than all others. *)
Theorem swim_state_add_returns_last (info : NodeInfo) (w w' : World) (i : nat) :
  swim_wf (w_swim w) → ni_uuid info ≠ sw_uuid (w_swim w) →
  view_map (w_swim w) !! ni_uuid info = None →
  swim_state_add info w = (Ok (Some i), w') →
  ∃ n, live (w_swim w') !! i = Some n ∧
    (∀ m, m ∈ live (w_swim w') → m = n ∨ uuid_lt (node_uuid m) (node_uuid n)) ∧
    (ns_info n = info ↔ ∀ u, u ∈ uuids (w_swim w) → uuid_lt u (ni_uuid info)).
Proof.
  intros Hwf Hself Hnew Hrun.
  destruct (add_run info w Hwf Hself Hnew) as [(? & Hrun' & _)|(cell & w1 & Hrun' & _ & Hadd & _)];
    [congruence|].
  rewrite Hrun in Hrun'. injection Hrun' as -> <-.
  destruct (added_last _ _ _ _ Hadd Hnew) as (n & ? & ? & ? & _). eauto.
Qed.

(** C21: Noticing a message.  A message from an unknown node changes nothing.
    For a known node the stored entry must satisfy the assertion; then a newer
    incarnation makes the node alive whatever it was, the same incarnation
    makes it alive unless it is dead and refreshes the time it was last seen,
    and an older incarnation is ignored.  Uuid and address never change, and
    neither does any other node. *)
Theorem swim_state_notice_correct (u : uuid_t) (t inc : Z) (w : World) :
  swim_wf (w_swim w) →
  match view_map (w_swim w) !! u with
  | None => swim_state_notice u t inc w = (Ok None, w)
  | Some n =>
      if known_info (ns_info n) then
        ∃ i s' n', swim_state_notice u t inc w = (Ok (Some i), with_swim s' w) ∧
          swim_wf s' ∧ view_map s' = <[u := n']> (view_map (w_swim w)) ∧
          ni_addr (ns_info n') = ni_addr (ns_info n) ∧ node_uuid n' = u ∧
          ns_witness n' = ns_witness n ∧
          (ni_incarnation (ns_info n) < inc →
             node_status n' = SWIM_STATUS_ALIVE ∧ ni_incarnation (ns_info n') = inc ∧
             ni_last_seen (ns_info n') = t) ∧
          (inc = ni_incarnation (ns_info n) →
             node_status n = SWIM_STATUS_ALIVE ∨ node_status n = SWIM_STATUS_SUSPECT →
             node_status n' = SWIM_STATUS_ALIVE ∧ ni_incarnation (ns_info n') = inc ∧
             ni_last_seen (ns_info n') = t) ∧
          (inc = ni_incarnation (ns_info n) → node_status n = SWIM_STATUS_DEAD → n' = n) ∧
          (inc < ni_incarnation (ns_info n) → n' = n)
      else swim_state_notice u t inc w = (Fault AssertFailed, w)
  end.
Proof.
  intros Hwf. destruct (notice_run u t inc w Hwf) as [[-> Hrun]|(i & n & Hm & Hi & Hrun)]; [done|].
  rewrite Hm. apply view_map_lookup in Hm as [_ Hu].
  destruct (known_info (ns_info n)); [|done]. destruct Hrun as (s' & Hrun & [Hwf' _ Hm' _ _]).
  rewrite node_uuid_notice, Hu in Hm'.
  exists i, s', (notice_node t inc n). split; [done|]. split; [done|]. split; [done|].
  unfold notice_node, node_status.
  split; [by repeat case_match|]. split; [rewrite <-Hu; by repeat case_match|].
  split; [by repeat case_match|].
  destruct (Z.ltb_spec (ni_incarnation (ns_info n)) inc).
  { split_and!; [done|lia..]. }
  destruct (Z.eqb_spec inc (ni_incarnation (ns_info n))); [|split_and!; done || lia].
  split_and!; [lia| |..|lia].
  - intros Heq [Hs|Hs]; rewrite Hs; split_and!; done.
  - by intros _ ->.
Qed.

(** C17: Merging gossip refines learning a belief.  In a state whose entries
    are known, merging a known entry always succeeds, keeps the invariant,
    and replaces the belief about the node by the larger of the two; gossip
    about the server itself is ignored. *)
Theorem swim_state_merge_refines (info : NodeInfo) (w : World) :
  (∀ k, env_alloc k = true) → swim_wf (w_swim w) → all_known (w_swim w) → known info →
  ∃ w', swim_state_merge info w = (Ok tt, w') ∧ swim_wf (w_swim w') ∧ all_known (w_swim w') ∧
    w_out w' = w_out w ∧ same_self (w_swim w) (w_swim w') ∧
    beliefs (w_swim w') =
      if decide (ni_uuid info = sw_uuid (w_swim w)) then beliefs (w_swim w)
      else learn (beliefs (w_swim w)) (ni_uuid info) (info_belief info).
Proof.
  intros Ha Hwf Hk Hi. destruct (merge_refines info w Hwf) as (w' & Hrun & ? & ? & ? & Hr).
  destruct (Hr Hi Hk) as [? ?]. exists w'. auto 10.
Qed.

(** A death is not final.  Although a node declared dead is documented as
    unable to refute it, a message with a newer incarnation makes it alive
    again, and a PING_REQ about it makes it merely suspect. *)
Theorem swim_dead_can_return (u : uuid_t) (t inc : Z) (addr : sockaddr_storage) (addrlen : Z)
  (n : NodeState) (w : World) :
  swim_wf (w_swim w) → view_map (w_swim w) !! u = Some n →
  node_status n = SWIM_STATUS_DEAD → known_info (ns_info n) = true →
  ni_incarnation (ns_info n) < inc → 0 ≤ addrlen ≤ 128 →
  (∃ i s' n', swim_state_notice u t inc w = (Ok (Some i), with_swim s' w) ∧
     view_map s' !! u = Some n' ∧ node_status n' = SWIM_STATUS_ALIVE) ∧
  (∃ i s' n', swim_state_suspect u addr addrlen w = (Ok (Some i), with_swim s' w) ∧
     view_map s' !! u = Some n' ∧ node_status n' = SWIM_STATUS_SUSPECT ∧
     swim_node_has_witness n' = (0 <? addrlen)).
Proof.
  intros Hwf Hm Hd Hk Hinc Hl. pose proof (proj2 (view_map_lookup _ _ _ Hm)) as Hu. split.
  - destruct (notice_run u t inc w Hwf) as [[? _]|(i & n0 & Hm0 & _ & Hrun)]; [congruence|].
    replace n0 with n in * by congruence. rewrite Hk in Hrun. destruct Hrun as (s' & Hrun & [_ _ Hm' _ _]).
    exists i, s', (notice_node t inc n). split; [done|]. rewrite Hm', node_uuid_notice, Hu.
    split; [apply lookup_insert_eq|]. unfold notice_node.
    by rewrite (proj2 (Z.ltb_lt _ _)) by done.
  - destruct (suspect_run u addr addrlen w Hwf Hl)
      as [[? _]|(i & n0 & s' & Hm0 & _ & Hrun & [_ _ Hm' _ _])]; [congruence|].
    simplify_eq. eexists i, s', _. split; [done|]. rewrite Hm'.
    split; [apply lookup_insert_eq|]. done.
Qed.

End Merging.

(** ** Witnesses *)

Definition W : World := sample_world (sample_swim sample_nodes).

Definition new_info : NodeInfo := sample_node_info 15 SWIM_STATUS_ALIVE 1766383895 1.

Lemma sample_all_known : all_known (w_swim W).
Proof.
  intros u n [Hn _]%view_map_lookup. revert n Hn. apply Forall_forall.
  repeat constructor; vm_compute; done.
Qed.

Lemma swim_state_get_node_correct_witness :
  @swim_state_get_node lexicographic (w_swim W) (sample_uuid 30) = Some 2%nat ∧
  @swim_state_get_node lexicographic (w_swim W) (sample_uuid 30)
  = fst <$> list_find (λ n, node_uuid n = sample_uuid 30) (live (w_swim W)).
Proof.
  split; [reflexivity|].
  apply (swim_state_get_node_correct (U := lexicographic)). apply sample_nodes_wf.
Defined.

Lemma swim_state_add_correct_witness :
  ∃ r w', @swim_state_add lexicographic sample_env new_info W = (Ok r, w') ∧
    @swim_wf lexicographic (w_swim w') ∧ w_out w' = [] ∧
    match r with
    | Some _ => ∃ n, ns_info n = new_info ∧ pr_size (sw_probe (w_swim w')) = 0%nat ∧
        view_map (w_swim w') = <[ni_uuid new_info := n]> (view_map (w_swim W)) ∧
        sw_view_size (w_swim w') = 4%nat
    | None => w_swim w' = w_swim W ∧ @env_alloc sample_env 0 = false ∧ 3%nat = 5%nat
    end.
Proof.
  apply (swim_state_add_correct (U := lexicographic) (E := sample_env) new_info W).
  - apply sample_nodes_wf.
  - vm_compute. congruence.
  - vm_compute. reflexivity.
Defined.

(** The new node 15 is not the last one, so that the pointer misses it. *)
Lemma swim_state_add_returns_last_witness :
  let w' := (@swim_state_add lexicographic sample_env new_info W).2 in
  ∃ n, live (w_swim w') !! 3%nat = Some n ∧
    (∀ m, m ∈ live (w_swim w') → m = n ∨ @uuid_lt lexicographic (node_uuid m) (node_uuid n)) ∧
    (ns_info n = new_info ↔
     ∀ u, u ∈ uuids (w_swim W) → @uuid_lt lexicographic u (ni_uuid new_info)).
Proof.
  apply (swim_state_add_returns_last (U := lexicographic) (E := sample_env) new_info W).
  - apply sample_nodes_wf.
  - vm_compute. congruence.
  - vm_compute. reflexivity.
  - reflexivity.
Defined.

Lemma swim_state_notice_correct_witness :
  ∃ i s' n', @swim_state_notice lexicographic (sample_uuid 30) 1766383899 5 W
             = (Ok (Some i), with_swim s' W) ∧
    @swim_wf lexicographic s' ∧ view_map s' = <[sample_uuid 30 := n']> (view_map (w_swim W)) ∧
    ni_addr (ns_info n') = sample_addr ∧ node_uuid n' = sample_uuid 30 ∧
    ns_witness n' = no_witness ∧
    (4 < 5 → node_status n' = SWIM_STATUS_ALIVE ∧ ni_incarnation (ns_info n') = 5 ∧
       ni_last_seen (ns_info n') = 1766383899) ∧
    (5 = 4 → SWIM_STATUS_SUSPECT = SWIM_STATUS_ALIVE ∨ SWIM_STATUS_SUSPECT = SWIM_STATUS_SUSPECT →
       node_status n' = SWIM_STATUS_ALIVE ∧ ni_incarnation (ns_info n') = 5 ∧
       ni_last_seen (ns_info n') = 1766383899) ∧
    (5 = 4 → SWIM_STATUS_SUSPECT = SWIM_STATUS_DEAD →
       n' = sample_node 30 SWIM_STATUS_SUSPECT 1766383800 4) ∧
    (5 < 4 → n' = sample_node 30 SWIM_STATUS_SUSPECT 1766383800 4).
Proof.
  exact (swim_state_notice_correct (U := lexicographic) (sample_uuid 30) 1766383899 5 W
    sample_nodes_wf).
Defined.

Lemma swim_state_merge_refines_witness :
  ∃ w', @swim_state_merge lexicographic sample_env sample_info W = (Ok tt, w') ∧
    @swim_wf lexicographic (w_swim w') ∧ all_known (w_swim w') ∧ w_out w' = [] ∧
    same_self (w_swim W) (w_swim w') ∧
    beliefs (w_swim w') = learn (beliefs (w_swim W)) (sample_uuid 7) (3, 2).
Proof.
  apply (swim_state_merge_refines (U := lexicographic) (E := sample_env) sample_info W).
  - done.
  - apply sample_nodes_wf.
  - apply sample_all_known.
  - split; vm_compute; done.
Defined.

Lemma swim_dead_can_return_witness :
  (∃ i s' n', @swim_state_notice lexicographic (sample_uuid 20) 1766383899 2 W
       = (Ok (Some i), with_swim s' W) ∧
     view_map s' !! sample_uuid 20 = Some n' ∧ node_status n' = SWIM_STATUS_ALIVE) ∧
  (∃ i s' n', @swim_state_suspect lexicographic (sample_uuid 20) sample_addr 16 W
       = (Ok (Some i), with_swim s' W) ∧
     view_map s' !! sample_uuid 20 = Some n' ∧ node_status n' = SWIM_STATUS_SUSPECT ∧
     swim_node_has_witness n' = true).
Proof.
  apply (swim_dead_can_return (U := lexicographic) (sample_uuid 20) 1766383899 2 sample_addr 16
    (sample_node 20 SWIM_STATUS_DEAD 1766383000 1) W).
  - apply sample_nodes_wf.
  - vm_compute. reflexivity.
  - reflexivity.
  - reflexivity.
  - reflexivity.
  - split; reflexivity || discriminate.
Defined.
