(* ===== verification/Probe.v ===== *)
(** * The probe schedule: [swim_probe_*] of [swim/state.c]

    Round-robin probing of the members in an order that is shuffled anew for
    each round. *)

From Stdlib Require Import Init.Byte ZArith Lia.
From stdpp Require Import base tactics list vector sorting gmap.
From S2P Require Import Prelude Bytes Node Event State StateFacts Samples.

Open Scope Z_scope.

(** ** Operations *)

(** [tmp = order[i]; order[i] = order[j]; order[j] = tmp] *)
Definition swap (order : list nat) (i j : nat) : outcome (list nat) :=
  match order !! i, order !! j with
  | Some a, Some b => Ok (<[j := a]> (<[i := b]> order))
  | _, _ => Fault OutOfBounds
  end.

Section Operations.
Context `{Env}.

(** [for (i = n - 1; i > 0; i--) { j = rand() % (i + 1); ... }] *)
Fixpoint shuffle_loop (i : nat) (order : list nat) : M (list nat) :=
  match i with
  | O => mret order
  | S i' =>
      r ← rand;
      order ← lift (swap order i (N.to_nat (r mod N.of_nat (i + 1))));
      shuffle_loop i' order
  end.

Definition swim_probe_shuffle : M unit :=
  s ← get_swim;
  let n := sw_view_size s in
  if (n =? 0)%nat then
    modify (λ s, set_sw_probe {| pr_order := pr_order (sw_probe s);
                                 pr_pos := 0; pr_size := 0 |} s)
  else
    k ← alloc;
    match k with
    | None => mret tt
    | Some _ =>
        order ← shuffle_loop (n - 1) (seq 0 n);
        modify (set_sw_probe {| pr_order := order; pr_pos := 0; pr_size := n |})
    end.

Definition set_pos (pos : nat) (s : SWIM) : SWIM :=
  set_sw_probe {| pr_order := pr_order (sw_probe s); pr_pos := pos;
                  pr_size := pr_size (sw_probe s) |} s.

(** [while (pos < size) { idx = order[pos++]; if (...) return idx; } return -1]
    [fuel] is an upper bound of the iterations that remain. *)
Fixpoint probe_loop (fuel : nat) : M Z :=
  s ← get_swim;
  let p := sw_probe s in
  if (pr_pos p <? pr_size p)%nat then
    match fuel, pr_order p !! pr_pos p with
    | O, _ | _, None => fail OutOfBounds
    | S fuel, Some idx =>
        modify (set_pos (S (pr_pos p)));;
        if (idx <? sw_view_size s)%nat then
          n ← node_at idx;
          if bool_decide (node_status n = SWIM_STATUS_DEAD) then probe_loop fuel
          else mret (Z.of_nat idx)
        else probe_loop fuel
    end
  else mret (-1).

Definition swim_probe_next : M Z :=
  s ← get_swim;
  if (sw_view_size s =? 0)%nat then mret (-1)
  else
    (if (pr_size (sw_probe s) <=? pr_pos (sw_probe s))%nat
        || negb (pr_size (sw_probe s) =? sw_view_size s)%nat
     then swim_probe_shuffle else mret tt);;
    s ← get_swim;
    probe_loop (pr_size (sw_probe s) - pr_pos (sw_probe s)).

(** [k] successive probes of an unchanged view. *)
Fixpoint probe_times (k : nat) : M (list Z) :=
  match k with
  | O => mret []
  | S k => r ← swim_probe_next; rs ← probe_times k; mret (r :: rs)
  end.

End Operations.

(** ** Shuffling *)

Lemma swap_ok order i j :
  (i < length order)%nat → (j < length order)%nat →
  ∃ order', swap order i j = Ok order' ∧ order' ≡ₚ order.
Proof.
  intros Hi Hj. unfold swap.
  destruct (lookup_lt_is_Some_2 order i Hi) as [a Ha].
  destruct (lookup_lt_is_Some_2 order j Hj) as [b Hb]. rewrite Ha, Hb.
  eexists. split; [done|]. by apply Permutation_insert_swap.
Qed.

(** Worlds that differ in the number of random numbers drawn, and in the
    server's state, only. *)
Record same_world (w w' : World) : Prop := {
  sw_times : w_times w' = w_times w;
  sw_out : w_out w' = w_out w
}.

Section Shuffling.
Context {U : UuidLib} {E : Env}.

Lemma shuffle_loop_run i order w :
  (i < length order)%nat →
  ∃ order' w', shuffle_loop i order w = (Ok order', w') ∧ order' ≡ₚ order ∧
    w_swim w' = w_swim w ∧ w_allocs w' = w_allocs w ∧ same_world w w'.
Proof.
  revert order w; induction i as [|i IH]; intros order w Hi; cbn [shuffle_loop].
  { exists order, w. done. }
  rewrite (bind_run rand _ w _ _ eq_refl).
  match goal with |- context [swap order ?a ?b] =>
    destruct (swap_ok order a b) as (order1 & -> & Hp); [done| |] end.
  { match goal with |- context [(?r mod ?m)%N] =>
      pose proof (N.mod_upper_bound r m ltac:(lia)) end. lia. }
  match goal with |- context [mbind _ _ ?w1] =>
    rewrite (bind_run (lift (Ok order1)) _ w1 order1 w1) by done;
    destruct (IH order1 w1) as (order' & w' & -> & Hp' & ? & ? & [? ?]) end.
  { rewrite Hp. lia. }
  exists order', w'. split; [done|]. split; [by rewrite Hp'|done].
Qed.

Lemma probe_shuffle_run w :
  sw_view_size (w_swim w) ≠ 0%nat → env_alloc (w_allocs w) = true →
  ∃ order w', swim_probe_shuffle w = (Ok tt, w') ∧
    order ≡ₚ seq 0 (sw_view_size (w_swim w)) ∧ same_world w w' ∧
    w_swim w' = set_sw_probe {| pr_order := order; pr_pos := 0;
                                pr_size := sw_view_size (w_swim w) |} (w_swim w).
Proof.
  intros Hn Ha. unfold swim_probe_shuffle.
  rewrite (bind_run get_swim _ w (w_swim w) w) by done.
  rewrite (proj2 (Nat.eqb_neq _ _)) by done.
  rewrite (bind_run alloc _ w _ _ eq_refl), Ha.
  match goal with |- context [mbind _ (shuffle_loop ?i ?o) ?w1] =>
    destruct (shuffle_loop_run i o w1) as (order & w' & Hrun & Hp & Hs & _ & Hw) end.
  { rewrite length_seq. lia. }
  rewrite (bind_run _ _ _ _ _ Hrun). exists order. eexists. split; [done|].
  split; [done|]. simpl in *. rewrite Hs. destruct Hw. by split.
Qed.

Lemma probe_shuffle_starved w :
  sw_view_size (w_swim w) ≠ 0%nat → env_alloc (w_allocs w) = false →
  ∃ w', swim_probe_shuffle w = (Ok tt, w') ∧ w_out w' = w_out w ∧ w_swim w' = w_swim w.
Proof.
  intros Hn Ha. unfold swim_probe_shuffle.
  rewrite (bind_run get_swim _ w (w_swim w) w) by done.
  rewrite (proj2 (Nat.eqb_neq _ _)) by done.
  rewrite (bind_run alloc _ w _ _ eq_refl), Ha. by eexists.
Qed.

Lemma probe_loop_exhausted fuel w :
  (pr_size (sw_probe (w_swim w)) ≤ pr_pos (sw_probe (w_swim w)))%nat →
  probe_loop fuel w = (Ok (-1), w).
Proof.
  intros Hp. destruct fuel; cbn [probe_loop];
    rewrite (bind_run get_swim _ w (w_swim w) w) by done;
    by rewrite (proj2 (Nat.ltb_ge _ _)) by done.
Qed.

End Shuffling.

(** ** A single probe *)

Definition node_dead (s : SWIM) (i : nat) : Prop :=
  ∃ n, live s !! i = Some n ∧ node_status n = SWIM_STATUS_DEAD.

Definition node_probeable (s : SWIM) (i : nat) : Prop :=
  ∃ n, live s !! i = Some n ∧ node_status n ≠ SWIM_STATUS_DEAD.

(** A schedule for the present view, with [pos] within bounds. *)
Definition scheduled (s : SWIM) : Prop :=
  pr_size (sw_probe s) = sw_view_size s ∧
  pr_order (sw_probe s) ≡ₚ seq 0 (sw_view_size s) ∧
  (pr_pos (sw_probe s) ≤ sw_view_size s)%nat.

(** What is left of the round. *)
Definition remaining (s : SWIM) : list nat := drop (pr_pos (sw_probe s)) (pr_order (sw_probe s)).

(** [r] is the answer of a probe in [s] that leaves the position at [pos]:
    the first node of the rest of the round that is not dead, or -1 if all
    of the rest is dead. *)
Definition probe_answer (s : SWIM) (r : Z) (pos : nat) : Prop :=
  (r = -1 ∧ pos = sw_view_size s ∧ Forall (node_dead s) (remaining s)) ∨
  (∃ pre idx, r = Z.of_nat idx ∧ node_probeable s idx ∧
     remaining s = pre ++ idx :: remaining (set_pos pos s) ∧ Forall (node_dead s) pre ∧
     (pr_pos (sw_probe s) < pos ≤ sw_view_size s)%nat).

#[export] Instance node_probeable_dec s i : Decision (node_probeable s i).
Proof.
  destruct (live s !! i) as [n|] eqn:Hn.
  - destruct (decide (node_status n = SWIM_STATUS_DEAD)).
    + right. intros (m & ? & ?). congruence.
    + left. by exists n.
  - right. intros (m & ? & ?). congruence.
Defined.

Section Probing.
Context {U : UuidLib} {UL : UuidLaws U} {E : Env}.

Lemma scheduled_order s :
  scheduled s → length (pr_order (sw_probe s)) = sw_view_size s ∧
  ∀ i, i ∈ pr_order (sw_probe s) → (i < sw_view_size s)%nat.
Proof.
  intros (_ & Hp & _). rewrite Hp, length_seq. split; [done|].
  intros i. rewrite Hp, elem_of_seq. lia.
Qed.

Lemma live_is_Some s i :
  swim_wf s → (i < sw_view_size s)%nat → is_Some (live s !! i).
Proof.
  intros [Hc _ Hsz _ _] Hi. apply lookup_lt_is_Some_2. unfold live.
  rewrite length_take. lia.
Qed.

Lemma probe_loop_run fuel w :
  swim_wf (w_swim w) → scheduled (w_swim w) →
  (sw_view_size (w_swim w) - pr_pos (sw_probe (w_swim w)) ≤ fuel)%nat →
  ∃ r pos, probe_loop fuel w = (Ok r, with_swim (set_pos pos (w_swim w)) w) ∧
    (pr_pos (sw_probe (w_swim w)) ≤ pos ≤ sw_view_size (w_swim w))%nat ∧
    probe_answer (w_swim w) r pos.
Proof.
  revert w; induction fuel as [|fuel IH]; intros w Hwf Hsch Hf;
    pose proof (scheduled_order _ Hsch) as [Hlen Hin];
    pose proof Hsch as (Hsize & Hperm & Hpos); cbn [probe_loop];
    rewrite (bind_run get_swim _ w (w_swim w) w) by done; rewrite Hsize.
  1: destruct (Nat.ltb_spec (pr_pos (sw_probe (w_swim w))) (sw_view_size (w_swim w))); [lia|].
  2: destruct (Nat.ltb_spec (pr_pos (sw_probe (w_swim w))) (sw_view_size (w_swim w))) as [Hlt|].
  1,3: exists (-1), (pr_pos (sw_probe (w_swim w))); split; [
    unfold set_pos; destruct w as [[? ? ? ? ? ? ? ? []] ? ? ? ?]; done|]; split; [lia|];
    left; split_and!; [done|lia|]; unfold remaining; by rewrite drop_ge by lia.
  destruct (lookup_lt_is_Some_2 (pr_order (sw_probe (w_swim w)))
    (pr_pos (sw_probe (w_swim w)))) as [idx Hidx]; [lia|]. rewrite Hidx.
  set (s := w_swim w) in *. set (s1 := set_pos (S (pr_pos (sw_probe s))) s).
  rewrite (bind_run (modify _) _ w tt (with_swim s1 w)) by done.
  assert (idx < sw_view_size s)%nat as Hidx' by (apply Hin, list_elem_of_lookup; eauto).
  rewrite (proj2 (Nat.ltb_lt _ _)) by done.
  destruct (live_is_Some s idx Hwf Hidx') as [n Hn].
  rewrite (bind_run (node_at idx) _ _ n (with_swim s1 w)).
  2:{ apply node_at_run. by apply live_lookup_Some in Hn as []. }
  assert (remaining s = idx :: remaining s1) as Hrem.
  { unfold remaining, s1. simpl. by apply drop_S. }
  destruct (decide (node_status n = SWIM_STATUS_DEAD)) as [Hd|Hd].
  - rewrite bool_decide_eq_true_2 by done.
    destruct (IH (with_swim s1 w)) as (r & pos & -> & Hpos' & Hans).
    { destruct Hwf as [? ? ? ? Hpr]. split; try done. }
    { unfold scheduled. simpl. split_and!; [done..|lia]. }
    { simpl. lia. }
    exists r, pos. split; [by destruct w|]. simpl in Hpos'. split; [lia|].
    destruct Hans as [(-> & -> & Hall)|(pre & i & -> & Hi & Heq & Hpre & Hle)]; [left|right].
    + split_and!; [done..|]. rewrite Hrem. constructor; [by exists n|done].
    + exists (idx :: pre), i. simpl in *. split_and!; [done..| |constructor; [by exists n|done]|lia|lia].
      rewrite Hrem. by rewrite Heq.
  - rewrite bool_decide_eq_false_2 by done.
    exists (Z.of_nat idx), (S (pr_pos (sw_probe s))). split; [done|]. split; [lia|].
    right. exists [], idx. split_and!; [done|by exists n|done|constructor|lia..].
Qed.

(** Changes of the schedule that keep the invariant. *)
Lemma set_pos_wf pos s : swim_wf s → swim_wf (set_pos pos s).
Proof. intros [? ? ? ? Hpr]. by split. Qed.

Lemma reschedule_wf order s :
  order ≡ₚ seq 0 (sw_view_size s) → swim_wf s →
  swim_wf (set_sw_probe {| pr_order := order; pr_pos := 0; pr_size := sw_view_size s |} s).
Proof. intros Hp [? ? ? ? Hpr]. split; try done. right. by split. Qed.

(** The schedule a probe works on: the present one while it is valid and not
    exhausted, and a fresh round otherwise. *)
Definition in_round (s : SWIM) : Prop :=
  pr_size (sw_probe s) = sw_view_size s ∧ (pr_pos (sw_probe s) < sw_view_size s)%nat.

#[export] Instance in_round_dec s : Decision (in_round s) := ltac:(unfold in_round; apply _).

Definition round_of (s s1 : SWIM) : Prop :=
  in_round s ∧ s1 = s ∨
  ¬ in_round s ∧ ∃ order, order ≡ₚ seq 0 (sw_view_size s) ∧
    s1 = set_sw_probe {| pr_order := order; pr_pos := 0; pr_size := sw_view_size s |} s.

Lemma round_of_scheduled s s1 : swim_wf s → round_of s s1 → swim_wf s1 ∧ scheduled s1.
Proof.
  intros Hwf [[[Hs Hp] ->]|(_ & order & Hp & ->)].
  - split; [done|]. destruct Hwf as [? ? ? ? [Hz|[_ Hperm]]]; [|split_and!; done || lia].
    lia.
  - split; [by apply reschedule_wf|]. split_and!; simpl; done || lia.
Qed.

Lemma in_round_test s :
  swim_wf s →
  ((pr_size (sw_probe s) <=? pr_pos (sw_probe s))%nat
   || negb (pr_size (sw_probe s) =? sw_view_size s)%nat) = bool_decide (¬ in_round s).
Proof.
  intros Hwf. apply eq_true_iff_eq.
  rewrite orb_true_iff, negb_true_iff, Nat.leb_le, Nat.eqb_neq, bool_decide_eq_true.
  unfold in_round. lia.
Qed.

(** A probe whose allocations succeed. *)
Lemma probe_next_run w :
  swim_wf (w_swim w) → sw_view_size (w_swim w) ≠ 0%nat →
  (¬ in_round (w_swim w) → env_alloc (w_allocs w) = true) →
  ∃ r pos s1 w', swim_probe_next w = (Ok r, w') ∧ w_swim w' = set_pos pos s1 ∧
    round_of (w_swim w) s1 ∧ probe_answer s1 r pos ∧
    (pr_pos (sw_probe s1) ≤ pos ≤ sw_view_size (w_swim w))%nat ∧ same_world w w'.
Proof.
  intros Hwf Hn Ha. unfold swim_probe_next.
  rewrite (bind_run get_swim _ w (w_swim w) w) by done.
  rewrite (proj2 (Nat.eqb_neq _ _)), in_round_test by done.
  assert (∃ w1, (if bool_decide (¬ in_round (w_swim w)) then swim_probe_shuffle else mret tt) w
     = (Ok tt, w1) ∧ round_of (w_swim w) (w_swim w1) ∧ same_world w w1) as (w1 & Hrun & Hr & Hw).
  { case_bool_decide as Hir.
    - destruct (probe_shuffle_run w Hn (Ha Hir)) as (order & w1 & Hrun & Hp & Hw & Hs).
      exists w1. split; [done|]. split; [|done]. right. eauto.
    - exists w. split; [done|]. split; [left|done]. split; [|done].
      unfold in_round in *. lia. }
  rewrite (bind_run _ _ _ _ _ Hrun), (bind_run get_swim _ w1 (w_swim w1) w1) by done.
  destruct (round_of_scheduled _ _ Hwf Hr) as [Hwf1 Hsch].
  assert (sw_view_size (w_swim w1) = sw_view_size (w_swim w)) as Hsz
    by by destruct Hr as [[_ ->]|(_ & ? & _ & ->)].
  destruct (probe_loop_run (pr_size (sw_probe (w_swim w1)) - pr_pos (sw_probe (w_swim w1))) w1)
    as (r & pos & -> & Hpos & Hans); [done..|by destruct Hsch as (-> & _)|].
  exists r, pos, (w_swim w1). eexists. split; [done|]. rewrite <-Hsz.
  split_and!; try done; [lia..|]. destruct Hw. by split.
Qed.

Lemma probe_next_wf pos s s1 :
  swim_wf s → round_of s s1 → swim_wf (set_pos pos s1).
Proof. intros Hwf Hr. apply set_pos_wf. by apply round_of_scheduled in Hr as []. Qed.

End Probing.

(** ** Rounds *)

Section Rounds.
Context {U : UuidLib} {UL : UuidLaws U} {E : Env}.
Hypothesis alloc_ok : ∀ k, env_alloc k = true.

(** Within [k] probes, node [i] is probed. *)
Definition finds (k i : nat) (w : World) : Prop :=
  wp (probe_times k) (λ rs _, Z.of_nat i ∈ rs) (λ _ _, False) w.

(** The probes change the schedule only. *)
Definition same_nodes (s s' : SWIM) : Prop :=
  sw_view s' = sw_view s ∧ sw_view_size s' = sw_view_size s.

Lemma round_same_nodes s s1 pos : round_of s s1 → same_nodes s (set_pos pos s1).
Proof. by intros [[_ ->]|(_ & ? & _ & ->)]. Qed.

Lemma probe_times_safe k w :
  swim_wf (w_swim w) → sw_view_size (w_swim w) ≠ 0%nat →
  wp (probe_times k) (λ _ _, True) (λ _ _, False) w.
Proof.
  revert w; induction k as [|k IH]; intros w Hwf Hn; [done|]. cbn [probe_times].
  destruct (probe_next_run w Hwf Hn ltac:(auto)) as (r & pos & s1 & w' & Hrun & Hs & Hr & _).
  apply wp_bind. eapply wp_run; [exact Hrun|]. apply wp_bind.
  eapply wp_mono; [apply IH|done|done]; rewrite Hs; [by eapply probe_next_wf|].
  by rewrite (proj2 (round_same_nodes _ _ pos Hr)).
Qed.

(** If the first probe answers [i], or leaves a world from which [i] is found. *)
Lemma finds_step k i r w w' :
  swim_probe_next w = (Ok r, w') → swim_wf (w_swim w') → sw_view_size (w_swim w') ≠ 0%nat →
  r = Z.of_nat i ∨ finds k i w' → finds (S k) i w.
Proof.
  intros Hrun Hwf Hn Hor. unfold finds. cbn [probe_times]. apply wp_bind.
  eapply wp_run; [exact Hrun|]. apply wp_bind. destruct Hor as [->|Hf].
  - eapply wp_mono; [by apply probe_times_safe| |done]. intros rs w1 _. apply wp_ret. by left.
  - eapply wp_mono; [exact Hf| |done]. intros rs w1 ?. apply wp_ret. by right.
Qed.

Lemma probeable_not_dead s i : node_probeable s i → ¬ node_dead s i.
Proof. intros (n & Hn & ?) (m & Hm & ?). congruence. Qed.

(** A node that is due and not dead is the answer, or is still due. *)
Lemma answer_due s r pos i :
  probe_answer s r pos → node_probeable s i → i ∈ remaining s →
  (pr_pos (sw_probe s) < pos)%nat ∧ (r = Z.of_nat i ∨ i ∈ remaining (set_pos pos s)).
Proof.
  intros [(_ & _ & Hall)|(pre & idx & -> & _ & Heq & Hpre & Hpos)] Hi Hin.
  - rewrite Forall_forall in Hall. by destruct (probeable_not_dead _ _ Hi (Hall i Hin)).
  - split; [lia|]. rewrite Heq in Hin.
    apply elem_of_app in Hin as [Hin|[->|Hin]%elem_of_cons]; [|by left|by right].
    rewrite Forall_forall in Hpre. by destruct (probeable_not_dead _ _ Hi (Hpre i Hin)).
Qed.

Lemma remaining_pos s i : scheduled s → i ∈ remaining s → (pr_pos (sw_probe s) < sw_view_size s)%nat.
Proof.
  intros Hsch Hin. destruct (scheduled_order s Hsch) as [Hl _].
  destruct (decide (pr_pos (sw_probe s) < sw_view_size s)%nat); [done|].
  unfold remaining in Hin. rewrite drop_ge in Hin by lia. by apply elem_of_nil in Hin.
Qed.

Lemma set_pos_scheduled pos s :
  scheduled s → (pos ≤ sw_view_size s)%nat → scheduled (set_pos pos s).
Proof. by intros (? & ? & ?). Qed.

Lemma probeable_same s s' i :
  same_nodes s s' → node_probeable s i → node_probeable s' i.
Proof. intros [Hv Hsz]. unfold node_probeable, live. by rewrite Hv, Hsz. Qed.

Lemma probeable_size s i : node_probeable s i → (i < sw_view_size s)%nat.
Proof. intros (n & Hn & _). by apply live_lookup_Some in Hn as []. Qed.

(** A node that is left in the round is probed before the round ends. *)
Lemma finds_in_round k i w :
  swim_wf (w_swim w) → in_round (w_swim w) → node_probeable (w_swim w) i →
  i ∈ remaining (w_swim w) →
  (sw_view_size (w_swim w) - pr_pos (sw_probe (w_swim w)) ≤ k)%nat → finds k i w.
Proof.
  revert w; induction k as [|k IH]; intros w Hwf Hir Hi Hin Hk.
  { destruct Hir. lia. }
  pose proof (probeable_size _ _ Hi).
  destruct (probe_next_run w Hwf ltac:(lia) ltac:(auto))
    as (r & pos & s1 & w' & Hrun & Hs & Hr & Hans & Hpos & _).
  pose proof (round_same_nodes _ _ pos Hr) as Hsame.
  assert (swim_wf (set_pos pos s1)) by by eapply probe_next_wf.
  eapply finds_step; [exact Hrun|by rewrite Hs|rewrite Hs, (proj2 Hsame); lia|].
  destruct (round_of_scheduled _ _ Hwf Hr) as [_ Hsch].
  destruct Hr as [[_ ->]|[]]; [|done].
  destruct (answer_due _ _ _ _ Hans Hi Hin) as [Hlt [->|Hin']]; [by left|].
  right. apply IH; rewrite ?Hs; try done; [|simpl; lia].
  split; [apply Hir|]. eapply remaining_pos; [|done]. apply set_pos_scheduled; [done|lia].
Qed.

(** In a fresh round every node is probed. *)
Lemma finds_fresh_round k i w :
  swim_wf (w_swim w) → ¬ in_round (w_swim w) → node_probeable (w_swim w) i →
  (sw_view_size (w_swim w) ≤ k)%nat → finds k i w.
Proof.
  intros Hwf Hir Hi Hk. pose proof (probeable_size _ _ Hi) as Hlt.
  destruct k as [|k]; [lia|].
  destruct (probe_next_run w Hwf ltac:(lia) ltac:(auto))
    as (r & pos & s1 & w' & Hrun & Hs & Hr & Hans & Hpos & _).
  pose proof (round_same_nodes _ _ pos Hr) as Hsame.
  assert (swim_wf (set_pos pos s1)) by by eapply probe_next_wf.
  eapply finds_step; [exact Hrun|by rewrite Hs|rewrite Hs, (proj2 Hsame); lia|].
  destruct (round_of_scheduled _ _ Hwf Hr) as [Hwf1 Hsch].
  destruct Hr as [[]|(_ & order & Hp & Hs1)]; [done|].
  assert (i ∈ remaining s1) as Hin.
  { rewrite Hs1. unfold remaining. simpl. rewrite drop_0, Hp, elem_of_seq. lia. }
  assert (node_probeable s1 i) as Hi1 by (by rewrite Hs1).
  assert (sw_view_size s1 = sw_view_size (w_swim w)) as Hsz by by rewrite Hs1.
  destruct (answer_due _ _ _ _ Hans Hi1 Hin) as [Hle [->|Hin']]; [by left|].
  right. apply finds_in_round; rewrite ?Hs; try done; [|simpl in *; lia].
  split; [apply Hsch|]. eapply remaining_pos; [|done]. apply set_pos_scheduled; [done|lia].
Qed.

(** A round ends after at most as many probes as it has positions left. *)
Lemma finds_next_round m k i w :
  swim_wf (w_swim w) → in_round (w_swim w) → node_probeable (w_swim w) i →
  (sw_view_size (w_swim w) - pr_pos (sw_probe (w_swim w)) ≤ m)%nat →
  (m + sw_view_size (w_swim w) ≤ k)%nat → finds k i w.
Proof.
  revert k w; induction m as [|m IH]; intros k w Hwf Hir Hi Hm Hk.
  { destruct Hir. lia. }
  pose proof (probeable_size _ _ Hi). destruct k as [|k]; [lia|].
  destruct (probe_next_run w Hwf ltac:(lia) ltac:(auto))
    as (r & pos & s1 & w' & Hrun & Hs & Hr & Hans & Hpos & _).
  pose proof (round_same_nodes _ _ pos Hr) as Hsame.
  pose proof (probeable_same _ _ i Hsame Hi).
  assert (swim_wf (set_pos pos s1)) by by eapply probe_next_wf.
  eapply finds_step; [exact Hrun|by rewrite Hs|rewrite Hs, (proj2 Hsame); lia|]. right.
  destruct Hr as [[_ ->]|[]]; [|done].
  assert (pr_pos (sw_probe (w_swim w)) < pos)%nat.
  { destruct Hans as [(_ & -> & _)|(? & ? & _ & _ & _ & _ & ?)]; [apply Hir|lia]. }
  destruct (decide (pos < sw_view_size (w_swim w))%nat) as [Hlt|Hge].
  - apply IH; rewrite ?Hs; try done; [by split; [apply Hir|]|simpl; lia..].
  - apply finds_fresh_round; rewrite ?Hs; try done; [|simpl; lia].
    intros [_ Hlt]. simpl in Hlt. lia.
Qed.

End Rounds.

(** ** Theorems *)

(** Every round of the loop takes one position of the schedule. *)
Lemma probe_loop_fuel w fuel :
  let left := (pr_size (sw_probe (w_swim w)) - pr_pos (sw_probe (w_swim w)))%nat in
  (left ≤ fuel)%nat → probe_loop fuel w = probe_loop left w.
Proof.
  intros left. remember left as n eqn:Hn. unfold left in Hn. clear left. revert w fuel Hn.
  induction n as [|n IH]; intros w fuel Hn Hf.
  { destruct fuel; [done|]. cbn [probe_loop].
    rewrite !(bind_run get_swim _ w (w_swim w) w) by done.
    by rewrite (proj2 (Nat.ltb_ge _ _)) by lia. }
  destruct fuel as [|fuel]; [lia|]. cbn [probe_loop].
  rewrite !(bind_run get_swim _ w (w_swim w) w) by done.
  destruct (_ <? _)%nat; [|done]. destruct (_ !! _) as [idx|]; [|done].
  set (w1 := with_swim (set_pos (S (pr_pos (sw_probe (w_swim w)))) (w_swim w)) w).
  rewrite !(bind_run (modify _) _ w tt w1) by done.
  assert (probe_loop fuel w1 = probe_loop n w1) as Hrec by (apply IH; simpl; lia).
  destruct (_ <? _)%nat; [|done]. unfold mbind, M_bind. destruct (node_at idx w1) as [[nd|f] w2] eqn:Hn2; [|done].
  assert (w2 = w1) as ->.
  { unfold node_at, mbind, M_bind, get_swim in Hn2. destruct (sw_view _ !! idx); by injection Hn2. }
  by case_match.
Qed.

Section Theorems.
Context {U : UuidLib} {UL : UuidLaws U} {E : Env}.

Lemma probe_times_remaining w :
  swim_wf (w_swim w) → scheduled (w_swim w) →
  ∃ w', probe_times (length (filter (node_probeable (w_swim w)) (remaining (w_swim w)))) w
        = (Ok (Z.of_nat <$> filter (node_probeable (w_swim w)) (remaining (w_swim w))), w').
Proof.
  remember (length (filter (node_probeable (w_swim w)) (remaining (w_swim w)))) as k eqn:Hk.
  revert w Hk; induction k as [|k IH]; intros w Hk Hwf Hsch.
  { exists w. symmetry in Hk. apply length_zero_iff_nil in Hk. by rewrite Hk. }
  destruct (filter _ _) as [|i l] eqn:Hf; [done|].
  assert (i ∈ remaining (w_swim w)) as Hin.
  { assert (i ∈ filter (node_probeable (w_swim w)) (remaining (w_swim w))) as Hi
      by (rewrite Hf; left). by apply list_elem_of_filter in Hi as []. }
  pose proof (remaining_pos _ _ Hsch Hin) as Hpos.
  assert (in_round (w_swim w)) as Hir by (split; [apply Hsch|done]).
  destruct (probe_next_run w Hwf ltac:(lia) ltac:(done))
    as (r & pos & s1 & w' & Hrun & Hs & Hr & Hans & Hp & _).
  destruct Hr as [[_ ->]|[]]; [|done].
  destruct Hans as [(_ & _ & Hall)|(pre & idx & -> & Hi & Heq & Hpre & Hlt)].
  { assert (filter (node_probeable (w_swim w)) (remaining (w_swim w)) = []) as Hnil; [|congruence].
    apply filter_none. intros j Hj Hd. rewrite Forall_forall in Hall.
    by apply (probeable_not_dead _ _ Hd), Hall. }
  rewrite Heq, filter_app, filter_cons_True in Hf by done.
  assert (filter (node_probeable (w_swim w)) pre = []) as Hnil.
  { apply filter_none. intros j Hj Hd. rewrite Forall_forall in Hpre.
    by apply (probeable_not_dead _ _ Hd), Hpre. }
  rewrite Hnil in Hf. injection Hf as -> <-.
  destruct (IH w') as (w2 & Hrest).
  - rewrite Hs. simpl in Hk. by injection Hk.
  - rewrite Hs. by apply set_pos_wf.
  - rewrite Hs. apply set_pos_scheduled; [done|lia].
  - exists w2. cbn [probe_times]. rewrite (bind_run _ _ _ _ _ Hrun).
    rewrite (bind_run _ _ _ _ _ Hrest). rewrite Hs. done.
Qed.

(** Shuffling produces a permutation.  Whatever the random numbers, after
    [swim_probe_shuffle] the order of the schedule contains every index of
    the view exactly once and the position is at its start; if the allocation
    fails, the state is left as it was. *)
Theorem swim_probe_shuffle_permutation (w : World) :
  sw_view_size (w_swim w) ≠ 0%nat →
  ∃ w', swim_probe_shuffle w = (Ok tt, w') ∧ w_out w' = w_out w ∧
    if env_alloc (w_allocs w)
    then ∃ order, order ≡ₚ seq 0 (sw_view_size (w_swim w)) ∧
      w_swim w' = set_sw_probe {| pr_order := order; pr_pos := 0;
                                  pr_size := sw_view_size (w_swim w) |} (w_swim w)
    else w_swim w' = w_swim w.
Proof.
  intros Hn. destruct (env_alloc (w_allocs w)) eqn:Ha.
  - destruct (probe_shuffle_run w Hn Ha) as (order & w' & Hrun & Hp & [_ Hout] & Hs).
    exists w'. eauto.
  - destruct (probe_shuffle_starved w Hn Ha) as (w' & ? & ? & ?). eauto.
Qed.

(** C27: A probe ends with an answer: in a well-formed state it never faults,
    whatever the allocator does, keeps the invariant and the nodes, and returns
    -1 or the index of a node that is not dead; and its loop ends after at most
    as many rounds as positions are left in the schedule, in any state, so that
    a larger bound makes no difference. *)
Theorem swim_probe_next_terminates (w : World) :
  swim_wf (w_swim w) →
  ∃ r w', swim_probe_next w = (Ok r, w') ∧ swim_wf (w_swim w') ∧
    same_nodes (w_swim w) (w_swim w') ∧
    (r = -1 ∨ ∃ i, r = Z.of_nat i ∧ node_probeable (w_swim w) i) ∧
    ∀ w0 fuel, let left := (pr_size (sw_probe (w_swim w0)) - pr_pos (sw_probe (w_swim w0)))%nat in
      (left ≤ fuel)%nat → probe_loop fuel w0 = probe_loop left w0.
Proof.
  pose proof probe_loop_fuel as Hfuel.
  intros Hwf. destruct (decide (sw_view_size (w_swim w) = 0%nat)) as [Hz|Hn].
  { exists (-1), w. split; [|by split_and!; auto]. unfold swim_probe_next.
    rewrite (bind_run get_swim _ w (w_swim w) w) by done. by rewrite Hz. }
  destruct (decide (in_round (w_swim w) ∨ env_alloc (w_allocs w) = true)) as [Hok|Hno].
  - destruct (probe_next_run w Hwf Hn) as (r & pos & s1 & w' & Hrun & Hs & Hr & Hans & _).
    { by destruct Hok. }
    exists r, w'. rewrite Hs. split; [done|]. split; [by eapply probe_next_wf|].
    split; [by apply round_same_nodes|].
    split; [|done]. destruct Hans as [(-> & _)|(pre & idx & -> & Hi & _)]; [by left|right].
    exists idx. split; [done|]. by destruct Hr as [[_ ->]|(_ & ? & _ & ->)].
  - assert (¬ in_round (w_swim w)) as Hir by tauto.
    assert (env_alloc (w_allocs w) = false) as Ha by (destruct (env_alloc _); tauto).
    destruct (probe_shuffle_starved w Hn Ha) as (w' & Hrun & _ & Hs).
    exists (-1), w'. rewrite Hs. split; [|by split_and!; auto]. unfold swim_probe_next.
    rewrite (bind_run get_swim _ w (w_swim w) w) by done.
    rewrite (proj2 (Nat.eqb_neq _ _)), in_round_test by done.
    rewrite bool_decide_eq_true_2 by done. rewrite (bind_run _ _ _ _ _ Hrun).
    rewrite (bind_run get_swim _ w' (w_swim w') w') by done.
    apply probe_loop_exhausted. rewrite Hs.
    destruct (wf_probe _ Hwf) as [Hz|[Hsz _]]; [lia|]. unfold in_round in Hir. lia.
Qed.

(** If allocations succeed, then from any state every node that is not dead is
    the answer of one of the next 2N - 1 probes of an unchanged view, N being
    its size, wherever the current round stands and however the next one is
    shuffled. *)
Theorem swim_probe_gap (w : World) (i : nat) :
  (∀ k, env_alloc k = true) → swim_wf (w_swim w) → node_probeable (w_swim w) i →
  ∃ rs w', probe_times (2 * sw_view_size (w_swim w) - 1) w = (Ok rs, w') ∧ Z.of_nat i ∈ rs.
Proof.
  intros Ha Hwf Hi. pose proof (probeable_size _ _ Hi) as Hlt.
  assert (finds (2 * sw_view_size (w_swim w) - 1) i w) as Hf.
  { destruct (decide (in_round (w_swim w))) as [Hir|Hir];
      [|apply finds_fresh_round; done || lia].
    destruct (decide (i ∈ remaining (w_swim w))) as [Hin|Hin].
    { apply finds_in_round; done || lia. }
    apply (finds_next_round Ha (sw_view_size (w_swim w) - pr_pos (sw_probe (w_swim w))));
      try done.
    destruct (decide (pr_pos (sw_probe (w_swim w)) = 0%nat)) as [Hz|]; [|lia]. exfalso.
    apply Hin. unfold remaining. rewrite Hz, drop_0.
    destruct (round_of_scheduled (w_swim w) (w_swim w) Hwf) as [_ (_ & Hp & _)]; [by left|].
    rewrite Hp, elem_of_seq. lia. }
  unfold finds, wp in Hf. destruct (probe_times _ w) as [[rs|?] w']; [|done]. eauto.
Qed.

(** A round probes every node exactly once.  When a new round starts, the
    next probes, as many as there are nodes that are not dead, return exactly
    these nodes, each once, in the order of the shuffled schedule. *)
Theorem swim_probe_round (w : World) :
  env_alloc (w_allocs w) = true → swim_wf (w_swim w) →
  sw_view_size (w_swim w) ≠ 0%nat → ¬ in_round (w_swim w) →
  ∃ order w', order ≡ₚ seq 0 (sw_view_size (w_swim w)) ∧
    probe_times (length (filter (node_probeable (w_swim w)) order)) w
    = (Ok (Z.of_nat <$> filter (node_probeable (w_swim w)) order), w').
Proof.
  intros Ha Hwf Hn Hir.
  destruct (probe_next_run w Hwf Hn ltac:(done))
    as (r & pos & s1 & w1 & Hrun & Hs & Hr & Hans & Hpos & _).
  destruct (round_of_scheduled _ _ Hwf Hr) as [Hwf1 Hsch].
  destruct Hr as [[]|(_ & order & Hp & Hs1)]; [done|].
  assert (remaining s1 = order) as Hrem by by rewrite Hs1.
  assert (∀ l : list nat, filter (node_probeable s1) l = filter (node_probeable (w_swim w)) l) as Hfilter.
  { intros l. apply list_filter_iff. intros j. by rewrite Hs1. }
  exists order.
  destruct Hans as [(_ & _ & Hall)|(pre & idx & -> & Hi & Heq & Hpre & Hlt)].
  - exists w. split; [done|]. rewrite <-Hfilter, filter_none; [done|].
    intros j Hj Hd. rewrite Hrem, Forall_forall in Hall.
    by apply (probeable_not_dead _ _ Hd), Hall.
  - rewrite Hrem in Heq.
    assert (filter (node_probeable s1) order
            = idx :: filter (node_probeable s1) (remaining (set_pos pos s1))) as Hf.
    { rewrite Heq at 1. rewrite filter_app, (filter_none _ pre), filter_cons_True by
        (done || (intros j Hj Hd; rewrite Forall_forall in Hpre;
                  by apply (probeable_not_dead _ _ Hd), Hpre)). done. }
    rewrite <-Hfilter, Hf. cbn [length probe_times].
    destruct (probe_times_remaining w1) as (w' & Hrest).
    { rewrite Hs. by apply set_pos_wf. }
    { rewrite Hs. apply set_pos_scheduled; [done|lia]. }
    exists w'. split; [done|]. rewrite (bind_run _ _ _ _ _ Hrun). rewrite Hs in Hrest.
    by rewrite (bind_run _ _ _ _ _ Hrest).
Qed.

(** -1 does not mean that there is nobody to probe: when the rest of the
    round consists of dead nodes, the probe ends the round with -1 although
    other nodes of the view are not dead, instead of starting a new round. *)
Theorem swim_probe_next_gives_up (w : World) :
  swim_wf (w_swim w) → in_round (w_swim w) →
  Forall (node_dead (w_swim w)) (remaining (w_swim w)) →
  ∃ w', swim_probe_next w = (Ok (-1), w') ∧
    w_swim w' = set_pos (sw_view_size (w_swim w)) (w_swim w).
Proof.
  intros Hwf Hir Hall.
  destruct (probe_next_run w Hwf) as (r & pos & s1 & w' & Hrun & Hs & Hr & Hans & Hpos & _);
    [destruct Hir; lia|done|].
  destruct Hr as [[_ ->]|[]]; [|done].
  destruct Hans as [(-> & -> & _)|(pre & idx & _ & Hi & Heq & _)]; [eauto|].
  rewrite Forall_forall in Hall. exfalso. apply (probeable_not_dead _ _ Hi), Hall.
  rewrite Heq. apply elem_of_app. right. left.
Qed.

End Theorems.

(** ** Witnesses *)

Definition sample_schedule (pos : nat) : World :=
  sample_world (set_sw_probe {| pr_order := [2; 0; 1]%nat; pr_pos := pos; pr_size := 3 |}
    (sample_swim sample_nodes)).

Lemma sample_schedule_wf pos : @swim_wf lexicographic (w_swim (sample_schedule pos)).
Proof.
  destruct sample_nodes_wf as [? ? ? ? _]. split; [done..|]. right. split; [done|]. simpl.
  apply (Permutation_trans (l' := [0; 2; 1]%nat)); repeat constructor.
Qed.

Lemma swim_probe_shuffle_permutation_witness :
  let w := sample_world (sample_swim sample_nodes) in
  ∃ w', @swim_probe_shuffle sample_env w = (Ok tt, w') ∧ w_out w' = [] ∧
    ∃ order, order ≡ₚ [0; 1; 2]%nat ∧
      w_swim w' = set_sw_probe {| pr_order := order; pr_pos := 0; pr_size := 3 |}
                    (sample_swim sample_nodes).
Proof. apply (@swim_probe_shuffle_permutation sample_env). done. Defined.

Lemma swim_probe_next_terminates_witness :
  ∃ r w', @swim_probe_next sample_env (sample_schedule 1) = (Ok r, w') ∧
    @swim_wf lexicographic (w_swim w') ∧
    same_nodes (w_swim (sample_schedule 1)) (w_swim w') ∧
    (r = -1 ∨ ∃ i, r = Z.of_nat i ∧ node_probeable (w_swim (sample_schedule 1)) i) ∧
    ∀ w0 fuel, let left := (pr_size (sw_probe (w_swim w0)) - pr_pos (sw_probe (w_swim w0)))%nat in
      (left ≤ fuel)%nat → probe_loop fuel w0 = probe_loop left w0.
Proof. apply swim_probe_next_terminates. apply sample_schedule_wf. Defined.

Lemma swim_probe_gap_witness :
  ∃ rs w', @probe_times sample_env 5 (sample_schedule 1) = (Ok rs, w') ∧ 2 ∈ rs.
Proof.
  apply (swim_probe_gap (U := lexicographic) (E := sample_env) (sample_schedule 1) 2).
  - done.
  - apply sample_schedule_wf.
  - exists (sample_node 30 SWIM_STATUS_SUSPECT 1766383800 4). done.
Defined.

Lemma swim_probe_round_witness :
  let P := node_probeable (w_swim (sample_schedule 3)) in
  ∃ order w', order ≡ₚ [0; 1; 2]%nat ∧
    @probe_times sample_env (length (filter P order)) (sample_schedule 3)
    = (Ok (Z.of_nat <$> filter P order), w').
Proof.
  apply (swim_probe_round (U := lexicographic) (E := sample_env) (sample_schedule 3)).
  - done.
  - apply sample_schedule_wf.
  - done.
  - intros [_ Hlt]. simpl in Hlt. lia.
Defined.

(** Node 0 is alive, but only the dead node 1 is left in the round. *)
Lemma swim_probe_next_gives_up_witness :
  node_probeable (w_swim (sample_schedule 2)) 0 ∧
  ∃ w', @swim_probe_next sample_env (sample_schedule 2) = (Ok (-1), w') ∧
    w_swim w' = set_pos 3 (w_swim (sample_schedule 2)).
Proof.
  split; [by exists (sample_node 10 SWIM_STATUS_ALIVE 1766383890 1)|].
  apply (swim_probe_next_gives_up (U := lexicographic) (E := sample_env) (sample_schedule 2)).
  - apply sample_schedule_wf.
  - split; simpl; lia.
  - constructor; [|constructor]. by exists (sample_node 20 SWIM_STATUS_DEAD 1766383000 1).
Defined.
