(* ===== verification/Network.v ===== *)
(** * Sending and receiving: [swim/network.c], [swim_event_*] of [swim/event.c]

    Events are created, filled with gossip taken from the view, encoded and
    handed to [sendto]; received packets are decoded into the memory of an
    event.  The lines that only write to the log are left out. *)

From Stdlib Require Import Init.Byte ZArith Lia.
From stdpp Require Import base tactics list vector sorting gmap.
From S2P Require Import Prelude Bytes Node Event Encoding EncodingFacts State StateFacts Samples.

Open Scope Z_scope.

(** ** Creating events *)

(** The memory of an event with [cells] gossip entries, filled with zeroes. *)
Definition zero_event (cells : nat) : Event :=
  {| ev_hdr := {| eh_type := EVENT_TYPE_PING; eh_uuid := zeros 16; eh_time := 0;
                  eh_incarnation := 0 |};
     ev_uuid := zeros 16; ev_join_addrlen := 0; ev_join_addr := zeros 128;
     ev_gossip_count := 0; ev_gossip := replicate cells zero_info |}.

Section Operations.
Context `{Host} `{Env}.

(** [memset] clears the structure, which does not include the gossip array. *)
Definition swim_event_init (event : Event) (type : EventType) : M Event :=
  s ← get_swim;
  now ← time;
  mret (set_ev_gossip 0 (ev_gossip event)
         (set_ev_hdr {| eh_type := type; eh_uuid := sw_uuid s; eh_time := now;
                        eh_incarnation := sw_incarnation s |} (zero_event 0))).

Definition swim_event_create (type : EventType) (gossip_count : Z) : M (option Event) :=
  let event_size := to_unsigned 8 (sizeof_Event + gossip_count * sizeof_NodeInfo) in
  lift (assert ((0 <=? gossip_count) && (gossip_count <=? SWIM_MAX_GOSSIP_SIZE)));;
  lift (assert (event_size <? SWIM_MAX_PACKET_SIZE));;
  p ← alloc;
  match p with
  | None => mret None
  | Some _ =>
      event ← swim_event_init (zero_event (Z.to_nat gossip_count)) type;
      mret (Some (set_ev_gossip gossip_count (ev_gossip event) event))
  end.

(** [swim_node_copy(&event->gossip[i], &swim->view[idx].info)] *)
Definition copy_gossip (i idx : nat) (event : Event) : M Event :=
  n ← node_at idx;
  match ev_gossip event !! i with
  | None => fail OutOfBounds
  | Some dst =>
      info ← lift (swim_node_copy dst (ns_info n));
      mret (set_ev_gossip (ev_gossip_count event) (<[i := info]> (ev_gossip event)) event)
  end.

Definition swim_fill_gossip (event : Event) (count : Z) : M Event :=
  lift (assert (count <=? ev_gossip_count event));;
  s ← get_swim;
  if Z.of_nat (sw_view_size s) <? SWIM_MAX_GOSSIP_SIZE then
    for_each (seq 0 (sw_view_size s)) (λ i event, copy_gossip i i event) event
  else
    for_each (seq 0 (Z.to_nat count))
      (λ i event, idx ← random_index; copy_gossip i idx event) event.

(** ** Sending *)

(** [sendto] of the result -1 would read beyond the buffer. *)
Definition swim_send_event (event : Event) (addr : sockaddr_storage) (addrlen : Z) : M Z :=
  bytes ← lift (swim_encode_event (Z.to_nat SWIM_MAX_PACKET_SIZE) event);
  match bytes with
  | None => fail OutOfBounds
  | Some buf => sendto {| dg_bytes := buf; dg_addr := addr; dg_addrlen := addrlen |}
  end.

(** [MIN(swim->view_size, SWIM_MAX_GOSSIP_SIZE)] *)
Definition gossip_size (s : SWIM) : Z :=
  Z.min (Z.of_nat (sw_view_size s)) SWIM_MAX_GOSSIP_SIZE.

Definition swim_send_ack (uuid : uuid_t) (addr : sockaddr_storage) (addrlen : Z) : M Z :=
  s ← get_swim;
  p ← swim_event_create EVENT_TYPE_ACK (gossip_size s);
  event ← deref p;
  event ← swim_fill_gossip (set_ev_uuid uuid event) (gossip_size s);
  swim_send_event event addr addrlen.

Definition swim_send_ping (addr : sockaddr_storage) (addrlen : Z) : M Z :=
  s ← get_swim;
  p ← swim_event_create EVENT_TYPE_PING (gossip_size s);
  event ← deref p;
  event ← swim_fill_gossip event (gossip_size s);
  swim_send_event event addr addrlen.

Definition swim_send_ping_req (target_uuid : uuid_t) (addr : sockaddr_storage) (addrlen : Z)
  : M Z :=
  s ← get_swim;
  p ← swim_event_create EVENT_TYPE_PING_REQ (gossip_size s);
  event ← deref p;
  event ← swim_fill_gossip (set_ev_uuid target_uuid event) (gossip_size s);
  swim_send_event event addr addrlen.

End Operations.

(** ** Receiving *)

(** What [recvfrom] finds: a datagram, or an error or a timeout, and the
    address of the sender. *)
Record Incoming : Type := {
  rc_data : option (list byte);
  rc_addr : sockaddr_storage;
  rc_addrlen : Z
}.

(** The datagram is cut off at the end of the buffer, and the bytes of the
    buffer after it are left as they were. *)
Definition recvfrom (buf : list byte) (r : Incoming) : Z * list byte :=
  match rc_data r with
  | None => (-1, buf)
  | Some d =>
      (Z.of_nat (Nat.min (length d) (length buf)),
       take (length buf) d ++ drop (length d) buf)
  end.

(** [stack] is what the local buffer contains beforehand. The whole buffer is
    decoded, not only the bytes received. *)
Definition swim_recv_event `{Host} (stack : list byte) (event : Event) (r : Incoming)
  : outcome (Event * Z) :=
  let (bytes, buf) := recvfrom stack r in
  if bytes <=? 0 then Ok (event, bytes) else swim_decode_event buf event.

(** ** What is sent *)

(** The copy of a node's entry that is put into an event. *)
Definition shared (n : NodeState) : NodeInfo := received_info zero_info (ns_info n).

(** The entries of a view can be encoded. *)
Definition infos_wf (s : SWIM) : Prop := Forall (λ n, wf_info (ns_info n)) (live s).

(** The invariant of a server: that of its view, and that it can be put on
    the wire. *)
Record server_wf `{UuidLib} (s : SWIM) : Prop := {
  sv_wf : swim_wf s;
  sv_infos : infos_wf s;
  sv_incarnation : is_unsigned 4 (sw_incarnation s)
}.

(** [e] is an event of type [t] about [u] that a server in the state [s]
    sends at the time [now]. *)
Record announcement (s : SWIM) (t : EventType) (u : uuid_t) (now : Z) (e : Event) : Prop := {
  an_header : ev_hdr e = {| eh_type := t; eh_uuid := sw_uuid s; eh_time := now;
                            eh_incarnation := sw_incarnation s |};
  an_subject : ev_uuid e = u;
  an_wf : wf_event e;
  an_count : ev_gossip_count e = gossip_size s;
  an_cells : Z.of_nat (length (ev_gossip e)) = gossip_size s;
  an_members : Forall (λ i, ∃ n, n ∈ live s ∧ i = shared n) (ev_gossip e);
  an_all : Z.of_nat (sw_view_size s) < SWIM_MAX_GOSSIP_SIZE → ev_gossip e = shared <$> live s
}.

(** A step that neither changes the server nor sends anything. *)
Definition quiet (w w' : World) : Prop := w_swim w' = w_swim w ∧ w_out w' = w_out w.

(** A step that sends [ds] and does not change the server. *)
Definition sends (ds : list Datagram) (w w' : World) : Prop :=
  w_swim w' = w_swim w ∧ w_out w' = w_out w ++ ds.

#[export] Instance quiet_preorder : PreOrder quiet.
Proof.
  split; [by split|]. intros w1 w2 w3 [H1 H2] [H3 H4]. split; congruence.
Qed.

Lemma sends_app ds ds' w w1 w2 : sends ds w w1 → sends ds' w1 w2 → sends (ds ++ ds') w w2.
Proof. intros [H1 H2] [H3 H4]. split; [congruence|]. by rewrite H4, H2, (assoc_L (++)). Qed.

Lemma quiet_sends ds w w1 w2 : quiet w w1 → sends ds w1 w2 → sends ds w w2.
Proof. intros [H1 H2] [H3 H4]. split; congruence. Qed.

Lemma node_copy_ok dst src :
  wf_sockaddr (ni_addrlen src) → swim_node_copy dst src = Ok (received_info dst src).
Proof.
  intros Hl. unfold swim_node_copy.
  by rewrite memcpy_ok by (rewrite ?length_array; unfold wf_sockaddr in *; lia).
Qed.

Lemma received_info_wf old i : wf_info i → wf_info (received_info old i).
Proof. by intros []. Qed.

Section Sending.
Context {U : UuidLib} {UL : UuidLaws U} {H : Host} {E : Env}.

Lemma live_index s i :
  swim_wf s → (i < sw_view_size s)%nat →
  ∃ n, live s !! i = Some n ∧ sw_view s !! i = Some n ∧ n ∈ live s.
Proof.
  intros Hwf Hi. destruct (lookup_lt_is_Some_2 (sw_view s) i) as [n Hn].
  { rewrite (wf_capacity s Hwf). pose proof (wf_size s Hwf). lia. }
  assert (live s !! i = Some n) by by apply live_lookup_Some.
  exists n. split_and!; try done. apply list_elem_of_lookup. eauto.
Qed.

Lemma random_index_run w :
  sw_view_size (w_swim w) ≠ 0%nat →
  ∃ i w', random_index w = (Ok i, w') ∧ (i < sw_view_size (w_swim w))%nat ∧ quiet w w' ∧
    i = N.to_nat (env_rand (w_rands w) mod N.of_nat (sw_view_size (w_swim w))).
Proof.
  intros Hn. unfold random_index, rand, mbind, M_bind. simpl.
  rewrite (proj2 (Nat.eqb_neq _ _)) by done. eexists _, _. split; [done|]. split; [|by split].
  pose proof (N.mod_upper_bound (env_rand (w_rands w)) (N.of_nat (sw_view_size (w_swim w)))
    ltac:(lia)). lia.
Qed.

(** One of the loops of [swim_fill_gossip], for a way to choose the index. *)
Lemma fill_loop_run (pick : nat → M nat) (P : nat → nat → Prop) (s : SWIM) :
  server_wf s →
  (∀ i w, w_swim w = s → (i < sw_view_size s)%nat → ∃ idx w', pick i w = (Ok idx, w') ∧
     (idx < sw_view_size s)%nat ∧ P i idx ∧ quiet w w') →
  ∀ (n : nat) (filled : list NodeInfo) (e : Event) (w : World),
  w_swim w = s → ev_gossip e = filled ++ replicate n zero_info →
  (length filled + n ≤ sw_view_size s)%nat →
  ∃ (added : list NodeState) (w' : World),
    for_each (seq (length filled) n) (λ i event, idx ← pick i; copy_gossip i idx event) e w
    = (Ok (set_ev_gossip (ev_gossip_count e) (filled ++ (shared <$> added)) e), w') ∧
    length added = n ∧ quiet w w' ∧
    ∀ k m, added !! k = Some m → ∃ idx, live s !! idx = Some m ∧ P (length filled + k)%nat idx.
Proof.
  intros [Hwf Hinf _] Hpick n. induction n as [|n IH]; intros filled e w Hs Hg Hlen.
  { exists [], w. simpl. rewrite app_nil_r in *. split_and!; [|done|done|].
    - rewrite <-Hg. by destruct e.
    - intros k m Hk. by rewrite lookup_nil in Hk. }
  cbn [seq for_each].
  destruct (Hpick (length filled) w Hs ltac:(lia)) as (idx & w1 & Hrun & Hidx & HP & Hq).
  destruct (live_index s idx Hwf Hidx) as (m & Hm & Hm' & Hin).
  assert (wf_info (ns_info m)) as Hwm. { unfold infos_wf in Hinf. rewrite Forall_forall in Hinf. auto. }
  assert (copy_gossip (length filled) idx e w1 =
    (Ok (set_ev_gossip (ev_gossip_count e) (<[length filled := shared m]> (ev_gossip e)) e), w1))
    as Hcopy.
  { unfold copy_gossip. destruct Hq as [Hq _].
    rewrite (bind_run _ _ _ m w1) by (apply node_at_run; by rewrite Hq, Hs).
    rewrite Hg, lookup_app_r, Nat.sub_diag by done. simpl.
    rewrite (bind_run _ _ _ (shared m) w1); [done|]. unfold lift.
    by rewrite node_copy_ok by apply Hwm. }
  rewrite (bind_run _ _ w _ w1 (eq_trans (bind_run _ _ _ _ _ Hrun) Hcopy)).
  assert (S (length filled) = length (filled ++ [shared m])) as Hl
    by (rewrite length_app; simpl; lia). rewrite Hl.
  destruct (IH (filled ++ [shared m])
    (set_ev_gossip (ev_gossip_count e) (<[length filled := shared m]> (ev_gossip e)) e) w1)
    as (added & w' & Hrun' & Hla & Hq' & Hadd).
  { destruct Hq. congruence. }
  { simpl. rewrite Hg, insert_app_r_alt by done. rewrite Nat.sub_diag, <-(assoc_L (++)). done. }
  { rewrite <-Hl. lia. }
  rewrite Hrun'. exists (m :: added), w'. split_and!.
  - simpl. by rewrite <-(assoc_L (++)).
  - simpl. by rewrite Hla.
  - by transitivity w1.
  - intros [|k] m' Hk; simpl in Hk.
    + simplify_eq. exists idx. by rewrite Nat.add_0_r.
    + destruct (Hadd k m' Hk) as (idx' & ? & HP'). exists idx'. split; [done|].
      rewrite <-Hl in HP'. by rewrite Nat.add_succ_r.
Qed.

Lemma length_live s : swim_wf s → length (live s) = sw_view_size s.
Proof.
  intros Hwf. unfold live. rewrite length_take, (wf_capacity s Hwf).
  pose proof (wf_size s Hwf). lia.
Qed.

Lemma gossip_size_bound s :
  0 ≤ gossip_size s ≤ 10 ∧ gossip_size s ≤ Z.of_nat (sw_view_size s).
Proof. unfold gossip_size, SWIM_MAX_GOSSIP_SIZE. lia. Qed.

(** Filling an event: as many entries as were allocated, all of them from the
    view, and the whole view when it is small. *)
Lemma fill_gossip_run (e : Event) (w : World) :
  let s := w_swim w in
  server_wf s → ev_gossip_count e = gossip_size s →
  ev_gossip e = replicate (Z.to_nat (gossip_size s)) zero_info →
  ∃ (added : list NodeState) (w' : World),
    swim_fill_gossip e (gossip_size s) w
    = (Ok (set_ev_gossip (gossip_size s) (shared <$> added) e), w') ∧
    Z.of_nat (length added) = gossip_size s ∧ quiet w w' ∧ Forall (λ n, n ∈ live s) added ∧
    (Z.of_nat (sw_view_size s) < SWIM_MAX_GOSSIP_SIZE → added = live s).
Proof.
  intros s Hs Hc Hg. pose proof (gossip_size_bound s) as Hb.
  assert (Forall (λ n, n ∈ live s) (live s)) as Hself by by apply Forall_forall.
  unfold swim_fill_gossip, lift, assert. rewrite Hc, Z.leb_refl.
  rewrite (bind_run _ _ _ tt w), (bind_run get_swim _ _ s w) by done.
  destruct (Z.ltb_spec (Z.of_nat (sw_view_size s)) SWIM_MAX_GOSSIP_SIZE) as [Hlt|Hge].
  - assert (Z.to_nat (gossip_size s) = sw_view_size s) as Hn by (unfold gossip_size; lia).
    destruct (fill_loop_run (λ i, mret i) (λ i idx, idx = i) s Hs
      ltac:(intros i w0 _ Hi; exists i, w0; done)
      (sw_view_size s) [] e w eq_refl ltac:(by rewrite Hg, Hn) ltac:(simpl; lia))
      as (added & w' & Hrun & Hla & Hq & Hadd).
    assert (added = live s) as ->.
    { apply list_eq_same_length with (sw_view_size s); [by apply length_live, Hs|done|].
      intros k x y _ Hx Hy. destruct (Hadd k x Hx) as (? & ? & ->). simpl in *. congruence. }
    exists (live s), w'. rewrite Hc in Hrun. split_and!; try done.
    rewrite length_live by apply Hs. lia.
  - destruct (fill_loop_run (λ i, random_index) (λ _ _, True) s Hs) with
      (n := Z.to_nat (gossip_size s)) (filled := @nil NodeInfo) (e := e) (w := w)
      as (added & w' & Hrun & Hla & Hq & Hadd); [|done|done|simpl; lia|].
    { intros i w0 <- Hi. destruct (random_index_run w0) as (j & w1 & ? & ? & ? & _); [lia|].
      by exists j, w1. }
    exists added, w'. rewrite Hc in Hrun. split_and!; [done|lia|done| |lia].
    apply Forall_forall. intros m [k Hk]%list_elem_of_lookup.
    destruct (Hadd k m Hk) as (idx & Hi & _). apply list_elem_of_lookup. eauto.
Qed.

Lemma shared_wf s n : infos_wf s → n ∈ live s → wf_info (shared n).
Proof.
  intros Hs Hn. unfold infos_wf in Hs. rewrite Forall_forall in Hs.
  by apply received_info_wf, Hs.
Qed.

(** A well-formed event with no more gossip than can be received is sent. *)
Lemma send_event_run (e : Event) (addr : sockaddr_storage) (addrlen : Z) (w : World) :
  wf_event e → ev_gossip_count e ≤ 11 →
  ∃ w', swim_send_event e addr addrlen w = (Ok (env_sendto (length (w_out w))), w') ∧
    sends [{| dg_bytes := event_bytes e; dg_addr := addr; dg_addrlen := addrlen |}] w w'.
Proof.
  intros He Hc. pose proof (length_event_bytes e He).
  assert (swim_encode_event (Z.to_nat SWIM_MAX_PACKET_SIZE) e = Ok (Some (event_bytes e))) as Henc.
  { apply encode_event_ok; [done|]. change (Z.to_nat SWIM_MAX_PACKET_SIZE) with 2048%nat. lia. }
  unfold swim_send_event. rewrite Henc, (bind_run (lift (Ok _)) _ w _ w eq_refl). by eexists.
Qed.

(** A packet that holds an event is received as that event, whatever was in
    the buffer before. *)
Lemma recv_event_run (e old : Event) (stack : list byte) (from : sockaddr_storage)
  (fromlen : Z) :
  wf_event e → ev_gossip_count e ≤ 11 → Z.of_nat (length stack) = 2048 →
  length (ev_gossip old) = 11%nat →
  swim_recv_event stack old
    {| rc_data := Some (event_bytes e); rc_addr := from; rc_addrlen := fromlen |}
  = Ok (received_event old e, Z.of_nat (length (event_bytes e))).
Proof.
  intros He Hc Hst Hold. pose proof (length_event_bytes e He).
  assert (36 ≤ length (event_bytes e))%nat.
  { unfold event_bytes. rewrite length_app, length_header_bytes. lia. }
  unfold swim_recv_event, recvfrom. cbn [rc_data].
  destruct (Z.leb_spec (Z.of_nat (length (event_bytes e) `min` length stack)) 0); [lia|].
  rewrite take_ge by lia. apply decode_packet_ok; [done|lia|done|].
  rewrite length_drop. lia.
Qed.

(** The common part of the functions that send an event about [u]. *)
Definition announce (t : EventType) (u : uuid_t) (addr : sockaddr_storage) (addrlen : Z)
  : M Z :=
  s ← get_swim;
  p ← swim_event_create t (gossip_size s);
  event ← deref p;
  event ← swim_fill_gossip (set_ev_uuid u event) (gossip_size s);
  swim_send_event event addr addrlen.

Lemma event_create_run (t : EventType) (w : World) :
  let s := w_swim w in
  ∃ w', swim_event_create t (gossip_size s) w =
    (Ok (if env_alloc (w_allocs w) then
       Some (set_ev_gossip (gossip_size s) (replicate (Z.to_nat (gossip_size s)) zero_info)
         (set_ev_hdr {| eh_type := t; eh_uuid := sw_uuid s; eh_time := env_time (w_times w);
                        eh_incarnation := sw_incarnation s |} (zero_event 0)))
     else None), w') ∧ quiet w w'.
Proof.
  intros s. pose proof (gossip_size_bound s) as [[? ?] _]. unfold swim_event_create, lift.
  replace (to_unsigned 8 _ <? _) with true.
  2:{ symmetry. apply Z.ltb_lt. change sizeof_Event with 200. change sizeof_NodeInfo with 168.
      rewrite (to_unsigned_small 8 _ 2000) by (simpl; lia). unfold SWIM_MAX_PACKET_SIZE. lia. }
  rewrite !(proj2 (Z.leb_le _ _)) by done. unfold alloc, mbind, M_bind. simpl.
  destruct (env_alloc (w_allocs w)); by eexists.
Qed.

Lemma announce_run (t : EventType) (u : uuid_t) (addr : sockaddr_storage) (addrlen : Z)
  (w : World) :
  server_wf (w_swim w) → event_type_valid t →
  if env_alloc (w_allocs w) then
    ∃ e w', announce t u addr addrlen w = (Ok (env_sendto (length (w_out w))), w') ∧
      sends [{| dg_bytes := event_bytes e; dg_addr := addr; dg_addrlen := addrlen |}] w w' ∧
      announcement (w_swim w) t u (env_time (w_times w)) e
  else ∃ w', announce t u addr addrlen w = (Fault NullDeref, w') ∧ quiet w w'.
Proof.
  intros Hs Ht. pose proof (gossip_size_bound (w_swim w)) as [[? ?] _].
  unfold announce. rewrite (bind_run get_swim _ _ (w_swim w) w) by done.
  destruct (event_create_run t w) as (w1 & Hrun & Hq). rewrite (bind_run _ _ _ _ _ Hrun).
  clear Hrun. destruct (env_alloc (w_allocs w)); [|by exists w1].
  rewrite (bind_run (deref (Some _)) _ w1 _ w1 eq_refl).
  destruct Hq as [Hq1 Hq2]. rewrite <-Hq1 in Hs |- *.
  match goal with |- context [swim_fill_gossip ?e0 _] =>
    destruct (fill_gossip_run e0 w1 Hs eq_refl eq_refl)
      as (added & w2 & Hrun & Hla & [Hq3 Hq4] & Hin & Hall) end.
  rewrite (bind_run _ _ _ _ _ Hrun).
  match type of Hrun with _ = (Ok ?e1, _) => set (e := e1) in * end.
  assert (length (ev_gossip e) = length added) as Hlg by (simpl; by rewrite length_fmap).
  assert (announcement (w_swim w1) t u (env_time (w_times w)) e) as Han.
  { split; try done; simpl.
    - split; [split; [done|apply Hs]|simpl; unfold wf_sockaddr; lia|by rewrite Hlg; simpl; lia|].
      apply Forall_take, Forall_fmap, (Forall_impl _ _ _ Hin). intros n Hn.
      eapply shared_wf; [apply Hs|done].
    - by rewrite length_fmap.
    - apply Forall_fmap, (Forall_impl _ _ _ Hin). eauto.
    - intros ?. by rewrite Hall. }
  destruct (send_event_run e addr addrlen w2) as (w' & Hsend & [? ?]);
    [apply Han|rewrite (an_count _ _ _ _ _ Han), Hq1; lia|].
  exists e, w'. rewrite Hsend, Hq4, Hq2. split; [done|]. split; [|done]. split; congruence.
Qed.

Lemma send_ack_announce u a l : swim_send_ack u a l = announce EVENT_TYPE_ACK u a l.
Proof. done. Qed.

Lemma send_ping_req_announce u a l :
  swim_send_ping_req u a l = announce EVENT_TYPE_PING_REQ u a l.
Proof. done. Qed.

Lemma send_ping_announce a l w :
  swim_send_ping a l w = announce EVENT_TYPE_PING (zeros 16) a l w.
Proof.
  unfold swim_send_ping, announce. rewrite !(bind_run get_swim _ _ (w_swim w) w) by done.
  destruct (event_create_run EVENT_TYPE_PING w) as (w1 & Hrun & _).
  rewrite !(bind_run _ _ _ _ _ Hrun). by destruct (env_alloc (w_allocs w)).
Qed.

End Sending.

(** ** Theorems *)

Section Theorems.
Context {U : UuidLib} {UL : UuidLaws U} {H : Host} {E : Env}.

(** The three functions that send an event of their own. *)
Definition sender (t : EventType) (u : uuid_t) : option (sockaddr_storage → Z → M Z) :=
  match t with
  | EVENT_TYPE_ACK => Some (swim_send_ack u)
  | EVENT_TYPE_PING => Some swim_send_ping
  | EVENT_TYPE_PING_REQ => Some (swim_send_ping_req u)
  | _ => None
  end.

(** What the event is about: a PING carries no uuid. *)
Definition subject (t : EventType) (u : uuid_t) : uuid_t :=
  match t with EVENT_TYPE_PING => zeros 16 | _ => u end.

Lemma sender_announce t u op a l w :
  sender t u = Some op → event_type_valid t ∧ op a l w = announce t (subject t u) a l w.
Proof.
  unfold sender, subject. destruct t; intros; simplify_eq; (split; [done|]).
  - apply send_ping_announce.
  - done.
  - done.
Qed.

(** C24: Sending an ACK, PING or PING_REQ.  If the event can be allocated, the
    state is unchanged and exactly one datagram is handed to [sendto], for the
    given address.  It carries the sender's uuid and incarnation, the uuid it
    is about, and min(view_size, 10) gossip entries, all from the view and the
    whole view if that has fewer than 10 nodes.  A server that receives the
    datagram, whatever its buffer held before, decodes that same event. *)
Theorem swim_send_delivers (t : EventType) (u : uuid_t) (op : sockaddr_storage → Z → M Z)
  (addr from : sockaddr_storage) (addrlen fromlen : Z) (w : World)
  (stack : list byte) (old : Event) :
  sender t u = Some op → server_wf (w_swim w) → env_alloc (w_allocs w) = true →
  Z.of_nat (length stack) = SWIM_MAX_PACKET_SIZE → length (ev_gossip old) = 11%nat →
  ∃ e d w', op addr addrlen w = (Ok (env_sendto (length (w_out w))), w') ∧
    sends [d] w w' ∧ dg_addr d = addr ∧ dg_addrlen d = addrlen ∧
    announcement (w_swim w) t (subject t u) (env_time (w_times w)) e ∧
    swim_recv_event stack old
      {| rc_data := Some (dg_bytes d); rc_addr := from; rc_addrlen := fromlen |}
    = Ok (received_event old e, Z.of_nat (length (dg_bytes d))).
Proof.
  intros Hop Hs Ha Hst Hold. destruct (sender_announce t u op addr addrlen w Hop) as [Ht ->].
  pose proof (announce_run t (subject t u) addr addrlen w Hs Ht) as Hrun. rewrite Ha in Hrun.
  destruct Hrun as (e & w' & Hrun & Hsend & Han). eexists e, _, w'. split_and!; [done..|].
  pose proof (gossip_size_bound (w_swim w)). pose proof (an_count _ _ _ _ _ Han).
  change SWIM_MAX_PACKET_SIZE with 2048 in Hst.
  apply recv_event_run; [apply Han|lia|lia|done].
Qed.

(** When the event cannot be allocated, the null pointer is used
    unchecked: the process crashes before anything is sent. *)
Theorem swim_send_out_of_memory (t : EventType) (u : uuid_t)
  (op : sockaddr_storage → Z → M Z) (addr : sockaddr_storage) (addrlen : Z) (w : World) :
  sender t u = Some op → server_wf (w_swim w) → env_alloc (w_allocs w) = false →
  ∃ w', op addr addrlen w = (Fault NullDeref, w') ∧ quiet w w'.
Proof.
  intros Hop Hs Ha. destruct (sender_announce t u op addr addrlen w Hop) as [Ht ->].
  pose proof (announce_run t (subject t u) addr addrlen w Hs Ht) as Hrun. by rewrite Ha in Hrun.
Qed.

(** The number of bytes received is ignored: after an event has been
    received into the buffer, any non-empty beginning of the same packet is
    accepted as that whole event again, completed by the bytes left there. *)
Theorem swim_recv_event_stale (e old : Event) (pad : list byte) (k : nat) (r : Incoming) :
  wf_event e → ev_gossip_count e ≤ 11 → length (ev_gossip old) = 11%nat →
  Z.of_nat (length (event_bytes e) + length pad) = SWIM_MAX_PACKET_SIZE → (0 < k)%nat →
  rc_data r = Some (take k (event_bytes e)) →
  swim_recv_event (event_bytes e ++ pad) old r
  = Ok (received_event old e, Z.of_nat (length (event_bytes e))).
Proof.
  change SWIM_MAX_PACKET_SIZE with 2048. intros He Hc Hold Hlen Hk Hr.
  assert (36 ≤ length (event_bytes e))%nat.
  { unfold event_bytes. rewrite length_app, length_header_bytes. lia. }
  unfold swim_recv_event, recvfrom. rewrite Hr. rewrite length_take, length_app.
  destruct (Z.leb_spec (Z.of_nat (k `min` length (event_bytes e)
    `min` (length (event_bytes e) + length pad))) 0); [lia|].
  rewrite (take_ge (take _ _)) by (rewrite length_take; lia).
  rewrite drop_app_le by lia. rewrite (assoc_L (++)).
  replace (take k (event_bytes e) ++ drop (k `min` length (event_bytes e)) (event_bytes e))
    with (event_bytes e); [by apply decode_packet_ok|].
  destruct (decide (k ≤ length (event_bytes e))%nat).
  - by rewrite Nat.min_l, take_drop by done.
  - rewrite Nat.min_r, drop_ge, app_nil_r, take_ge by lia. done.
Qed.

End Theorems.

(** ** Witnesses *)

Lemma sample_server_wf : @server_wf lexicographic (sample_swim sample_nodes).
Proof.
  split; [apply sample_nodes_wf| |vm_compute; split; congruence].
  unfold infos_wf. rewrite live_sample.
  unfold sample_nodes. rewrite !Forall_cons. split_and!; [..|constructor];
    repeat split; vm_compute; congruence.
Qed.

Lemma swim_send_delivers_witness :
  let w := sample_world (sample_swim sample_nodes) in
  ∃ e d w', @swim_send_ack LittleEndian sample_env (sample_uuid 30) sample_addr 16 w = (Ok 0, w') ∧
    sends [d] w w' ∧ dg_addr d = sample_addr ∧ dg_addrlen d = 16 ∧
    announcement (w_swim w) EVENT_TYPE_ACK (sample_uuid 30) 1766383900 e ∧
    @swim_recv_event LittleEndian (replicate 2048 xff) blank_event
      {| rc_data := Some (dg_bytes d); rc_addr := sample_addr; rc_addrlen := 16 |}
    = Ok (@received_event LittleEndian blank_event e, Z.of_nat (length (dg_bytes d))).
Proof.
  apply (swim_send_delivers (U := lexicographic) (H := LittleEndian) (E := sample_env)
    EVENT_TYPE_ACK (sample_uuid 30)).
  - reflexivity.
  - apply sample_server_wf.
  - reflexivity.
  - rewrite length_replicate. reflexivity.
  - reflexivity.
Defined.

Lemma swim_send_out_of_memory_witness :
  let w := sample_world (sample_swim sample_nodes) in
  ∃ w', @swim_send_ping LittleEndian starved_env sample_addr 16 w = (Fault NullDeref, w') ∧
    quiet w w'.
Proof.
  apply (swim_send_out_of_memory (U := lexicographic) (H := LittleEndian) (E := starved_env)
    EVENT_TYPE_PING (zeros 16)).
  - reflexivity.
  - apply sample_server_wf.
  - reflexivity.
Defined.

(** One byte is enough. *)
Lemma swim_recv_event_stale_witness :
  @swim_recv_event LittleEndian (sample_packet EVENT_TYPE_JOIN) blank_event
    {| rc_data := Some [x00]; rc_addr := sample_addr; rc_addrlen := 16 |}
  = Ok (@received_event LittleEndian blank_event (sample_event EVENT_TYPE_JOIN), 120).
Proof.
  apply (@swim_recv_event_stale LittleEndian (sample_event EVENT_TYPE_JOIN) blank_event
    (replicate 1928 xff) 1).
  - by apply sample_event_wf.
  - simpl. lia.
  - reflexivity.
  - vm_compute. reflexivity.
  - lia.
  - vm_compute. reflexivity.
Defined.
