(* ===== verification/Cluster.v ===== *)
(** * Membership of the cluster: [swim/cluster.c]

    Joining and leaving, and the heartbeat that probes a node and ages the
    entries of the view. *)

From Stdlib Require Import Init.Byte ZArith Lia.
From stdpp Require Import base tactics list vector sorting gmap.
From S2P Require Import Prelude Bytes Node Event Encoding EncodingFacts State StateFacts Samples.
From S2P Require Import Probe Network.

Open Scope Z_scope.

Section Operations.
Context `{Host} `{Env}.

(** The event is a local variable, without gossip array. *)
Definition swim_cluster_join (addr : sockaddr_storage) (addrlen : Z) : M unit :=
  event ← swim_event_init (zero_event 0) EVENT_TYPE_JOIN;
  s ← get_swim;
  swim_send_event (set_ev_uuid (sw_uuid s) event) addr addrlen;;
  mret tt.

(** [swim_send_event(swim, event, &swim->view[idx].info.addr, ...)] *)
Definition send_to_node (event : Event) (idx : nat) : M unit :=
  n ← node_at idx;
  swim_send_event event (ni_addr (ns_info n)) (ni_addrlen (ns_info n));;
  mret tt.

Definition swim_cluster_leave : M unit :=
  s ← get_swim;
  if (sw_view_size s =? 0)%nat then mret tt
  else
    pos ← random_index;
    event ← swim_event_init (zero_event 0) EVENT_TYPE_LEAVE;
    for_each (seq 0 (Nat.min (sw_view_size s) (Z.to_nat SWIM_MAXLEAVE)))
      (λ i _, s ← get_swim; send_to_node event ((pos + i) mod sw_view_size s)) tt.

(** [for (; sent > start; --sent) ...] of [swim_cluster_suspect_dead] *)
Fixpoint ping_req_loop (sent start target : nat) : M unit :=
  match sent with
  | O => mret tt
  | S sent' =>
      if (start <? sent)%nat then
        s ← get_swim;
        node ← node_at ((start + sent) mod sw_view_size s);
        (if bool_decide (node_status node = SWIM_STATUS_ALIVE) then
           t ← node_at target;
           swim_send_ping_req (node_uuid t) (ni_addr (ns_info node))
             (ni_addrlen (ns_info node));;
           mret tt
         else mret tt);;
        ping_req_loop sent' start target
      else mret tt
  end.

Definition swim_cluster_suspect_dead (target : nat) : M unit :=
  s ← get_swim;
  if (sw_view_size s =? 0)%nat then mret tt
  else
    start ← random_index;
    set_node target (set_node_status SWIM_STATUS_SUSPECT);;
    ping_req_loop (Nat.min (sw_view_size s) (Z.to_nat SWIM_MAXPINGREQ)) start target.

Definition swim_cluster_declare_dead (target : nat) : M unit :=
  set_node target (set_node_status SWIM_STATUS_DEAD).

Definition swim_cluster_refuted_dead (node : nat) : M unit :=
  set_node node (set_node_status SWIM_STATUS_ALIVE);;
  set_node node swim_node_reset_witness.

(** The body of the loop that updates the view. *)
Definition update_candidate (now : Z) (i : nat) : M unit :=
  candidate ← node_at i;
  match node_status candidate with
  | SWIM_STATUS_ALIVE =>
      if ni_last_seen (ns_info candidate) <=? now - 60
      then swim_cluster_suspect_dead i else mret tt
  | SWIM_STATUS_SUSPECT =>
      if ni_last_seen (ns_info candidate) <=? now - 120
      then swim_cluster_declare_dead i else mret tt
  | SWIM_STATUS_DEAD | SWIM_STATUS_UNKNOWN | STATUS_OTHER _ => mret tt
  end.

Definition swim_cluster_heartbeat : M unit :=
  now ← time;
  s ← get_swim;
  if (0 <? sw_view_size s)%nat && (sw_last_heartbeat s + SWIM_HEARTBEAT_INTERVAL <? now) then
    target_idx ← swim_probe_next;
    modify (set_sw_last_heartbeat now);;
    (if 0 <=? target_idx then
       target ← node_at (Z.to_nat target_idx);
       swim_send_ping (ni_addr (ns_info target)) (ni_addrlen (ns_info target));;
       mret tt
     else mret tt);;
    s ← get_swim;
    for_each (seq 0 (sw_view_size s)) (λ i _, update_candidate now i) tt
  else mret tt.

End Operations.

(** ** What is sent to whom *)

Definition addressed (d : Datagram) (n : NodeState) : Prop :=
  dg_addr d = ni_addr (ns_info n) ∧ dg_addrlen d = ni_addrlen (ns_info n).

(** The datagram carries an event of type [t] about [u] announced by [s], with
    a time read from the clock. *)
Definition carries `{Host} `{Env} (s : SWIM) (t : EventType) (u : uuid_t) (d : Datagram)
  : Prop :=
  ∃ k e, dg_bytes d = event_bytes e ∧ announcement s t u (env_time k) e.

Definition node_alive (s : SWIM) (i : nat) : Prop :=
  node_status <$> live s !! i = Some SWIM_STATUS_ALIVE.

#[export] Instance node_alive_dec s i : Decision (node_alive s i).
Proof. unfold node_alive. apply _. Defined.

(** The nodes that are considered for an indirect probe, in this order. *)
Definition ping_req_order (start size : nat) : list nat :=
  (λ sent, (start + sent) mod size)%nat <$>
    reverse (seq (S start) (Nat.min size (Z.to_nat SWIM_MAXPINGREQ) - start)).

(** What a heartbeat at [now] makes of a node. *)
Definition aged (now : Z) (n : NodeState) : NodeState :=
  match node_status n with
  | SWIM_STATUS_ALIVE =>
      if ni_last_seen (ns_info n) <=? now - 60
      then set_node_status SWIM_STATUS_SUSPECT n else n
  | SWIM_STATUS_SUSPECT =>
      if ni_last_seen (ns_info n) <=? now - 120
      then set_node_status SWIM_STATUS_DEAD n else n
  | _ => n
  end.

Section Facts.
Context {U : UuidLib} {UL : UuidLaws U} {H : Host} {E : Env}.

Lemma server_updated s i n' s' :
  server_wf s → node_updated s i n' s' → wf_info (ns_info n') → server_wf s'.
Proof.
  intros [Hwf Hinf Hinc] [Hwf' Hlive _ [_ Hi _ _] _] Hn. split; [done| |by rewrite Hi].
  unfold infos_wf. rewrite Hlive. by apply Forall_insert.
Qed.

Lemma live_info_wf s i n : infos_wf s → live s !! i = Some n → wf_info (ns_info n).
Proof. intros Hs Hi. unfold infos_wf in Hs. rewrite Forall_lookup in Hs. eauto. Qed.

Lemma set_node_server i f n w :
  server_wf (w_swim w) → live (w_swim w) !! i = Some n →
  node_uuid (f n) = node_uuid n → wf_info (ns_info (f n)) →
  ∃ s', set_node i f w = (Ok tt, with_swim s' w) ∧
    node_updated (w_swim w) i (f n) s' ∧ server_wf s'.
Proof.
  intros Hs Hi Hu Hn. pose proof Hi as [Hi' _]%live_lookup_Some.
  rewrite (set_node_run i f n) by done. eexists. split; [done|].
  pose proof (node_updated_intro (w_swim w) i n (f n) (sv_wf _ Hs) Hi Hu) as Hup.
  split; [done|]. by eapply server_updated.
Qed.

Lemma set_status_wf st n :
  wf_status st → wf_info (ns_info n) → wf_info (ns_info (set_node_status st n)).
Proof. intros Hst []. by split. Qed.

Lemma node_at_live i n w : live (w_swim w) !! i = Some n → node_at i w = (Ok n, w).
Proof. intros [? _]%live_lookup_Some. by apply node_at_run. Qed.

(** Sending with enough memory. *)
Lemma announce_sends t u n w :
  (∀ k, env_alloc k = true) → server_wf (w_swim w) → event_type_valid t →
  ∃ r d w', announce t u (ni_addr (ns_info n)) (ni_addrlen (ns_info n)) w = (Ok r, w') ∧
    sends [d] w w' ∧ addressed d n ∧ carries (w_swim w) t u d.
Proof.
  intros Ha Hs Ht.
  pose proof (announce_run t u (ni_addr (ns_info n)) (ni_addrlen (ns_info n)) w Hs Ht) as Hrun.
  rewrite Ha in Hrun. destruct Hrun as (e & w' & ? & ? & ?). eexists _, _, w'.
  split_and!; [done..|]. by eexists _, e.
Qed.

Lemma ping_req_loop_run (sent start target : nat) (t : NodeState) (w : World) :
  (∀ k, env_alloc k = true) → server_wf (w_swim w) →
  live (w_swim w) !! target = Some t → (0 < sw_view_size (w_swim w))%nat →
  ∃ ds w', ping_req_loop sent start target w = (Ok tt, w') ∧ sends ds w w' ∧
    Forall2 (λ idx d, ∃ n, live (w_swim w) !! idx = Some n ∧ addressed d n ∧
        carries (w_swim w) EVENT_TYPE_PING_REQ (node_uuid t) d)
      (filter (node_alive (w_swim w))
        ((λ sent, (start + sent) mod sw_view_size (w_swim w))%nat <$>
         reverse (seq (S start) (sent - start)))) ds.
Proof.
  intros Ha. revert w. induction sent as [|sent IH]; intros w Hs Ht Hsz; cbn [ping_req_loop].
  { exists [], w. split_and!; [done|by split; rewrite ?app_nil_r|constructor]. }
  destruct (Nat.ltb_spec start (S sent)) as [Hlt|Hge].
  2:{ exists [], w. replace (S sent - start)%nat with 0%nat by lia.
      split_and!; [done|by split; rewrite ?app_nil_r|constructor]. }
  replace (S sent - start)%nat with (S (sent - start)) by lia.
  rewrite seq_S, reverse_snoc. replace (S start + (sent - start))%nat with (S sent) by lia.
  rewrite (bind_run get_swim _ _ (w_swim w) w) by done. rewrite fmap_cons.
  destruct (live_index (w_swim w) ((start + S sent) mod sw_view_size (w_swim w))) as (n & Hn & _).
  { apply Hs. } { apply Nat.mod_upper_bound. lia. }
  rewrite (bind_run _ _ _ _ _ (node_at_live _ _ _ Hn)).
  destruct (decide (node_status n = SWIM_STATUS_ALIVE)) as [Hst|Hst].
  - rewrite bool_decide_eq_true_2 by done.
    destruct (announce_sends EVENT_TYPE_PING_REQ (node_uuid t) n w Ha Hs ltac:(done))
      as (r & d & w1 & Hrun & Hd & ? & ?).
    unfold mbind at 1, M_bind at 1.
    rewrite (bind_run _ _ _ _ _ (node_at_live _ _ _ Ht)).
    rewrite send_ping_req_announce, (bind_run _ _ _ _ _ Hrun). cbn [mret M_ret].
    pose proof Hd as [Hw1 _]. rewrite <-Hw1 in Hs, Ht, Hsz.
    destruct (IH w1 Hs Ht Hsz) as (ds & w' & -> & Hds & Hall).
    exists (d :: ds), w'. split; [done|].
    split; [apply (sends_app [d] ds w w1 w'); done|].
    rewrite filter_cons_True by (unfold node_alive; rewrite Hn; simpl; congruence).
    rewrite Hw1 in Hall. constructor; [|done]. eauto.
  - rewrite bool_decide_eq_false_2 by done. rewrite (bind_run (mret tt) _ w tt w) by done.
    destruct (IH w Hs Ht Hsz) as (ds & w' & -> & Hds & Hall). exists ds, w'. split_and!; [done..|].
    rewrite filter_cons_False; [done|]. unfold node_alive. rewrite Hn. simpl. congruence.
Qed.

(** The random position at which an indirect probe starts. *)
Definition drawn_index (w : World) : nat :=
  N.to_nat (env_rand (w_rands w) mod N.of_nat (sw_view_size (w_swim w))).

Lemma suspect_dead_run (target : nat) (t : NodeState) (w : World) :
  (∀ k, env_alloc k = true) → server_wf (w_swim w) → live (w_swim w) !! target = Some t →
  ∃ s' ds w', swim_cluster_suspect_dead target w = (Ok tt, w') ∧ w_swim w' = s' ∧
    w_out w' = w_out w ++ ds ∧ server_wf s' ∧
    node_updated (w_swim w) target (set_node_status SWIM_STATUS_SUSPECT t) s' ∧
    Forall2 (λ idx d, ∃ n, live s' !! idx = Some n ∧ addressed d n ∧
        carries s' EVENT_TYPE_PING_REQ (node_uuid t) d)
      (filter (node_alive s') (ping_req_order (drawn_index w) (sw_view_size s'))) ds.
Proof.
  intros Ha Hs Ht. pose proof Ht as [_ Hlt]%live_lookup_Some.
  unfold swim_cluster_suspect_dead. rewrite (bind_run get_swim _ _ (w_swim w) w) by done.
  rewrite (proj2 (Nat.eqb_neq _ _)) by lia.
  destruct (random_index_run w) as (start & w1 & Hrun & _ & [Hq1 Hq2] & Hst); [lia|].
  rewrite (bind_run _ _ _ _ _ Hrun). fold (drawn_index w) in Hst. subst start.
  rewrite <-Hq1 in Hs, Ht, Hlt |- *.
  destruct (set_node_server target (set_node_status SWIM_STATUS_SUSPECT) t w1)
    as (s' & Hset & Hup & Hs'); [done..| |].
  { apply set_status_wf; [done|]. eapply live_info_wf; [apply Hs|done]. }
  rewrite (bind_run _ _ _ _ _ Hset).
  assert (live s' !! target = Some (set_node_status SWIM_STATUS_SUSPECT t)) as Ht'.
  { rewrite (nu_live _ _ _ _ Hup). apply list_lookup_insert_eq. by eapply lookup_lt_Some. }
  pose proof (nu_size _ _ _ _ Hup) as Hsz.
  destruct (ping_req_loop_run (Nat.min (sw_view_size (w_swim w1)) (Z.to_nat SWIM_MAXPINGREQ))
    (drawn_index w) target (set_node_status SWIM_STATUS_SUSPECT t) (with_swim s' w1) Ha Hs' Ht')
    as (ds & w' & Hloop & [Hw' Ho] & Hall); [simpl; lia|].
  exists s', ds, w'. split; [done|]. split; [done|]. simpl in *. rewrite <-Hsz in Hall.
  split; [congruence|]. done.
Qed.

(** A PING_REQ about a node of [l] that has not been seen for a minute, sent
    to a node of [l] that is alive. *)
Definition indirect_probe (now : Z) (l : list NodeState) (d : Datagram) : Prop :=
  ∃ m t s, m ∈ l ∧ node_status m = SWIM_STATUS_ALIVE ∧ addressed d m ∧
    t ∈ l ∧ node_status t = SWIM_STATUS_ALIVE ∧ ni_last_seen (ns_info t) ≤ now - 60 ∧
    carries s EVENT_TYPE_PING_REQ (node_uuid t) d.

Lemma aged_alive now n : node_status (aged now n) = SWIM_STATUS_ALIVE → aged now n = n.
Proof. unfold aged. by repeat case_match. Qed.

Lemma aged_uuid now n : node_uuid (aged now n) = node_uuid n.
Proof. unfold aged. by repeat case_match. Qed.

Lemma aged_wf now n : wf_info (ns_info n) → wf_info (ns_info (aged now n)).
Proof. intros Hn. unfold aged. repeat case_match; try done; by apply set_status_wf. Qed.

Lemma same_self_refl s : same_self s s.
Proof. done. Qed.

Lemma same_self_trans s1 s2 s3 : same_self s1 s2 → same_self s2 s3 → same_self s1 s3.
Proof. intros [] []. split; congruence. Qed.

Lemma update_candidate_run (now : Z) (i : nat) (n : NodeState) (w : World) :
  (∀ k, env_alloc k = true) → server_wf (w_swim w) → live (w_swim w) !! i = Some n →
  ∃ ds w', update_candidate now i w = (Ok tt, w') ∧ w_out w' = w_out w ++ ds ∧
    server_wf (w_swim w') ∧ live (w_swim w') = <[i := aged now n]> (live (w_swim w)) ∧
    same_self (w_swim w) (w_swim w') ∧ Forall (indirect_probe now (live (w_swim w))) ds.
Proof.
  intros Ha Hs Hi. unfold update_candidate. rewrite (bind_run _ _ _ _ _ (node_at_live _ _ _ Hi)).
  assert (aged now n = n → ∃ ds w', (mret tt : M unit) w = (Ok tt, w') ∧
    w_out w' = w_out w ++ ds ∧ server_wf (w_swim w') ∧
    live (w_swim w') = <[i := aged now n]> (live (w_swim w)) ∧
    same_self (w_swim w) (w_swim w') ∧ Forall (indirect_probe now (live (w_swim w))) ds) as Hid.
  { intros ->. exists [], w. rewrite app_nil_r, list_insert_id by done. by split_and!. }
  destruct (node_status n) eqn:Est; try (apply Hid; unfold aged; by rewrite Est);
    case_match eqn:Eq; try (apply Hid; unfold aged; by rewrite Est, Eq); clear Hid;
    assert (aged now n = set_node_status _ n) as -> by (unfold aged; by rewrite Est, Eq).
  - destruct (suspect_dead_run i n w Ha Hs Hi)
      as (s' & ds & w' & Hrun & <- & Ho & Hs' & Hup & Hall).
    exists ds, w'. split_and!; [done..|apply Hup|apply Hup|].
    apply Forall_forall. intros d [k Hk]%list_elem_of_lookup.
    destruct (Forall2_lookup_r _ _ _ _ _ Hall Hk) as (idx & Hidx & m & Hm & Had & Hc).
    assert (node_status m = SWIM_STATUS_ALIVE) as Hal.
    { apply list_elem_of_lookup_2, list_elem_of_filter in Hidx as [Hal _].
      unfold node_alive in Hal. rewrite Hm in Hal. naive_solver. }
    rewrite (nu_live _ _ _ _ Hup) in Hm.
    destruct (decide (idx = i)) as [->|Hne].
    { rewrite list_lookup_insert_eq in Hm by by eapply lookup_lt_Some. by simplify_eq. }
    rewrite list_lookup_insert_ne in Hm by done. apply Z.leb_le in Eq.
    eexists m, n, _. split_and!; eauto using list_elem_of_lookup_2.
  - destruct (set_node_server i (set_node_status SWIM_STATUS_DEAD) n w)
      as (s' & Hrun & Hup & Hs'); [done..| |].
    { apply set_status_wf; [done|]. eapply live_info_wf; [apply Hs|done]. }
    exists [], (with_swim s' w). rewrite app_nil_r.
    split_and!; [done..|apply Hup|apply Hup|constructor].
Qed.

Lemma update_loop_run (now : Z) (l pre : list NodeState) (w : World) :
  (∀ k, env_alloc k = true) → server_wf (w_swim w) → live (w_swim w) = pre ++ l →
  ∃ ds w', for_each (seq (length pre) (length l)) (λ i _, update_candidate now i) tt w
           = (Ok tt, w') ∧ w_out w' = w_out w ++ ds ∧
    server_wf (w_swim w') ∧ live (w_swim w') = pre ++ (aged now <$> l) ∧
    same_self (w_swim w) (w_swim w') ∧ Forall (indirect_probe now (pre ++ l)) ds.
Proof.
  intros Ha. revert pre w. induction l as [|n l IH]; intros pre w Hs Hl; cbn [length seq for_each].
  { exists [], w. rewrite !app_nil_r in *. by split_and!. }
  destruct (update_candidate_run now (length pre) n w Ha Hs)
    as (ds & w1 & Hrun & Ho & Hs1 & Hl1 & Hsame & Hd).
  { by rewrite Hl, list_lookup_middle. }
  rewrite (bind_run _ _ _ _ _ Hrun).
  rewrite Hl, insert_app_r_alt, Nat.sub_diag in Hl1 by done. simpl in Hl1.
  replace (pre ++ aged now n :: l) with ((pre ++ [aged now n]) ++ l) in Hl1
    by by rewrite <-(assoc_L (++)).
  destruct (IH (pre ++ [aged now n]) w1 Hs1 Hl1)
    as (ds' & w' & Hrun' & Ho' & Hs' & Hl' & Hsame' & Hd').
  rewrite length_app, Nat.add_comm in Hrun'.
  exists (ds ++ ds'), w'. split_and!; [done| |done| |by eapply same_self_trans|].
  - by rewrite Ho', Ho, (assoc_L (++)).
  - by rewrite Hl', <-(assoc_L (++)).
  - rewrite Hl in Hd. apply Forall_app. split; [done|]. apply (Forall_impl _ _ _ Hd').
    assert (∀ m, m ∈ (pre ++ [aged now n]) ++ l → node_status m = SWIM_STATUS_ALIVE →
      m ∈ pre ++ n :: l) as Hsub.
    { intros m Hm Hal. rewrite <-(assoc_L (++)) in Hm. rewrite elem_of_app in Hm |- *.
      destruct Hm as [?|[->|?]%elem_of_cons]; [by left|right..]; [|by right].
      rewrite (aged_alive _ _ Hal). by left. }
    intros d (m & t & s & ? & ? & ? & ? & ? & ? & ?). exists m, t, s. naive_solver.
Qed.

Lemma probe_next_server (w : World) :
  (∀ k, env_alloc k = true) → server_wf (w_swim w) → sw_view_size (w_swim w) ≠ 0%nat →
  ∃ r w', swim_probe_next w = (Ok r, w') ∧ w_out w' = w_out w ∧ server_wf (w_swim w') ∧
    live (w_swim w') = live (w_swim w) ∧ same_self (w_swim w) (w_swim w') ∧
    (r = -1 ∨ ∃ i n, r = Z.of_nat i ∧ live (w_swim w) !! i = Some n ∧
       node_status n ≠ SWIM_STATUS_DEAD).
Proof.
  intros Ha Hs Hn. destruct (probe_next_run w (sv_wf _ Hs) Hn ltac:(auto))
    as (r & pos & s1 & w' & Hrun & Hs1 & Hr & Hans & _ & [_ Ho]).
  pose proof (round_same_nodes _ _ pos Hr) as [Hv Hsz].
  assert (same_self (w_swim w) (w_swim w')) as Hsame.
  { rewrite Hs1. by destruct Hr as [[_ ->]|(_ & ? & _ & ->)]. }
  assert (live (w_swim w') = live (w_swim w)) as Hl.
  { unfold live. by rewrite Hs1, Hv, Hsz. }
  exists r, w'. split_and!; [done|done| |done|done|].
  - split; [rewrite Hs1; eapply probe_next_wf; [apply Hs|done]| |].
    + unfold infos_wf. rewrite Hl. apply Hs.
    + rewrite (same_incarnation _ _ Hsame). apply Hs.
  - destruct Hans as [(-> & _)|(pre & idx & -> & (n & Hi & Hd) & _)]; [by left|right].
    exists idx, n. split; [done|]. split; [|done].
    by destruct Hr as [[_ ->]|(_ & ? & _ & ->)].
Qed.

(** A PING to a node of the view that is not dead. *)
Definition direct_probe (l : list NodeState) (d : Datagram) : Prop :=
  ∃ n s, n ∈ l ∧ node_status n ≠ SWIM_STATUS_DEAD ∧ addressed d n ∧
    carries s EVENT_TYPE_PING (zeros 16) d.

(** It is time for a heartbeat. *)
Definition heartbeat_due (s : SWIM) (now : Z) : Prop :=
  (0 < sw_view_size s)%nat ∧ sw_last_heartbeat s + SWIM_HEARTBEAT_INTERVAL < now.

#[export] Instance heartbeat_due_dec s now : Decision (heartbeat_due s now) :=
  ltac:(unfold heartbeat_due; apply _).

Lemma heartbeat_due_test s now :
  ((0 <? sw_view_size s)%nat && (sw_last_heartbeat s + SWIM_HEARTBEAT_INTERVAL <? now))
  = bool_decide (heartbeat_due s now).
Proof.
  apply eq_true_iff_eq. rewrite andb_true_iff, bool_decide_eq_true, Nat.ltb_lt, Z.ltb_lt. done.
Qed.

(** The PING of a heartbeat, if there is a node to probe. *)
Definition ping_target (target_idx : Z) : M unit :=
  if 0 <=? target_idx then
    target ← node_at (Z.to_nat target_idx);
    swim_send_ping (ni_addr (ns_info target)) (ni_addrlen (ns_info target));;
    mret tt
  else mret tt.

Lemma ping_target_run (r : Z) (w : World) :
  (∀ k, env_alloc k = true) → server_wf (w_swim w) →
  (r = -1 ∨ ∃ i n, r = Z.of_nat i ∧ live (w_swim w) !! i = Some n ∧
     node_status n ≠ SWIM_STATUS_DEAD) →
  ∃ ds w', ping_target r w = (Ok tt, w') ∧ sends ds w w' ∧
    Forall (direct_probe (live (w_swim w))) ds ∧ length ds = if r =? -1 then 0%nat else 1%nat.
Proof.
  intros Ha Hs [->|(i & n & -> & Hi & Hn)]; unfold ping_target.
  { exists [], w. split_and!; [done|by split; rewrite ?app_nil_r|constructor|done]. }
  destruct (Z.leb_spec 0 (Z.of_nat i)); [|lia]. rewrite Nat2Z.id.
  rewrite (bind_run _ _ _ _ _ (node_at_live _ _ _ Hi)).
  destruct (announce_sends EVENT_TYPE_PING (zeros 16) n w Ha Hs ltac:(done))
    as (r & d & w' & Hrun & Hd & ? & ?).
  rewrite <-send_ping_announce in Hrun. rewrite (bind_run _ _ _ _ _ Hrun).
  exists [d], w'. split_and!; [done..| |].
  - constructor; [|constructor]. exists n, (w_swim w). split_and!; try done.
    by eapply list_elem_of_lookup_2.
  - by destruct (Z.eqb_spec (Z.of_nat i) (-1)); [lia|].
Qed.

Lemma heartbeat_run (w : World) :
  (∀ k, env_alloc k = true) → server_wf (w_swim w) →
  let now := env_time (w_times w) in
  ∃ w', swim_cluster_heartbeat w = (Ok tt, w') ∧
    if decide (heartbeat_due (w_swim w) now) then
      server_wf (w_swim w') ∧ sw_uuid (w_swim w') = sw_uuid (w_swim w) ∧
      sw_incarnation (w_swim w') = sw_incarnation (w_swim w) ∧
      sw_last_heartbeat (w_swim w') = now ∧
      live (w_swim w') = aged now <$> live (w_swim w) ∧
      ∃ ds ds', w_out w' = w_out w ++ ds ++ ds' ∧ (length ds ≤ 1)%nat ∧
        Forall (direct_probe (live (w_swim w))) ds ∧
        Forall (indirect_probe now (live (w_swim w))) ds'
    else quiet w w'.
Proof.
  intros Ha Hs now. unfold swim_cluster_heartbeat. rewrite (bind_run time _ w now _ eq_refl).
  match goal with |- context [mbind _ _ ?w1] => set (w0 := w1) end.
  rewrite (bind_run get_swim _ w0 (w_swim w) w0) by done. rewrite heartbeat_due_test.
  destruct (decide (heartbeat_due (w_swim w) now)) as [[Hsz Hdue]|Hno];
    [rewrite bool_decide_eq_true_2 by done|rewrite bool_decide_eq_false_2 by done; by exists w0].
  destruct (probe_next_server w0 Ha Hs) as (r & w1 & Hrun & Ho1 & Hs1 & Hl1 & Hsame1 & Hr);
    [simpl; lia|].
  rewrite (bind_run _ _ _ _ _ Hrun).
  rewrite (bind_run (modify _) _ w1 tt _ eq_refl).
  match goal with |- context [mbind _ _ ?w] => set (w2 := w) end.
  assert (server_wf (w_swim w2)) as Hs2. { destruct Hs1 as [[] ? ?]. by split. }
  destruct (ping_target_run r w2 Ha Hs2) as (ds & w3 & Hrun3 & [Hw3 Ho3] & Hds & Hlen).
  { change (live (w_swim w2)) with (live (w_swim w1)). by rewrite Hl1. }
  change (live (w_swim w2)) with (live (w_swim w1)) in Hds. rewrite Hl1 in Hds.
  rewrite (bind_run _ _ _ _ _ Hrun3), (bind_run get_swim _ w3 (w_swim w3) w3) by done.
  assert (live (w_swim w3) = live (w_swim w)) as Hl3. { rewrite Hw3. exact Hl1. }
  rewrite <-Hw3 in Hs2. pose proof (length_live _ (sv_wf _ Hs2)) as Hlen3.
  destruct (update_loop_run now (live (w_swim w3)) [] w3 Ha Hs2 eq_refl)
    as (ds' & w4 & Hrun4 & Ho4 & Hs4 & Hl4 & Hsame4 & Hds'). simpl length in Hrun4.
  rewrite Hlen3 in Hrun4. exists w4. split; [exact Hrun4|].
  destruct Hsame1 as [? ? ? ?], Hsame4 as [Hu Hi Hh _]. rewrite Hw3 in Hu, Hi, Hh.
  simpl in *. rewrite Hl3 in Hl4, Hds'. split_and!; [done|congruence..|].
  exists ds, ds'. split_and!; try done.
  - by rewrite Ho4, Ho3, Ho1, (assoc_L (++)).
  - rewrite Hlen. case_match; lia.
Qed.

(** The same event sent to a sequence of nodes. *)
Lemma send_loop_run (e : Event) (f : nat → nat) (body : nat → unit → M unit)
  (l : list nat) (w : World) :
  wf_event e → ev_gossip_count e ≤ 11 → swim_wf (w_swim w) →
  (∀ i w', w_swim w' = w_swim w → body i tt w' = send_to_node e (f i) w') →
  Forall (λ i, f i < sw_view_size (w_swim w))%nat l →
  ∃ ds w', for_each l body tt w = (Ok tt, w') ∧ sends ds w w' ∧
    Forall2 (λ i d, ∃ n, live (w_swim w) !! f i = Some n ∧ addressed d n ∧
               dg_bytes d = event_bytes e) l ds.
Proof.
  intros He Hc Hwf Hbody Hl. revert w Hwf Hbody Hl.
  induction l as [|i l IH]; intros w Hwf Hbody Hl; cbn [for_each].
  { exists [], w. split_and!; [done|by split; rewrite ?app_nil_r|constructor]. }
  apply Forall_cons in Hl as [Hi Hl].
  destruct (live_index (w_swim w) (f i) Hwf Hi) as (n & Hn & _).
  destruct (send_event_run e (ni_addr (ns_info n)) (ni_addrlen (ns_info n)) w He Hc)
    as (w1 & Hsend & Hd). pose proof Hd as [Hw1 _].
  assert (body i tt w = (Ok tt, w1)) as Hrun.
  { rewrite Hbody by done. unfold send_to_node.
    by rewrite (bind_run _ _ _ _ _ (node_at_live _ _ _ Hn)), (bind_run _ _ _ _ _ Hsend). }
  rewrite (bind_run _ _ _ _ _ Hrun). rewrite <-Hw1 in Hwf, Hl, Hbody.
  destruct (IH w1 Hwf Hbody Hl) as (ds & w' & -> & Hds & Hall).
  eexists (_ :: ds), w'. split; [done|]. split; [by apply (sends_app [_] ds w w1 w')|].
  rewrite Hw1 in Hall. constructor; [|done]. by exists n.
Qed.

(** An event without gossip, as [swim_event_init] prepares it. *)
Definition bare_event (s : SWIM) (t : EventType) (now : Z) : Event :=
  set_ev_hdr {| eh_type := t; eh_uuid := sw_uuid s; eh_time := now;
                eh_incarnation := sw_incarnation s |} (zero_event 0).

Lemma event_init_run t w :
  ∃ w', swim_event_init (zero_event 0) t w
        = (Ok (bare_event (w_swim w) t (env_time (w_times w))), w') ∧ quiet w w'.
Proof. by eexists. Qed.

Lemma bare_event_wf s t u now :
  server_wf s → event_type_valid t → wf_event (set_ev_uuid u (bare_event s t now)).
Proof.
  intros Hs Ht. split; [split; [done|apply Hs]|..]; simpl; [unfold wf_sockaddr; lia|lia|].
  constructor.
Qed.

(** The JOIN a server sends about itself. *)
Definition join_event (s : SWIM) (now : Z) : Event :=
  set_ev_uuid (sw_uuid s) (bare_event s EVENT_TYPE_JOIN now).

Lemma cluster_join_run addr addrlen w :
  server_wf (w_swim w) →
  ∃ w', swim_cluster_join addr addrlen w = (Ok tt, w') ∧
    sends [{| dg_bytes := event_bytes (join_event (w_swim w) (env_time (w_times w)));
              dg_addr := addr; dg_addrlen := addrlen |}] w w'.
Proof.
  intros Hs. destruct (event_init_run EVENT_TYPE_JOIN w) as (w1 & Hinit & Hq).
  destruct (send_event_run (join_event (w_swim w) (env_time (w_times w))) addr addrlen w1)
    as (w2 & Hsend & Hd); [by apply bare_event_wf|simpl; lia|].
  exists w2. split; [|by apply (quiet_sends _ w w1)].
  unfold swim_cluster_join. rewrite (bind_run _ _ _ _ _ Hinit).
  rewrite (bind_run get_swim _ w1 (w_swim w) w1) by (unfold get_swim; by rewrite (proj1 Hq)).
  by rewrite (bind_run _ _ _ _ _ Hsend).
Qed.

Lemma cluster_leave_run (w : World) :
  server_wf (w_swim w) →
  ∃ ds w' e idxs, swim_cluster_leave w = (Ok tt, w') ∧ sends ds w w' ∧
    length idxs = Nat.min (sw_view_size (w_swim w)) 5 ∧ NoDup idxs ∧ wf_event e ∧
    Forall2 (λ idx d, ∃ n, live (w_swim w) !! idx = Some n ∧ addressed d n ∧
               dg_bytes d = event_bytes e) idxs ds ∧
    eh_type (ev_hdr e) = EVENT_TYPE_LEAVE ∧ eh_uuid (ev_hdr e) = sw_uuid (w_swim w) ∧
    leave_uuid e = zeros 16.
Proof.
  intros Hs. unfold swim_cluster_leave. rewrite (bind_run get_swim _ w (w_swim w) w) by done.
  set (e := bare_event (w_swim w) EVENT_TYPE_LEAVE).
  assert (∀ now, wf_event (e now)) as He.
  { intros now. apply (bare_event_wf (w_swim w) EVENT_TYPE_LEAVE (zeros 16) now Hs). done. }
  destruct (Nat.eqb_spec (sw_view_size (w_swim w)) 0) as [Hz|Hn].
  { exists [], w, (e 0), []. rewrite Hz.
    split_and!; [done|by split; rewrite ?app_nil_r|done|constructor|done|constructor|done..]. }
  destruct (random_index_run w Hn) as (pos & w1 & Hr & _ & [Hq1 Hq2] & _).
  rewrite (bind_run _ _ _ _ _ Hr).
  destruct (event_init_run EVENT_TYPE_LEAVE w1) as (w2 & Hinit & Hq3 & Hq4).
  rewrite (bind_run _ _ _ _ _ Hinit). rewrite Hq1.
  change (Z.to_nat SWIM_MAXLEAVE) with 5%nat. set (k := Nat.min _ 5).
  destruct (send_loop_run (e (env_time (w_times w1)))
    (λ i, (pos + i) mod sw_view_size (w_swim w))%nat
    (λ i _, s ← get_swim; send_to_node (e (env_time (w_times w1))) ((pos + i) mod sw_view_size s))
    (seq 0 k) w2) as (ds & w3 & Hloop & [Hw3 Ho3] & Hall); [done|simpl; lia|..].
  { rewrite Hq3, Hq1. apply Hs. }
  { intros i w' Hw'. rewrite (bind_run get_swim _ w' (w_swim w') w') by done.
    by rewrite Hw', Hq3, Hq1. }
  { apply Forall_forall. intros i _. rewrite Hq3, Hq1. apply Nat.mod_upper_bound. lia. }
  exists ds, w3, (e (env_time (w_times w1))), ((λ i, (pos + i) mod sw_view_size (w_swim w))%nat <$> seq 0 k).
  split; [exact Hloop|]. split; [split; congruence|].
  split_and!; [|apply NoDup_ring; lia|done| |done..].
  - by rewrite length_fmap, length_seq.
  - apply Forall2_fmap_l. by rewrite Hq3, Hq1 in Hall.
Qed.

End Facts.

(** ** Theorems *)

Section Theorems.
Context {U : UuidLib} {UL : UuidLaws U} {H : Host} {E : Env}.

(** C22: The heartbeat.  If the view is not empty and more than a second has
    passed since the last one, it keeps the invariant, records its time, and
    replaces every node of the view by what its age makes of it: a node that
    is alive and was last seen a minute ago or more becomes suspect, a suspect
    node last seen two minutes ago or more becomes dead, and no other node
    changes.  It sends at most one PING, to a node that is not dead, followed
    by PING_REQs about nodes that became suspect, all of them to nodes that
    are alive.  Otherwise it changes nothing and sends nothing. *)
Theorem swim_cluster_heartbeat_correct (w : World) :
  let now := env_time (w_times w) in
  (∀ k, env_alloc k = true) → server_wf (w_swim w) →
  ∃ w', swim_cluster_heartbeat w = (Ok tt, w') ∧
    if decide (heartbeat_due (w_swim w) now) then
      server_wf (w_swim w') ∧ sw_last_heartbeat (w_swim w') = now ∧
      live (w_swim w') = aged now <$> live (w_swim w) ∧
      ∃ ds ds', w_out w' = w_out w ++ ds ++ ds' ∧ (length ds ≤ 1)%nat ∧
        Forall (direct_probe (live (w_swim w))) ds ∧
        Forall (indirect_probe now (live (w_swim w))) ds'
    else quiet w w'.
Proof.
  intros now Ha Hs. destruct (heartbeat_run w Ha Hs) as (w' & Hrun & Hcase).
  fold now in Hcase. exists w'. split; [done|]. case_decide; [|done].
  by destruct Hcase as (? & _ & _ & ? & ? & ?).
Qed.

(** C23: Failure detection is complete: a node that is alive or suspect and has
    not been seen for two minutes is dead after the next two heartbeats, if
    nothing is heard of it in between. *)
Theorem swim_silent_node_declared_dead (w w1 w2 : World) (i : nat) (n : NodeState) :
  (∀ k, env_alloc k = true) → server_wf (w_swim w) → live (w_swim w) !! i = Some n →
  node_status n = SWIM_STATUS_ALIVE ∨ node_status n = SWIM_STATUS_SUSPECT →
  ni_last_seen (ns_info n) ≤ env_time (w_times w) - 120 →
  heartbeat_due (w_swim w) (env_time (w_times w)) →
  heartbeat_due (w_swim w1) (env_time (w_times w1)) →
  swim_cluster_heartbeat w = (Ok tt, w1) → swim_cluster_heartbeat w1 = (Ok tt, w2) →
  ∃ n2, live (w_swim w2) !! i = Some n2 ∧ node_uuid n2 = node_uuid n ∧
    node_status n2 = SWIM_STATUS_DEAD.
Proof.
  intros Ha Hs Hi Hst Hold Hdue Hdue1 Hrun1 Hrun2.
  destruct (heartbeat_run w Ha Hs) as (? & Hrun & Hcase). rewrite decide_True in Hcase by done.
  rewrite Hrun1 in Hrun. injection Hrun as <-. destruct Hcase as (Hs1 & _ & _ & Hh1 & Hl1 & _).
  destruct (heartbeat_run w1 Ha Hs1) as (? & Hrun' & Hcase). rewrite decide_True in Hcase by done.
  rewrite Hrun2 in Hrun'. injection Hrun' as <-. destruct Hcase as (_ & _ & _ & _ & Hl2 & _).
  exists (aged (env_time (w_times w1)) (aged (env_time (w_times w)) n)).
  rewrite Hl2, Hl1, !list_lookup_fmap, Hi, !aged_uuid. split_and!; [done..|].
  destruct Hdue1 as [_ Hlt]. rewrite Hh1 in Hlt. unfold SWIM_HEARTBEAT_INTERVAL in Hlt.
  destruct Hst as [Hst|Hst]; unfold aged at 2; rewrite Hst, (proj2 (Z.leb_le _ _)) by lia;
    unfold aged; simpl; [|done]. by rewrite (proj2 (Z.leb_le _ _)) by (simpl; lia).
Qed.

(** The indirect probe.  [swim_cluster_suspect_dead] marks the target
    suspect and changes nothing else; from the random position [start] it goes
    down through the positions start + min(view_size, 5), ..., 2 start + 1 of
    the ring of nodes, and sends one PING_REQ about the target to each of them
    that is alive, which the target itself is not any more. *)
Theorem swim_cluster_suspect_dead_requests (target : nat) (t : NodeState) (w : World) :
  (∀ k, env_alloc k = true) → server_wf (w_swim w) → live (w_swim w) !! target = Some t →
  ∃ s' ds w', swim_cluster_suspect_dead target w = (Ok tt, w') ∧ w_swim w' = s' ∧
    w_out w' = w_out w ++ ds ∧ server_wf s' ∧
    view_map s' = <[node_uuid t := set_node_status SWIM_STATUS_SUSPECT t]> (view_map (w_swim w)) ∧
    (let asked := filter (node_alive s') (ping_req_order (drawn_index w) (sw_view_size s')) in
     target ∉ asked ∧
     Forall2 (λ idx d, ∃ n, live s' !! idx = Some n ∧ addressed d n ∧
       carries s' EVENT_TYPE_PING_REQ (node_uuid t) d) asked ds).
Proof.
  intros Ha Hs Ht. destruct (suspect_dead_run target t w Ha Hs Ht)
    as (s' & ds & w' & ? & ? & ? & ? & Hup & ?).
  exists s', ds, w'. cbv zeta. split_and!; [done..|apply Hup| |done].
  rewrite list_elem_of_filter. unfold node_alive. rewrite (nu_live _ _ _ _ Hup).
  rewrite list_lookup_insert_eq by by eapply lookup_lt_Some. by intros [? _].
Qed.

(** The loop stops at [start] instead of after as many requests: if the
    random start is at least min(view_size, 5), nobody is asked, however many
    nodes are alive. *)
Theorem swim_cluster_suspect_dead_silent (target : nat) (t : NodeState) (w : World) :
  (∀ k, env_alloc k = true) → server_wf (w_swim w) → live (w_swim w) !! target = Some t →
  (Nat.min (sw_view_size (w_swim w)) (Z.to_nat SWIM_MAXPINGREQ) ≤ drawn_index w)%nat →
  ∃ w', swim_cluster_suspect_dead target w = (Ok tt, w') ∧ w_out w' = w_out w.
Proof.
  intros Ha Hs Ht Hst. destruct (suspect_dead_run target t w Ha Hs Ht)
    as (s' & ds & w' & ? & _ & Ho & _ & Hup & Hall).
  exists w'. split; [done|]. unfold ping_req_order in Hall.
  rewrite (nu_size _ _ _ _ Hup), (proj2 (Nat.sub_0_le _ _) Hst) in Hall.
  simpl in Hall. apply Forall2_nil_inv_l in Hall as ->. by rewrite app_nil_r in Ho.
Qed.

(** Joining a cluster sends one datagram to the given address and changes
    nothing.  The receiver decodes a JOIN about the sender, without an address
    (it is filled in by the receiver) and without gossip. *)
Theorem swim_cluster_join_correct (addr from : sockaddr_storage) (addrlen fromlen : Z)
  (w : World) (stack : list byte) (old : Event) :
  server_wf (w_swim w) → Z.of_nat (length stack) = SWIM_MAX_PACKET_SIZE →
  length (ev_gossip old) = 11%nat →
  ∃ d w' e r, swim_cluster_join addr addrlen w = (Ok tt, w') ∧ sends [d] w w' ∧
    dg_addr d = addr ∧ dg_addrlen d = addrlen ∧
    swim_recv_event stack old
      {| rc_data := Some (dg_bytes d); rc_addr := from; rc_addrlen := fromlen |} = Ok (e, r) ∧
    0 < r ∧ eh_type (ev_hdr e) = EVENT_TYPE_JOIN ∧ eh_uuid (ev_hdr e) = sw_uuid (w_swim w) ∧
    eh_incarnation (ev_hdr e) = sw_incarnation (w_swim w) ∧
    join_uuid e = sw_uuid (w_swim w) ∧ ev_join_addrlen e = 0 ∧ ev_gossip_count e = 0.
Proof.
  intros Hs Hst Hold. destruct (cluster_join_run addr addrlen w Hs) as (w' & Hrun & Hsend).
  assert (wf_event (join_event (w_swim w) (env_time (w_times w)))) as He by by apply bare_event_wf.
  eexists _, w', (received_event old (join_event (w_swim w) (env_time (w_times w)))), _.
  split; [exact Hrun|]. split; [exact Hsend|]. split; [done|]. split; [done|].
  split; [apply recv_event_run; [done|simpl; lia|done|done]|].
  split; [|done]. unfold event_bytes. rewrite length_app, length_header_bytes. lia.
Qed.

(** Leaving sends min(view_size, 5) datagrams, to as many different nodes,
    and changes nothing.  But the events do not say who leaves: their
    [leave_uuid] is never assigned and stays nil. *)
Theorem swim_cluster_leave_anonymous (w : World) :
  server_wf (w_swim w) →
  ∃ ds w' e idxs, swim_cluster_leave w = (Ok tt, w') ∧ sends ds w w' ∧
    length idxs = Nat.min (sw_view_size (w_swim w)) 5 ∧ NoDup idxs ∧ wf_event e ∧
    Forall2 (λ idx d, ∃ n, live (w_swim w) !! idx = Some n ∧ addressed d n ∧
               dg_bytes d = event_bytes e) idxs ds ∧
    eh_type (ev_hdr e) = EVENT_TYPE_LEAVE ∧ eh_uuid (ev_hdr e) = sw_uuid (w_swim w) ∧
    leave_uuid e = zeros 16.
Proof. apply cluster_leave_run. Qed.

End Theorems.

(** ** Witnesses *)

Definition aging_world : World := sample_world (sample_swim aging_nodes).

Lemma aging_server_wf : @server_wf lexicographic (w_swim aging_world).
Proof.
  split; [apply aging_nodes_wf| |vm_compute; split; congruence].
  unfold infos_wf, aging_world. simpl. rewrite live_sample.
  unfold aging_nodes. rewrite !Forall_cons. split_and!; [..|constructor];
    repeat split; vm_compute; congruence.
Qed.

Lemma aging_due : heartbeat_due (w_swim aging_world) 1766383900.
Proof. split; vm_compute; lia || reflexivity. Qed.

Lemma swim_cluster_heartbeat_correct_witness :
  ∃ w', @swim_cluster_heartbeat LittleEndian ticking_env aging_world = (Ok tt, w') ∧
    @server_wf lexicographic (w_swim w') ∧ sw_last_heartbeat (w_swim w') = 1766383900 ∧
    live (w_swim w') = aged 1766383900 <$> live (w_swim aging_world) ∧
    ∃ ds ds', w_out w' = [] ++ ds ++ ds' ∧ (length ds ≤ 1)%nat ∧
      Forall (@direct_probe LittleEndian ticking_env (live (w_swim aging_world))) ds ∧
      Forall (@indirect_probe LittleEndian ticking_env 1766383900 (live (w_swim aging_world))) ds'.
Proof.
  apply (swim_cluster_heartbeat_correct (U := lexicographic) (H := LittleEndian)
    (E := ticking_env) aging_world).
  - done.
  - apply aging_server_wf.
Defined.

Lemma swim_silent_node_declared_dead_witness :
  let w1 := (@swim_cluster_heartbeat LittleEndian ticking_env aging_world).2 in
  let w2 := (@swim_cluster_heartbeat LittleEndian ticking_env w1).2 in
  ∃ n2, live (w_swim w2) !! 0%nat = Some n2 ∧ node_uuid n2 = sample_uuid 10 ∧
    node_status n2 = SWIM_STATUS_DEAD.
Proof.
  apply (swim_silent_node_declared_dead (U := lexicographic) (H := LittleEndian)
    (E := ticking_env) aging_world
    (@swim_cluster_heartbeat LittleEndian ticking_env aging_world).2 _ 0
    (sample_node 10 SWIM_STATUS_ALIVE 1766383000 1)).
  - done.
  - apply aging_server_wf.
  - reflexivity.
  - by left.
  - vm_compute. congruence.
  - apply aging_due.
  - split; [apply Nat.ltb_lt|]; vm_compute; reflexivity.
  - vm_compute. reflexivity.
  - vm_compute. reflexivity.
Defined.

Lemma swim_cluster_suspect_dead_requests_witness :
  ∃ s' ds w', @swim_cluster_suspect_dead LittleEndian ticking_env 0 aging_world = (Ok tt, w') ∧
    w_swim w' = s' ∧ w_out w' = [] ++ ds ∧ @server_wf lexicographic s' ∧
    view_map s' = <[sample_uuid 10 := set_node_status SWIM_STATUS_SUSPECT
                      (sample_node 10 SWIM_STATUS_ALIVE 1766383000 1)]>
                    (view_map (w_swim aging_world)) ∧
    (let asked := filter (node_alive s') (ping_req_order 0 (sw_view_size s')) in
     0%nat ∉ asked ∧
     Forall2 (λ idx d, ∃ n, live s' !! idx = Some n ∧ addressed d n ∧
       @carries LittleEndian ticking_env s' EVENT_TYPE_PING_REQ (sample_uuid 10) d) asked ds).
Proof.
  apply (swim_cluster_suspect_dead_requests (U := lexicographic) (H := LittleEndian)
    (E := ticking_env) 0 (sample_node 10 SWIM_STATUS_ALIVE 1766383000 1) aging_world).
  - done.
  - apply aging_server_wf.
  - reflexivity.
Defined.

(** A view of eight nodes, where the search starts at the last one. *)
Definition crowd : list NodeState :=
  (λ k, sample_node k SWIM_STATUS_ALIVE 1766383000 1) <$> [10; 11; 12; 13; 14; 15; 16; 17].

Definition crowd_world : World :=
  {| w_swim := sample_swim crowd; w_rands := 4; w_times := 0; w_allocs := 0; w_out := [] |}.

Lemma crowd_server_wf : @server_wf lexicographic (w_swim crowd_world).
Proof.
  split; [apply sample_swim_wf, nodes_wfb_sound; vm_compute; reflexivity|
         |vm_compute; split; congruence].
  unfold infos_wf, crowd_world. simpl w_swim. rewrite live_sample.
  unfold crowd. rewrite !fmap_cons, !Forall_cons. split_and!; [..|constructor];
    repeat split; vm_compute; congruence.
Qed.

Lemma swim_cluster_suspect_dead_silent_witness :
  ∃ w', @swim_cluster_suspect_dead LittleEndian ticking_env 0 crowd_world = (Ok tt, w') ∧
    w_out w' = [].
Proof.
  apply (swim_cluster_suspect_dead_silent (U := lexicographic) (H := LittleEndian)
    (E := ticking_env) 0 (sample_node 10 SWIM_STATUS_ALIVE 1766383000 1) crowd_world).
  - done.
  - apply crowd_server_wf.
  - reflexivity.
  - apply Nat.leb_le. vm_compute. reflexivity.
Defined.

Lemma swim_cluster_join_correct_witness :
  ∃ d w' e r, @swim_cluster_join LittleEndian ticking_env sample_addr 16 aging_world
              = (Ok tt, w') ∧ sends [d] aging_world w' ∧
    dg_addr d = sample_addr ∧ dg_addrlen d = 16 ∧
    @swim_recv_event LittleEndian (replicate 2048 xff) blank_event
      {| rc_data := Some (dg_bytes d); rc_addr := sample_addr; rc_addrlen := 16 |} = Ok (e, r) ∧
    0 < r ∧ eh_type (ev_hdr e) = EVENT_TYPE_JOIN ∧ eh_uuid (ev_hdr e) = sample_uuid 1 ∧
    eh_incarnation (ev_hdr e) = 2 ∧
    join_uuid e = sample_uuid 1 ∧ ev_join_addrlen e = 0 ∧ ev_gossip_count e = 0.
Proof.
  apply (swim_cluster_join_correct (U := lexicographic) (H := LittleEndian) (E := ticking_env)
    sample_addr sample_addr 16 16 aging_world).
  - apply aging_server_wf.
  - rewrite length_replicate. reflexivity.
  - reflexivity.
Defined.

Lemma swim_cluster_leave_anonymous_witness :
  ∃ ds w' e idxs, @swim_cluster_leave LittleEndian ticking_env crowd_world = (Ok tt, w') ∧
    sends ds crowd_world w' ∧ length idxs = 5%nat ∧ NoDup idxs ∧ wf_event e ∧
    Forall2 (λ idx d, ∃ n, live (w_swim crowd_world) !! idx = Some n ∧ addressed d n ∧
               dg_bytes d = @event_bytes LittleEndian e) idxs ds ∧
    eh_type (ev_hdr e) = EVENT_TYPE_LEAVE ∧ eh_uuid (ev_hdr e) = sample_uuid 1 ∧
    leave_uuid e = zeros 16.
Proof.
  apply (swim_cluster_leave_anonymous (U := lexicographic) (H := LittleEndian)
    (E := ticking_env) crowd_world).
  apply crowd_server_wf.
Defined.
