(* ===== verification/Rhythm.v ===== *)
(** * The rhythm of the heartbeats

    The probe schedule of [Probe] as the heartbeats of [swim/cluster.c] use it:
    while nodes age, and events are processed between two heartbeats, how long
    can a node be passed over? *)

From Stdlib Require Import Init.Byte ZArith Lia.
From stdpp Require Import base tactics list vector sorting gmap.
From S2P Require Import Prelude Bytes Node Event Encoding EncodingFacts State StateFacts.
From S2P Require Import Samples Membership Probe Network Cluster.

Open Scope Z_scope.

(** ** Functions that leave the schedule alone *)

Definition unscheduled {A} (m : M A) : Prop :=
  ∀ w, sw_probe (w_swim (m w).2) = sw_probe (w_swim w).

Create HintDb unscheduled.

Section Frame.
Context {U : UuidLib} {H : Host} {E : Env}.

Lemma unscheduled_ret {A} (a : A) : unscheduled (mret a).
Proof. by intros w. Qed.

Lemma unscheduled_bind {A B} (m : M A) (k : A → M B) :
  unscheduled m → (∀ a, unscheduled (k a)) → unscheduled (a ← m; k a).
Proof.
  intros Hm Hk w. unfold mbind, M_bind. specialize (Hm w). destruct (m w) as [[a|f] w1]; [|done].
  rewrite <-Hm. apply Hk.
Qed.

Lemma unscheduled_lift {A} (o : outcome A) : unscheduled (lift o).
Proof. by intros w. Qed.

Lemma unscheduled_get : unscheduled get_swim.
Proof. by intros w. Qed.

Lemma unscheduled_deref {A} (p : option A) : unscheduled (deref p).
Proof. by destruct p. Qed.

Lemma unscheduled_node_at i : unscheduled (node_at i).
Proof. intros w. unfold node_at, mbind, M_bind, get_swim. by destruct (_ !! i). Qed.

Lemma unscheduled_set_node i f : unscheduled (set_node i f).
Proof. apply unscheduled_bind; [apply unscheduled_node_at|]. by intros n w. Qed.

Lemma unscheduled_for_each {S} l (body : nat → S → M S) state :
  (∀ i s, unscheduled (body i s)) → unscheduled (for_each l body state).
Proof.
  intros Hb. revert state. induction l as [|i l IH]; intros state; [apply unscheduled_ret|].
  apply unscheduled_bind; [apply Hb|]. intros s. apply IH.
Qed.

Lemma unscheduled_time : unscheduled time.
Proof. by intros w. Qed.

Lemma unscheduled_alloc : unscheduled alloc.
Proof. by intros w. Qed.

Lemma unscheduled_sendto d : unscheduled (sendto d).
Proof. by intros w. Qed.

Lemma unscheduled_random : unscheduled random_index.
Proof.
  apply unscheduled_bind; [by intros w|]. intros r. apply unscheduled_bind; [apply unscheduled_get|].
  intros s. by destruct (_ =? _)%nat.
Qed.

End Frame.

#[export] Hint Resolve unscheduled_ret unscheduled_lift unscheduled_get unscheduled_deref
  unscheduled_node_at unscheduled_set_node unscheduled_time unscheduled_alloc unscheduled_sendto
  unscheduled_random : unscheduled.

Ltac unscheduled_step :=
  match goal with
  | |- unscheduled _ => solve [auto with unscheduled]
  | |- unscheduled (mbind _ _) => apply unscheduled_bind; [|intros ?]
  | |- unscheduled (for_each _ _ _) => apply unscheduled_for_each; intros ? ?
  | |- unscheduled (if ?b then _ else _) => destruct b
  | |- unscheduled (match ?x with _ => _ end) => destruct x
  end.

Ltac frame_schedule := repeat unscheduled_step.

Section Functions.
Context {U : UuidLib} {H : Host} {E : Env}.

Lemma unscheduled_event_create t count : unscheduled (swim_event_create t count).
Proof. unfold swim_event_create, swim_event_init. cbn zeta. frame_schedule. Qed.
#[local] Hint Resolve unscheduled_event_create : unscheduled.

Lemma unscheduled_fill_gossip e count : unscheduled (swim_fill_gossip e count).
Proof. unfold swim_fill_gossip, copy_gossip. frame_schedule. Qed.
#[local] Hint Resolve unscheduled_fill_gossip : unscheduled.

Lemma unscheduled_send_event e addr addrlen : unscheduled (swim_send_event e addr addrlen).
Proof. unfold swim_send_event, fail. frame_schedule. Qed.
#[local] Hint Resolve unscheduled_send_event : unscheduled.

Lemma unscheduled_send_ping addr addrlen : unscheduled (swim_send_ping addr addrlen).
Proof. unfold swim_send_ping. frame_schedule. Qed.

Lemma unscheduled_send_ping_req u addr addrlen : unscheduled (swim_send_ping_req u addr addrlen).
Proof. unfold swim_send_ping_req. frame_schedule. Qed.
#[local] Hint Resolve unscheduled_send_ping unscheduled_send_ping_req : unscheduled.

Lemma unscheduled_ping_req_loop sent start target :
  unscheduled (ping_req_loop sent start target).
Proof. induction sent as [|sent IH]; cbn [ping_req_loop]; frame_schedule. Qed.
#[local] Hint Resolve unscheduled_ping_req_loop : unscheduled.

Lemma unscheduled_update_candidate now i : unscheduled (update_candidate now i).
Proof.
  unfold update_candidate, swim_cluster_suspect_dead, swim_cluster_declare_dead. frame_schedule.
Qed.

Lemma unscheduled_ping_target r : unscheduled (ping_target r).
Proof. unfold ping_target. frame_schedule. Qed.

End Functions.

(** ** How long a node has to wait *)

(** An upper bound for the number of probes until node [i] is probed, from the
    position in the round: the rest of this round if the node is part of that,
    and otherwise also the next one. *)
Definition wait (s : SWIM) (i : nat) : nat :=
  if decide (in_round s) then
    if decide (i ∈ remaining s) then sw_view_size s - pr_pos (sw_probe s)
    else sw_view_size s - pr_pos (sw_probe s) + sw_view_size s
  else sw_view_size s.

Section Wait.
Context {U : UuidLib} {UL : UuidLaws U} {E : Env}.

Lemma wait_same s s' i :
  sw_probe s' = sw_probe s → sw_view_size s' = sw_view_size s → wait s' i = wait s i.
Proof.
  intros Hp Hs. unfold wait, remaining. rewrite Hp, Hs.
  destruct (decide (in_round s)) as [Hr|Hr], (decide (in_round s')) as [Hr'|Hr'];
    unfold in_round in *; rewrite ?Hp, ?Hs in *; done.
Qed.

Lemma wait_bound s i :
  swim_wf s → (i < sw_view_size s)%nat → (wait s i ≤ 2 * sw_view_size s - 1)%nat.
Proof.
  intros Hwf Hi. unfold wait. case_decide as Hir; [|lia]. case_decide as Hin; [lia|].
  destruct (decide (pr_pos (sw_probe s) = 0%nat)) as [Hz|]; [|lia]. exfalso. apply Hin.
  unfold remaining. rewrite Hz, drop_0.
  destruct (round_of_scheduled s s Hwf) as [_ (_ & Hp & _)]; [by left|].
  rewrite Hp, elem_of_seq. lia.
Qed.

Lemma wait_pos s i : (i < sw_view_size s)%nat → (0 < wait s i)%nat.
Proof. intros Hi. unfold wait. case_decide as Hir; [|lia]. destruct Hir. case_decide; lia. Qed.

(** A probe is of the node, or brings it closer. *)
Lemma probe_next_wait w i r w' :
  (∀ k, env_alloc k = true) → swim_wf (w_swim w) → node_probeable (w_swim w) i →
  swim_probe_next w = (Ok r, w') →
  r = Z.of_nat i ∨ (wait (w_swim w') i < wait (w_swim w) i)%nat.
Proof.
  intros Ha Hwf Hi Hrun'. pose proof (probeable_size _ _ Hi) as Hlt.
  destruct (probe_next_run w Hwf ltac:(lia) ltac:(auto))
    as (r0 & pos & s1 & w0 & Hrun & Hs & Hr & Hans & Hpos & _).
  rewrite Hrun' in Hrun. injection Hrun as <- <-. rewrite Hs.
  pose proof (proj2 (round_same_nodes _ _ pos Hr)) as Hsz.
  destruct (round_of_scheduled _ _ Hwf Hr) as [Hwf1 Hsch].
  assert (node_probeable s1 i ∧ sw_view_size s1 = sw_view_size (w_swim w)) as [Hi1 Hsz1]
    by by destruct Hr as [[_ ->]|(_ & ? & _ & ->)].
  assert (∀ b, in_round (set_pos b s1) ↔ (b < sw_view_size s1)%nat) as Hround
    by (intros b; split; [by intros []|by split; [apply Hsch|]]).
  unfold wait. rewrite Hsz. destruct (decide (i ∈ remaining s1)) as [Hin|Hin].
  - destruct (answer_due _ _ _ _ Hans Hi1 Hin) as [Hgt [->|Hin']]; [by left|right].
    pose proof (remaining_pos _ _ (set_pos_scheduled pos s1 Hsch ltac:(lia)) Hin') as Hp.
    rewrite (decide_True (P := in_round (set_pos pos s1))) by by apply Hround.
    rewrite (decide_True (P := i ∈ remaining (set_pos pos s1))) by done. simpl.
    destruct Hr as [[Hir ->]|(Hir & order & _ & ->)].
    + rewrite (decide_True (P := in_round _)), (decide_True (P := i ∈ _)) by done. lia.
    + rewrite (decide_False (P := in_round _)) by done. simpl in *. lia.
  - right. destruct Hr as [[Hir ->]|(_ & order & Hperm & ->)].
    + rewrite (decide_True (P := in_round (w_swim w))), (decide_False (P := i ∈ remaining (w_swim w))) by done.
      assert (pr_pos (sw_probe (w_swim w)) < pos)%nat as Hgt.
      { destruct Hans as [(_ & -> & _)|(? & ? & _ & _ & _ & _ & ?)]; [apply Hir|lia]. }
      case_decide; [|lia]. rewrite decide_False; [simpl; lia|].
      intros Hin'. apply Hin. unfold remaining in *. simpl in Hin'.
      replace pos with (pr_pos (sw_probe (w_swim w)) + (pos - pr_pos (sw_probe (w_swim w))))%nat
        in Hin' by lia.
      rewrite <-drop_drop in Hin'.
      rewrite <-(take_drop (pos - pr_pos (sw_probe (w_swim w))) (drop (pr_pos _) _)), elem_of_app. by right.
    + exfalso. apply Hin. unfold remaining. simpl. rewrite drop_0, Hperm, elem_of_seq. lia.
Qed.

End Wait.

(** ** Heartbeats *)

(** The server has sent node [n] a PING between [w] and [w']. *)
Definition pinged `{Host} `{Env} (n : NodeState) (w w' : World) : Prop :=
  ∃ d ds, w_out w' = w_out w ++ d :: ds ∧ addressed d n ∧
    ∃ s, sw_uuid s = sw_uuid (w_swim w) ∧ carries s EVENT_TYPE_PING (zeros 16) d.

Section Heartbeats.
Context {U : UuidLib} {UL : UuidLaws U} {H : Host} {E : Env}.
Hypothesis alloc_ok : ∀ k, env_alloc k = true.

Lemma ping_target_node i n w :
  server_wf (w_swim w) → live (w_swim w) !! i = Some n →
  ∃ d w', ping_target (Z.of_nat i) w = (Ok tt, w') ∧ sends [d] w w' ∧ addressed d n ∧
    carries (w_swim w) EVENT_TYPE_PING (zeros 16) d.
Proof.
  intros Hs Hi. unfold ping_target. destruct (Z.leb_spec 0 (Z.of_nat i)); [|lia].
  rewrite Nat2Z.id, (bind_run _ _ _ _ _ (node_at_live _ _ _ Hi)).
  destruct (announce_sends EVENT_TYPE_PING (zeros 16) n w alloc_ok Hs ltac:(done))
    as (r & d & w' & Hrun & Hd & ? & ?).
  rewrite <-send_ping_announce in Hrun. rewrite (bind_run _ _ _ _ _ Hrun). by exists d, w'.
Qed.

(** The parts of a heartbeat that is due: the probe, the PING and the ageing. *)
Lemma heartbeat_parts w :
  heartbeat_due (w_swim w) (env_time (w_times w)) →
  let now := env_time (w_times w) in
  ∃ w0, w_swim w0 = w_swim w ∧ w_out w0 = w_out w ∧ w_allocs w0 = w_allocs w ∧
    swim_cluster_heartbeat w =
      (r ← swim_probe_next; modify (set_sw_last_heartbeat now);; ping_target r;;
       s ← get_swim; for_each (seq 0 (sw_view_size s)) (λ i _, update_candidate now i) tt) w0.
Proof.
  intros Hdue now. unfold swim_cluster_heartbeat. rewrite (bind_run time _ w now _ eq_refl).
  match goal with |- context [mbind _ _ ?w1] => exists w1; set (w0 := w1) end.
  do 3 (split; [done|]).
  rewrite (bind_run get_swim _ w0 (w_swim w) w0) by done. rewrite heartbeat_due_test.
  by rewrite bool_decide_eq_true_2.
Qed.

Lemma heartbeat_size w w' :
  server_wf (w_swim w) → swim_cluster_heartbeat w = (Ok tt, w') →
  sw_view_size (w_swim w') = sw_view_size (w_swim w).
Proof.
  intros Hs Hrun. destruct (heartbeat_run w alloc_ok Hs) as (w1 & Hrun' & Hcase).
  rewrite Hrun in Hrun'. injection Hrun' as <-. case_decide as Hdue; [|by destruct Hcase as [-> _]].
  destruct Hcase as (Hs1 & _ & _ & _ & Hl & _).
  rewrite <-(length_live _ (sv_wf _ Hs)), <-(length_live _ (sv_wf _ Hs1)), Hl. apply length_fmap.
Qed.

(** A heartbeat that is due pings the node, or brings it closer. *)
Lemma heartbeat_wait w w' i n :
  server_wf (w_swim w) → heartbeat_due (w_swim w) (env_time (w_times w)) →
  live (w_swim w) !! i = Some n → node_status n ≠ SWIM_STATUS_DEAD →
  swim_cluster_heartbeat w = (Ok tt, w') →
  pinged n w w' ∨ (wait (w_swim w') i < wait (w_swim w) i)%nat.
Proof.
  intros Hs Hdue Hi Hn Hrun'. pose proof (heartbeat_size w w' Hs Hrun') as Hsize.
  destruct (heartbeat_parts w Hdue) as (w0 & Hw0 & Ho0 & _ & Hparts).
  rewrite Hparts in Hrun'. clear Hparts. rewrite <-Hw0 in Hs, Hi, Hdue.
  destruct (probe_next_server w0 alloc_ok Hs) as (r & w1 & Hrun & Ho1 & Hs1 & Hl1 & Hsame1 & Hr);
    [destruct Hdue; lia|].
  assert (r = Z.of_nat i ∨ (wait (w_swim w1) i < wait (w_swim w0) i)%nat) as Hwait.
  { eapply probe_next_wait; [done|apply Hs|by exists n|done]. }
  rewrite (bind_run _ _ _ _ _ Hrun) in Hrun'.
  rewrite (bind_run (modify _) _ w1 tt _ eq_refl) in Hrun'.
  match type of Hrun' with mbind _ _ ?w = _ => set (w2 := w) in * end.
  assert (server_wf (w_swim w2)) as Hs2. { destruct Hs1 as [[] ? ?]. by split. }
  assert (live (w_swim w2) = live (w_swim w0)) as Hl2 by by rewrite <-Hl1.
  destruct Hwait as [->|Hless].
  - left. rewrite <-Hl2 in Hi. destruct (ping_target_node i n w2 Hs2 Hi)
      as (d & w3 & Hrun3 & [Hw3 Ho3] & Hd & Hc).
    rewrite (bind_run _ _ _ _ _ Hrun3), (bind_run get_swim _ w3 (w_swim w3) w3) in Hrun' by done.
    rewrite <-Hw3 in Hs2. pose proof (length_live _ (sv_wf _ Hs2)) as Hlen3.
    destruct (update_loop_run (env_time (w_times w)) (live (w_swim w3)) [] w3 alloc_ok Hs2 eq_refl)
      as (ds & w4 & Hrun4 & Ho4 & _). simpl length in Hrun4. rewrite Hlen3 in Hrun4.
    rewrite Hrun4 in Hrun'. injection Hrun' as <-. exists d, ds.
    split; [|split; [done|exists (w_swim w2)]].
    + rewrite Ho4, Ho3, <-Ho0, <-Ho1, <-(assoc_L (++)). done.
    + split; [|done]. rewrite <-Hw0. apply (same_uuid _ _ Hsame1).
  - right. rewrite <-Hw0.
    assert (sw_probe (w_swim w') = sw_probe (w_swim w1)) as Hp.
    { assert (unscheduled (ping_target r;; s ← get_swim;
        for_each (seq 0 (sw_view_size s)) (λ i _, update_candidate (env_time (w_times w)) i) tt)) as Hu.
      { apply unscheduled_bind; [apply unscheduled_ping_target|]. intros _.
        apply unscheduled_bind; [apply unscheduled_get|]. intros s.
        apply unscheduled_for_each. intros. apply unscheduled_update_candidate. }
      specialize (Hu w2). rewrite Hrun' in Hu. exact Hu. }
    rewrite (wait_same (w_swim w1) (w_swim w')); [done|done|].
    rewrite Hsize, <-Hw0, <-(length_live _ (sv_wf _ Hs)), <-Hl1.
    apply (length_live _ (sv_wf _ Hs1)).
Qed.

(** What happens between two heartbeats: anything that leaves the nodes of the
    view and the schedule, whatever it makes of the nodes. *)
Definition undisturbed (s s' : SWIM) : Prop :=
  server_wf s' ∧ node_uuid <$> live s' = node_uuid <$> live s ∧ sw_probe s' = sw_probe s.

(** Heartbeats that are due, each with the worlds before and after it. *)
Inductive rhythm : World → list (World * World) → Prop :=
| rhythm_end w : rhythm w []
| rhythm_beat w w1 w2 l :
    heartbeat_due (w_swim w) (env_time (w_times w)) →
    swim_cluster_heartbeat w = (Ok tt, w1) →
    undisturbed (w_swim w1) (w_swim w2) → rhythm w2 l → rhythm w ((w, w1) :: l).

Lemma undisturbed_size s s' :
  server_wf s → undisturbed s s' → sw_view_size s' = sw_view_size s.
Proof.
  intros Hs (Hs' & Hu & _).
  rewrite <-(length_live _ (sv_wf _ Hs)), <-(length_live _ (sv_wf _ Hs')).
  rewrite <-(length_fmap node_uuid (live s')), Hu. by rewrite length_fmap.
Qed.

Lemma same_uuid_lookup (l l' : list NodeState) i n :
  node_uuid <$> l' = node_uuid <$> l → l !! i = Some n →
  ∃ n', l' !! i = Some n' ∧ node_uuid n' = node_uuid n.
Proof.
  intros Hu Hi. assert ((node_uuid <$> l') !! i = Some (node_uuid n)) as Hl
    by (rewrite Hu, list_lookup_fmap, Hi; done).
  rewrite list_lookup_fmap in Hl. by apply fmap_Some in Hl as (n' & ? & ->); eauto.
Qed.

Definition beat (w : World) : World := (swim_cluster_heartbeat w).2.

(** Heartbeats without any event in between. *)
Lemma rhythm_alone w l :
  server_wf (w_swim w) → heartbeat_due (w_swim w) (env_time (w_times w)) →
  (server_wf (w_swim (beat w)) → rhythm (beat w) l) → rhythm w ((w, beat w) :: l).
Proof.
  unfold beat.
  intros Hs Hdue Hl. destruct (heartbeat_run w alloc_ok Hs) as (w1 & Hrun & Hcase).
  rewrite decide_True in Hcase by done. destruct Hcase as (Hs1 & _).
  rewrite Hrun in Hl |- *. by apply rhythm_beat with w1; [| | |apply Hl].
Qed.

(** A node has to wait for as many heartbeats as it has to wait for probes. *)
Lemma rhythm_reaches w l i n :
  server_wf (w_swim w) → rhythm w l → live (w_swim w) !! i = Some n →
  (wait (w_swim w) i ≤ length l)%nat →
  ∃ w0 w1 m, (w0, w1) ∈ l ∧ live (w_swim w0) !! i = Some m ∧ node_uuid m = node_uuid n ∧
    (node_status m = SWIM_STATUS_DEAD ∨ pinged m w0 w1).
Proof.
  intros Hs Hl. revert n Hs. induction Hl as [|w w1 w2 l Hdue Hrun Hund Hl IH]; intros n Hs Hi Hw.
  { pose proof (wait_pos (w_swim w) i). apply live_lookup_Some in Hi as []. simpl in Hw. lia. }
  destruct (decide (node_status n = SWIM_STATUS_DEAD)) as [Hd|Hd].
  { exists w, w1, n. split; [left|]. auto. }
  destruct (heartbeat_wait w w1 i n Hs Hdue Hi Hd Hrun) as [Hp|Hless].
  { exists w, w1, n. split; [left|]. auto. }
  destruct (heartbeat_run w alloc_ok Hs) as (w1' & Hrun' & Hcase).
  rewrite Hrun in Hrun'. injection Hrun' as <-. rewrite decide_True in Hcase by done.
  destruct Hcase as (Hs1 & _ & _ & _ & Hl1 & _).
  pose proof (undisturbed_size _ _ Hs1 Hund) as Hsz2. destruct Hund as (Hs2 & Hu2 & Hp2).
  destruct (same_uuid_lookup (live (w_swim w)) (live (w_swim w2)) i n) as (n2 & Hi2 & Hn2); [|done|].
  { rewrite Hu2, Hl1, <-list_fmap_compose. apply list_fmap_ext. intros ? ? _. apply aged_uuid. }
  pose proof (wait_same _ _ i Hp2 Hsz2) as Hwait2. simpl in Hw.
  destruct (IH n2 Hs2 Hi2) as (w3 & w4 & m & Hin & Hm & Hmu & Hor); [lia|].
  exists w3, w4, m. split; [by right|]. split; [done|]. split; [congruence|done].
Qed.

End Heartbeats.

(** ** Theorem *)

Section Theorems.
Context {U : UuidLib} {UL : UuidLaws U} {H : Host} {E : Env}.

(** C18: The probe bound of the SWIM paper, for the heartbeats of a running
    server.  Among 2N - 1 successive heartbeats that are due, N being the size
    of the view, there is one that sends a given node a PING, or before which
    the node is dead - wherever the round stands and however the next ones are
    shuffled, and whatever the heartbeats make of the ages of the nodes.  In
    between, events may change the nodes in any way, as long as they neither
    add a node nor start the schedule anew.  Memory is available. *)
Theorem swim_heartbeat_gap (w : World) (l : list (World * World)) (i : nat) (n : NodeState) :
  (∀ k, env_alloc k = true) → server_wf (w_swim w) → rhythm w l →
  live (w_swim w) !! i = Some n → (2 * sw_view_size (w_swim w) - 1 ≤ length l)%nat →
  ∃ w0 w1 m, (w0, w1) ∈ l ∧ live (w_swim w0) !! i = Some m ∧ node_uuid m = node_uuid n ∧
    (node_status m = SWIM_STATUS_DEAD ∨ pinged m w0 w1).
Proof.
  intros Ha Hs Hl Hi Hlen. eapply rhythm_reaches; [done..|].
  etransitivity; [apply wait_bound|exact Hlen]; [apply Hs|].
  by apply live_lookup_Some in Hi as [].
Qed.

End Theorems.

(** ** Witness *)

#[local] Existing Instance lexicographic.
#[local] Instance sample_host : Host := LittleEndian.
#[local] Existing Instance ticking_env.

(** Two nodes that have just been seen. *)
Definition pair_world : World :=
  sample_world (sample_swim [sample_node 10 SWIM_STATUS_ALIVE 1766383890 1;
                             sample_node 30 SWIM_STATUS_ALIVE 1766383890 4]).

Lemma pair_server_wf : server_wf (w_swim pair_world).
Proof.
  split; [apply sample_swim_wf, nodes_wfb_sound; vm_compute; reflexivity| |vm_compute; split; congruence].
  unfold infos_wf, pair_world. simpl. rewrite live_sample, !Forall_cons.
  split_and!; [..|constructor]; repeat split; vm_compute; congruence.
Qed.

Lemma swim_heartbeat_gap_witness :
  let l := [(pair_world, beat pair_world); (beat pair_world, beat (beat pair_world));
            (beat (beat pair_world), beat (beat (beat pair_world)))] in
  length (w_out (beat (beat (beat pair_world)))) = 3%nat ∧
  ∃ w0 w1 m, (w0, w1) ∈ l ∧ live (w_swim w0) !! 1%nat = Some m ∧ node_uuid m = sample_uuid 30 ∧
    (node_status m = SWIM_STATUS_DEAD ∨ pinged m w0 w1).
Proof.
  split; [vm_compute; reflexivity|].
  apply (swim_heartbeat_gap pair_world _ 1 (sample_node 30 SWIM_STATUS_ALIVE 1766383890 4)).
  - done.
  - apply pair_server_wf.
  - apply rhythm_alone; [done|apply pair_server_wf|apply (bool_decide_unpack _); vm_compute; exact I|intros H1].
    apply rhythm_alone; [done|exact H1|apply (bool_decide_unpack _); vm_compute; exact I|intros H2].
    apply rhythm_alone; [done|exact H2|apply (bool_decide_unpack _); vm_compute; exact I|intros H3].
    apply rhythm_end.
  - reflexivity.
  - vm_compute. lia.
Defined.
