(* ===== verification/Process.v ===== *)
(** * Processing events: [swim/process.c]

    What a server does with each kind of event it receives. *)

From Stdlib Require Import Init.Byte ZArith Lia.
From stdpp Require Import base tactics list vector sorting gmap.
From S2P Require Import Prelude Bytes Node Event Encoding EncodingFacts State StateFacts Samples.
From S2P Require Import Membership Probe Network Cluster.

Open Scope Z_scope.

Section Operations.
Context `{UuidLib} `{Host} `{Env}.

(** The body of the loop of [swim_process_gossip]. A status that is no value
    of the enumeration leaves the switch, also for the server itself. *)
Definition process_info (info : NodeInfo) : M unit :=
  lift (assert (known_info info));;
  s ← get_swim;
  if uuid_compare (ni_uuid info) (sw_uuid s) =? 0 then
    match ni_status info with
    | SWIM_STATUS_DEAD => fail (Exited 1)
    | SWIM_STATUS_SUSPECT =>
        modify (λ s, set_sw_incarnation (to_unsigned 4 (sw_incarnation s + 1)) s)
    | SWIM_STATUS_ALIVE | SWIM_STATUS_UNKNOWN => mret tt
    | STATUS_OTHER _ => swim_state_merge info
    end
  else swim_state_merge info.

(** [for (i = 0; i < count; ++i)] over the gossip array *)
Fixpoint process_infos (gossip : list NodeInfo) (count : nat) {struct count} : M unit :=
  match count, gossip with
  | O, _ => mret tt
  | S _, [] => fail OutOfBounds
  | S count, info :: gossip => process_info info;; process_infos gossip count
  end.

Definition swim_process_gossip (gossip : list NodeInfo) (count : Z) : M unit :=
  process_infos gossip (Z.to_nat count).

Definition swim_process_ping (event : Event) (addr : sockaddr_storage) (addrlen : Z) : M unit :=
  s ← get_swim;
  swim_send_ack (sw_uuid s) addr addrlen;;
  swim_process_gossip (ev_gossip event) (ev_gossip_count event).

Definition swim_process_ping_req (event : Event) (addr : sockaddr_storage) (addrlen : Z)
  : M unit :=
  node ← swim_state_suspect (ping_req_uuid event) addr addrlen;
  match node with
  | Some node =>
      n ← node_at node;
      swim_send_ping (ni_addr (ns_info n)) (ni_addrlen (ns_info n));;
      mret tt
  | None => mret tt
  end.

(** The node an ACK is about, which is added if it is not known. *)
Definition ack_node (event : Event) (addr : sockaddr_storage) (addrlen : Z)
  : M (option nat) :=
  s ← get_swim;
  match swim_state_get_node s (ack_uuid event) with
  | Some node => mret (Some node)
  | None =>
      info ← lift (swim_node_init (ack_uuid event) addr addrlen);
      swim_state_add (set_ni_last_seen (eh_time (ev_hdr event)) info)
  end.

(** The switch of [swim_process_ack]. *)
Definition ack_update (event : Event) (node : nat) : M unit :=
  n ← node_at node;
  match node_status n with
  | SWIM_STATUS_SUSPECT =>
      (if swim_node_has_witness n then
         swim_send_ack (ack_uuid event) (wi_addr (ns_witness n)) (wi_addrlen (ns_witness n));;
         set_node node swim_node_reset_witness
       else mret tt);;
      swim_cluster_refuted_dead node
  | SWIM_STATUS_UNKNOWN => swim_cluster_refuted_dead node
  | SWIM_STATUS_DEAD | SWIM_STATUS_ALIVE | STATUS_OTHER _ => mret tt
  end.

Definition swim_process_ack (event : Event) (addr : sockaddr_storage) (addrlen : Z) : M unit :=
  s ← get_swim;
  if uuid_compare (ack_uuid event) (sw_uuid s) =? 0 then mret tt
  else
    p ← ack_node event addr addrlen;
    node ← deref p;
    ack_update event node;;
    swim_process_gossip (ev_gossip event) (ev_gossip_count event).

(** [if (join_addrlen == 0) { join_addrlen = addrlen; memcpy(...); }] *)
Definition fill_join_addr (event : Event) (addr : sockaddr_storage) (addrlen : Z)
  : outcome Event :=
  if ev_join_addrlen event =? 0 then
    a ← memcpy (ev_join_addr event) (vec_to_list addr) addrlen;
    Ok (set_ev_join_addr a addrlen event)
  else Ok event.

Definition swim_process_join (event : Event) (addr : sockaddr_storage) (addrlen : Z) : M unit :=
  s ← get_swim;
  if uuid_compare (sw_uuid s) (join_uuid event) =? 0 then mret tt
  else if bool_decide (swim_state_get_node s (join_uuid event) ≠ None) then mret tt
  else
    event ← lift (fill_join_addr event addr addrlen);
    info ← lift (swim_node_init (join_uuid event) (ev_join_addr event) (ev_join_addrlen event));
    let info := set_ni_last_seen (eh_time (ev_hdr event)) (set_ni_status SWIM_STATUS_ALIVE info) in
    lift (assert (known_info info));;
    swim_state_add info;;
    s ← get_swim;
    for_each (seq 0 (sw_view_size s)) (λ i _, send_to_node event i) tt;;
    s ← get_swim;
    swim_send_ack (sw_uuid s) addr addrlen;;
    mret tt.

Definition swim_process_leave (event : Event) (addr : sockaddr_storage) (addrlen : Z) : M unit :=
  swim_state_del (leave_uuid event);;
  s ← get_swim;
  swim_send_ack (sw_uuid s) addr addrlen;;
  mret tt.

(** [swim_event_processing[type]]: an array of 18 pointers, of which those
    without initializer are null. *)
Definition swim_event_processing (type : EventType)
  : outcome (option (Event → sockaddr_storage → Z → M unit)) :=
  match type with
  | EVENT_TYPE_PING => Ok (Some swim_process_ping)
  | EVENT_TYPE_PING_REQ => Ok (Some swim_process_ping_req)
  | EVENT_TYPE_ACK => Ok (Some swim_process_ack)
  | EVENT_TYPE_JOIN => Ok (Some swim_process_join)
  | EVENT_TYPE_LEAVE => Ok (Some swim_process_leave)
  | EVENT_TYPE_OTHER c => if (0 <=? c) && (c <? 18) then Ok None else Fault OutOfBounds
  end.

Definition swim_process_event (event : Event) (addr : sockaddr_storage) (addrlen : Z) : M unit :=
  callback ← lift (swim_event_processing (eh_type (ev_hdr event)));
  swim_state_notice (eh_uuid (ev_hdr event)) (eh_time (ev_hdr event))
    (eh_incarnation (ev_hdr event));;
  callback ← deref callback;
  callback event addr addrlen.

End Operations.

(** ** Safety

    Whatever the decoder accepts, processing it keeps the invariant of the
    server; the only ways to stop are an assertion and the exit of a server
    that is told it is dead. *)

Definition stops (f : fault) (w : World) : Prop := f = AssertFailed ∨ f = Exited 1.

Section Safety.
Context {U : UuidLib} {UL : UuidLaws U} {H : Host} {E : Env}.
Hypothesis alloc_ok : ∀ k, env_alloc k = true.

(** [m] keeps the invariant. *)
Definition keeps {A} (m : M A) : Prop :=
  ∀ w, server_wf (w_swim w) → wp m (λ _ w', server_wf (w_swim w')) stops w.

Lemma keeps_ret {A} (a : A) : keeps (mret a).
Proof. by intros w Hw. Qed.

Lemma keeps_bind {A B} (m : M A) (k : A → M B) :
  keeps m → (∀ a, keeps (k a)) → keeps (a ← m; k a).
Proof.
  intros Hm Hk w Hw. apply wp_bind. eapply wp_mono; [by apply Hm| |done].
  intros a w' Hw'. by apply Hk.
Qed.

Lemma keeps_get {A} (k : SWIM → M A) :
  (∀ s, server_wf s → keeps (k s)) → keeps (s ← get_swim; k s).
Proof. intros Hk w Hw. by apply (Hk (w_swim w)). Qed.

Lemma keeps_assert b : keeps (lift (assert b)).
Proof. intros w Hw. destruct b; [done|by left]. Qed.

Lemma keeps_sends {A} (m : M A) :
  (∀ w, server_wf (w_swim w) → ∃ r ds w', m w = (Ok r, w') ∧ sends ds w w') → keeps m.
Proof.
  intros Hm w Hw. destruct (Hm w Hw) as (r & ds & w' & Hrun & Hs & _).
  eapply wp_run; [exact Hrun|]. by rewrite Hs.
Qed.

Lemma keeps_announce t u a l : event_type_valid t → keeps (announce t u a l).
Proof.
  intros Ht. apply keeps_sends. intros w Hw. pose proof (announce_run t u a l w Hw Ht) as Hrun.
  rewrite alloc_ok in Hrun. destruct Hrun as (e & w' & ? & ? & _). eauto.
Qed.

Lemma keeps_send_ack u a l : keeps (swim_send_ack u a l).
Proof. rewrite send_ack_announce. by apply keeps_announce. Qed.

Lemma keeps_send_ping a l : keeps (swim_send_ping a l).
Proof.
  intros w Hw. unfold wp. rewrite send_ping_announce. by apply keeps_announce.
Qed.

Lemma notice_node_wf t inc n :
  is_signed 8 t → is_unsigned 4 inc → wf_info (ns_info n) →
  wf_info (ns_info (notice_node t inc n)).
Proof. intros Ht Hi []. unfold notice_node. repeat case_match; by split. Qed.

Lemma merge_node_wf info n :
  wf_info info → wf_info (ns_info n) → wf_info (ns_info (merge_node info n)).
Proof. intros [] []. unfold merge_node. repeat case_match; by split. Qed.

Lemma server_added s info cell s' :
  server_wf s → node_added s info cell s' → wf_info info → server_wf s'.
Proof.
  intros [_ Hinf Hinc] [Hwf' Hlive _ [_ Hi _ _] _ _] Hn. split; [done| |by rewrite Hi].
  unfold infos_wf. rewrite Hlive, qsort_permutation. apply Forall_app. by split; [|constructor].
Qed.

Lemma keeps_notice u t inc :
  is_signed 8 t → is_unsigned 4 inc → keeps (swim_state_notice u t inc).
Proof.
  intros Ht Hi w Hw. unfold wp.
  destruct (notice_run u t inc w (sv_wf _ Hw)) as [[_ ->]|(i & n & Hm & Hl & Hrun)]; [done|].
  destruct (known_info (ns_info n)); [|rewrite Hrun; by left].
  destruct Hrun as (s' & -> & Hup). eapply server_updated; [done|exact Hup|].
  apply notice_node_wf; [done..|]. eapply live_info_wf; [apply Hw|done].
Qed.

Lemma merge_server info w :
  server_wf (w_swim w) → wf_info info →
  ∃ w', swim_state_merge info w = (Ok tt, w') ∧ server_wf (w_swim w').
Proof.
  intros Hw Hi. destruct (merge_run info w (sv_wf _ Hw)) as
    [[_ Hrun]|[Hne [(i & n & s' & Hm & Hl & Hrun & Hup)|(Hm & w' & Hrun & _ & Hadd)]]].
  - by exists w.
  - exists (with_swim s' w). split; [done|]. eapply server_updated; [done..|].
    apply merge_node_wf; [done|]. eapply live_info_wf; [apply Hw|done].
  - exists w'. split; [done|]. destruct Hadd as [(-> & _)|[cell Hadd]]; [done|].
    by eapply server_added.
Qed.

Lemma keeps_merge info : wf_info info → keeps (swim_state_merge info).
Proof. intros Hi w Hw. destruct (merge_server info w Hw Hi) as (w' & Hrun & ?). by eapply wp_run. Qed.

Lemma server_incarnation v s :
  is_unsigned 4 v → server_wf s → server_wf (set_sw_incarnation v s).
Proof. intros Hv [[] ? ?]. by split. Qed.

Lemma keeps_info info : wf_info info → keeps (process_info info).
Proof.
  intros Hi. unfold process_info. apply keeps_bind; [apply keeps_assert|intros _].
  apply keeps_get. intros s Hs. case_match; [|by apply keeps_merge].
  case_match; try apply keeps_ret; try by apply keeps_merge.
  - intros w Hw. apply server_incarnation; [apply is_unsigned_to_unsigned|done].
  - intros w Hw. by right.
Qed.

Lemma keeps_gossip e :
  wf_event e → keeps (swim_process_gossip (ev_gossip e) (ev_gossip_count e)).
Proof.
  intros [_ _ Hc Hg]. unfold swim_process_gossip, ev_entries in *.
  assert (Z.to_nat (ev_gossip_count e) ≤ length (ev_gossip e))%nat as Hlen by lia. revert Hlen Hg.
  generalize (Z.to_nat (ev_gossip_count e)) as k. generalize (ev_gossip e) as l. clear e Hc.
  intros l k. revert l. induction k as [|k IH]; intros l Hk Hl; cbn [process_infos];
    [apply keeps_ret|].
  destruct l as [|i l]; [simpl in Hk; lia|]. simpl in Hl, Hk. apply Forall_cons in Hl as [Hi Hl].
  apply keeps_bind; [by apply keeps_info|]. intros _. apply IH; [lia|done].
Qed.

(** ** Suspicion and its refutation *)

Lemma node_updated_trans s i n1 n2 s1 s2 :
  node_updated s i n1 s1 → node_updated s1 i n2 s2 → node_uuid n2 = node_uuid n1 →
  node_updated s i n2 s2.
Proof.
  intros [_ Hl1 Hm1 Hs1 Hz1] [Hwf Hl2 Hm2 Hs2 Hz2] Hu. split; [done|..].
  - by rewrite Hl2, Hl1, list_insert_insert_eq.
  - by rewrite Hm2, Hm1, Hu, insert_insert_eq.
  - by eapply same_self_trans.
  - congruence.
Qed.

Lemma node_updated_lookup s i n n' s' :
  node_updated s i n' s' → live s !! i = Some n → live s' !! i = Some n'.
Proof.
  intros [_ -> _ _ _] Hi. apply list_lookup_insert_eq. by eapply lookup_lt_Some.
Qed.

(** A node whose suspicion is refuted. *)
Definition refuted (n : NodeState) : NodeState :=
  swim_node_reset_witness (set_node_status SWIM_STATUS_ALIVE n).

Lemma refuted_dead_run i n w :
  server_wf (w_swim w) → live (w_swim w) !! i = Some n →
  ∃ s', swim_cluster_refuted_dead i w = (Ok tt, with_swim s' w) ∧
    node_updated (w_swim w) i (refuted n) s' ∧ server_wf s'.
Proof.
  intros Hw Hi. assert (wf_info (ns_info n)) as Hn by (eapply live_info_wf; [apply Hw|done]).
  destruct (set_node_server i (set_node_status SWIM_STATUS_ALIVE) n w Hw Hi)
    as (s1 & Hrun1 & Hup1 & Hs1); [done|by apply set_status_wf|].
  pose proof (node_updated_lookup _ _ _ _ _ Hup1 Hi) as Hi1.
  destruct (set_node_server i swim_node_reset_witness (set_node_status SWIM_STATUS_ALIVE n)
    (with_swim s1 w) Hs1 Hi1) as (s2 & Hrun2 & Hup2 & Hs2); [done|by apply set_status_wf|].
  exists s2. unfold swim_cluster_refuted_dead. rewrite (bind_run _ _ _ _ _ Hrun1), Hrun2.
  split; [done|]. split; [|done]. by eapply node_updated_trans.
Qed.

(** What an ACK makes of the node it is taken to be about. *)
Definition acked (n : NodeState) : NodeState :=
  match node_status n with
  | SWIM_STATUS_SUSPECT | SWIM_STATUS_UNKNOWN => refuted n
  | _ => n
  end.

(** The ACK is passed on. *)
Definition relays (n : NodeState) : bool :=
  bool_decide (node_status n = SWIM_STATUS_SUSPECT) && swim_node_has_witness n.

Lemma ack_update_run e i n w :
  server_wf (w_swim w) → live (w_swim w) !! i = Some n →
  ∃ ds w', ack_update e i w = (Ok tt, w') ∧ w_out w' = w_out w ++ ds ∧
    node_updated (w_swim w) i (acked n) (w_swim w') ∧ server_wf (w_swim w') ∧
    if relays n then
      ∃ d, ds = [d] ∧ dg_addr d = wi_addr (ns_witness n) ∧
        dg_addrlen d = wi_addrlen (ns_witness n) ∧
        carries (w_swim w) EVENT_TYPE_ACK (ack_uuid e) d
    else ds = [].
Proof.
  intros Hw Hi. unfold ack_update, acked, relays.
  rewrite (bind_run _ _ _ _ _ (node_at_live _ _ _ Hi)).
  assert (node_updated (w_swim w) i n (w_swim w)) as Hid.
  { pose proof (node_updated_intro (w_swim w) i n n (sv_wf _ Hw) Hi eq_refl) as Hup.
    rewrite list_insert_id in Hup by (by apply live_lookup_Some in Hi as []).
    by destruct (w_swim w). }
  destruct (refuted_dead_run i n w Hw Hi) as (s' & Hrun & Hup & Hs').
  destruct (node_status n) eqn:Est;
    try (rewrite bool_decide_eq_false_2 by done; cbn [andb];
         solve [exists [], (with_swim s' w); rewrite app_nil_r; by split_and!
               |exists [], w; rewrite app_nil_r; by split_and!]).
  rewrite bool_decide_eq_true_2 by done. cbn [andb].
  destruct (swim_node_has_witness n) eqn:Ew.
  2:{ rewrite (bind_run (mret tt) _ w tt w), Hrun by done.
      exists [], (with_swim s' w). rewrite app_nil_r. by split_and!. }
  pose proof (announce_run EVENT_TYPE_ACK (ack_uuid e) (wi_addr (ns_witness n))
    (wi_addrlen (ns_witness n)) w Hw ltac:(done)) as Hsend. rewrite alloc_ok in Hsend.
  destruct Hsend as (ev & w1 & Hsend & [Hw1 Ho1] & Han). rewrite <-send_ack_announce in Hsend.
  clear s' Hrun Hup Hs'. rewrite <-Hw1 in Hw, Hi, Hid |- *.
  destruct (set_node_server i swim_node_reset_witness n w1 Hw Hi) as (s1 & Hrun1 & Hup1 & Hs1);
    [done|exact (live_info_wf _ _ _ (sv_infos _ Hw) Hi)|].
  pose proof (node_updated_lookup _ _ _ _ _ Hup1 Hi) as Hi1.
  destruct (refuted_dead_run i _ (with_swim s1 w1) Hs1 Hi1) as (s2 & Hrun2 & Hup2 & Hs2).
  eexists [_], (with_swim s2 w1). split_and!; [|exact Ho1| |done|].
  - unfold mbind at 1, M_bind at 1. by rewrite (bind_run _ _ _ _ _ Hsend), Hrun1, Hrun2.
  - eapply node_updated_trans; [exact Hup1|exact Hup2|done].
  - eexists. split_and!; [done..|]. rewrite Hw1. by eexists _, ev.
Qed.

(** ** New nodes *)

(** The entry of a node that is heard of for the first time. *)
Definition fresh_info (u : uuid_t) (addr : sockaddr_storage) (addrlen t : Z) (st : Status)
  : NodeInfo :=
  {| ni_uuid := u; ni_last_seen := t; ni_incarnation := 0; ni_status := st;
     ni_addr := received_addr (zeros 128) addr addrlen; ni_addrlen := addrlen |}.

Lemma fresh_info_wf u addr addrlen t st :
  wf_sockaddr addrlen → is_signed 8 t → wf_status st → wf_info (fresh_info u addr addrlen t st).
Proof. by split. Qed.

Lemma node_init_ok u addr addrlen :
  wf_sockaddr addrlen →
  swim_node_init u addr addrlen = Ok (fresh_info u addr addrlen 0 SWIM_STATUS_UNKNOWN).
Proof.
  intros Hl. unfold swim_node_init.
  by rewrite memcpy_ok by (rewrite ?length_array; unfold wf_sockaddr in *; lia).
Qed.

Lemma live_added s info cell s' :
  node_added s info cell s' → ∃ n, live s' !! sw_view_size s = Some n.
Proof.
  intros Hadd. destruct (live_index s' (sw_view_size s)) as (n & Hn & _); [apply Hadd| |eauto].
  rewrite (na_size _ _ _ _ Hadd). lia.
Qed.

Lemma add_server info w :
  server_wf (w_swim w) → wf_info info → ni_uuid info ≠ sw_uuid (w_swim w) →
  view_map (w_swim w) !! ni_uuid info = None →
  ∃ cell w', swim_state_add info w = (Ok (Some (sw_view_size (w_swim w))), w') ∧
    w_out w' = w_out w ∧ node_added (w_swim w) info cell (w_swim w') ∧ server_wf (w_swim w').
Proof.
  intros Hw Hi Hne Hnew. destruct (add_run info w (sv_wf _ Hw) Hne Hnew)
    as [(w' & _ & _ & _ & Ha & _)|(cell & w' & ? & ? & ? & _)]; [by rewrite alloc_ok in Ha|].
  exists cell, w'. split_and!; try done. by eapply server_added.
Qed.

Lemma ack_node_run e addr addrlen w :
  server_wf (w_swim w) → wf_sockaddr addrlen → is_signed 8 (eh_time (ev_hdr e)) →
  ack_uuid e ≠ sw_uuid (w_swim w) →
  (∃ i n, view_map (w_swim w) !! ack_uuid e = Some n ∧ live (w_swim w) !! i = Some n ∧
     ack_node e addr addrlen w = (Ok (Some i), w)) ∨
  (view_map (w_swim w) !! ack_uuid e = None ∧ ∃ cell w',
     ack_node e addr addrlen w = (Ok (Some (sw_view_size (w_swim w))), w') ∧
     w_out w' = w_out w ∧ server_wf (w_swim w') ∧
     node_added (w_swim w) (fresh_info (ack_uuid e) addr addrlen (eh_time (ev_hdr e))
       SWIM_STATUS_UNKNOWN) cell (w_swim w')).
Proof.
  intros Hw Hl Ht Hne. unfold ack_node. rewrite (bind_run get_swim _ w (w_swim w) w) by done.
  destruct (get_node_cases (w_swim w) (ack_uuid e) (sv_wf _ Hw))
    as [[-> Hm]|(i & n & -> & Hi & _ & _ & Hm)]; [right|left; eauto 10].
  split; [done|]. rewrite node_init_ok by done.
  rewrite (bind_run (lift (Ok _)) _ w _ w eq_refl).
  change (set_ni_last_seen _ _) with
    (fresh_info (ack_uuid e) addr addrlen (eh_time (ev_hdr e)) SWIM_STATUS_UNKNOWN).
  destruct (add_server (fresh_info (ack_uuid e) addr addrlen (eh_time (ev_hdr e))
    SWIM_STATUS_UNKNOWN) w Hw) as (cell & w' & ? & ? & ? & ?); [by apply fresh_info_wf|done..|].
  by exists cell, w'.
Qed.

Lemma keeps_ack e addr addrlen :
  wf_event e → is_signed 8 (eh_time (ev_hdr e)) → wf_sockaddr addrlen →
  keeps (swim_process_ack e addr addrlen).
Proof.
  intros He Ht Hl w Hw. eapply wp_step; [done|].
  destruct (decide (ack_uuid e = sw_uuid (w_swim w))) as [->|Hne];
    [rewrite uuid_compare_same; done|rewrite uuid_compare_neq by done].
  assert (∃ i n w1, ack_node e addr addrlen w = (Ok (Some i), w1) ∧ server_wf (w_swim w1) ∧
    live (w_swim w1) !! i = Some n) as (i & n & w1 & Hrun & Hw1 & Hi).
  { destruct (ack_node_run e addr addrlen w Hw Hl Ht Hne)
      as [(i & n & _ & ? & ?)|(_ & cell & w1 & ? & _ & ? & Hadd)]; [by exists i, n, w|].
    destruct (live_added _ _ _ _ Hadd) as [n ?]. by eexists _, n, w1. }
  eapply wp_step; [exact Hrun|]. eapply wp_step; [done|].
  destruct (ack_update_run e i n w1 Hw1 Hi) as (ds & w2 & Hrun2 & _ & _ & Hw2 & _).
  eapply wp_step; [exact Hrun2|]. by apply keeps_gossip.
Qed.

Lemma keeps_ping_req e addr addrlen :
  wf_sockaddr addrlen → keeps (swim_process_ping_req e addr addrlen).
Proof.
  intros Hl w Hw. destruct (suspect_run (ping_req_uuid e) addr addrlen w (sv_wf _ Hw) Hl)
    as [[_ Hrun]|(i & n & s' & _ & Hi & Hrun & Hup)]; (eapply wp_step; [exact Hrun|]); [done|].
  eapply wp_step; [apply node_at_live; by eapply node_updated_lookup|].
  apply (keeps_bind _ _ (keeps_send_ping _ _)); [intros ?; apply keeps_ret|].
  eapply server_updated; [done|exact Hup|]. apply set_status_wf; [done|].
  eapply live_info_wf; [apply Hw|done].
Qed.

Lemma del_server u w :
  server_wf (w_swim w) →
  ∃ r s', swim_state_del u w = (Ok r, with_swim s' w) ∧ server_wf s'.
Proof.
  intros Hw. destruct (del_run u w (sv_wf _ Hw))
    as [[_ Hrun]|[(_ & _ & Hrun)|(i & n & s' & _ & _ & Hi & Hrun & _ & Hup)]].
  1,2: exists None, (w_swim w); by rewrite with_swim_id.
  eexists _, s'. split; [done|]. eapply server_updated; [done|exact Hup|].
  apply set_status_wf; [done|]. eapply live_info_wf; [apply Hw|done].
Qed.

Lemma keeps_leave e addr addrlen : keeps (swim_process_leave e addr addrlen).
Proof.
  intros w Hw. destruct (del_server (leave_uuid e) w Hw) as (r & s' & Hrun & Hs').
  eapply wp_step; [exact Hrun|]. eapply wp_step; [done|].
  by apply (keeps_bind _ _ (keeps_send_ack _ _ _)); [intros ?; apply keeps_ret|].
Qed.

(** The JOIN as it is passed on, with the address filled in. *)
Definition completed_join (e : Event) (addr : sockaddr_storage) (addrlen : Z) : Event :=
  if ev_join_addrlen e =? 0
  then set_ev_join_addr (received_addr (ev_join_addr e) addr addrlen) addrlen e else e.

Definition joined_info (e : Event) (addr : sockaddr_storage) (addrlen : Z) : NodeInfo :=
  let e := completed_join e addr addrlen in
  fresh_info (join_uuid e) (ev_join_addr e) (ev_join_addrlen e) (eh_time (ev_hdr e))
    SWIM_STATUS_ALIVE.

Lemma fill_join_addr_ok e addr addrlen :
  wf_sockaddr addrlen → fill_join_addr e addr addrlen = Ok (completed_join e addr addrlen).
Proof.
  intros Hl. unfold fill_join_addr, completed_join. case_match; [|done].
  by rewrite memcpy_ok by (rewrite ?length_array; unfold wf_sockaddr in *; lia).
Qed.

Lemma completed_join_wf e addr addrlen :
  wf_event e → eh_type (ev_hdr e) = EVENT_TYPE_JOIN → wf_sockaddr addrlen →
  wf_event (completed_join e addr addrlen) ∧
  wf_sockaddr (ev_join_addrlen (completed_join e addr addrlen)) ∧
  ev_gossip_count (completed_join e addr addrlen) = ev_gossip_count e ∧
  join_uuid (completed_join e addr addrlen) = join_uuid e ∧
  ev_hdr (completed_join e addr addrlen) = ev_hdr e.
Proof.
  intros He Ht Hl. unfold completed_join. case_match; [|by split_and!; [|apply He|..]].
  destruct He as [? _ ? ?]. by split_and!.
Qed.

(** A JOIN of a new node: it is added, every node of the view is told, and the
    sender gets an ACK. *)
Lemma join_run e addr addrlen w :
  server_wf (w_swim w) → wf_event e → eh_type (ev_hdr e) = EVENT_TYPE_JOIN →
  ev_gossip_count e ≤ 11 → wf_sockaddr addrlen → is_signed 8 (eh_time (ev_hdr e)) →
  0 < eh_time (ev_hdr e) → join_uuid e ≠ sw_uuid (w_swim w) →
  view_map (w_swim w) !! join_uuid e = None →
  ∃ cell s' ds d w', swim_process_join e addr addrlen w = (Ok tt, w') ∧ w_swim w' = s' ∧
    server_wf s' ∧ node_added (w_swim w) (joined_info e addr addrlen) cell s' ∧
    w_out w' = w_out w ++ ds ++ [d] ∧
    Forall2 (λ n d, addressed d n ∧ dg_bytes d = event_bytes (completed_join e addr addrlen))
      (live s') ds ∧
    dg_addr d = addr ∧ dg_addrlen d = addrlen ∧ carries s' EVENT_TYPE_ACK (sw_uuid s') d.
Proof.
  intros Hw He Htype Hc Hl Ht Hpos Hne Hnew.
  destruct (completed_join_wf e addr addrlen He Htype Hl) as (He' & Hl' & Hc' & Hu' & Hh').
  unfold swim_process_join. rewrite (bind_run get_swim _ w (w_swim w) w) by done.
  rewrite uuid_compare_neq by done.
  destruct (get_node_cases (w_swim w) (join_uuid e) (sv_wf _ Hw)) as [[-> _]|(?&?&_&_&_&_&?)];
    [|congruence].
  rewrite bool_decide_eq_false_2 by (intros Hno; by apply Hno).
  rewrite fill_join_addr_ok by done. rewrite (bind_run (lift (Ok _)) _ w _ w eq_refl).
  rewrite node_init_ok by done. rewrite (bind_run (lift (Ok _)) _ w _ w eq_refl).
  change (set_ni_last_seen _ _) with (joined_info e addr addrlen).
  assert (known_info (joined_info e addr addrlen) = true) as ->.
  { unfold known_info. simpl. rewrite Hh', (proj2 (Z.ltb_lt _ _)) by done. done. }
  rewrite (bind_run (lift (assert true)) _ w tt w) by done.
  destruct (add_server (joined_info e addr addrlen) w Hw) as (cell & w1 & Hrun & Ho & Hadd & Hw1).
  { apply fresh_info_wf; [done|by rewrite Hh'|done]. }
  { simpl. by rewrite Hu'. }
  { simpl. by rewrite Hu'. }
  rewrite (bind_run _ _ _ _ _ Hrun), (bind_run get_swim _ w1 (w_swim w1) w1) by done.
  destruct (send_loop_run (completed_join e addr addrlen) id
    (λ i _, send_to_node (completed_join e addr addrlen) i) (seq 0 (sw_view_size (w_swim w1))) w1)
    as (ds & w2 & Hloop & [Hw2 Ho2] & Hds); [done|lia|apply Hw1|done| |].
  { apply Forall_forall. intros i Hi%elem_of_seq. unfold id. lia. }
  rewrite (bind_run _ _ _ _ _ Hloop), (bind_run get_swim _ w2 (w_swim w2) w2) by done.
  rewrite Hw2. rewrite <-Hw2 in Hw1.
  pose proof (announce_run EVENT_TYPE_ACK (sw_uuid (w_swim w1)) addr addrlen w2 Hw1 ltac:(done))
    as Hsend. rewrite alloc_ok in Hsend.
  destruct Hsend as (ev & w3 & Hsend & [Hw3 Ho3] & Han). rewrite <-send_ack_announce in Hsend.
  rewrite (bind_run _ _ _ _ _ Hsend). rewrite Hw2 in Hw1, Hw3, Han.
  eexists cell, (w_swim w1), ds, _, w3. split; [done|]. split; [done|]. split; [done|].
  split; [done|]. split; [by rewrite Ho3, Ho2, Ho, (assoc_L (++))|].
  split; [|split; [|split]]; try done; [|by eexists _, ev].
  apply Forall2_same_length_lookup_2.
  - rewrite length_live by apply Hw1.
    by rewrite <-(Forall2_length _ _ _ Hds), length_seq.
  - intros i n d Hn Hd. destruct (Forall2_lookup_r _ _ _ _ _ Hds Hd) as (j & Hj & m & Hm & ? & ?).
    apply lookup_seq in Hj as [-> _]. unfold id in Hm. simpl in Hm. by simplify_eq.
Qed.

Lemma join_assert e addr addrlen w :
  server_wf (w_swim w) → wf_event e → eh_type (ev_hdr e) = EVENT_TYPE_JOIN →
  wf_sockaddr addrlen → eh_time (ev_hdr e) ≤ 0 → join_uuid e ≠ sw_uuid (w_swim w) →
  view_map (w_swim w) !! join_uuid e = None →
  swim_process_join e addr addrlen w = (Fault AssertFailed, w).
Proof.
  intros Hw He Htype Hl Hpos Hne Hnew.
  destruct (completed_join_wf e addr addrlen He Htype Hl) as (He' & Hl' & Hc' & Hu' & Hh').
  unfold swim_process_join. rewrite (bind_run get_swim _ w (w_swim w) w) by done.
  rewrite uuid_compare_neq by done.
  destruct (get_node_cases (w_swim w) (join_uuid e) (sv_wf _ Hw)) as [[-> _]|(?&?&_&_&_&_&?)];
    [|congruence].
  rewrite bool_decide_eq_false_2 by (intros Hno; by apply Hno).
  rewrite fill_join_addr_ok by done. rewrite (bind_run (lift (Ok _)) _ w _ w eq_refl).
  rewrite node_init_ok by done. rewrite (bind_run (lift (Ok _)) _ w _ w eq_refl).
  change (set_ni_last_seen _ _) with (joined_info e addr addrlen).
  assert (known_info (joined_info e addr addrlen) = false) as ->; [|done].
  unfold known_info. simpl. by rewrite Hh', (proj2 (Z.ltb_ge _ _)) by done.
Qed.

(** A JOIN of the server itself, or of a node it knows, is ignored. *)
Lemma join_ignored e addr addrlen w :
  server_wf (w_swim w) →
  join_uuid e = sw_uuid (w_swim w) ∨ (∃ n, view_map (w_swim w) !! join_uuid e = Some n) →
  swim_process_join e addr addrlen w = (Ok tt, w).
Proof.
  intros Hw Hor. unfold swim_process_join. rewrite (bind_run get_swim _ w (w_swim w) w) by done.
  destruct (decide (sw_uuid (w_swim w) = join_uuid e)) as [->|Hne];
    [by rewrite uuid_compare_same|rewrite uuid_compare_neq by done].
  destruct Hor as [Heq|[n Hn]]; [congruence|].
  destruct (get_node_cases (w_swim w) (join_uuid e) (sv_wf _ Hw)) as [[_ ?]|(i&?&->&_)];
    [congruence|]. by rewrite bool_decide_eq_true_2.
Qed.

Lemma keeps_join e addr addrlen :
  wf_event e → eh_type (ev_hdr e) = EVENT_TYPE_JOIN → ev_gossip_count e ≤ 11 →
  is_signed 8 (eh_time (ev_hdr e)) → wf_sockaddr addrlen → keeps (swim_process_join e addr addrlen).
Proof.
  intros He Htype Hc Ht Hl w Hw. unfold wp.
  destruct (decide (join_uuid e = sw_uuid (w_swim w))) as [Hu|Hne];
    [by rewrite join_ignored by auto|].
  destruct (view_map (w_swim w) !! join_uuid e) as [n|] eqn:Hm;
    [by rewrite join_ignored by eauto|].
  destruct (decide (0 < eh_time (ev_hdr e))).
  - by destruct (join_run e addr addrlen w) as (cell & s' & ds & d & w' & -> & -> & ? & _).
  - rewrite join_assert by (done || lia). by left.
Qed.

Lemma keeps_event e addr addrlen :
  wf_event e → ev_gossip_count e ≤ 11 → is_signed 8 (eh_time (ev_hdr e)) →
  wf_sockaddr addrlen → keeps (swim_process_event e addr addrlen).
Proof.
  intros He Hc Ht Hl. unfold swim_process_event.
  assert (keeps (swim_state_notice (eh_uuid (ev_hdr e)) (eh_time (ev_hdr e))
    (eh_incarnation (ev_hdr e)))) as Hnotice by (apply keeps_notice; [done|apply He]).
  pose proof (wf_header_type _ (wf_event_header _ He)) as Hv.
  destruct (eh_type (ev_hdr e)) eqn:Etype; [| | | | |done];
    cbn [swim_event_processing]; intros w Hw;
    (eapply wp_step; [done|]); revert w Hw;
    apply (keeps_bind _ _ Hnotice); intros ?.
  - intros w Hw. eapply wp_step; [done|]. eapply wp_step; [done|].
    apply (keeps_bind _ _ (keeps_send_ack _ _ _)); [intros ?|done]. by apply keeps_gossip.
  - by apply keeps_ack.
  - by apply keeps_ping_req.
  - by apply keeps_join.
  - by apply keeps_leave.
Qed.

End Safety.

(** ** The specification of gossip

    What a server knows is its own incarnation and its beliefs about the other
    nodes.  Gossip about others is learned; gossip that suspects the server
    itself is answered by a new incarnation, and gossip that declares it dead
    ends it. *)

Inductive detector : Type :=
| Running (incarnation : Z) (m : gmap uuid_t belief)
| Terminated.

Definition knowledge (s : SWIM) : detector := Running (sw_incarnation s) (beliefs s).

Definition hear (self : uuid_t) (d : detector) (info : NodeInfo) : detector :=
  match d with
  | Terminated => Terminated
  | Running inc m =>
      if decide (ni_uuid info = self) then
        match ni_status info with
        | SWIM_STATUS_DEAD => Terminated
        | SWIM_STATUS_SUSPECT => Running (to_unsigned 4 (inc + 1)) m
        | _ => Running inc m
        end
      else Running inc (learn m (ni_uuid info) (info_belief info))
  end.

Definition hear_all (self : uuid_t) (d : detector) (g : list NodeInfo) : detector :=
  foldl (hear self) d g.

Lemma hear_comm self d i j : hear self (hear self d i) j = hear self (hear self d j) i.
Proof.
  destruct d as [inc m|]; [|done]. unfold hear.
  destruct (decide (ni_uuid i = self)), (decide (ni_uuid j = self)).
  - destruct (ni_status i), (ni_status j); done.
  - destruct (ni_status i); done.
  - destruct (ni_status j); done.
  - by rewrite learn_comm.
Qed.

(** The order in which gossip arrives is irrelevant. *)
Lemma hear_all_permutation self d g g' : g ≡ₚ g' → hear_all self d g = hear_all self d g'.
Proof.
  intros Hp. revert d. induction Hp as [|i g g' _ IH|i j g|g1 g2 g3 _ IH1 _ IH2]; intros d; simpl.
  - done.
  - apply IH.
  - by rewrite hear_comm.
  - by rewrite IH1.
Qed.

(** Gossip heard again adds nothing. *)
Lemma learn_absorb m u a : learn (learn m u a) u a = learn m u a.
Proof.
  unfold learn. rewrite lookup_insert_eq, insert_insert_eq. f_equal.
  destruct (m !! u); [|apply (idemp_L belief_join)].
  by rewrite <-(assoc_L belief_join), (idemp_L belief_join).
Qed.

Lemma hear_absorb self d i :
  ni_uuid i ≠ self → hear self (hear self d i) i = hear self d i.
Proof.
  intros Hi. destruct d as [inc m|]; [|done]. unfold hear. rewrite !decide_False by done.
  by rewrite learn_absorb.
Qed.

Lemma hear_all_comm self d i g : hear_all self (hear self d i) g = hear self (hear_all self d g) i.
Proof.
  revert d. induction g as [|j g IH]; intros d; [done|]. simpl. by rewrite <-IH, hear_comm.
Qed.

Lemma hear_all_idemp self d g :
  Forall (λ i, ni_uuid i ≠ self) g → hear_all self (hear_all self d g) g = hear_all self d g.
Proof.
  intros Hg. revert d. induction Hg as [|i g Hi Hg IH]; intros d; [done|]. simpl.
  rewrite !hear_all_comm, hear_absorb by done. by rewrite IH.
Qed.

(** ** Honest events

    Events that other servers send: positive times and gossip that satisfies
    the assertion. *)

Record honest (e : Event) : Prop := {
  ho_wf : wf_event e;
  ho_count : ev_gossip_count e ≤ 11;
  ho_signed : is_signed 8 (eh_time (ev_hdr e));
  ho_time : 0 < eh_time (ev_hdr e);
  ho_known : Forall known (ev_entries e)
}.

(** A server all of whose entries satisfy the assertion, too. *)
Record good `{UuidLib} (s : SWIM) : Prop := {
  go_server : server_wf s;
  go_known : all_known s
}.

Section Honest.
Context {U : UuidLib} {UL : UuidLaws U} {H : Host} {E : Env}.
Hypothesis alloc_ok : ∀ k, env_alloc k = true.

Lemma process_info_run info w :
  good (w_swim w) → wf_info info → known info →
  match hear (sw_uuid (w_swim w)) (knowledge (w_swim w)) info with
  | Terminated => process_info info w = (Fault (Exited 1), w)
  | Running inc m =>
      ∃ w', process_info info w = (Ok tt, w') ∧ good (w_swim w') ∧ w_out w' = w_out w ∧
        sw_uuid (w_swim w') = sw_uuid (w_swim w) ∧ knowledge (w_swim w') = Running inc m
  end.
Proof.
  intros [Hs Hk] Hi Hki. unfold process_info. rewrite (proj1 Hki).
  rewrite (bind_run (lift (assert true)) _ w tt w), (bind_run get_swim _ w (w_swim w) w) by done.
  unfold hear, knowledge. destruct (decide (ni_uuid info = sw_uuid (w_swim w))) as [Hu|Hne].
  - rewrite Hu, uuid_compare_same.
    destruct (known_status info Hki) as [->|[->| ->]]; [by exists w| |done].
    eexists. split; [done|]. split_and!; [|done..].
    split; [apply server_incarnation; [apply is_unsigned_to_unsigned|done]|done].
  - rewrite uuid_compare_neq by done.
    destruct (merge_refines info w (sv_wf _ Hs)) as (w' & Hrun & Hwf' & Hsame & Ho & Hr).
    destruct (Hr Hki Hk) as [Hk' Hb]. rewrite decide_False in Hb by done.
    destruct (merge_server info w Hs Hi) as (w1 & Hrun' & Hs'). rewrite Hrun in Hrun'.
    injection Hrun' as <-. exists w'. split_and!; [done|by split|done|apply Hsame|].
    by rewrite Hb, (same_incarnation _ _ Hsame).
Qed.

Lemma hear_all_terminated self g : hear_all self Terminated g = Terminated.
Proof. by induction g. Qed.

Lemma process_infos_run g k w :
  good (w_swim w) → (k ≤ length g)%nat → Forall wf_info (take k g) → Forall known (take k g) →
  match hear_all (sw_uuid (w_swim w)) (knowledge (w_swim w)) (take k g) with
  | Terminated => ∃ w', process_infos g k w = (Fault (Exited 1), w') ∧ w_out w' = w_out w
  | Running inc m =>
      ∃ w', process_infos g k w = (Ok tt, w') ∧ good (w_swim w') ∧ w_out w' = w_out w ∧
        sw_uuid (w_swim w') = sw_uuid (w_swim w) ∧ knowledge (w_swim w') = Running inc m
  end.
Proof.
  revert g w. induction k as [|k IH]; intros g w Hg Hk Hwf Hkn; [by exists w|].
  destruct g as [|i g]; [simpl in Hk; lia|]. simpl in Hk, Hwf, Hkn.
  cbn [take process_infos]. change (hear_all ?u ?d (i :: ?l)) with (hear_all u (hear u d i) l).
  apply Forall_cons in Hwf as [Hi Hwf], Hkn as [Hki Hkn].
  pose proof (process_info_run i w Hg Hi Hki) as Hrun.
  destruct (hear _ _ i) as [inc m|] eqn:Eh.
  - destruct Hrun as (w1 & Hrun & Hg1 & Ho1 & Hu1 & Hb1). rewrite (bind_run _ _ _ _ _ Hrun).
    specialize (IH g w1 Hg1 ltac:(lia) Hwf Hkn). rewrite Hu1, Hb1 in IH.
    destruct (hear_all _ _ _) as [inc' m'|].
    + destruct IH as (w' & ? & ? & ? & ? & ?). exists w'. split_and!; congruence || done.
    + destruct IH as (w' & ? & ?). exists w'. split; congruence.
  - rewrite hear_all_terminated. exists w. unfold mbind, M_bind. by rewrite Hrun.
Qed.

Lemma process_gossip_run e w :
  good (w_swim w) → honest e →
  match hear_all (sw_uuid (w_swim w)) (knowledge (w_swim w)) (ev_entries e) with
  | Terminated => ∃ w', swim_process_gossip (ev_gossip e) (ev_gossip_count e) w
                        = (Fault (Exited 1), w') ∧ w_out w' = w_out w
  | Running inc m =>
      ∃ w', swim_process_gossip (ev_gossip e) (ev_gossip_count e) w = (Ok tt, w') ∧
        good (w_swim w') ∧ w_out w' = w_out w ∧
        sw_uuid (w_swim w') = sw_uuid (w_swim w) ∧ knowledge (w_swim w') = Running inc m
  end.
Proof.
  intros Hg [[_ _ Hc Hwf] _ _ _ Hk]. apply process_infos_run; [done|lia|done|done].
Qed.

Lemma good_updated s i n' s' :
  good s → node_updated s i n' s' → wf_info (ns_info n') → known (ns_info n') → good s'.
Proof.
  intros [? ?] Hup ? ?. split; [by eapply server_updated|by eapply all_known_updated].
Qed.

Lemma good_lookup s i n :
  good s → live s !! i = Some n → wf_info (ns_info n) ∧ known (ns_info n).
Proof.
  intros [Hs Hk] Hi. split; [eapply live_info_wf; [apply Hs|done]|].
  eapply (Hk (node_uuid n)), nodes_map_Some; [eapply nodes_wf_NoDup, wf_nodes, Hs|].
  split; [by eapply list_elem_of_lookup_2|done].
Qed.

(** Changing the status of a node that is known. *)
Lemma set_status_known st n :
  known (ns_info n) → status_valid st → st ≠ SWIM_STATUS_UNKNOWN →
  known (ns_info (set_node_status st n)).
Proof.
  intros [Hk _] Hv Hst. split; [|done]. unfold known_info in *. simpl in *.
  rewrite andb_true_iff, negb_true_iff, bool_decide_eq_false in *. by destruct Hk.
Qed.

Lemma good_status s i n st n' s' :
  good s → live s !! i = Some n → node_updated s i n' s' →
  ns_info n' = ns_info (set_node_status st n) →
  status_valid st → wf_status st → st ≠ SWIM_STATUS_UNKNOWN → good s'.
Proof.
  intros Hg Hi Hup He Hv Hw Hst. destruct (good_lookup _ _ _ Hg Hi) as [? ?].
  eapply good_updated; [done|exact Hup|..]; rewrite He;
    [by apply set_status_wf|by apply set_status_known].
Qed.

Lemma notice_node_known t inc n :
  0 < t → known (ns_info n) → known (ns_info (notice_node t inc n)).
Proof.
  intros Ht [Hk Hv]. unfold notice_node, known, known_info, node_status in *.
  rewrite andb_true_iff, negb_true_iff, bool_decide_eq_false, Z.ltb_lt in Hk.
  repeat case_match; simpl; rewrite ?andb_true_iff, ?negb_true_iff, ?bool_decide_eq_false, ?Z.ltb_lt;
    intuition congruence.
Qed.

(** A node that sends a message with its current incarnation. *)
Lemma notice_node_current t inc n :
  known (ns_info n) → ni_incarnation (ns_info n) ≤ inc →
  (node_status (notice_node t inc n) = SWIM_STATUS_ALIVE ∨
   node_status (notice_node t inc n) = SWIM_STATUS_DEAD) ∧
  (node_status n ≠ SWIM_STATUS_DEAD → node_status (notice_node t inc n) = SWIM_STATUS_ALIVE) ∧
  ns_witness (notice_node t inc n) = ns_witness n.
Proof.
  intros Hk Hinc. unfold notice_node.
  destruct (Z.ltb_spec (ni_incarnation (ns_info n)) inc); [by split_and!; [left|..]|].
  rewrite (proj2 (Z.eqb_eq _ _)) by lia.
  destruct (known_status _ Hk) as [Hst|[Hst|Hst]]; unfold node_status in *; rewrite Hst; simpl;
    rewrite ?Hst; split_and!; auto; done.
Qed.

Lemma notice_run_good e i n s' w :
  good (w_swim w) → honest e → live (w_swim w) !! i = Some n →
  node_updated (w_swim w) i (notice_node (eh_time (ev_hdr e)) (eh_incarnation (ev_hdr e)) n) s' →
  good s'.
Proof.
  intros Hg He Hi Hup. destruct (good_lookup _ _ _ Hg Hi) as [Hn Hk].
  eapply good_updated; [done|exact Hup| |by apply notice_node_known; [apply He|]].
  apply notice_node_wf; [apply He|apply He|done].
Qed.

Lemma uuids_updated s i n n' s' :
  node_updated s i n' s' → live s !! i = Some n → node_uuid n' = node_uuid n →
  uuids s' = uuids s.
Proof. intros Hup Hi Hu. unfold uuids. rewrite (nu_live _ _ _ _ Hup). by eapply uuids_insert. Qed.

(** Noticing the sender of an honest event. *)
Lemma notice_good e w :
  good (w_swim w) → honest e →
  ∃ r s', swim_state_notice (eh_uuid (ev_hdr e)) (eh_time (ev_hdr e))
            (eh_incarnation (ev_hdr e)) w = (Ok r, with_swim s' w) ∧ good s' ∧
    sw_uuid s' = sw_uuid (w_swim w) ∧ uuids s' = uuids (w_swim w).
Proof.
  intros Hg He. pose proof (go_server _ Hg) as Hs.
  destruct (notice_run (eh_uuid (ev_hdr e)) (eh_time (ev_hdr e)) (eh_incarnation (ev_hdr e)) w
    (sv_wf _ Hs)) as [[_ Hrun]|(i & n & Hm & Hi & Hrun)].
  { exists None, (w_swim w). by rewrite with_swim_id. }
  destruct (good_lookup _ _ _ Hg Hi) as [Hn Hk]. rewrite (proj1 Hk) in Hrun.
  destruct Hrun as (s' & Hrun & Hup). exists (Some i), s'. split; [done|].
  split_and!; [|apply Hup|].
  - by eapply notice_run_good.
  - eapply uuids_updated; [done..|]. apply node_uuid_notice.
Qed.

(** The ACK a server sends to the sender of an event. *)
Lemma send_ack_good u addr addrlen w :
  good (w_swim w) →
  ∃ r d w', swim_send_ack u addr addrlen w = (Ok r, w') ∧ sends [d] w w' ∧
    dg_addr d = addr ∧ dg_addrlen d = addrlen ∧ carries (w_swim w) EVENT_TYPE_ACK u d.
Proof.
  intros Hg. pose proof (announce_run EVENT_TYPE_ACK u addr addrlen w (go_server _ Hg)
    ltac:(done)) as Hrun. rewrite alloc_ok in Hrun. destruct Hrun as (e & w' & ? & ? & ?).
  eexists _, _, w'. split_and!; [done..|]. by eexists _, e.
Qed.

(** The event says that the server itself is dead. *)
Definition told_dead (self : uuid_t) (e : Event) : Prop :=
  ∃ i, i ∈ ev_entries e ∧ ni_uuid i = self ∧ ni_status i = SWIM_STATUS_DEAD.

Lemma hear_all_told_dead self inc m g :
  hear_all self (Running inc m) g = Terminated →
  ∃ i, i ∈ g ∧ ni_uuid i = self ∧ ni_status i = SWIM_STATUS_DEAD.
Proof.
  revert inc m. induction g as [|j g IH]; intros inc m; [done|]. simpl.
  case_decide; [destruct (ni_status j) eqn:Ej|]; intros Hr;
    try (apply IH in Hr as (i & ? & ? & ?); exists i; split_and!; [by right|done|done]).
  exists j. split_and!; [by left|done..].
Qed.

Lemma gossip_fares e w :
  good (w_swim w) → honest e →
  wp (swim_process_gossip (ev_gossip e) (ev_gossip_count e)) (λ _ w', good (w_swim w'))
    (λ f _, f = Exited 1 ∧ told_dead (sw_uuid (w_swim w)) e) w.
Proof.
  intros Hg He. pose proof (process_gossip_run e w Hg He) as Hrun. unfold wp.
  destruct (hear_all _ _ _) eqn:Eh.
  - by destruct Hrun as (w' & -> & ? & _).
  - destruct Hrun as (w' & -> & _). split; [done|]. by eapply hear_all_told_dead.
Qed.

(** An ACK about a new node is handled correctly only if the uuid of the node
    is greater than all others. *)
Definition ack_resolved (s : SWIM) (e : Event) : Prop :=
  ack_uuid e = sw_uuid s ∨ ack_uuid e ∈ uuids s ∨ ∀ u, u ∈ uuids s → uuid_lt u (ack_uuid e).

Lemma view_map_None s u : view_map s !! u = None ↔ u ∉ uuids s.
Proof. apply nodes_map_None. Qed.

(** The new node, when it is the one that is then marked alive. *)
Lemma all_known_resolved s info cell s1 n s2 :
  node_added s info cell s1 → all_known s → 0 < ni_last_seen info →
  view_map s !! ni_uuid info = None → live s1 !! sw_view_size s = Some n → ns_info n = info →
  node_updated s1 (sw_view_size s) (refuted n) s2 → all_known s2.
Proof.
  intros Hadd Hk Ht Hnew Hn Hi Hup u m. rewrite (nu_map _ _ _ _ Hup), (na_map _ _ _ _ Hadd).
  change (node_uuid (refuted n)) with (node_uuid n). unfold node_uuid. rewrite Hi, insert_insert_eq.
  intros [[_ <-]|[_ Hm]]%lookup_insert_Some; [|by eapply Hk].
  split; [|done]. unfold known_info. simpl. rewrite Hi.
  by rewrite (proj2 (Z.ltb_lt _ _)) by done.
Qed.

Lemma ack_fares e addr addrlen w :
  good (w_swim w) → honest e → wf_sockaddr addrlen → ack_resolved (w_swim w) e →
  wp (swim_process_ack e addr addrlen) (λ _ w', good (w_swim w'))
    (λ f _, f = Exited 1 ∧ told_dead (sw_uuid (w_swim w)) e) w.
Proof.
  intros Hg He Hl Hres. pose proof (go_server _ Hg) as Hs. eapply wp_step; [done|].
  destruct (decide (ack_uuid e = sw_uuid (w_swim w))) as [->|Hne];
    [rewrite uuid_compare_same; done|rewrite uuid_compare_neq by done].
  assert (∃ i w1 n ds w2, ack_node e addr addrlen w = (Ok (Some i), w1) ∧
    ack_update e i w1 = (Ok tt, w2) ∧ w_out w2 = w_out w ++ ds ∧
    node_updated (w_swim w1) i (acked n) (w_swim w2) ∧ good (w_swim w2) ∧
    sw_uuid (w_swim w2) = sw_uuid (w_swim w))
    as (i & w1 & n & ds & w2 & Hrun & Hrun' & _ & _ & Hg2 & Hu2).
  { destruct (ack_node_run alloc_ok e addr addrlen w Hs Hl (ho_signed _ He) Hne)
      as [(i & n & Hm & Hi & Hrun)|(Hm & cell & w1 & Hrun & Ho & Hs1 & Hadd)].
    - destruct (ack_update_run alloc_ok e i n w Hs Hi) as (ds & w2 & Hrun2 & Ho2 & Hup & Hs2 & _).
      exists i, w, n, ds, w2. split_and!; try done; [|apply Hup].
      destruct (good_lookup _ _ _ Hg Hi) as [Hn Hk]. unfold acked in Hup.
      destruct (node_status n) eqn:Est; try (by eapply good_updated; [exact Hg|exact Hup|..]);
        by eapply (good_status _ i n SWIM_STATUS_ALIVE).
    - destruct Hres as [?|[Hin|Hgt]]; [done|by apply view_map_None in Hm|].
      destruct (added_last _ _ _ _ Hadd Hm) as (n & Hn & _ & [_ Hlast] & _).
      specialize (Hlast Hgt).
      destruct (ack_update_run alloc_ok e _ n w1 Hs1 Hn) as (ds & w2 & Hrun2 & Ho2 & Hup & Hs2 & _).
      eexists _, w1, n, ds, w2. split_and!; [done|done|congruence|done| |].
      + split; [done|]. unfold acked, node_status in Hup. rewrite Hlast in Hup.
        eapply all_known_resolved; [exact Hadd|apply Hg|apply He|done..].
      + destruct Hup as [_ _ _ [-> _ _ _] _], Hadd as [_ _ _ [-> _ _ _] _ _]. done. }
  eapply wp_step; [exact Hrun|]. eapply wp_step; [done|]. eapply wp_step; [exact Hrun'|].
  rewrite <-Hu2. by apply gossip_fares.
Qed.

(** Processing gossip sends nothing. *)
Lemma gossip_silent e w :
  good (w_swim w) → honest e →
  ∃ r w', swim_process_gossip (ev_gossip e) (ev_gossip_count e) w = (r, w') ∧ w_out w' = w_out w.
Proof.
  intros Hg He. pose proof (process_gossip_run e w Hg He) as Hrun.
  destruct (hear_all _ _ _); [destruct Hrun as (w' & ? & _ & ? & _)|destruct Hrun as (w' & ? & ?)];
    eauto.
Qed.

(** An ACK about a known node. *)
Lemma ack_known_run e addr addrlen n w :
  good (w_swim w) → honest e → wf_sockaddr addrlen →
  view_map (w_swim w) !! ack_uuid e = Some n →
  ∃ ds w1, swim_process_ack e addr addrlen w
           = swim_process_gossip (ev_gossip e) (ev_gossip_count e) w1 ∧
    view_map (w_swim w1) = <[ack_uuid e := acked n]> (view_map (w_swim w)) ∧
    w_out w1 = w_out w ++ ds ∧ good (w_swim w1) ∧ same_self (w_swim w) (w_swim w1) ∧
    if relays n then
      ∃ d, ds = [d] ∧ dg_addr d = wi_addr (ns_witness n) ∧
        dg_addrlen d = wi_addrlen (ns_witness n) ∧
        carries (w_swim w) EVENT_TYPE_ACK (ack_uuid e) d
    else ds = [].
Proof.
  intros Hg He Hl Hm. pose proof (go_server _ Hg) as Hs.
  pose proof (view_map_lookup _ _ _ Hm) as [Hin Hu].
  assert (ack_uuid e ≠ sw_uuid (w_swim w)) as Hne.
  { intros Heq. apply (wf_nodes _ (sv_wf _ Hs)). rewrite <-Heq, <-Hu.
    by apply list_elem_of_fmap_2. }
  destruct (ack_node_run alloc_ok e addr addrlen w Hs Hl (ho_signed _ He) Hne)
    as [(i & n0 & Hm0 & Hi & Hrun)|(Hno & _)]; [|congruence].
  assert (n0 = n) as -> by congruence.
  destruct (ack_update_run alloc_ok e i n w Hs Hi) as (ds & w1 & Hrun1 & Ho1 & Hup & Hs1 & Hds).
  assert (node_uuid (acked n) = ack_uuid e) as Hua by (unfold acked; by repeat case_match).
  exists ds, w1. split_and!; [|rewrite <-Hua; apply Hup|done| |apply Hup|done].
  - unfold swim_process_ack. rewrite (bind_run get_swim _ w (w_swim w) w) by done.
    rewrite uuid_compare_neq by done. rewrite (bind_run _ _ _ _ _ Hrun).
    by rewrite (bind_run (deref (Some i)) _ w i w), (bind_run _ _ _ _ _ Hrun1) by done.
  - destruct (good_lookup _ _ _ Hg Hi) as [Hn Hk]. unfold acked in Hup.
    destruct (node_status n) eqn:Est; try (by eapply good_updated; [exact Hg|exact Hup|..]);
      by eapply (good_status _ i n SWIM_STATUS_ALIVE).
Qed.

(** An ACK about a new node whose uuid is the greatest. *)
Lemma ack_new_run (e : Event) (addr : sockaddr_storage) (addrlen : Z) (w : World) :
  good (w_swim w) → honest e → wf_sockaddr addrlen →
  ack_uuid e ≠ sw_uuid (w_swim w) → ack_uuid e ∉ uuids (w_swim w) →
  (∀ u, u ∈ uuids (w_swim w) → uuid_lt u (ack_uuid e)) →
  ∃ n w1, swim_process_ack e addr addrlen w
          = swim_process_gossip (ev_gossip e) (ev_gossip_count e) w1 ∧
    good (w_swim w1) ∧ sw_uuid (w_swim w1) = sw_uuid (w_swim w) ∧
    sw_incarnation (w_swim w1) = sw_incarnation (w_swim w) ∧
    view_map (w_swim w1) = <[ack_uuid e := n]> (view_map (w_swim w)) ∧
    ns_info n = fresh_info (ack_uuid e) addr addrlen (eh_time (ev_hdr e)) SWIM_STATUS_ALIVE ∧
    w_out w1 = w_out w.
Proof.
  intros Hg He Hl Hne Hnew Hgt. pose proof (go_server _ Hg) as Hs.
  apply view_map_None in Hnew.
  destruct (ack_node_run alloc_ok e addr addrlen w Hs Hl (ho_signed _ He) Hne)
    as [(i & n & Hm & _)|(_ & cell & w1 & Hrun & Ho & Hs1 & Hadd)]; [congruence|].
  destruct (added_last _ _ _ _ Hadd Hnew) as (n & Hn & _ & [_ Hlast] & _). specialize (Hlast Hgt).
  destruct (ack_update_run alloc_ok e _ n w1 Hs1 Hn) as (ds & w2 & Hrun2 & Ho2 & Hup & Hs2 & Hds).
  unfold acked, relays, node_status in Hup, Hds. rewrite Hlast in Hup, Hds. simpl in Hds.
  subst ds.
  exists (refuted n), w2. split_and!.
  - unfold swim_process_ack. rewrite (bind_run get_swim _ w (w_swim w) w) by done.
    rewrite uuid_compare_neq by done. rewrite (bind_run _ _ _ _ _ Hrun).
    by rewrite (bind_run (deref (Some _)) _ w1 _ w1 eq_refl), (bind_run _ _ _ _ _ Hrun2).
  - split; [done|]. eapply all_known_resolved; [exact Hadd|apply Hg|apply He|done..].
  - destruct Hup as [_ _ _ [-> _ _ _] _], Hadd as [_ _ _ [-> _ _ _] _ _]. done.
  - destruct Hup as [_ _ _ [_ -> _ _] _], Hadd as [_ _ _ [_ -> _ _] _ _]. done.
  - rewrite (nu_map _ _ _ _ Hup), (na_map _ _ _ _ Hadd).
    change (node_uuid (refuted n)) with (ni_uuid (ns_info n)). rewrite Hlast.
    apply insert_insert_eq.
  - unfold refuted. simpl. by rewrite Hlast.
  - rewrite Ho2, Ho. apply app_nil_r.
Qed.

Lemma ping_fares e addr addrlen w :
  good (w_swim w) → honest e →
  wp (swim_process_ping e addr addrlen) (λ _ w', good (w_swim w'))
    (λ f _, f = Exited 1 ∧ told_dead (sw_uuid (w_swim w)) e) w.
Proof.
  intros Hg He. destruct (send_ack_good (sw_uuid (w_swim w)) addr addrlen w Hg)
    as (? & d & w2 & Hack & [Hw2 _] & _).
  eapply wp_step; [done|]. eapply wp_step; [exact Hack|].
  rewrite <-Hw2. apply gossip_fares; [by rewrite Hw2|done].
Qed.

(** Passing a probe on: the target is suspect, the sender is its witness, and
    it is sent a PING. *)
Lemma ping_req_run e addr addrlen w :
  good (w_swim w) → wf_sockaddr addrlen →
  match view_map (w_swim w) !! ping_req_uuid e with
  | None => swim_process_ping_req e addr addrlen w = (Ok tt, w)
  | Some n =>
      ∃ n' d w', swim_process_ping_req e addr addrlen w = (Ok tt, w') ∧ good (w_swim w') ∧
        view_map (w_swim w') = <[ping_req_uuid e := n']> (view_map (w_swim w)) ∧
        ns_info n' = set_ni_status SWIM_STATUS_SUSPECT (ns_info n) ∧
        wi_addrlen (ns_witness n') = addrlen ∧
        take (Z.to_nat addrlen) (vec_to_list (wi_addr (ns_witness n')))
        = take (Z.to_nat addrlen) (vec_to_list addr) ∧
        w_out w' = w_out w ++ [d] ∧ addressed d n ∧
        carries (w_swim w') EVENT_TYPE_PING (zeros 16) d
  end.
Proof.
  intros Hg Hl. unfold swim_process_ping_req.
  destruct (suspect_run (ping_req_uuid e) addr addrlen w (sv_wf _ (go_server _ Hg)) Hl)
    as [[-> Hrun]|(i & n & s' & Hm & Hi & Hrun & Hup)];
    [by rewrite (bind_run _ _ _ _ _ Hrun)|].
  rewrite Hm, (bind_run _ _ _ _ _ Hrun).
  assert (node_uuid n = ping_req_uuid e) as Hu by by apply view_map_lookup in Hm as [].
  assert (good s') as Hg' by by eapply (good_status _ i n SWIM_STATUS_SUSPECT).
  rewrite (bind_run _ _ (with_swim s' w) _ _
    (node_at_live _ _ (with_swim s' w) (node_updated_lookup _ _ _ _ _ Hup Hi))).
  destruct (announce_sends EVENT_TYPE_PING (zeros 16) n (with_swim s' w) alloc_ok
    (go_server _ Hg') ltac:(done)) as (r & d & w' & Hsend & [Hw' Ho'] & Had & Hc).
  rewrite <-send_ping_announce in Hsend. simpl in Hw', Ho'.
  eexists _, d, w'. rewrite Hw'. split_and!; [|done|rewrite <-Hu; apply Hup|done|done| |done..].
  - by rewrite (bind_run _ _ _ _ _ Hsend).
  - cbn [wi_addr ns_witness set_ns_witness]. rewrite array_of_to_list.
    + by rewrite take_app_length' by (rewrite length_take, length_array; unfold wf_sockaddr in *; lia).
    + rewrite length_app, length_take, length_drop, !length_array. unfold wf_sockaddr in *. lia.
Qed.

Lemma joined_info_known e addr addrlen :
  honest e → eh_type (ev_hdr e) = EVENT_TYPE_JOIN → wf_sockaddr addrlen →
  known (joined_info e addr addrlen).
Proof.
  intros He Ht Hl.
  destruct (completed_join_wf e addr addrlen (ho_wf _ He) Ht Hl) as (_ & _ & _ & _ & Hh).
  split; [|done]. unfold known_info. simpl.
  rewrite Hh, (proj2 (Z.ltb_lt _ _)) by apply He. done.
Qed.

Lemma join_fares e addr addrlen w :
  good (w_swim w) → honest e → eh_type (ev_hdr e) = EVENT_TYPE_JOIN → wf_sockaddr addrlen →
  wp (swim_process_join e addr addrlen) (λ _ w', good (w_swim w')) (λ _ _, False) w.
Proof.
  intros Hg He Ht Hl. unfold wp. destruct (decide (join_uuid e = sw_uuid (w_swim w))) as [Hself|Hne];
    [by rewrite join_ignored by (apply Hg || by left)|].
  destruct (view_map (w_swim w) !! join_uuid e) as [n|] eqn:Hm;
    [rewrite join_ignored by (apply Hg || right; by exists n); done|].
  destruct (join_run alloc_ok e addr addrlen w)
    as (cell & s2 & ds & d & w2 & -> & -> & Hs2 & Hadd & _); try apply He; try done.
  { apply Hg. }
  split; [done|]. eapply all_known_added; [exact Hadd| |apply Hg]. by apply joined_info_known.
Qed.

(** A LEAVE: the node, if it is known, is dead, and the sender gets an ACK. *)
Lemma leave_run e addr addrlen w :
  good (w_swim w) →
  ∃ s' d w', swim_process_leave e addr addrlen w = (Ok tt, w') ∧ w_swim w' = s' ∧ good s' ∧
    view_map s' = (match view_map (w_swim w) !! leave_uuid e with
                   | Some n => <[leave_uuid e := set_node_status SWIM_STATUS_DEAD n]>
                   | None => id end) (view_map (w_swim w)) ∧
    w_out w' = w_out w ++ [d] ∧ dg_addr d = addr ∧ dg_addrlen d = addrlen ∧
    carries s' EVENT_TYPE_ACK (sw_uuid (w_swim w)) d.
Proof.
  intros Hg. unfold swim_process_leave.
  assert (∃ r s', swim_state_del (leave_uuid e) w = (Ok r, with_swim s' w) ∧ good s' ∧
    sw_uuid s' = sw_uuid (w_swim w) ∧
    view_map s' = (match view_map (w_swim w) !! leave_uuid e with
                   | Some n => <[leave_uuid e := set_node_status SWIM_STATUS_DEAD n]>
                   | None => id end) (view_map (w_swim w))) as (r & s' & Hdel & Hg' & Hu & Hm').
  { destruct (del_run (leave_uuid e) w (sv_wf _ (go_server _ Hg)))
      as [[Hself Hrun]|[(_ & Hm & Hrun)|(i & n & s' & _ & Hm & Hi & Hrun & _ & Hup)]].
    - exists None, (w_swim w). rewrite with_swim_id. split_and!; [done..|].
      assert (view_map (w_swim w) !! leave_uuid e = None) as ->; [|done].
      rewrite Hself. apply nodes_map_None, (wf_nodes _ (sv_wf _ (go_server _ Hg))).
    - exists None, (w_swim w). rewrite with_swim_id, Hm. done.
    - eexists _, s'. rewrite Hm. split_and!; [done| |apply Hup|].
      + by eapply (good_status _ i n SWIM_STATUS_DEAD).
      + apply view_map_lookup in Hm as [_ <-]. apply Hup. }
  rewrite (bind_run _ _ _ _ _ Hdel). rewrite (bind_run get_swim _ _ s' (with_swim s' w)) by done.
  destruct (send_ack_good (sw_uuid s') addr addrlen (with_swim s' w) Hg')
    as (r2 & d & w2 & Hack & [Hw2 Ho2] & ? & ? & ?). rewrite (bind_run _ _ _ _ _ Hack).
  exists s', d, w2. rewrite <-Hu. by split_and!.
Qed.

(** An honest event is processed without any assertion failing, unless it says
    that the server is dead. *)
Lemma event_fares e addr addrlen w :
  good (w_swim w) → honest e → wf_sockaddr addrlen →
  (eh_type (ev_hdr e) = EVENT_TYPE_ACK → ack_resolved (w_swim w) e) →
  wp (swim_process_event e addr addrlen) (λ _ w', good (w_swim w'))
    (λ f _, f = Exited 1 ∧ told_dead (sw_uuid (w_swim w)) e) w.
Proof.
  intros Hg He Hl Hres. pose proof (wf_header_type _ (wf_event_header _ (ho_wf _ He))) as Hv.
  destruct (notice_good e w Hg He) as (r & s' & Hrun & Hg' & Hu & Hus).
  rewrite <-Hu. unfold swim_process_event. unfold ack_resolved in Hres. rewrite <-Hu, <-Hus in Hres.
  destruct (eh_type (ev_hdr e)) eqn:Etype; [| | | | |done];
    cbn [swim_event_processing]; (eapply wp_step; [done|]); (eapply wp_step; [exact Hrun|]);
    (eapply wp_step; [done|]).
  - by apply (ping_fares e addr addrlen (with_swim s' w)).
  - by apply (ack_fares e addr addrlen (with_swim s' w)); [..|apply Hres].
  - pose proof (ping_req_run e addr addrlen (with_swim s' w) Hg' Hl) as Hp. unfold wp.
    destruct (view_map _ !! _); [by destruct Hp as (? & ? & ? & -> & ? & _)|by rewrite Hp].
  - eapply wp_mono; [by apply join_fares|done|done].
  - destruct (leave_run e addr addrlen (with_swim s' w) Hg') as (? & ? & ? & Hp & <- & ? & _).
    by eapply wp_run.
Qed.

End Honest.
