(* ===== verification/Protocol.v ===== *)
(** * What the protocol guarantees

    Theorems on the processing of events: safety for arbitrary events,
    progress for honest ones, and what each handler of [swim/process.c] does
    to the view and sends. *)

From Stdlib Require Import Init.Byte ZArith Lia.
From stdpp Require Import base tactics list vector sorting gmap.
From S2P Require Import Prelude Bytes Node Event Encoding EncodingFacts State StateFacts Samples.
From S2P Require Import Membership Probe Network Cluster Process.

Open Scope Z_scope.

(** ** Theorems *)

Section Theorems.
Context {U : UuidLib} {UL : UuidLaws U} {H : Host} {E : Env}.

(** C6: Memory safety of event processing.  If memory can be allocated, then
    whatever event the decoder accepts, from whatever sender, processing it
    in a well-formed state never touches memory out of bounds or a null
    pointer: it returns with the invariant intact, or fails an assertion, or
    exits because the server is told that it is dead. *)
Theorem swim_process_event_safe (e : Event) (addr : sockaddr_storage) (addrlen : Z) (w : World) :
  (∀ k, env_alloc k = true) → server_wf (w_swim w) → wf_event e → ev_gossip_count e ≤ 11 →
  is_signed 8 (eh_time (ev_hdr e)) → wf_sockaddr addrlen →
  ∃ r w', swim_process_event e addr addrlen w = (r, w') ∧
    (r = Ok tt ∧ server_wf (w_swim w') ∨ r = Fault AssertFailed ∨ r = Fault (Exited 1)).
Proof.
  intros Ha Hw He Hc Ht Hl. pose proof (keeps_event Ha e addr addrlen He Hc Ht Hl w Hw) as Hk.
  unfold wp in Hk. destruct (swim_process_event e addr addrlen w) as [[[]|f] w'].
  - exists (Ok tt), w'. auto.
  - exists (Fault f), w'. destruct Hk as [->| ->]; auto.
Qed.

(** C7: Progress.  In a state whose entries satisfy the assertions, an honest
    event (positive times, known statuses) is processed to the end and leaves
    such a state, except that a server whose death is announced by the gossip
    exits.  For an ACK about a new node this needs the node's uuid to be the
    greatest. *)
Theorem swim_process_event_progress (e : Event) (addr : sockaddr_storage) (addrlen : Z)
  (w : World) :
  (∀ k, env_alloc k = true) → good (w_swim w) → honest e → wf_sockaddr addrlen →
  (eh_type (ev_hdr e) = EVENT_TYPE_ACK → ack_resolved (w_swim w) e) →
  ∃ r w', swim_process_event e addr addrlen w = (r, w') ∧
    (r = Ok tt ∧ good (w_swim w') ∨
     r = Fault (Exited 1) ∧ told_dead (sw_uuid (w_swim w)) e).
Proof.
  intros Ha Hg He Hl Hres. pose proof (event_fares Ha e addr addrlen w Hg He Hl Hres) as Hk.
  unfold wp in Hk. destruct (swim_process_event e addr addrlen w) as [[[]|f] w'].
  - exists (Ok tt), w'. auto.
  - exists (Fault f), w'. destruct Hk as [-> ?]. auto.
Qed.

(** C15: Gossip processing refines the abstract detector: the gossip of an
    honest event has exactly the effect of hearing its entries one by one:
    each entry about another node raises the belief about it to the larger of
    the two, each suspicion of the server itself advances its incarnation
    (modulo 2^32), and the announcement of its death ends the process. *)
Theorem swim_process_gossip_refines (e : Event) (w : World) :
  (∀ k, env_alloc k = true) → good (w_swim w) → honest e →
  match hear_all (sw_uuid (w_swim w)) (knowledge (w_swim w)) (ev_entries e) with
  | Terminated => ∃ w', swim_process_gossip (ev_gossip e) (ev_gossip_count e) w
                        = (Fault (Exited 1), w') ∧ w_out w' = w_out w
  | Running inc m =>
      ∃ w', swim_process_gossip (ev_gossip e) (ev_gossip_count e) w = (Ok tt, w') ∧
        good (w_swim w') ∧ w_out w' = w_out w ∧
        sw_incarnation (w_swim w') = inc ∧ beliefs (w_swim w') = m
  end.
Proof.
  intros Ha Hg He. pose proof (process_gossip_run Ha e w Hg He) as Hrun.
  destruct (hear_all _ _ _); [|done]. destruct Hrun as (w' & ? & ? & ? & ? & Hk).
  injection Hk as ? ?. by exists w'.
Qed.

(** C16: Gossip converges: two servers with the same knowledge that receive the
    same gossip in different orders have the same knowledge afterwards, or
    both exit. *)
Theorem swim_gossip_order_irrelevant (e1 e2 : Event) (w1 w2 : World) :
  (∀ k, env_alloc k = true) → good (w_swim w1) → good (w_swim w2) → honest e1 → honest e2 →
  sw_uuid (w_swim w1) = sw_uuid (w_swim w2) → knowledge (w_swim w1) = knowledge (w_swim w2) →
  ev_entries e1 ≡ₚ ev_entries e2 →
  ∃ r w1' w2',
    swim_process_gossip (ev_gossip e1) (ev_gossip_count e1) w1 = (r, w1') ∧
    swim_process_gossip (ev_gossip e2) (ev_gossip_count e2) w2 = (r, w2') ∧
    (r = Ok tt ∧ knowledge (w_swim w1') = knowledge (w_swim w2') ∨ r = Fault (Exited 1)).
Proof.
  intros Ha Hg1 Hg2 He1 He2 Hu Hk Hp.
  pose proof (process_gossip_run Ha e1 w1 Hg1 He1) as H1.
  pose proof (process_gossip_run Ha e2 w2 Hg2 He2) as H2.
  rewrite Hu, Hk, (hear_all_permutation _ _ _ _ Hp) in H1.
  destruct (hear_all _ _ _).
  - destruct H1 as (w1' & ? & _ & _ & _ & ?), H2 as (w2' & ? & _ & _ & _ & ?).
    exists (Ok tt), w1', w2'. split_and!; [done..|left]. split; congruence.
  - destruct H1 as (w1' & ? & _), H2 as (w2' & ? & _). exists (Fault (Exited 1)), w1', w2'. auto.
Qed.

(** Gossip is idempotent: processing the same gossip a second time, as
    happens when a datagram is duplicated, changes no belief, provided that it
    does not concern the server itself. *)
Theorem swim_gossip_idempotent (e : Event) (w : World) :
  (∀ k, env_alloc k = true) → good (w_swim w) → honest e →
  Forall (λ i, ni_uuid i ≠ sw_uuid (w_swim w)) (ev_entries e) →
  ∃ w1 w2, swim_process_gossip (ev_gossip e) (ev_gossip_count e) w = (Ok tt, w1) ∧
    swim_process_gossip (ev_gossip e) (ev_gossip_count e) w1 = (Ok tt, w2) ∧
    knowledge (w_swim w2) = knowledge (w_swim w1).
Proof.
  intros Ha Hg He Hself. pose proof (process_gossip_run Ha e w Hg He) as H1.
  destruct (hear_all _ _ _) as [inc m|] eqn:E1.
  2:{ apply hear_all_told_dead in E1 as (i & Hi & Hu & _). rewrite Forall_forall in Hself.
      by destruct (Hself i Hi). }
  destruct H1 as (w1 & ? & Hg1 & _ & Hu1 & Hk1).
  pose proof (process_gossip_run Ha e w1 Hg1 He) as H2.
  rewrite Hu1, Hk1, <-E1, hear_all_idemp, E1 in H2 by done.
  destruct H2 as (w2 & ? & _ & _ & _ & Hk2). exists w1, w2. split_and!; [done..|]. congruence.
Qed.

(** A PING is answered by one ACK to its sender, about the server itself
    and with gossip from the view as it was, and then the gossip it carries is
    processed. *)
Theorem swim_process_ping_correct (e : Event) (addr : sockaddr_storage) (addrlen : Z)
  (w : World) :
  (∀ k, env_alloc k = true) → good (w_swim w) →
  ∃ d w1, sends [d] w w1 ∧ dg_addr d = addr ∧ dg_addrlen d = addrlen ∧
    carries (w_swim w) EVENT_TYPE_ACK (sw_uuid (w_swim w)) d ∧
    swim_process_ping e addr addrlen w
    = swim_process_gossip (ev_gossip e) (ev_gossip_count e) w1.
Proof.
  intros Ha Hg. destruct (send_ack_good Ha (sw_uuid (w_swim w)) addr addrlen w Hg)
    as (r & d & w1 & Hack & ? & ? & ? & ?).
  exists d, w1. split; [done|]. split_and!; [done..|]. unfold swim_process_ping.
  by rewrite (bind_run get_swim _ w (w_swim w) w), (bind_run _ _ _ _ _ Hack) by done.
Qed.

(** A PING_REQ about an unknown node does nothing.  About a known node, it
    makes the node suspect (even if it was dead), records the sender as its
    witness, and sends the node a PING. *)
Theorem swim_process_ping_req_correct (e : Event) (addr : sockaddr_storage) (addrlen : Z)
  (w : World) :
  (∀ k, env_alloc k = true) → good (w_swim w) → wf_sockaddr addrlen →
  match view_map (w_swim w) !! ping_req_uuid e with
  | None => swim_process_ping_req e addr addrlen w = (Ok tt, w)
  | Some n =>
      ∃ n' d w', swim_process_ping_req e addr addrlen w = (Ok tt, w') ∧ good (w_swim w') ∧
        view_map (w_swim w') = <[ping_req_uuid e := n']> (view_map (w_swim w)) ∧
        ns_info n' = set_ni_status SWIM_STATUS_SUSPECT (ns_info n) ∧
        wi_addrlen (ns_witness n') = addrlen ∧
        take (Z.to_nat addrlen) (vec_to_list (wi_addr (ns_witness n')))
        = take (Z.to_nat addrlen) (vec_to_list addr) ∧
        w_out w' = w_out w ++ [d] ∧ addressed d n ∧
        carries (w_swim w') EVENT_TYPE_PING (zeros 16) d
  end.
Proof. intros Ha. by apply ping_req_run. Qed.

(** C26: An ACK about a known node refutes a suspicion: a suspect node becomes
    alive and loses its witness, and if there was a witness, the ACK is passed
    on to it; other nodes stay as they are.  Then the gossip is processed. *)
Theorem swim_process_ack_known (e : Event) (addr : sockaddr_storage) (addrlen : Z)
  (n : NodeState) (w : World) :
  (∀ k, env_alloc k = true) → good (w_swim w) → honest e → wf_sockaddr addrlen →
  view_map (w_swim w) !! ack_uuid e = Some n →
  ∃ ds w1, swim_process_ack e addr addrlen w
           = swim_process_gossip (ev_gossip e) (ev_gossip_count e) w1 ∧
    view_map (w_swim w1) = <[ack_uuid e := if decide (node_status n = SWIM_STATUS_SUSPECT)
                                           then refuted n else n]> (view_map (w_swim w)) ∧
    w_out w1 = w_out w ++ ds ∧
    if decide (node_status n = SWIM_STATUS_SUSPECT ∧ 0 < wi_addrlen (ns_witness n)) then
      ∃ d, ds = [d] ∧ dg_addr d = wi_addr (ns_witness n) ∧
        dg_addrlen d = wi_addrlen (ns_witness n) ∧
        carries (w_swim w) EVENT_TYPE_ACK (ack_uuid e) d
    else ds = [].
Proof.
  intros Ha Hg He Hl Hm.
  destruct (ack_known_run Ha e addr addrlen n w Hg He Hl Hm) as (ds & w1 & Hrun & Hm1 & Ho & _ & _ & Hds).
  exists ds, w1. split; [done|]. split; [rewrite Hm1; f_equal|].
  { unfold acked. destruct (known_status _ (go_known _ Hg _ _ Hm)) as [Hst|[Hst|Hst]];
      unfold node_status in *; by rewrite Hst. }
  split; [done|]. unfold relays, swim_node_has_witness in Hds.
  destruct (decide (node_status n = SWIM_STATUS_SUSPECT ∧ 0 < wi_addrlen (ns_witness n)))
    as [[Hst Hwi]|Hno].
  - by rewrite bool_decide_eq_true_2, (proj2 (Z.ltb_lt _ _)) in Hds by done.
  - destruct (decide (node_status n = SWIM_STATUS_SUSPECT)).
    + assert (wi_addrlen (ns_witness n) ≤ 0) by (apply Z.le_ngt; tauto).
      by rewrite bool_decide_eq_true_2, (proj2 (Z.ltb_ge _ _)) in Hds by done.
    + by rewrite bool_decide_eq_false_2 in Hds.
Qed.

(** An ACK about a new node, as in reply to a JOIN, adds the node with the
    sender's address and marks it alive, if its uuid is greater than those of
    all nodes in the view.  Then the gossip is processed. *)
Theorem swim_process_ack_new (e : Event) (addr : sockaddr_storage) (addrlen : Z) (w : World) :
  (∀ k, env_alloc k = true) → good (w_swim w) → honest e → wf_sockaddr addrlen →
  ack_uuid e ≠ sw_uuid (w_swim w) → ack_uuid e ∉ uuids (w_swim w) →
  (∀ u, u ∈ uuids (w_swim w) → uuid_lt u (ack_uuid e)) →
  ∃ n w1, swim_process_ack e addr addrlen w
          = swim_process_gossip (ev_gossip e) (ev_gossip_count e) w1 ∧
    view_map (w_swim w1) = <[ack_uuid e := n]> (view_map (w_swim w)) ∧
    ns_info n = fresh_info (ack_uuid e) addr addrlen (eh_time (ev_hdr e)) SWIM_STATUS_ALIVE ∧
    w_out w1 = w_out w.
Proof.
  intros Ha Hg He Hl Hne Hnew Hgt.
  destruct (ack_new_run Ha e addr addrlen w Hg He Hl Hne Hnew Hgt) 
    as (n & w1 & ? & _ & _ & _ & ? & ? & ?).
  by exists n, w1.
Qed.

(** C37: An ACK about a new node whose uuid is not the greatest goes wrong: the
    pointer returned by [swim_state_add] is to another node, so that the new
    node stays in the view with status unknown, and the next event it sends,
    of whatever kind, fails an assertion and aborts the server. *)
Theorem swim_ack_new_node_aborts (e : Event) (addr : sockaddr_storage) (addrlen : Z)
  (u : uuid_t) (w : World) :
  (∀ k, env_alloc k = true) → good (w_swim w) → honest e → wf_sockaddr addrlen →
  ev_gossip_count e = 0 →
  ack_uuid e ≠ sw_uuid (w_swim w) → ack_uuid e ∉ uuids (w_swim w) →
  u ∈ uuids (w_swim w) → uuid_lt (ack_uuid e) u →
  ∃ n w', swim_process_ack e addr addrlen w = (Ok tt, w') ∧
    view_map (w_swim w') !! ack_uuid e = Some n ∧ node_status n = SWIM_STATUS_UNKNOWN ∧
    ∀ e2 addr2 addrlen2, event_type_valid (eh_type (ev_hdr e2)) →
      eh_uuid (ev_hdr e2) = ack_uuid e →
      swim_process_event e2 addr2 addrlen2 w' = (Fault AssertFailed, w').
Proof.
  intros Ha Hg He Hl Hc Hne Hnew Hu Hlt. pose proof (go_server _ Hg) as Hs.
  apply view_map_None in Hnew.
  destruct (ack_node_run Ha e addr addrlen w Hs Hl (ho_signed _ He) Hne)
    as [(i & n & Hm & _)|(_ & cell & w1 & Hrun & Ho & Hs1 & Hadd)]; [congruence|].
  destruct (added_last _ _ _ _ Hadd Hnew) as (n & Hn & _ & [Hlast _] & Hin).
  assert (n ∈ live (w_swim w)) as Hold.
  { destruct Hin as [?| ->]; [done|]. exfalso. apply (irreflexivity uuid_lt (ack_uuid e)).
    transitivity u; [done|]. by apply Hlast. }
  assert (node_uuid n ≠ ack_uuid e) as Hnu.
  { intros Heq. apply view_map_None in Hnew. apply Hnew. rewrite <-Heq.
    by apply list_elem_of_fmap_2. }
  destruct (ack_update_run Ha e _ n w1 Hs1 Hn) as (ds & w2 & Hrun2 & _ & Hup & Hs2 & _).
  assert (node_uuid (acked n) = node_uuid n) as Hau by (unfold acked; by repeat case_match).
  assert (view_map (w_swim w2) !! ack_uuid e
    = Some (set_ns_info (fresh_info (ack_uuid e) addr addrlen (eh_time (ev_hdr e))
        SWIM_STATUS_UNKNOWN) cell)) as Hm2.
  { rewrite (nu_map _ _ _ _ Hup), (na_map _ _ _ _ Hadd), Hau.
    rewrite lookup_insert_ne by done. apply lookup_insert_eq. }
  eexists _, w2. split_and!; [|exact Hm2|done|].
  - unfold swim_process_ack. rewrite (bind_run get_swim _ w (w_swim w) w) by done.
    rewrite uuid_compare_neq by done. rewrite (bind_run _ _ _ _ _ Hrun).
    rewrite (bind_run (deref (Some _)) _ w1 _ w1 eq_refl), (bind_run _ _ _ _ _ Hrun2).
    by rewrite Hc.
  - intros e2 addr2 addrlen2 Hv Hsender. unfold swim_process_event. rewrite Hsender.
    assert (swim_state_notice (ack_uuid e) (eh_time (ev_hdr e2)) (eh_incarnation (ev_hdr e2)) w2
      = (Fault AssertFailed, w2)) as Hno.
    { destruct (notice_run (ack_uuid e) (eh_time (ev_hdr e2)) (eh_incarnation (ev_hdr e2)) w2
        (sv_wf _ Hs2)) as [[? _]|(i & m & Hm & _ & Hr)]; [congruence|].
      rewrite Hm2 in Hm. injection Hm as <-. unfold known_info in Hr. simpl in Hr.
      by rewrite andb_false_r in Hr. }
    destruct (eh_type (ev_hdr e2)); [| | | | |done]; unfold mbind, M_bind; simpl; by rewrite Hno.
Qed.

(** C25: A JOIN of a new node adds it to the view as alive, with the address in
    the event or else that of the sender; the completed event is passed on
    once to every node of the new view, and the sender gets an ACK.  A JOIN of
    the server itself or of a node in the view changes nothing and sends
    nothing, so that forwarding ends. *)
Theorem swim_process_join_correct (e : Event) (addr : sockaddr_storage) (addrlen : Z)
  (w : World) :
  (∀ k, env_alloc k = true) → good (w_swim w) → honest e → wf_sockaddr addrlen →
  eh_type (ev_hdr e) = EVENT_TYPE_JOIN →
  if decide (join_uuid e = sw_uuid (w_swim w) ∨ join_uuid e ∈ uuids (w_swim w)) then
    swim_process_join e addr addrlen w = (Ok tt, w)
  else
    ∃ n ds d w', swim_process_join e addr addrlen w = (Ok tt, w') ∧ good (w_swim w') ∧
      view_map (w_swim w') = <[join_uuid e := n]> (view_map (w_swim w)) ∧
      ns_info n = joined_info e addr addrlen ∧
      w_out w' = w_out w ++ ds ++ [d] ∧
      Forall2 (λ m d, addressed d m ∧ dg_bytes d = event_bytes (completed_join e addr addrlen))
        (live (w_swim w')) ds ∧
      dg_addr d = addr ∧ dg_addrlen d = addrlen ∧
      carries (w_swim w') EVENT_TYPE_ACK (sw_uuid (w_swim w')) d.
Proof.
  intros Ha Hg He Hl Ht. pose proof (go_server _ Hg) as Hs. case_decide as Hk.
  - apply join_ignored; [done|]. destruct Hk as [?|Hin]; [by left|right].
    destruct (view_map (w_swim w) !! join_uuid e) as [n|] eqn:Hm; [eauto|].
    by apply view_map_None in Hm.
  - destruct (join_run Ha e addr addrlen w Hs (ho_wf _ He) Ht (ho_count _ He) Hl (ho_signed _ He)
      (ho_time _ He)) as (cell & s' & ds & d & w' & Hrun & <- & Hs' & Hadd & Ho & Hds & ? & ? & ?);
      [tauto|apply view_map_None; tauto|].
    destruct (completed_join_wf e addr addrlen (ho_wf _ He) Ht Hl) as (_ & _ & _ & Hu & _).
    exists (set_ns_info (joined_info e addr addrlen) cell), ds, d, w'. split_and!; try done.
    + split; [done|]. eapply all_known_added; [exact Hadd|by apply joined_info_known|apply Hg].
    + rewrite (na_map _ _ _ _ Hadd). by rewrite <-Hu.
Qed.

(** A LEAVE marks the node it names as dead if it is in the view, changes
    no other node, and is answered by an ACK. *)
Theorem swim_process_leave_correct (e : Event) (addr : sockaddr_storage) (addrlen : Z)
  (w : World) :
  (∀ k, env_alloc k = true) → good (w_swim w) →
  ∃ d w', swim_process_leave e addr addrlen w = (Ok tt, w') ∧ good (w_swim w') ∧
    view_map (w_swim w') = alter (set_node_status SWIM_STATUS_DEAD) (leave_uuid e)
                             (view_map (w_swim w)) ∧
    w_out w' = w_out w ++ [d] ∧ dg_addr d = addr ∧ dg_addrlen d = addrlen ∧
    carries (w_swim w') EVENT_TYPE_ACK (sw_uuid (w_swim w)) d.
Proof.
  intros Ha Hg. destruct (leave_run Ha e addr addrlen w Hg)
    as (s' & d & w' & Hrun & <- & ? & Hm & ? & ? & ? & ?).
  exists d, w'. split_and!; try done. rewrite Hm. apply map_eq. intros v.
  destruct (decide (v = leave_uuid e)) as [->|Hne].
  - rewrite lookup_alter_eq. destruct (view_map (w_swim w) !! leave_uuid e) eqn:Hl; [|done].
    by rewrite lookup_insert_eq.
  - rewrite lookup_alter_ne by done. case_match; [|done]. by rewrite lookup_insert_ne.
Qed.

(** Leaving has no effect: the LEAVE that [swim_cluster_leave] sends names
    the nil uuid, and a server that receives it believes the sender to be
    alive afterwards, instead of dead. *)
Theorem swim_leave_unnoticed (e : Event) (addr : sockaddr_storage) (addrlen : Z)
  (n : NodeState) (w : World) :
  (∀ k, env_alloc k = true) → good (w_swim w) → honest e →
  eh_type (ev_hdr e) = EVENT_TYPE_LEAVE → leave_uuid e = zeros 16 →
  zeros 16 ∉ uuids (w_swim w) →
  view_map (w_swim w) !! eh_uuid (ev_hdr e) = Some n → node_status n ≠ SWIM_STATUS_DEAD →
  ni_incarnation (ns_info n) ≤ eh_incarnation (ev_hdr e) →
  ∃ w' n', swim_process_event e addr addrlen w = (Ok tt, w') ∧
    view_map (w_swim w') !! eh_uuid (ev_hdr e) = Some n' ∧
    node_status n' = SWIM_STATUS_ALIVE.
Proof.
  intros Ha Hg He Ht Hnil Hno Hm Hd Hinc. pose proof (go_server _ Hg) as Hs.
  pose proof (go_known _ Hg _ _ Hm) as Hkn.
  destruct (notice_run (eh_uuid (ev_hdr e)) (eh_time (ev_hdr e)) (eh_incarnation (ev_hdr e)) w
    (sv_wf _ Hs)) as [[? _]|(i & n0 & Hm0 & Hi & Hrun)]; [congruence|].
  assert (n0 = n) as -> by congruence. rewrite (proj1 Hkn) in Hrun.
  destruct Hrun as (s' & Hrun & Hup).
  assert (good s') as Hg' by by eapply notice_run_good.
  assert (view_map s' !! leave_uuid e = None) as Hm'.
  { apply view_map_None. rewrite (uuids_updated _ _ _ _ _ Hup Hi) by apply node_uuid_notice.
    by rewrite Hnil. }
  destruct (leave_run Ha e addr addrlen (with_swim s' w) Hg')
    as (s2 & d & w' & Hrun2 & <- & _ & Hm2 & _).
  simpl in Hm2. rewrite Hm' in Hm2. exists w', (notice_node (eh_time (ev_hdr e)) (eh_incarnation (ev_hdr e)) n).
  split_and!.
  - unfold swim_process_event. rewrite Ht. cbn [swim_event_processing].
    rewrite (bind_run (lift (Ok _)) _ w _ w eq_refl), (bind_run _ _ _ _ _ Hrun).
    by rewrite (bind_run (deref (Some _)) _ _ _ (with_swim s' w) eq_refl).
  - rewrite Hm2. unfold id. rewrite (nu_map _ _ _ _ Hup), node_uuid_notice.
    apply view_map_lookup in Hm as [_ <-]. apply lookup_insert_eq.
  - by apply notice_node_current.
Qed.

(** C38: The relay of an ACK does not happen.  When the node that was probed for
    a witness answers, with its current incarnation, [swim_state_notice] has
    already made it alive (or it is dead) before [swim_process_ack] looks at
    its status: nothing is sent to the witness, which stays recorded. *)
Theorem swim_ack_not_relayed (e : Event) (addr : sockaddr_storage) (addrlen : Z)
  (n : NodeState) (w : World) :
  (∀ k, env_alloc k = true) → good (w_swim w) → honest e → wf_sockaddr addrlen →
  eh_type (ev_hdr e) = EVENT_TYPE_ACK → eh_uuid (ev_hdr e) = ack_uuid e →
  view_map (w_swim w) !! ack_uuid e = Some n →
  ni_incarnation (ns_info n) ≤ eh_incarnation (ev_hdr e) →
  ∃ n' w1 r w', swim_process_event e addr addrlen w = (r, w') ∧ w_out w' = w_out w ∧
    swim_process_event e addr addrlen w
    = swim_process_gossip (ev_gossip e) (ev_gossip_count e) w1 ∧
    view_map (w_swim w1) = <[ack_uuid e := n']> (view_map (w_swim w)) ∧
    ns_witness n' = ns_witness n ∧
    (node_status n ≠ SWIM_STATUS_DEAD → node_status n' = SWIM_STATUS_ALIVE).
Proof.
  intros Ha Hg He Hl Ht Hsender Hm Hinc. pose proof (go_server _ Hg) as Hs.
  pose proof (go_known _ Hg _ _ Hm) as Hkn.
  destruct (notice_run (eh_uuid (ev_hdr e)) (eh_time (ev_hdr e)) (eh_incarnation (ev_hdr e)) w
    (sv_wf _ Hs)) as [[? _]|(i & n0 & Hm0 & Hi & Hrun)]; [congruence|].
  assert (n0 = n) as -> by congruence. rewrite (proj1 Hkn) in Hrun.
  destruct Hrun as (s' & Hrun & Hup). set (n' := notice_node _ _ n) in Hup.
  destruct (notice_node_current (eh_time (ev_hdr e)) (eh_incarnation (ev_hdr e)) n Hkn Hinc)
    as (Hst' & Hdead & Hw'). fold n' in Hst', Hdead, Hw'.
  assert (good s') as Hg' by by eapply notice_run_good.
  assert (node_uuid n' = ack_uuid e) as Hu'.
  { unfold n'. rewrite node_uuid_notice. by apply view_map_lookup in Hm as []. }
  assert (view_map s' = <[ack_uuid e := n']> (view_map (w_swim w))) as Hm' by (rewrite <-Hu'; apply Hup).
  destruct (ack_known_run Ha e addr addrlen n' (with_swim s' w) Hg' He Hl)
    as (ds & w1 & Hack & Hm1 & Ho1 & Hg1 & _ & Hds); [simpl; by rewrite Hm', lookup_insert_eq|].
  assert (ds = []) as ->.
  { unfold relays in Hds. rewrite bool_decide_eq_false_2 in Hds; [done|].
    by destruct Hst' as [-> | ->]. }
  assert (acked n' = n') as Hid.
  { unfold acked. destruct Hst' as [-> | ->]; done. }
  assert (swim_process_event e addr addrlen w
    = swim_process_gossip (ev_gossip e) (ev_gossip_count e) w1) as Hev.
  { unfold swim_process_event. rewrite Ht. cbn [swim_event_processing].
    rewrite (bind_run (lift (Ok _)) _ w _ w eq_refl), (bind_run _ _ _ _ _ Hrun).
    rewrite (bind_run (deref (Some _)) _ _ _ (with_swim s' w) eq_refl). exact Hack. }
  destruct (gossip_silent Ha e w1 Hg1 He) as (r & w' & Hgo & Hout).
  exists n', w1, r, w'. rewrite Hev. split_and!; [done| |done| |done|done].
  - rewrite Hout, Ho1. simpl. apply app_nil_r.
  - rewrite Hm1, Hid. simpl. rewrite Hm'. apply insert_insert_eq.
Qed.

End Theorems.

(** ** Witnesses *)

#[local] Existing Instance lexicographic.
#[local] Instance sample_host : Host := LittleEndian.
#[local] Existing Instance sample_env.

Definition event_from (t : EventType) (from about : Z) (g : list NodeInfo) : Event :=
  {| ev_hdr := {| eh_type := t; eh_uuid := sample_uuid from; eh_time := 1766383895;
                  eh_incarnation := 4 |};
     ev_uuid := sample_uuid about; ev_join_addrlen := 0; ev_join_addr := zeros 128;
     ev_gossip_count := Z.of_nat (length g); ev_gossip := g |}.

Lemma event_from_honest t from about g :
  event_type_valid t → Forall wf_info g → Forall known g → (length g ≤ 11)%nat →
  honest (event_from t from about g).
Proof.
  intros Ht Hw Hk Hl.
  assert (ev_entries (event_from t from about g) = g) as Hg.
  { unfold ev_entries. simpl. by rewrite Nat2Z.id, take_ge. }
  split; [|simpl; lia|vm_compute; split; congruence|reflexivity|by rewrite Hg].
  split; [by split; [|vm_compute; split; congruence]|simpl; unfold wf_sockaddr; lia|simpl; lia|].
  by rewrite Hg.
Qed.

Lemma sample_info_known : known sample_info.
Proof. split; vm_compute; done. Qed.

(** The gossip of the samples: a suspicion of node 7. *)
Lemma rumour_honest t from about :
  event_type_valid t → honest (event_from t from about [sample_info]).
Proof.
  intros Ht. apply event_from_honest; [done|..|simpl; lia]; constructor;
    [apply sample_info_wf|constructor|apply sample_info_known|constructor].
Qed.

Lemma silent_honest t from about : event_type_valid t → honest (event_from t from about []).
Proof. intros Ht. apply event_from_honest; [done|constructor|constructor|simpl; lia]. Qed.

Lemma sample_good : good (w_swim W).
Proof. split; [apply sample_server_wf|apply sample_all_known]. Qed.

Lemma sample_addr_wf : wf_sockaddr 16.
Proof. unfold wf_sockaddr. lia. Qed.

Lemma swim_process_event_safe_witness :
  let e := event_from EVENT_TYPE_PING 10 0 [sample_info] in
  ∃ r w', swim_process_event e sample_addr 16 W = (r, w') ∧
    (r = Ok tt ∧ server_wf (w_swim w') ∨ r = Fault AssertFailed ∨ r = Fault (Exited 1)).
Proof.
  pose proof (rumour_honest EVENT_TYPE_PING 10 0 I) as [].
  apply (swim_process_event_safe (event_from EVENT_TYPE_PING 10 0 [sample_info])); try done.
  - apply sample_server_wf.
Defined.

Lemma swim_process_event_progress_witness :
  let e := event_from EVENT_TYPE_ACK 40 40 [sample_info] in
  ∃ r w', swim_process_event e sample_addr 16 W = (r, w') ∧
    (r = Ok tt ∧ good (w_swim w') ∨ r = Fault (Exited 1) ∧ told_dead (sample_uuid 1) e).
Proof.
  apply (swim_process_event_progress (event_from EVENT_TYPE_ACK 40 40 [sample_info])).
  - done.
  - apply sample_good.
  - by apply rumour_honest.
  - apply sample_addr_wf.
  - intros _. right; right. apply Forall_forall. repeat constructor; vm_compute; reflexivity.
Defined.

Lemma swim_process_gossip_refines_witness :
  ∃ w', swim_process_gossip [sample_info] 1 W = (Ok tt, w') ∧ good (w_swim w') ∧ w_out w' = [] ∧
    sw_incarnation (w_swim w') = 2 ∧
    beliefs (w_swim w') = learn (beliefs (w_swim W)) (sample_uuid 7) (3, 2).
Proof.
  apply (swim_process_gossip_refines (event_from EVENT_TYPE_PING 10 0 [sample_info]) W).
  - done.
  - apply sample_good.
  - by apply rumour_honest.
Defined.

(** A second rumour: node 30 is dead. *)
Definition obituary : NodeInfo := sample_node_info 30 SWIM_STATUS_DEAD 1766383890 5.

Lemma obituary_ok : wf_info obituary ∧ known obituary.
Proof. split; [repeat split; vm_compute; congruence|split; vm_compute; done]. Qed.

Lemma swim_gossip_order_irrelevant_witness :
  ∃ r w1 w2, swim_process_gossip [sample_info; obituary] 2 W = (r, w1) ∧
    swim_process_gossip [obituary; sample_info] 2 W = (r, w2) ∧
    (r = Ok tt ∧ knowledge (w_swim w1) = knowledge (w_swim w2) ∨ r = Fault (Exited 1)).
Proof.
  destruct obituary_ok as [? ?].
  apply (swim_gossip_order_irrelevant
    (event_from EVENT_TYPE_PING 10 0 [sample_info; obituary])
    (event_from EVENT_TYPE_PING 10 0 [obituary; sample_info]) W W).
  - done.
  - apply sample_good.
  - apply sample_good.
  - apply event_from_honest; [done|..|simpl; lia]; rewrite !Forall_cons, Forall_nil;
      auto using sample_info_wf, sample_info_known.
  - apply event_from_honest; [done|..|simpl; lia]; rewrite !Forall_cons, Forall_nil;
      auto using sample_info_wf, sample_info_known.
  - done.
  - done.
  - apply Permutation_swap.
Defined.

Lemma swim_gossip_idempotent_witness :
  ∃ w1 w2, swim_process_gossip [sample_info] 1 W = (Ok tt, w1) ∧
    swim_process_gossip [sample_info] 1 w1 = (Ok tt, w2) ∧
    knowledge (w_swim w2) = knowledge (w_swim w1).
Proof.
  apply (swim_gossip_idempotent (event_from EVENT_TYPE_PING 10 0 [sample_info])).
  - done.
  - apply sample_good.
  - by apply rumour_honest.
  - constructor; [vm_compute; congruence|constructor].
Defined.

Lemma swim_process_ping_correct_witness :
  let e := event_from EVENT_TYPE_PING 10 0 [sample_info] in
  ∃ d w1, sends [d] W w1 ∧ dg_addr d = sample_addr ∧ dg_addrlen d = 16 ∧
    carries (w_swim W) EVENT_TYPE_ACK (sample_uuid 1) d ∧
    swim_process_ping e sample_addr 16 W = swim_process_gossip [sample_info] 1 w1.
Proof.
  apply (swim_process_ping_correct (event_from EVENT_TYPE_PING 10 0 [sample_info])).
  - done.
  - apply sample_good.
Defined.

Lemma swim_process_ping_req_correct_witness :
  let e := event_from EVENT_TYPE_PING_REQ 10 30 [] in
  let n := sample_node 30 SWIM_STATUS_SUSPECT 1766383800 4 in
  ∃ n' d w', swim_process_ping_req e sample_addr 16 W = (Ok tt, w') ∧ good (w_swim w') ∧
    view_map (w_swim w') = <[sample_uuid 30 := n']> (view_map (w_swim W)) ∧
    ns_info n' = set_ni_status SWIM_STATUS_SUSPECT (ns_info n) ∧
    wi_addrlen (ns_witness n') = 16 ∧
    take 16 (vec_to_list (wi_addr (ns_witness n'))) = take 16 (vec_to_list sample_addr) ∧
    w_out w' = [] ++ [d] ∧ addressed d n ∧ carries (w_swim w') EVENT_TYPE_PING (zeros 16) d.
Proof.
  apply (swim_process_ping_req_correct (event_from EVENT_TYPE_PING_REQ 10 30 [])
    sample_addr 16 W).
  - done.
  - apply sample_good.
  - apply sample_addr_wf.
Defined.

(** Node 30 is suspect and has a witness. *)
Definition witnessed_nodes : list NodeState :=
  [sample_node 10 SWIM_STATUS_ALIVE 1766383890 1;
   set_ns_witness {| wi_addr := sample_addr; wi_addrlen := 16 |}
     (sample_node 30 SWIM_STATUS_SUSPECT 1766383800 4)].

Definition witnessed_world : World := sample_world (sample_swim witnessed_nodes).

Lemma witnessed_good : good (w_swim witnessed_world).
Proof.
  assert (∀ n, n ∈ live (w_swim witnessed_world) → wf_info (ns_info n) ∧ known (ns_info n)) as Hn.
  { apply Forall_forall. unfold witnessed_world, sample_world. cbn [w_swim].
    rewrite live_sample. unfold witnessed_nodes. rewrite !Forall_cons, Forall_nil.
    split_and!; try done; repeat split; vm_compute; congruence. }
  split; [split|].
  - apply sample_swim_wf, nodes_wfb_sound. vm_compute. reflexivity.
  - apply Forall_forall. intros n ?. by apply Hn.
  - vm_compute. split; congruence.
  - intros u n [Hin _]%view_map_lookup. by apply Hn.
Qed.

Lemma swim_process_ack_known_witness :
  let e := event_from EVENT_TYPE_ACK 30 30 [] in
  let n := set_ns_witness {| wi_addr := sample_addr; wi_addrlen := 16 |}
             (sample_node 30 SWIM_STATUS_SUSPECT 1766383800 4) in
  ∃ ds w1, swim_process_ack e sample_addr 16 witnessed_world = swim_process_gossip [] 0 w1 ∧
    view_map (w_swim w1) = <[sample_uuid 30 := refuted n]> (view_map (w_swim witnessed_world)) ∧
    w_out w1 = [] ++ ds ∧
    ∃ d, ds = [d] ∧ dg_addr d = sample_addr ∧ dg_addrlen d = 16 ∧
      carries (w_swim witnessed_world) EVENT_TYPE_ACK (sample_uuid 30) d.
Proof.
  apply (swim_process_ack_known (event_from EVENT_TYPE_ACK 30 30 []) sample_addr 16
    (set_ns_witness {| wi_addr := sample_addr; wi_addrlen := 16 |}
      (sample_node 30 SWIM_STATUS_SUSPECT 1766383800 4)) witnessed_world).
  - done.
  - apply witnessed_good.
  - by apply silent_honest.
  - apply sample_addr_wf.
  - vm_compute. reflexivity.
Defined.

Lemma swim_process_ack_new_witness :
  let e := event_from EVENT_TYPE_ACK 40 40 [] in
  ∃ n w1, swim_process_ack e sample_addr 16 W = swim_process_gossip [] 0 w1 ∧
    view_map (w_swim w1) = <[sample_uuid 40 := n]> (view_map (w_swim W)) ∧
    ns_info n = fresh_info (sample_uuid 40) sample_addr 16 1766383895 SWIM_STATUS_ALIVE ∧
    w_out w1 = [].
Proof.
  apply (swim_process_ack_new (event_from EVENT_TYPE_ACK 40 40 []) sample_addr 16 W).
  - done.
  - apply sample_good.
  - by apply silent_honest.
  - apply sample_addr_wf.
  - vm_compute. congruence.
  - apply view_map_None. vm_compute. reflexivity.
  - apply Forall_forall. repeat constructor; vm_compute; reflexivity.
Defined.

(** Node 15 answers for the first time; node 30 has a greater uuid. *)
Lemma swim_ack_new_node_aborts_witness :
  let e := event_from EVENT_TYPE_ACK 15 15 [] in
  ∃ n w', swim_process_ack e sample_addr 16 W = (Ok tt, w') ∧
    view_map (w_swim w') !! sample_uuid 15 = Some n ∧ node_status n = SWIM_STATUS_UNKNOWN ∧
    ∀ e2 addr2 addrlen2, event_type_valid (eh_type (ev_hdr e2)) →
      eh_uuid (ev_hdr e2) = sample_uuid 15 →
      swim_process_event e2 addr2 addrlen2 w' = (Fault AssertFailed, w').
Proof.
  apply (swim_ack_new_node_aborts (event_from EVENT_TYPE_ACK 15 15 []) sample_addr 16
    (sample_uuid 30) W).
  - done.
  - apply sample_good.
  - by apply silent_honest.
  - apply sample_addr_wf.
  - reflexivity.
  - vm_compute. congruence.
  - apply view_map_None. vm_compute. reflexivity.
  - apply list_elem_of_lookup. by exists 2%nat.
  - vm_compute. reflexivity.
Defined.

Lemma swim_process_join_correct_witness :
  let e := event_from EVENT_TYPE_JOIN 15 15 [] in
  ∃ n ds d w', swim_process_join e sample_addr 16 W = (Ok tt, w') ∧ good (w_swim w') ∧
    view_map (w_swim w') = <[sample_uuid 15 := n]> (view_map (w_swim W)) ∧
    ns_info n = joined_info e sample_addr 16 ∧ w_out w' = [] ++ ds ++ [d] ∧
    Forall2 (λ m d, addressed d m ∧ dg_bytes d = event_bytes (completed_join e sample_addr 16))
      (live (w_swim w')) ds ∧
    dg_addr d = sample_addr ∧ dg_addrlen d = 16 ∧
    carries (w_swim w') EVENT_TYPE_ACK (sw_uuid (w_swim w')) d.
Proof.
  set (e := event_from EVENT_TYPE_JOIN 15 15 []).
  assert (¬ (join_uuid e = sw_uuid (w_swim W) ∨ join_uuid e ∈ uuids (w_swim W))) as Hno.
  { intros [Hu|Hu]; [by vm_compute in Hu|]. revert Hu. apply view_map_None.
    vm_compute. reflexivity. }
  pose proof (swim_process_join_correct e sample_addr 16 W ltac:(done) sample_good
    (silent_honest EVENT_TYPE_JOIN 15 15 I) sample_addr_wf eq_refl) as Hj.
  rewrite decide_False in Hj by exact Hno. exact Hj.
Defined.

Lemma swim_process_leave_correct_witness :
  let e := event_from EVENT_TYPE_LEAVE 10 10 [] in
  ∃ d w', swim_process_leave e sample_addr 16 W = (Ok tt, w') ∧ good (w_swim w') ∧
    view_map (w_swim w') = alter (set_node_status SWIM_STATUS_DEAD) (sample_uuid 10)
                             (view_map (w_swim W)) ∧
    w_out w' = [] ++ [d] ∧ dg_addr d = sample_addr ∧ dg_addrlen d = 16 ∧
    carries (w_swim w') EVENT_TYPE_ACK (sample_uuid 1) d.
Proof.
  apply (swim_process_leave_correct (event_from EVENT_TYPE_LEAVE 10 10 []) sample_addr 16 W).
  - done.
  - apply sample_good.
Defined.

(** The LEAVE of node 10, with the nil uuid. *)
Lemma swim_leave_unnoticed_witness :
  let e := event_from EVENT_TYPE_LEAVE 10 0 [] in
  ∃ w' n', swim_process_event e sample_addr 16 W = (Ok tt, w') ∧
    view_map (w_swim w') !! sample_uuid 10 = Some n' ∧ node_status n' = SWIM_STATUS_ALIVE.
Proof.
  apply (swim_leave_unnoticed (event_from EVENT_TYPE_LEAVE 10 0 []) sample_addr 16
    (sample_node 10 SWIM_STATUS_ALIVE 1766383890 1) W).
  - done.
  - apply sample_good.
  - by apply silent_honest.
  - reflexivity.
  - vm_compute. reflexivity.
  - apply view_map_None. vm_compute. reflexivity.
  - vm_compute. reflexivity.
  - done.
  - vm_compute. congruence.
Defined.

(** Node 30 answers the probe that was made for a witness. *)
Lemma swim_ack_not_relayed_witness :
  let e := event_from EVENT_TYPE_ACK 30 30 [] in
  let n := set_ns_witness {| wi_addr := sample_addr; wi_addrlen := 16 |}
             (sample_node 30 SWIM_STATUS_SUSPECT 1766383800 4) in
  ∃ n' w1 r w', swim_process_event e sample_addr 16 witnessed_world = (r, w') ∧
    w_out w' = [] ∧
    swim_process_event e sample_addr 16 witnessed_world = swim_process_gossip [] 0 w1 ∧
    view_map (w_swim w1) = <[sample_uuid 30 := n']> (view_map (w_swim witnessed_world)) ∧
    ns_witness n' = ns_witness n ∧
    (SWIM_STATUS_SUSPECT ≠ SWIM_STATUS_DEAD → node_status n' = SWIM_STATUS_ALIVE).
Proof.
  apply (swim_ack_not_relayed (event_from EVENT_TYPE_ACK 30 30 []) sample_addr 16
    (set_ns_witness {| wi_addr := sample_addr; wi_addrlen := 16 |}
      (sample_node 30 SWIM_STATUS_SUSPECT 1766383800 4)) witnessed_world).
  - done.
  - apply witnessed_good.
  - by apply silent_honest.
  - apply sample_addr_wf.
  - reflexivity.
  - reflexivity.
  - vm_compute. reflexivity.
  - vm_compute. congruence.
Defined.
