(* ===== verification/Scenarios.v ===== *)
(** * Servers talking to each other

    The theorems about single functions put together: what one server sends
    is received and processed by another. *)

From Stdlib Require Import Init.Byte ZArith Lia.
From stdpp Require Import base tactics list vector sorting gmap.
From S2P Require Import Prelude Bytes Node Event Encoding EncodingFacts State StateFacts Samples.
From S2P Require Import Membership Probe Network Cluster Process Protocol.

Open Scope Z_scope.

(** ** Received events are honest *)

Lemma take_received_infos old src :
  (length src ≤ length old)%nat →
  take (length src) (received_infos old src) = zip_with received_info old src.
Proof.
  revert old. induction src as [|i src IH]; intros [|o old] Hl; simpl in *; try (done || lia).
  by rewrite IH by lia.
Qed.

(** The entries of an event as the receiver sees them. *)
Definition received_entries (old e : Event) : list NodeInfo :=
  zip_with received_info (ev_gossip old) (ev_entries e).

Section Received.
Context {H : Host}.

Lemma entries_received old e :
  wf_event e → ev_gossip_count e ≤ 11 → length (ev_gossip old) = 11%nat →
  ev_entries (received_event old e) = received_entries old e.
Proof.
  intros He Hc Hold. pose proof (length_ev_entries e He) as Hl.
  unfold ev_entries at 1. simpl. rewrite <-Hl, Nat2Z.id. apply take_received_infos. lia.
Qed.

(** A property of entries that does not depend on the address. *)
Lemma Forall_received (P : NodeInfo → Prop) old l :
  (∀ o i, P i → P (received_info o i)) → Forall P l → Forall P (zip_with received_info old l).
Proof.
  intros HP Hl. revert old. induction Hl as [|i l Hi Hl IH]; intros [|o old]; simpl;
    constructor; auto.
Qed.

Lemma received_known o i : known i → known (received_info o i).
Proof. done. Qed.

Lemma received_honest old e :
  host_endian = LittleEndian → wf_event e → ev_gossip_count e ≤ 11 →
  length (ev_gossip old) = 11%nat → 0 < eh_time (ev_hdr e) < 2 ^ 32 →
  Forall known (ev_entries e) → honest (received_event old e).
Proof.
  intros Hh He Hc Hold Ht Hk. pose proof (length_event_bytes e He) as Hlen.
  destruct (decode_event_wf (event_bytes e ++ replicate (2048 - length (event_bytes e)) x00) old
    (received_event old e) (Z.of_nat (length (event_bytes e)))) as (? & ? & ? & _).
  - rewrite length_app, length_replicate. lia.
  - apply decode_packet_ok; [done..|]. rewrite length_replicate. lia.
  - lia.
  - split; [done..| |].
    + simpl. unfold wire_time. rewrite Hh, Z.mod_small by lia. lia.
    + rewrite entries_received by done. by apply Forall_received.
Qed.

End Received.

(** ** Learning *)

(** Gossip that does not mention a node leaves the belief about it. *)
Lemma hear_all_other self inc m g inc' m' u :
  hear_all self (Running inc m) g = Running inc' m' → u ∉ ni_uuid <$> g → m' !! u = m !! u.
Proof.
  revert inc m. induction g as [|i g IH]; intros inc m Hh Hu; [by injection Hh as -> ->|].
  rewrite fmap_cons, not_elem_of_cons in Hu. destruct Hu as [Hi Hu].
  change (hear_all self (hear self (Running inc m) i) g = Running inc' m') in Hh.
  unfold hear in Hh at 1. case_decide.
  - destruct (ni_status i); try (by eapply IH); by rewrite hear_all_terminated in Hh.
  - rewrite (IH _ _ Hh Hu). unfold learn. by rewrite lookup_insert_ne.
Qed.

(** A node that is mentioned once and was not known before is learned. *)
Lemma hear_all_new self inc m g inc' m' i :
  hear_all self (Running inc m) g = Running inc' m' → NoDup (ni_uuid <$> g) → i ∈ g →
  ni_uuid i ≠ self → m !! ni_uuid i = None → m' !! ni_uuid i = Some (info_belief i).
Proof.
  revert inc m. induction g as [|j g IH]; intros inc m Hh Hnd Hi Hne Hm; [by apply elem_of_nil in Hi|].
  rewrite fmap_cons, NoDup_cons in Hnd. destruct Hnd as [Hj Hnd].
  change (hear_all self (hear self (Running inc m) j) g = Running inc' m') in Hh.
  apply elem_of_cons in Hi as [<-|Hi].
  - unfold hear in Hh at 1. rewrite decide_False in Hh by done.
    rewrite (hear_all_other _ _ _ _ _ _ _ Hh Hj). unfold learn. by rewrite lookup_insert_eq, Hm.
  - assert (ni_uuid i ≠ ni_uuid j) as Hij.
    { intros Heq. apply Hj. rewrite <-Heq. by apply list_elem_of_fmap_2. }
    unfold hear in Hh at 1. case_decide.
    + destruct (ni_status j); try (by eapply IH); by rewrite hear_all_terminated in Hh.
    + eapply IH; try done. unfold learn. by rewrite lookup_insert_ne.
Qed.

Section Gossip.
Context {U : UuidLib} {UL : UuidLaws U} {H : Host} {E : Env}.

(** What is known of the entries of an announcement. *)
Lemma announcement_known s t u now e :
  good s → announcement s t u now e → Forall known (ev_entries e).
Proof.
  intros Hg Han. apply Forall_take, (Forall_impl _ _ _ (an_members _ _ _ _ _ Han)).
  intros i (n & [j Hj]%list_elem_of_lookup & ->). by eapply good_lookup.
Qed.

(** The entries are those of nodes of the view. *)
Lemma received_member s t u now old e i :
  announcement s t u now e → i ∈ received_entries old e →
  ∃ n, n ∈ live s ∧ ni_uuid i = node_uuid n ∧ ni_status i = node_status n.
Proof.
  intros Han Hi.
  assert (Forall (λ i, ∃ n, n ∈ live s ∧ ni_uuid i = node_uuid n ∧ ni_status i = node_status n)
    (received_entries old e)) as Hall.
  { apply Forall_received; [intros o j (n & ?); by exists n|].
    apply Forall_take, (Forall_impl _ _ _ (an_members _ _ _ _ _ Han)).
    intros j (n & Hn & ->). by exists n. }
  rewrite Forall_forall in Hall. by apply Hall.
Qed.

(** A server that does not know itself to be dead, by an announcement of a
    server that does not believe it to be dead, is not terminated. *)
Lemma announcement_survives s t u now old e self n :
  swim_wf s → announcement s t u now e → view_map s !! self = Some n →
  node_status n ≠ SWIM_STATUS_DEAD →
  ¬ ∃ i, i ∈ received_entries old e ∧ ni_uuid i = self ∧ ni_status i = SWIM_STATUS_DEAD.
Proof.
  intros Hwf Han Hn Hd (i & Hi & Hu & Hst).
  destruct (received_member _ _ _ _ _ _ _ Han Hi) as (m & Hm & Hum & Hstm).
  assert (view_map s !! self = Some m) as Hm'.
  { apply nodes_map_Some; [eapply nodes_wf_NoDup, Hwf|]. split; [done|congruence]. }
  congruence.
Qed.

(** A small view is announced completely: its nodes, each once, with the
    beliefs about them. *)
Lemma announcement_complete s t u now old e :
  swim_wf s → announcement s t u now e → length (ev_gossip old) = 11%nat →
  Z.of_nat (sw_view_size s) < SWIM_MAX_GOSSIP_SIZE →
  ni_uuid <$> received_entries old e = uuids s ∧
  info_belief <$> received_entries old e = node_belief <$> live s.
Proof.
  intros Hwf Han Hold Hsz. unfold received_entries.
  assert (ev_entries e = shared <$> live s) as ->.
  { unfold ev_entries. rewrite (an_all _ _ _ _ _ Han Hsz), take_ge; [done|].
    rewrite length_fmap, length_live, (an_count _ _ _ _ _ Han) by done. unfold gossip_size. lia. }
  assert (length (live s) ≤ length (ev_gossip old))%nat as Hle.
  { rewrite length_live, Hold by done. unfold SWIM_MAX_GOSSIP_SIZE in Hsz. lia. }
  unfold uuids. revert Hle. generalize (ev_gossip old) as os. generalize (live s) as l. clear.
  induction l as [|n l IH]; intros [|o os] Hle; try (simpl in Hle; done || lia).
  destruct (IH os) as [Hu Hb]; [simpl in Hle; lia|].
  cbn [fmap list_fmap zip_with] in Hu, Hb |- *. by rewrite Hu, Hb.
Qed.

(** Gossip with the whole view of [s] teaches the beliefs of [s] about nodes
    that were unknown before. *)
Lemma heard_all s self inc m g inc' m' u b :
  hear_all self (Running inc m) g = Running inc' m' → swim_wf s →
  ni_uuid <$> g = uuids s → info_belief <$> g = node_belief <$> live s →
  u ≠ self → m !! u = None → beliefs s !! u = Some b → m' !! u = Some b.
Proof.
  intros Hh Hwf Hu Hb Hne Hm Hs. rewrite beliefs_lookup in Hs.
  apply fmap_Some in Hs as (n & Hn & ->). apply view_map_lookup in Hn as [Hn Hun].
  apply list_elem_of_lookup in Hn as [j Hj].
  assert (ni_uuid <$> g !! j = Some u) as Hgu.
  { rewrite <-list_lookup_fmap, Hu. unfold uuids. by rewrite list_lookup_fmap, Hj, <-Hun. }
  apply fmap_Some in Hgu as (i & Hi & ->).
  assert (info_belief i = node_belief n) as <-.
  { assert (info_belief <$> g !! j = node_belief <$> live s !! j) as Hij
      by by rewrite <-!list_lookup_fmap, Hb.
    rewrite Hi, Hj in Hij. by simplify_eq/=. }
  eapply hear_all_new; [exact Hh| |by eapply list_elem_of_lookup_2|done|done].
  rewrite Hu. by eapply nodes_wf_NoDup, wf_nodes.
Qed.

(** The server itself is not among the entries it announces. *)
Lemma announcement_not_self s t u now old e :
  swim_wf s → announcement s t u now e → sw_uuid s ∉ ni_uuid <$> received_entries old e.
Proof.
  intros Hwf Han (i & Hi & Hin)%list_elem_of_fmap.
  destruct (received_member _ _ _ _ _ _ _ Han Hin) as (n & Hn & Hu & _).
  apply (wf_nodes _ Hwf). rewrite Hi, Hu. by apply list_elem_of_fmap_2.
Qed.

End Gossip.

(** ** Joining *)

Section Joining.
Context {U : UuidLib} {UL : UuidLaws U} {H : Host} {E : Env}.
Hypothesis alloc_ok : ∀ k, env_alloc k = true.
Hypothesis little_endian : host_endian = LittleEndian.
Hypothesis clock : ∀ k, 0 < env_time k < 2 ^ 32.

(** An event of a sender that is not in the view goes straight to its handler. *)
Lemma event_from_stranger e addr addrlen callback w :
  swim_wf (w_swim w) → eh_uuid (ev_hdr e) ∉ uuids (w_swim w) →
  swim_event_processing (eh_type (ev_hdr e)) = Ok (Some callback) →
  swim_process_event e addr addrlen w = callback e addr addrlen w.
Proof.
  intros Hwf Hno Hcb. unfold swim_process_event. rewrite Hcb.
  rewrite (bind_run (lift (Ok _)) _ w _ w eq_refl).
  destruct (notice_run (eh_uuid (ev_hdr e)) (eh_time (ev_hdr e)) (eh_incarnation (ev_hdr e)) w Hwf)
    as [[_ Hrun]|(i & n & Hm & _)].
  2:{ apply view_map_lookup in Hm as [Hin Hu]. exfalso. apply Hno. rewrite <-Hu.
      by apply list_elem_of_fmap_2. }
  by rewrite (bind_run _ _ _ _ _ Hrun), (bind_run (deref (Some _)) _ w _ w eq_refl).
Qed.

Lemma join_event_honest s k old :
  server_wf s → length (ev_gossip old) = 11%nat →
  honest (received_event old (join_event s (env_time k))).
Proof.
  intros Hs Hold. apply received_honest;
    [done|by apply bare_event_wf|done|done|apply clock|constructor].
Qed.

(** The JOIN of [s] is processed by a server that does not know it yet. *)
Lemma join_processed s k old addr addrlen w :
  good (w_swim w) → server_wf s → length (ev_gossip old) = 11%nat → wf_sockaddr addrlen →
  sw_uuid s ≠ sw_uuid (w_swim w) → sw_uuid s ∉ uuids (w_swim w) →
  ∃ n ds d w', swim_process_event (received_event old (join_event s (env_time k))) addr addrlen w
               = (Ok tt, w') ∧ good (w_swim w') ∧ sw_uuid (w_swim w') = sw_uuid (w_swim w) ∧
    view_map (w_swim w') = <[sw_uuid s := n]> (view_map (w_swim w)) ∧
    node_status n = SWIM_STATUS_ALIVE ∧ ni_addrlen (ns_info n) = addrlen ∧
    w_out w' = w_out w ++ ds ++ [d] ∧ dg_addr d = addr ∧ dg_addrlen d = addrlen ∧
    carries (w_swim w') EVENT_TYPE_ACK (sw_uuid (w_swim w)) d.
Proof.
  intros Hg Hs Hold Hl Hne Hno. set (e := received_event old (join_event s (env_time k))).
  assert (honest e) as He by by apply join_event_honest.
  rewrite (event_from_stranger e addr addrlen swim_process_join w) by (done || apply Hg).
  destruct (join_run alloc_ok e addr addrlen w (go_server _ Hg) (ho_wf _ He) eq_refl
    (ho_count _ He) Hl (ho_signed _ He) (ho_time _ He) Hne)
    as (cell & s' & ds & d & w' & Hrun & <- & Hs' & Hadd & Ho & _ & ? & ? & Hc);
    [by apply view_map_None|].
  destruct (completed_join_wf e addr addrlen (ho_wf _ He) eq_refl Hl) as (_ & _ & _ & Hu & _).
  pose proof (same_uuid _ _ (na_same _ _ _ _ Hadd)) as Hself.
  exists (set_ns_info (joined_info e addr addrlen) cell), ds, d, w'.
  split; [done|]. split.
  { split; [done|]. eapply all_known_added; [exact Hadd|by apply joined_info_known|apply Hg]. }
  split; [done|]. split.
  { rewrite (na_map _ _ _ _ Hadd). change (ni_uuid (joined_info e addr addrlen)) with
      (join_uuid (completed_join e addr addrlen)). by rewrite Hu. }
  rewrite <-Hself. by split_and!.
Qed.

(** The ACK of [s] about itself is processed by a server with an empty view. *)
Lemma ack_processed s k e old addr addrlen w n :
  good (w_swim w) → live (w_swim w) = [] → good s → sw_uuid s ≠ sw_uuid (w_swim w) →
  announcement s EVENT_TYPE_ACK (sw_uuid s) (env_time k) e → length (ev_gossip old) = 11%nat →
  wf_sockaddr addrlen → view_map s !! sw_uuid (w_swim w) = Some n →
  node_status n ≠ SWIM_STATUS_DEAD →
  ∃ w1 w', view_map (w_swim w1) !! sw_uuid s ≠ None ∧
    beliefs (w_swim w1) = {[ sw_uuid s := (0, status_code SWIM_STATUS_ALIVE) ]} ∧
    swim_process_event (received_event old e) addr addrlen w = (Ok tt, w') ∧ good (w_swim w') ∧
    ∃ inc, hear_all (sw_uuid (w_swim w)) (Running (sw_incarnation (w_swim w)) (beliefs (w_swim w1)))
      (received_entries old e) = Running inc (beliefs (w_swim w')).
Proof.
  intros Hg Hempty Hgs Hne Han Hold Hl Hn Hd.
  pose proof (gossip_size_bound s) as Hgb. pose proof (an_count _ _ _ _ _ Han) as Hcount.
  assert (honest (received_event old e)) as He.
  { apply received_honest; try done; [apply Han|lia| |by eapply announcement_known].
    rewrite (an_header _ _ _ _ _ Han). apply clock. }
  assert (uuids (w_swim w) = []) as Hus by (unfold uuids; by rewrite Hempty).
  assert (eh_uuid (ev_hdr (received_event old e)) = sw_uuid s) as Hsender
    by (simpl; by rewrite (an_header _ _ _ _ _ Han)).
  assert (ack_uuid (received_event old e) = sw_uuid s) as Hack.
  { unfold ack_uuid. simpl. rewrite (an_header _ _ _ _ _ Han). apply Han. }
  destruct (ack_new_run alloc_ok (received_event old e) addr addrlen w Hg He Hl)
    as (m & w1 & Hrun & Hg1 & Hu1 & Hi1 & Hm1 & Hinfo & _).
  { by rewrite Hack. } { rewrite Hus. apply not_elem_of_nil. }
  { intros u Hu. rewrite Hus in Hu. by apply elem_of_nil in Hu. }
  rewrite Hack in Hm1, Hinfo.
  assert (view_map (w_swim w) = ∅) as Hvm by (unfold view_map; by rewrite Hempty).
  assert (beliefs (w_swim w1) = {[ sw_uuid s := (0, status_code SWIM_STATUS_ALIVE) ]}) as Hb1.
  { unfold beliefs. rewrite Hm1, Hvm. rewrite fmap_insert, fmap_empty.
    unfold node_belief. by rewrite Hinfo. }
  pose proof (process_gossip_run alloc_ok (received_event old e) w1 Hg1 He) as Hgossip.
  rewrite entries_received in Hgossip by (apply Han || lia || done).
  unfold knowledge in Hgossip. rewrite Hu1, Hi1 in Hgossip.
  destruct (hear_all _ _ _) as [inc b|] eqn:Eh.
  - destruct Hgossip as (w' & Hrun' & Hg' & _ & _ & Hk). injection Hk as _ <-.
    exists w1, w'. rewrite Hm1, lookup_insert_eq. split_and!; [done|done| |done|by exists inc].
    rewrite (event_from_stranger _ addr addrlen swim_process_ack w).
    + by rewrite Hrun.
    + apply Hg.
    + rewrite Hus. apply not_elem_of_nil.
    + simpl. by rewrite (an_header _ _ _ _ _ Han).
  - exfalso. apply hear_all_told_dead in Eh.
    eapply announcement_survives; [apply Hgs|exact Han|exact Hn|done|exact Eh].
Qed.

End Joining.

(** ** Theorems *)

Section Theorems.
Context {U : UuidLib} {UL : UuidLaws U} {H : Host} {E : Env}.

(** C10: Joining a cluster, end to end.  A server with an empty view joins
    through another one: the other one receives its JOIN, enters it as alive
    with the address it was seen at, and its last datagram is an ACK to that
    address; the first one receives the ACK and believes the other one to be
    alive.  If the other one then has fewer than ten nodes, the first one
    believes about each of them, apart from itself, what the other one does.
    Both servers satisfy all invariants at the end. *)
Theorem swim_join_end_to_end (wa wb : World) (addr_a addr_b : sockaddr_storage)
  (len_a len_b : Z) (stack_a stack_b : list byte) (mem_a mem_b : Event) :
  (∀ k, env_alloc k = true) → host_endian = LittleEndian → (∀ k, 0 < env_time k < 2 ^ 32) →
  good (w_swim wa) → live (w_swim wa) = [] → good (w_swim wb) →
  sw_uuid (w_swim wa) ≠ sw_uuid (w_swim wb) → sw_uuid (w_swim wa) ∉ uuids (w_swim wb) →
  wf_sockaddr len_a → wf_sockaddr len_b →
  Z.of_nat (length stack_a) = SWIM_MAX_PACKET_SIZE → length (ev_gossip mem_a) = 11%nat →
  Z.of_nat (length stack_b) = SWIM_MAX_PACKET_SIZE → length (ev_gossip mem_b) = 11%nat →
  ∃ join wa1 e_b r_b ds ack wb1 e_a r_a wa2 n,
    swim_cluster_join addr_b len_b wa = (Ok tt, wa1) ∧ w_out wa1 = w_out wa ++ [join] ∧
    swim_recv_event stack_b mem_b
      {| rc_data := Some (dg_bytes join); rc_addr := addr_a; rc_addrlen := len_a |} = Ok (e_b, r_b) ∧
    swim_process_event e_b addr_a len_a wb = (Ok tt, wb1) ∧
    w_out wb1 = w_out wb ++ ds ++ [ack] ∧ dg_addr ack = addr_a ∧ dg_addrlen ack = len_a ∧
    view_map (w_swim wb1) = <[sw_uuid (w_swim wa) := n]> (view_map (w_swim wb)) ∧
    node_status n = SWIM_STATUS_ALIVE ∧ ni_addrlen (ns_info n) = len_a ∧
    swim_recv_event stack_a mem_a
      {| rc_data := Some (dg_bytes ack); rc_addr := addr_b; rc_addrlen := len_b |} = Ok (e_a, r_a) ∧
    swim_process_event e_a addr_b len_b wa1 = (Ok tt, wa2) ∧
    good (w_swim wb1) ∧ good (w_swim wa2) ∧
    beliefs (w_swim wa2) !! sw_uuid (w_swim wb) = Some (0, status_code SWIM_STATUS_ALIVE) ∧
    (Z.of_nat (sw_view_size (w_swim wb1)) < SWIM_MAX_GOSSIP_SIZE →
     ∀ u b, u ≠ sw_uuid (w_swim wa) → beliefs (w_swim wb1) !! u = Some b →
       beliefs (w_swim wa2) !! u = Some b).
Proof.
  intros Ha Hle Hclock Hga Hempty Hgb Hne Hno Hla Hlb Hsa Hma Hsb Hmb.
  destruct (cluster_join_run addr_b len_b wa (go_server _ Hga)) as (wa1 & Hjoin & [Hwa1 Ho1]).
  destruct (join_processed Ha Hle Hclock (w_swim wa) (w_times wa) mem_b addr_a len_a wb Hgb
    (go_server _ Hga) Hmb Hla Hne Hno)
    as (n & ds & ack & wb1 & Hproc & Hgb1 & Hself & Hvb1 & Hst & Hal & Ho2 & Haddr & Hlen
        & (k & e & Hbytes & Han)).
  rewrite <-Hwa1 in Hga, Hempty, Hne. rewrite <-Hself in Han, Hne.
  destruct (ack_processed Ha Hle Hclock (w_swim wb1) k e mem_a addr_b len_b wa1 n Hga Hempty Hgb1
    (not_eq_sym Hne) Han Hma Hlb) as (w1 & wa2 & _ & Hb1 & Hproc2 & Hga2 & inc & Hheard).
  { rewrite Hvb1, Hwa1. apply lookup_insert_eq. }
  { congruence. }
  pose proof (gossip_size_bound (w_swim wb1)). pose proof (an_count _ _ _ _ _ Han).
  assert (wf_event (join_event (w_swim wa) (env_time (w_times wa)))) as Hje.
  { apply bare_event_wf; [|done]. rewrite <-Hwa1. apply Hga. }
  eexists _, wa1, _, _, ds, ack, wb1, (received_event mem_a e), _, wa2, n.
  split; [exact Hjoin|]. split; [exact Ho1|].
  split; [by apply recv_event_run; [|simpl; lia|..]|]. split; [exact Hproc|].
  do 6 (split; [done|]). split; [rewrite Hbytes; apply recv_event_run; [apply Han|lia|done|done]|].
  split; [exact Hproc2|]. split; [done|]. split; [done|]. split.
  - rewrite <-Hself. etransitivity; [apply (hear_all_other _ _ _ _ _ _ _ Hheard)|].
    + eapply announcement_not_self; [apply Hgb1|exact Han].
    + rewrite Hb1. apply lookup_singleton_eq.
  - intros Hsz u b Hu Hb. rewrite <-Hwa1 in Hu.
    destruct (announcement_complete _ _ _ _ mem_a e (sv_wf _ (go_server _ Hgb1)) Han Hma Hsz)
      as [Huu Hbb].
    eapply heard_all; [exact Hheard|apply Hgb1|done|done|done| |done].
    rewrite Hb1. apply lookup_singleton_ne. intros <-.
    rewrite beliefs_lookup in Hb. apply fmap_Some in Hb as (m & Hm & _).
    apply view_map_lookup in Hm as [Hm Hum]. apply (wf_nodes _ (sv_wf _ (go_server _ Hgb1))).
    rewrite <-Hum. by apply list_elem_of_fmap_2.
Qed.

End Theorems.

(** ** Witnesses *)

#[local] Existing Instance lexicographic.
#[local] Instance sample_host : Host := LittleEndian.
#[local] Existing Instance sample_env.

(** A server that has just been started. *)
Definition newcomer : World :=
  sample_world {| sw_sockfd := 3; sw_last_heartbeat := 1766383800; sw_addr := zeros 16; sw_uuid := sample_uuid 5;
     sw_incarnation := 0; sw_view_capacity := 2; sw_view_size := 0;
     sw_view := replicate 2 zero_node;
     sw_probe := {| pr_order := []; pr_pos := 0; pr_size := 0 |} |}.

Lemma newcomer_good : good (w_swim newcomer).
Proof.
  split; [split|].
  - split; simpl; [done|lia|lia| |by left]. split; [constructor|apply not_elem_of_nil].
  - constructor.
  - split; simpl; lia.
  - intros u n Hm. exfalso. by apply view_map_lookup in Hm as [?%elem_of_nil _].
Qed.

Lemma swim_join_end_to_end_witness :
  ∃ join wa1 e_b r_b ds ack wb1 e_a r_a wa2 n,
    swim_cluster_join sample_addr 16 newcomer = (Ok tt, wa1) ∧ w_out wa1 = [] ++ [join] ∧
    swim_recv_event (replicate 2048 xff) blank_event
      {| rc_data := Some (dg_bytes join); rc_addr := sample_addr; rc_addrlen := 16 |}
    = Ok (e_b, r_b) ∧
    swim_process_event e_b sample_addr 16 W = (Ok tt, wb1) ∧
    w_out wb1 = [] ++ ds ++ [ack] ∧ dg_addr ack = sample_addr ∧ dg_addrlen ack = 16 ∧
    view_map (w_swim wb1) = <[sample_uuid 5 := n]> (view_map (w_swim W)) ∧
    node_status n = SWIM_STATUS_ALIVE ∧ ni_addrlen (ns_info n) = 16 ∧
    swim_recv_event (replicate 2048 x00) blank_event
      {| rc_data := Some (dg_bytes ack); rc_addr := sample_addr; rc_addrlen := 16 |}
    = Ok (e_a, r_a) ∧
    swim_process_event e_a sample_addr 16 wa1 = (Ok tt, wa2) ∧
    good (w_swim wb1) ∧ good (w_swim wa2) ∧
    beliefs (w_swim wa2) !! sample_uuid 1 = Some (0, status_code SWIM_STATUS_ALIVE) ∧
    (Z.of_nat (sw_view_size (w_swim wb1)) < SWIM_MAX_GOSSIP_SIZE →
     ∀ u b, u ≠ sample_uuid 5 → beliefs (w_swim wb1) !! u = Some b →
       beliefs (w_swim wa2) !! u = Some b).
Proof.
  apply (swim_join_end_to_end newcomer W).
  - done.
  - done.
  - intros k. vm_compute. done.
  - apply newcomer_good.
  - done.
  - apply sample_good.
  - vm_compute. congruence.
  - apply view_map_None. vm_compute. reflexivity.
  - apply sample_addr_wf.
  - apply sample_addr_wf.
  - rewrite length_replicate. reflexivity.
  - done.
  - rewrite length_replicate. reflexivity.
  - done.
Defined.
