(* ===== verification/Refutation.v ===== *)
(** * Refuting a suspicion

    The suspicion sub-protocol, end to end between three servers: a server that
    is told it is suspected advances its incarnation, and its next event makes
    another server that suspects it, or even believes it to be dead, believe it
    to be alive. *)

From Stdlib Require Import Init.Byte ZArith Lia.
From stdpp Require Import base tactics list vector sorting gmap.
From S2P Require Import Prelude Bytes Node Event Encoding EncodingFacts State StateFacts Samples.
From S2P Require Import Membership Probe Network Cluster Process Protocol Scenarios.

Open Scope Z_scope.

(** ** Hearing about oneself *)

(** Gossip that does not mention the server leaves its incarnation. *)
Lemma hear_all_unmentioned self inc m g inc' m' :
  hear_all self (Running inc m) g = Running inc' m' → self ∉ ni_uuid <$> g → inc' = inc.
Proof.
  revert inc m. induction g as [|i g IH]; intros inc m Hh Hu; [by injection Hh as -> _|].
  rewrite fmap_cons, not_elem_of_cons in Hu. destruct Hu as [Hi Hu].
  change (hear_all self (hear self (Running inc m) i) g = Running inc' m') in Hh.
  unfold hear in Hh at 1. rewrite decide_False in Hh by done. by eapply IH.
Qed.

(** One entry that suspects the server advances its incarnation by one. *)
Lemma hear_all_suspected self inc m g i :
  NoDup (ni_uuid <$> g) → i ∈ g → ni_uuid i = self → ni_status i = SWIM_STATUS_SUSPECT →
  ∃ m', hear_all self (Running inc m) g = Running (to_unsigned 4 (inc + 1)) m'.
Proof.
  intros Hnd Hi Hu Hst. apply list_elem_of_split in Hi as (g1 & g2 & ->).
  rewrite fmap_app, fmap_cons in Hnd.
  assert (self ∉ ni_uuid <$> (g1 ++ g2)) as Hno.
  { rewrite fmap_app. rewrite <-Hu. apply NoDup_cons. by rewrite Permutation_middle. }
  assert (g1 ++ i :: g2 ≡ₚ i :: g1 ++ g2) as Hp by by rewrite Permutation_middle.
  rewrite (hear_all_permutation _ _ _ _ Hp).
  change (∃ m', hear_all self (hear self (Running inc m) i) (g1 ++ g2)
    = Running (to_unsigned 4 (inc + 1)) m').
  unfold hear. rewrite decide_True, Hst by done.
  destruct (hear_all self (Running (to_unsigned 4 (inc + 1)) m) (g1 ++ g2)) as [inc' m'|] eqn:Eh.
  - exists m'. f_equal. by eapply hear_all_unmentioned.
  - apply hear_all_told_dead in Eh as (j & Hj & Huj & _). exfalso. apply Hno.
    rewrite <-Huj. by apply list_elem_of_fmap_2.
Qed.

(** ** Not being told that one is dead *)

(** The server does not believe [u] to be dead. *)
Definition spares (m : gmap uuid_t belief) (u : uuid_t) : Prop :=
  ∀ b, m !! u = Some b → b.2 ≠ status_code SWIM_STATUS_DEAD.

Lemma belief_join_status a b : (belief_join a b).2 = a.2 ∨ (belief_join a b).2 = b.2.
Proof. unfold belief_join. repeat case_match; simpl; lia. Qed.

(** Nobody who spares a node is brought to believe it dead by gossip that does
    not say so. *)
Lemma hear_all_spares self inc m g inc' m' u :
  hear_all self (Running inc m) g = Running inc' m' → spares m u →
  (∀ i, i ∈ g → ni_uuid i = u → status_code (ni_status i) ≠ status_code SWIM_STATUS_DEAD) →
  spares m' u.
Proof.
  revert inc m. induction g as [|i g IH]; intros inc m Hh Hm Hg; [by injection Hh as _ <-|].
  change (hear_all self (hear self (Running inc m) i) g = Running inc' m') in Hh.
  assert (∀ j, j ∈ g → ni_uuid j = u → status_code (ni_status j) ≠ status_code SWIM_STATUS_DEAD)
    as Hg' by (intros j Hj; apply Hg; by right).
  unfold hear in Hh at 1. case_decide.
  - destruct (ni_status i); try (by eapply IH); by rewrite hear_all_terminated in Hh.
  - eapply IH; [exact Hh| |done]. intros b. unfold learn.
    destruct (decide (ni_uuid i = u)) as [<-|Hne]; [|rewrite lookup_insert_ne by done; apply Hm].
    pose proof (Hg i ltac:(by left) eq_refl) as Hi.
    rewrite lookup_insert_eq. intros [= <-]. destruct (m !! ni_uuid i) as [a|] eqn:Ea; [|done].
    destruct (belief_join_status a (info_belief i)) as [-> | ->]; [by apply Hm|done].
Qed.

Lemma notice_node_status t inc n :
  node_status (notice_node t inc n) = node_status n ∨
  node_status (notice_node t inc n) = SWIM_STATUS_ALIVE.
Proof. unfold notice_node. repeat case_match; by (left + right). Qed.

(** [s1] is [s] after an event of [sender] with the given time and incarnation
    has been noticed. *)
Record noticed (sender : uuid_t) (time inc : Z) (s s1 : SWIM) : Prop := {
  nt_uuid : sw_uuid s1 = sw_uuid s;
  nt_incarnation : sw_incarnation s1 = sw_incarnation s;
  nt_map : view_map s1 = alter (notice_node time inc) sender (view_map s);
  nt_size : sw_view_size s1 = sw_view_size s
}.

Lemma noticed_spares sender time inc s s1 u :
  noticed sender time inc s s1 → spares (beliefs s) u → spares (beliefs s1) u.
Proof.
  intros Hn Hsp b. rewrite beliefs_lookup, (nt_map _ _ _ _ _ Hn).
  destruct (decide (sender = u)) as [<-|Hne];
    [|rewrite lookup_alter_ne by done; rewrite <-beliefs_lookup; apply Hsp].
  rewrite lookup_alter_eq. destruct (view_map s !! sender) as [n|] eqn:Hm; [|done].
  intros [= <-].
  change (status_code (node_status (notice_node time inc n)) ≠ status_code SWIM_STATUS_DEAD).
  destruct (notice_node_status time inc n) as [-> | ->]; [|done].
  apply (Hsp (node_belief n)). by rewrite beliefs_lookup, Hm.
Qed.

Lemma noticed_other sender time inc s s1 u :
  noticed sender time inc s s1 → u ≠ sender → beliefs s1 !! u = beliefs s !! u.
Proof.
  intros Hn Hne. by rewrite !beliefs_lookup, (nt_map _ _ _ _ _ Hn), lookup_alter_ne.
Qed.

Section Pinging.
Context {U : UuidLib} {UL : UuidLaws U} {H : Host} {E : Env}.
Hypothesis alloc_ok : ∀ k, env_alloc k = true.
Hypothesis little_endian : host_endian = LittleEndian.
Hypothesis clock : ∀ k, 0 < env_time k < 2 ^ 32.

(** A PING that a server in the state [s] has sent, as the receiver sees it. *)
Lemma ping_honest s k old e :
  good s → announcement s EVENT_TYPE_PING (zeros 16) (env_time k) e →
  length (ev_gossip old) = 11%nat → honest (received_event old e).
Proof.
  intros Hgs Han Hold. pose proof (gossip_size_bound s). pose proof (an_count _ _ _ _ _ Han).
  apply received_honest; try done; [apply Han|lia| |by eapply announcement_known].
  rewrite (an_header _ _ _ _ _ Han). apply clock.
Qed.

(** Noticing the sender of an honest event. *)
Lemma notice_sender e w :
  good (w_swim w) → honest e →
  ∃ r s1, swim_state_notice (eh_uuid (ev_hdr e)) (eh_time (ev_hdr e))
            (eh_incarnation (ev_hdr e)) w = (Ok r, with_swim s1 w) ∧ good s1 ∧
    noticed (eh_uuid (ev_hdr e)) (eh_time (ev_hdr e)) (eh_incarnation (ev_hdr e)) (w_swim w) s1.
Proof.
  intros Hg He. destruct (notice_good e w Hg He) as (r & s1 & Hrun & Hg1 & Hu1 & _).
  exists r, s1. split; [done|]. split; [done|].
  destruct (notice_run (eh_uuid (ev_hdr e)) (eh_time (ev_hdr e)) (eh_incarnation (ev_hdr e)) w
    (sv_wf _ (go_server _ Hg))) as [[Hm Hrun']|(i & n & Hm & Hin & Hrun')].
  - rewrite Hrun' in Hrun. injection Hrun as _ Hw. apply (f_equal w_swim) in Hw. simpl in Hw.
    subst s1. split; try done. by rewrite alter_id by (intros ? Hx; by rewrite Hm in Hx).
  - destruct (good_lookup _ _ _ Hg Hin) as [_ Hk]. rewrite (proj1 Hk) in Hrun'.
    destruct Hrun' as (s2 & Hrun' & Hup). rewrite Hrun' in Hrun. injection Hrun as _ Hw.
    subst s2. split; try apply Hup. pose proof (view_map_lookup _ _ _ Hm) as [_ Hun].
    rewrite (nu_map _ _ _ _ Hup), node_uuid_notice, Hun. apply map_eq. intros u.
    destruct (decide (eh_uuid (ev_hdr e) = u)) as [<-|Hne].
    + by rewrite lookup_insert_eq, lookup_alter_eq, Hm.
    + by rewrite lookup_insert_ne, lookup_alter_ne by done.
Qed.

(** Processing it: the sender is noticed, an ACK is sent, and the gossip is
    heard in the state [s1] after the notice. *)
Lemma ping_processed s k e old addr addrlen w :
  good (w_swim w) → good s → announcement s EVENT_TYPE_PING (zeros 16) (env_time k) e →
  length (ev_gossip old) = 11%nat →
  (¬ ∃ i, i ∈ received_entries old e ∧ ni_uuid i = sw_uuid (w_swim w) ∧
          ni_status i = SWIM_STATUS_DEAD) →
  ∃ s1 d w', swim_process_event (received_event old e) addr addrlen w = (Ok tt, w') ∧
    good (w_swim w') ∧ sw_uuid (w_swim w') = sw_uuid (w_swim w) ∧ good s1 ∧
    noticed (sw_uuid s) (eh_time (ev_hdr (received_event old e))) (sw_incarnation s) (w_swim w) s1 ∧
    hear_all (sw_uuid (w_swim w)) (knowledge s1) (received_entries old e)
      = knowledge (w_swim w') ∧
    w_out w' = w_out w ++ [d] ∧ dg_addr d = addr ∧ dg_addrlen d = addrlen ∧
    carries s1 EVENT_TYPE_ACK (sw_uuid s1) d.
Proof.
  intros Hg Hgs Han Hold Hlive. set (e' := received_event old e).
  assert (honest e') as He by by eapply ping_honest.
  pose proof (gossip_size_bound s) as Hgb. pose proof (an_count _ _ _ _ _ Han) as Hcount.
  assert (eh_type (ev_hdr e') = EVENT_TYPE_PING ∧ eh_uuid (ev_hdr e') = sw_uuid s ∧
    eh_incarnation (ev_hdr e') = sw_incarnation s) as (Ht & Hu & Hi)
    by (unfold e'; simpl; by rewrite (an_header _ _ _ _ _ Han)).
  destruct (notice_sender e' w Hg He) as (r & s1 & Hnotice & Hg1 & Hn1).
  rewrite Hu, Hi in Hn1. pose proof (nt_uuid _ _ _ _ _ Hn1) as Hu1.
  destruct (send_ack_good alloc_ok (sw_uuid s1) addr addrlen (with_swim s1 w) Hg1)
    as (ra & d & w2 & Hack & [Hw2 Ho2] & Hd). simpl in Hw2, Ho2.
  assert (good (w_swim w2)) as Hg2 by by rewrite Hw2.
  pose proof (process_gossip_run alloc_ok e' w2 Hg2 He) as Hgossip.
  unfold e' in Hgossip at 1. rewrite entries_received in Hgossip by (apply Han || lia || done).
  rewrite Hw2, Hu1 in Hgossip. unfold knowledge in Hgossip at 1.
  destruct (hear_all _ _ _) as [inc m|] eqn:Eh.
  2: { exfalso. apply Hlive. by eapply hear_all_told_dead. }
  destruct Hgossip as (w' & Hrun & Hg' & Ho' & Hu' & Hk).
  exists s1, d, w'. split.
  { unfold swim_process_event. rewrite Ht.
    change (swim_event_processing EVENT_TYPE_PING) with (Ok (Some swim_process_ping)).
    rewrite (bind_run (lift (Ok _)) _ w _ w eq_refl), (bind_run _ _ _ _ _ Hnotice).
    rewrite (bind_run (deref (Some _)) _ (with_swim s1 w) _ (with_swim s1 w) eq_refl).
    unfold swim_process_ping. rewrite (bind_run get_swim _ (with_swim s1 w) s1 (with_swim s1 w)) by done.
    by rewrite (bind_run _ _ _ _ _ Hack). }
  split; [done|]. split; [by rewrite Hu'|]. split; [done|]. split; [done|].
  split; [unfold knowledge at 1; by rewrite Eh, Hk|]. split; [by rewrite Ho'|done].
Qed.

(** What a server that spares [u] announces does not declare [u] dead. *)
Lemma announcement_spares s ty su now old e u i :
  swim_wf s → announcement s ty su now e → spares (beliefs s) u →
  i ∈ received_entries old e → ni_uuid i = u →
  status_code (ni_status i) ≠ status_code SWIM_STATUS_DEAD.
Proof.
  intros Hwf Han Hsp Hi Hu.
  destruct (received_member _ _ _ _ _ _ _ Han Hi) as (n & Hn & Hun & ->).
  apply (Hsp (node_belief n)). rewrite beliefs_lookup.
  assert (view_map s !! u = Some n) as ->; [|done].
  apply nodes_map_Some; [eapply nodes_wf_NoDup, Hwf|]. split; [done|congruence].
Qed.

(** Gossip with the whole view of a server that suspects [self] makes [self]
    advance its incarnation. *)
Lemma refutes s1 s self ty su now mem e w suspected :
  hear_all self (knowledge s1) (received_entries mem e) = knowledge w →
  swim_wf s → announcement s ty su now e → length (ev_gossip mem) = 11%nat →
  Z.of_nat (sw_view_size s) < SWIM_MAX_GOSSIP_SIZE →
  view_map s !! self = Some suspected → node_status suspected = SWIM_STATUS_SUSPECT →
  sw_incarnation w = to_unsigned 4 (sw_incarnation s1 + 1).
Proof.
  intros Hh Hwf Han Hmem Hsmall Hm Hst.
  destruct (announcement_complete _ _ _ _ mem e Hwf Han Hmem Hsmall) as [Hu _].
  assert (self ∈ ni_uuid <$> received_entries mem e) as Hin.
  { rewrite Hu. apply view_map_lookup in Hm as [Hm <-]. by apply list_elem_of_fmap_2. }
  apply list_elem_of_fmap in Hin as (i & -> & Hin).
  destruct (received_member _ _ _ _ _ _ _ Han Hin) as (n & Hn & Hun & Hsi).
  assert (view_map s !! ni_uuid i = Some n) as Hn'.
  { apply nodes_map_Some; [eapply nodes_wf_NoDup, Hwf|]. by split. }
  destruct (hear_all_suspected (ni_uuid i) (sw_incarnation s1) (beliefs s1)
    (received_entries mem e) i) as [m' Hr]; [|done|done|congruence|].
  - rewrite Hu. by eapply nodes_wf_NoDup, wf_nodes.
  - unfold knowledge in Hh. rewrite Hr in Hh. by injection Hh as <- _.
Qed.

(** The gossip of a server does not touch what its event has shown about
    itself. *)
Lemma revives s1 s self ty su now mem e w time stale :
  hear_all self (knowledge s1) (received_entries mem e) = knowledge w →
  swim_wf s → announcement s ty su now e →
  view_map s1 !! sw_uuid s = Some (notice_node time (sw_incarnation s) stale) →
  ni_incarnation (ns_info stale) < sw_incarnation s →
  beliefs w !! sw_uuid s = Some (sw_incarnation s, status_code SWIM_STATUS_ALIVE).
Proof.
  intros Hh Hwf Han Hm Hi.
  rewrite (hear_all_other _ _ _ _ _ _ _ Hh) by (by eapply announcement_not_self).
  rewrite beliefs_lookup, Hm. simpl. unfold notice_node.
  by rewrite (proj2 (Z.ltb_lt _ _) Hi).
Qed.

(** One PING from [wa] to [wb], from the call of the sender to the end of the
    processing by the receiver, when the sender spares the receiver. *)
Lemma ping_delivered wa wb to to_len from from_len stack mem :
  good (w_swim wa) → good (w_swim wb) →
  spares (beliefs (w_swim wa)) (sw_uuid (w_swim wb)) →
  Z.of_nat (length stack) = SWIM_MAX_PACKET_SIZE → length (ev_gossip mem) = 11%nat →
  ∃ r ping wa1 e n s1 ack wb1,
    swim_send_ping to to_len wa = (Ok r, wa1) ∧ sends [ping] wa wa1 ∧
    dg_addr ping = to ∧ dg_addrlen ping = to_len ∧
    swim_recv_event stack mem
      {| rc_data := Some (dg_bytes ping); rc_addr := from; rc_addrlen := from_len |}
    = Ok (received_event mem e, n) ∧
    announcement (w_swim wa) EVENT_TYPE_PING (zeros 16) (env_time (w_times wa)) e ∧
    swim_process_event (received_event mem e) from from_len wb = (Ok tt, wb1) ∧
    good (w_swim wb1) ∧ sw_uuid (w_swim wb1) = sw_uuid (w_swim wb) ∧
    good s1 ∧ (∃ time, noticed (sw_uuid (w_swim wa)) time (sw_incarnation (w_swim wa)) (w_swim wb) s1) ∧
    hear_all (sw_uuid (w_swim wb)) (knowledge s1) (received_entries mem e)
      = knowledge (w_swim wb1) ∧
    w_out wb1 = w_out wb ++ [ack] ∧ dg_addr ack = from ∧ dg_addrlen ack = from_len ∧
    carries s1 EVENT_TYPE_ACK (sw_uuid s1) ack.
Proof.
  intros Hga Hgb Hsp Hst Hmem.
  pose proof (announce_run EVENT_TYPE_PING (zeros 16) to to_len wa (go_server _ Hga) ltac:(done))
    as Hsend.
  rewrite alloc_ok, <-send_ping_announce in Hsend. destruct Hsend as (e & wa1 & Hsend & Hs & Han).
  pose proof (gossip_size_bound (w_swim wa)). pose proof (an_count _ _ _ _ _ Han).
  destruct (ping_processed (w_swim wa) (w_times wa) e mem from from_len wb Hgb Hga Han Hmem)
    as (s1 & ack & wb1 & Hproc & Hg1 & Hu1 & Hgs1 & Hn & Hh & Ho & Haddr & Hlen & Hcar).
  { intros (i & Hi & Hu & Hd).
    apply (announcement_spares _ _ _ _ mem e _ i (sv_wf _ (go_server _ Hga)) Han Hsp Hi Hu).
    by rewrite Hd. }
  eexists _, _, wa1, e, _, s1, ack, wb1. split; [exact Hsend|]. split; [exact Hs|].
  split; [done|]. split; [done|].
  split; [apply recv_event_run; [apply Han|lia|done|done]|].
  split_and!; try done. by eexists.
Qed.

End Pinging.

(** ** Theorem *)

Section Theorems.
Context {U : UuidLib} {UL : UuidLaws U} {H : Host} {E : Env}.

(** C11: Refuting a suspicion, end to end.  A server A that suspects B, with a
    view of fewer than ten nodes, pings B; B receives the PING and learns of the
    suspicion from the gossip: its incarnation goes up by one (modulo 2^32).
    When B then pings a third server C that has an older incarnation of B, C
    believes B to be alive with the new incarnation, whatever it believed before
    - even that B is dead.  All servers keep all their invariants.  Nobody may
    believe the server it pings to be dead, since that server would exit. *)
Theorem swim_refutation_end_to_end (wa wb wc : World) (addr_a addr_b addr_c : sockaddr_storage)
  (len_a len_b len_c : Z) (stack_b stack_c : list byte) (mem_b mem_c : Event)
  (suspected stale : NodeState) :
  (∀ k, env_alloc k = true) → host_endian = LittleEndian → (∀ k, 0 < env_time k < 2 ^ 32) →
  good (w_swim wa) → good (w_swim wb) → good (w_swim wc) →
  Z.of_nat (sw_view_size (w_swim wa)) < SWIM_MAX_GOSSIP_SIZE →
  view_map (w_swim wa) !! sw_uuid (w_swim wb) = Some suspected →
  node_status suspected = SWIM_STATUS_SUSPECT →
  spares (beliefs (w_swim wa)) (sw_uuid (w_swim wc)) →
  spares (beliefs (w_swim wb)) (sw_uuid (w_swim wc)) →
  view_map (w_swim wc) !! sw_uuid (w_swim wb) = Some stale →
  ni_incarnation (ns_info stale) < to_unsigned 4 (sw_incarnation (w_swim wb) + 1) →
  Z.of_nat (length stack_b) = SWIM_MAX_PACKET_SIZE → length (ev_gossip mem_b) = 11%nat →
  Z.of_nat (length stack_c) = SWIM_MAX_PACKET_SIZE → length (ev_gossip mem_c) = 11%nat →
  ∃ r1 ping1 wa1 e_b n_b wb1 r2 ping2 wb2 e_c n_c wc1,
    swim_send_ping addr_b len_b wa = (Ok r1, wa1) ∧ sends [ping1] wa wa1 ∧
    swim_recv_event stack_b mem_b
      {| rc_data := Some (dg_bytes ping1); rc_addr := addr_a; rc_addrlen := len_a |}
    = Ok (e_b, n_b) ∧
    swim_process_event e_b addr_a len_a wb = (Ok tt, wb1) ∧
    sw_incarnation (w_swim wb1) = to_unsigned 4 (sw_incarnation (w_swim wb) + 1) ∧
    swim_send_ping addr_c len_c wb1 = (Ok r2, wb2) ∧ sends [ping2] wb1 wb2 ∧
    swim_recv_event stack_c mem_c
      {| rc_data := Some (dg_bytes ping2); rc_addr := addr_b; rc_addrlen := len_b |}
    = Ok (e_c, n_c) ∧
    swim_process_event e_c addr_b len_b wc = (Ok tt, wc1) ∧
    beliefs (w_swim wc1) !! sw_uuid (w_swim wb) =
      Some (to_unsigned 4 (sw_incarnation (w_swim wb) + 1), status_code SWIM_STATUS_ALIVE) ∧
    good (w_swim wa1) ∧ good (w_swim wb2) ∧ good (w_swim wc1).
Proof.
  intros Ha Hle Hclock Hga Hgb Hgc Hsmall Hsus Hsst Hac Hbc Hstale Hinc Hsb Hmb Hsc Hmc.
  assert (spares (beliefs (w_swim wa)) (sw_uuid (w_swim wb))) as Hab.
  { intros b. rewrite beliefs_lookup, Hsus. intros [= <-]. simpl.
    change (status_code (node_status suspected) ≠ status_code SWIM_STATUS_DEAD). by rewrite Hsst. }
  destruct (ping_delivered Ha Hle Hclock wa wb addr_b len_b addr_a len_a stack_b mem_b
    Hga Hgb Hab Hsb Hmb)
    as (r1 & ping1 & wa1 & e1 & n1 & s1 & _ & wb1 & Hsend1 & Hout1 & _ & _ & Hrecv1 & Han1 &
        Hproc1 & Hgb1 & Hub1 & _ & [time1 Hnt1] & Hheard1 & _).
  pose proof (sv_wf _ (go_server _ Hga)) as Hwfa.
  assert (sw_incarnation (w_swim wb1) = to_unsigned 4 (sw_incarnation (w_swim wb) + 1)) as Hnew.
  { rewrite <-(nt_incarnation _ _ _ _ _ Hnt1). by eapply refutes. }
  assert (spares (beliefs (w_swim wb1)) (sw_uuid (w_swim wc))) as Hbc1.
  { eapply hear_all_spares; [exact Hheard1|by eapply noticed_spares|].
    intros i. by eapply announcement_spares. }
  destruct (ping_delivered Ha Hle Hclock wb1 wc addr_c len_c addr_b len_b stack_c mem_c
    Hgb1 Hgc Hbc1 Hsc Hmc)
    as (r2 & ping2 & wb2 & e2 & n2 & s2 & _ & wc1 & Hsend2 & Hout2 & _ & _ & Hrecv2 & Han2 &
        Hproc2 & Hgc1 & _ & _ & [time2 Hnt2] & Hheard2 & _).
  eexists r1, ping1, wa1, _, n1, wb1, r2, ping2, wb2, _, n2, wc1. split_and!; try done.
  - rewrite <-Hnew, <-Hub1.
    eapply (revives _ _ _ _ _ _ _ _ _ time2 stale); [exact Hheard2|apply Hgb1|exact Han2| |].
    + by rewrite (nt_map _ _ _ _ _ Hnt2), lookup_alter_eq, Hub1, Hstale.
    + by rewrite Hnew.
  - by rewrite (proj1 Hout1).
  - by rewrite (proj1 Hout2).
Qed.

End Theorems.

(** ** Witness *)

#[local] Existing Instance lexicographic.
#[local] Instance sample_host : Host := LittleEndian.
#[local] Existing Instance sample_env.

(** The suspected server, in its fourth incarnation, and a server that believes
    it to be dead. *)
Definition accused : World :=
  sample_world {| sw_sockfd := 3; sw_last_heartbeat := 1766383800; sw_addr := zeros 16;
     sw_uuid := sample_uuid 30; sw_incarnation := 4; sw_view_capacity := 2; sw_view_size := 0;
     sw_view := replicate 2 zero_node;
     sw_probe := {| pr_order := []; pr_pos := 0; pr_size := 0 |} |}.

Definition misled : World :=
  sample_world {| sw_sockfd := 3; sw_last_heartbeat := 1766383800; sw_addr := zeros 16;
     sw_uuid := sample_uuid 40; sw_incarnation := 0; sw_view_capacity := 2; sw_view_size := 1;
     sw_view := [sample_node 30 SWIM_STATUS_DEAD 1766383000 4; zero_node];
     sw_probe := {| pr_order := []; pr_pos := 0; pr_size := 0 |} |}.

Lemma accused_good : good (w_swim accused).
Proof.
  split; [split|].
  - split; simpl; [done|lia|lia| |by left]. split; [constructor|apply not_elem_of_nil].
  - constructor.
  - split; simpl; lia.
  - intros u n Hm. exfalso. by apply view_map_lookup in Hm as [?%elem_of_nil _].
Qed.

Lemma misled_good : good (w_swim misled).
Proof.
  split; [split|].
  - split; simpl; [done|lia|lia| |by left]. apply nodes_wfb_sound. vm_compute. reflexivity.
  - constructor; [|constructor]. split; simpl; first [apply sample_addr_wf|split; simpl; lia|done].
  - split; simpl; lia.
  - intros u n Hm. apply view_map_lookup in Hm as [Hm _].
    apply list_elem_of_singleton in Hm as ->. done.
Qed.

Lemma swim_refutation_end_to_end_witness :
  ∃ r1 ping1 wa1 e_b n_b wb1 r2 ping2 wb2 e_c n_c wc1,
    swim_send_ping sample_addr 16 W = (Ok r1, wa1) ∧ sends [ping1] W wa1 ∧
    swim_recv_event (replicate 2048 x00) blank_event
      {| rc_data := Some (dg_bytes ping1); rc_addr := sample_addr; rc_addrlen := 16 |}
    = Ok (e_b, n_b) ∧
    swim_process_event e_b sample_addr 16 accused = (Ok tt, wb1) ∧
    sw_incarnation (w_swim wb1) = 5 ∧
    swim_send_ping sample_addr 16 wb1 = (Ok r2, wb2) ∧ sends [ping2] wb1 wb2 ∧
    swim_recv_event (replicate 2048 xff) blank_event
      {| rc_data := Some (dg_bytes ping2); rc_addr := sample_addr; rc_addrlen := 16 |}
    = Ok (e_c, n_c) ∧
    swim_process_event e_c sample_addr 16 misled = (Ok tt, wc1) ∧
    beliefs (w_swim wc1) !! sample_uuid 30 = Some (5, status_code SWIM_STATUS_ALIVE) ∧
    good (w_swim wa1) ∧ good (w_swim wb2) ∧ good (w_swim wc1).
Proof.
  apply (swim_refutation_end_to_end W accused misled sample_addr sample_addr sample_addr 16 16 16
    (replicate 2048 x00) (replicate 2048 xff) blank_event blank_event
    (sample_node 30 SWIM_STATUS_SUSPECT 1766383800 4) (sample_node 30 SWIM_STATUS_DEAD 1766383000 4)).
  - done.
  - done.
  - intros k. vm_compute. done.
  - apply sample_good.
  - apply accused_good.
  - apply misled_good.
  - reflexivity.
  - vm_compute. reflexivity.
  - reflexivity.
  - intros b Hb. vm_compute in Hb. discriminate Hb.
  - intros b Hb. vm_compute in Hb. discriminate Hb.
  - vm_compute. reflexivity.
  - reflexivity.
  - rewrite length_replicate. reflexivity.
  - reflexivity.
  - rewrite length_replicate. reflexivity.
  - reflexivity.
Defined.
