(* ===== verification/Convergence.v ===== *)
(** * Agreement after one exchange

    A PING carries the view of its sender, and the ACK that answers it the view
    of the receiver from before the PING's gossip was heard.  Both servers end
    with the join of the two views, so that they agree about everybody else. *)

From Stdlib Require Import Init.Byte ZArith Lia.
From stdpp Require Import base tactics list vector sorting gmap.
From S2P Require Import Prelude Bytes Node Event Encoding EncodingFacts State StateFacts Samples.
From S2P Require Import Membership Probe Network Cluster Process Protocol Scenarios Refutation.

Open Scope Z_scope.

(** The join of what two servers believe about a node. *)
Definition agreed (a b : option belief) : option belief :=
  union_with (λ a b, Some (belief_join a b)) a b.

#[export] Instance agreed_comm : Comm (=) agreed.
Proof. intros [a|] [b|]; simpl; try done. by rewrite (comm_L belief_join). Qed.

(** Gossip that mentions a node once joins what it says to what was known. *)
Lemma hear_all_join self inc m g inc' m' i :
  hear_all self (Running inc m) g = Running inc' m' → NoDup (ni_uuid <$> g) → i ∈ g →
  ni_uuid i ≠ self → m' !! ni_uuid i = agreed (m !! ni_uuid i) (Some (info_belief i)).
Proof.
  revert inc m. induction g as [|j g IH]; intros inc m Hh Hnd Hi Hne; [by apply elem_of_nil in Hi|].
  rewrite fmap_cons, NoDup_cons in Hnd. destruct Hnd as [Hj Hnd].
  change (hear_all self (hear self (Running inc m) j) g = Running inc' m') in Hh.
  apply elem_of_cons in Hi as [<-|Hi].
  - unfold hear in Hh at 1. rewrite decide_False in Hh by done.
    rewrite (hear_all_other _ _ _ _ _ _ _ Hh Hj). unfold learn. rewrite lookup_insert_eq.
    by destruct (m !! ni_uuid i).
  - assert (ni_uuid j ≠ ni_uuid i) as Hij.
    { intros Heq. apply Hj. rewrite Heq. by apply list_elem_of_fmap_2. }
    unfold hear in Hh at 1. case_decide.
    + destruct (ni_status j); try (by eapply IH); by rewrite hear_all_terminated in Hh.
    + rewrite (IH _ _ Hh Hnd Hi Hne). unfold learn. by rewrite lookup_insert_ne.
Qed.

Section Exchange.
Context {U : UuidLib} {UL : UuidLaws U} {H : Host} {E : Env}.

(** Hearing the whole view of [s]. *)
Lemma heard_join s self inc m g inc' m' u :
  hear_all self (Running inc m) g = Running inc' m' → swim_wf s →
  ni_uuid <$> g = uuids s → info_belief <$> g = node_belief <$> live s →
  u ≠ self → m' !! u = agreed (m !! u) (beliefs s !! u).
Proof.
  intros Hh Hwf Hu Hb Hne. rewrite beliefs_lookup.
  assert (NoDup (ni_uuid <$> g)) as Hnd by (rewrite Hu; by eapply nodes_wf_NoDup, wf_nodes).
  destruct (view_map s !! u) as [n|] eqn:Hn.
  - apply view_map_lookup in Hn as [Hn Hun]. apply list_elem_of_lookup in Hn as [j Hj].
    assert (ni_uuid <$> g !! j = Some u) as Hgu.
    { rewrite <-list_lookup_fmap, Hu. unfold uuids. by rewrite list_lookup_fmap, Hj, <-Hun. }
    apply fmap_Some in Hgu as (i & Hi & ->).
    assert (info_belief <$> g !! j = node_belief <$> live s !! j) as Hij
      by by rewrite <-!list_lookup_fmap, Hb.
    rewrite Hi, Hj in Hij. apply (inj Some) in Hij.
    change (node_belief <$> Some n) with (Some (node_belief n)). rewrite <-Hij.
    eapply hear_all_join; [exact Hh|done|by eapply list_elem_of_lookup_2|done].
  - rewrite (hear_all_other _ _ _ _ _ _ _ Hh).
    + by destruct (m !! u).
    + rewrite Hu. by apply nodes_map_None.
Qed.

Hypothesis alloc_ok : ∀ k, env_alloc k = true.
Hypothesis little_endian : host_endian = LittleEndian.
Hypothesis clock : ∀ k, 0 < env_time k < 2 ^ 32.

(** The ACK of [s] about itself, processed by a server that has it in its
    view: the beliefs about others are joined. *)
Lemma ack_heard s k e mem addr addrlen w n :
  good (w_swim w) → good s → announcement s EVENT_TYPE_ACK (sw_uuid s) (env_time k) e →
  length (ev_gossip mem) = 11%nat → wf_sockaddr addrlen →
  Z.of_nat (sw_view_size s) < SWIM_MAX_GOSSIP_SIZE →
  view_map (w_swim w) !! sw_uuid s = Some n →
  spares (beliefs s) (sw_uuid (w_swim w)) →
  ∃ w', swim_process_event (received_event mem e) addr addrlen w = (Ok tt, w') ∧
    good (w_swim w') ∧
    ∀ u, u ≠ sw_uuid (w_swim w) → u ≠ sw_uuid s →
      beliefs (w_swim w') !! u = agreed (beliefs (w_swim w) !! u) (beliefs s !! u).
Proof.
  intros Hg Hgs Han Hmem Hl Hsmall Hn Hsp. set (e' := received_event mem e).
  pose proof (gossip_size_bound s) as Hgb. pose proof (an_count _ _ _ _ _ Han) as Hcount.
  assert (honest e') as He.
  { apply received_honest; try done; [apply Han|lia| |by eapply announcement_known].
    rewrite (an_header _ _ _ _ _ Han). apply clock. }
  assert (eh_type (ev_hdr e') = EVENT_TYPE_ACK ∧ eh_uuid (ev_hdr e') = sw_uuid s ∧
    ack_uuid e' = sw_uuid s) as (Ht & Hu & Hack).
  { unfold e', ack_uuid. simpl. rewrite (an_header _ _ _ _ _ Han). split_and!; try done. apply Han. }
  destruct (notice_sender e' w Hg He) as (r & s1 & Hnotice & Hg1 & Hnt). rewrite Hu in Hnt.
  destruct (ack_known_run alloc_ok e' addr addrlen
    (notice_node (eh_time (ev_hdr e')) (eh_incarnation (ev_hdr e')) n) (with_swim s1 w) Hg1 He Hl)
    as (ds & w1 & Hrun & Hm1 & _ & Hgw1 & Hself & _).
  { rewrite Hack. change (w_swim (with_swim s1 w)) with s1.
    by rewrite (nt_map _ _ _ _ _ Hnt), lookup_alter_eq, Hn. }
  pose proof (process_gossip_run alloc_ok e' w1 Hgw1 He) as Hgossip.
  unfold e' in Hgossip at 1. rewrite entries_received in Hgossip by (apply Han || lia || done).
  pose proof (same_uuid _ _ Hself) as Hu1. simpl in Hu1. rewrite (nt_uuid _ _ _ _ _ Hnt) in Hu1.
  rewrite Hu1 in Hgossip. unfold knowledge in Hgossip at 1.
  destruct (hear_all _ _ _) as [inc m|] eqn:Eh.
  2: { exfalso. apply hear_all_told_dead in Eh as (i & Hi & Hui & Hd).
       apply (announcement_spares _ _ _ _ mem e _ i (sv_wf _ (go_server _ Hgs)) Han Hsp Hi Hui).
       by rewrite Hd. }
  destruct Hgossip as (w' & Hrun' & Hg' & _ & _ & Hk). exists w'. split; [|split; [done|]].
  - unfold swim_process_event. rewrite Ht.
    change (swim_event_processing EVENT_TYPE_ACK) with (Ok (Some swim_process_ack)).
    rewrite (bind_run (lift (Ok _)) _ w _ w eq_refl), (bind_run _ _ _ _ _ Hnotice).
    rewrite (bind_run (deref (Some _)) _ (with_swim s1 w) _ (with_swim s1 w) eq_refl).
    by rewrite Hrun.
  - intros u Hus Hub. unfold knowledge in Hk. injection Hk as _ ->.
    destruct (announcement_complete _ _ _ _ mem e (sv_wf _ (go_server _ Hgs)) Han Hmem Hsmall)
      as [Huu Hbb].
    rewrite (heard_join s _ _ _ _ _ _ u Eh (sv_wf _ (go_server _ Hgs)) Huu Hbb Hus).
    f_equal. rewrite !beliefs_lookup, Hm1, Hack, lookup_insert_ne by done. simpl.
    by rewrite (nt_map _ _ _ _ _ Hnt), lookup_alter_ne.
Qed.

End Exchange.

(** ** Theorem *)

Section Theorems.
Context {U : UuidLib} {UL : UuidLaws U} {H : Host} {E : Env}.

(** C12: One exchange makes two servers agree about everybody else.  A server A
    with B in its view pings B; B receives and processes the PING, and sends one
    datagram, to the address the PING came from; A receives and processes that
    datagram.  Afterwards both believe about every third node, known to either
    of them or not, the same: the join of what A and what B believed before -
    the highest incarnation, and the worst status heard for it.  Both keep all
    their invariants.  The views have fewer than ten nodes, so that they fit in
    the gossip, and neither server believes the other to be dead. *)
Theorem swim_exchange_converges (wa wb : World) (addr_a addr_b : sockaddr_storage)
  (len_a len_b : Z) (stack_a stack_b : list byte) (mem_a mem_b : Event) (node_b : NodeState) :
  (∀ k, env_alloc k = true) → host_endian = LittleEndian → (∀ k, 0 < env_time k < 2 ^ 32) →
  good (w_swim wa) → good (w_swim wb) → wf_sockaddr len_b →
  Z.of_nat (sw_view_size (w_swim wa)) < SWIM_MAX_GOSSIP_SIZE →
  Z.of_nat (sw_view_size (w_swim wb)) < SWIM_MAX_GOSSIP_SIZE →
  view_map (w_swim wa) !! sw_uuid (w_swim wb) = Some node_b →
  spares (beliefs (w_swim wa)) (sw_uuid (w_swim wb)) →
  spares (beliefs (w_swim wb)) (sw_uuid (w_swim wa)) →
  Z.of_nat (length stack_a) = SWIM_MAX_PACKET_SIZE → length (ev_gossip mem_a) = 11%nat →
  Z.of_nat (length stack_b) = SWIM_MAX_PACKET_SIZE → length (ev_gossip mem_b) = 11%nat →
  ∃ r ping wa1 e_b n_b wb1 ack e_a n_a wa2,
    swim_send_ping addr_b len_b wa = (Ok r, wa1) ∧ sends [ping] wa wa1 ∧
    swim_recv_event stack_b mem_b
      {| rc_data := Some (dg_bytes ping); rc_addr := addr_a; rc_addrlen := len_a |}
    = Ok (e_b, n_b) ∧
    swim_process_event e_b addr_a len_a wb = (Ok tt, wb1) ∧
    w_out wb1 = w_out wb ++ [ack] ∧ dg_addr ack = addr_a ∧ dg_addrlen ack = len_a ∧
    swim_recv_event stack_a mem_a
      {| rc_data := Some (dg_bytes ack); rc_addr := addr_b; rc_addrlen := len_b |}
    = Ok (e_a, n_a) ∧
    swim_process_event e_a addr_b len_b wa1 = (Ok tt, wa2) ∧
    good (w_swim wa2) ∧ good (w_swim wb1) ∧
    ∀ u, u ≠ sw_uuid (w_swim wa) → u ≠ sw_uuid (w_swim wb) →
      beliefs (w_swim wa2) !! u = agreed (beliefs (w_swim wa) !! u) (beliefs (w_swim wb) !! u) ∧
      beliefs (w_swim wb1) !! u = beliefs (w_swim wa2) !! u.
Proof.
  intros Ha Hle Hclock Hga Hgb Hlen Hsa Hsb Hnode Hab Hba Hsta Hma Hstb Hmb.
  destruct (ping_delivered Ha Hle Hclock wa wb addr_b len_b addr_a len_a stack_b mem_b
    Hga Hgb Hab Hstb Hmb)
    as (r & ping & wa1 & e & n & s1 & ack & wb1 & Hsend & Hout & _ & _ & Hrecv & Han &
        Hproc & Hgb1 & Hub1 & Hgs1 & [time Hnt] & Hheard & Hsent & Haddr & Hlena & Hcar).
  destruct Hcar as (k & ea & Hbytes & Hana). pose proof (nt_uuid _ _ _ _ _ Hnt) as Hu1.
  destruct (ack_heard Ha Hle Hclock s1 k ea mem_a addr_b len_b wa1 node_b)
    as (wa2 & Hproca & Hga2 & Hbel); try done.
  { by rewrite (proj1 Hout). }
  { by rewrite (nt_size _ _ _ _ _ Hnt). }
  { by rewrite (proj1 Hout), Hu1. }
  { rewrite (proj1 Hout). by eapply noticed_spares. }
  rewrite (proj1 Hout), Hu1 in Hbel.
  pose proof (gossip_size_bound s1). pose proof (an_count _ _ _ _ _ Hana).
  eexists r, ping, wa1, _, n, wb1, ack, (received_event mem_a ea), _, wa2. split_and!; try done.
  { rewrite Hbytes. apply recv_event_run; [apply Hana|lia|done|done]. }
  intros u Hna Hnb. rewrite (Hbel u Hna Hnb), (noticed_other _ _ _ _ _ _ Hnt Hna). split; [done|].
  destruct (announcement_complete _ _ _ _ mem_b e (sv_wf _ (go_server _ Hga)) Han Hmb Hsa)
    as [Huu Hbb].
  rewrite (heard_join (w_swim wa) _ _ _ _ _ _ u Hheard (sv_wf _ (go_server _ Hga)) Huu Hbb Hnb).
  by rewrite (noticed_other _ _ _ _ _ _ Hnt Hna), (comm agreed).
Qed.

End Theorems.

(** ** Witness *)

#[local] Existing Instance lexicographic.
#[local] Instance sample_host : Host := LittleEndian.
#[local] Existing Instance sample_env.

(** A server that knows one node better than the server of the samples, one
    worse, and one that it does not know. *)
Definition partner : World :=
  sample_world {| sw_sockfd := 3; sw_last_heartbeat := 1766383800; sw_addr := zeros 16;
     sw_uuid := sample_uuid 30; sw_incarnation := 4; sw_view_capacity := 3; sw_view_size := 3;
     sw_view := [sample_node 10 SWIM_STATUS_DEAD 1766383000 7;
                 sample_node 20 SWIM_STATUS_ALIVE 1766383000 0;
                 sample_node 40 SWIM_STATUS_ALIVE 1766383000 2];
     sw_probe := {| pr_order := []; pr_pos := 0; pr_size := 0 |} |}.

Lemma partner_good : good (w_swim partner).
Proof.
  split; [split|].
  - split; simpl; [done|lia|lia| |by left]. apply nodes_wfb_sound. vm_compute. reflexivity.
  - repeat constructor; simpl; first [apply sample_addr_wf|lia|done].
  - split; simpl; lia.
  - intros u n Hm. apply view_map_lookup in Hm as [Hm _].
    repeat (apply elem_of_cons in Hm as [->|Hm]; [done|]). by apply elem_of_nil in Hm.
Qed.

Lemma swim_exchange_converges_witness :
  ∃ r ping wa1 e_b n_b wb1 ack e_a n_a wa2,
    swim_send_ping sample_addr 16 W = (Ok r, wa1) ∧ sends [ping] W wa1 ∧
    swim_recv_event (replicate 2048 x00) blank_event
      {| rc_data := Some (dg_bytes ping); rc_addr := sample_addr; rc_addrlen := 16 |}
    = Ok (e_b, n_b) ∧
    swim_process_event e_b sample_addr 16 partner = (Ok tt, wb1) ∧
    w_out wb1 = [] ++ [ack] ∧ dg_addr ack = sample_addr ∧ dg_addrlen ack = 16 ∧
    swim_recv_event (replicate 2048 xff) blank_event
      {| rc_data := Some (dg_bytes ack); rc_addr := sample_addr; rc_addrlen := 16 |}
    = Ok (e_a, n_a) ∧
    swim_process_event e_a sample_addr 16 wa1 = (Ok tt, wa2) ∧
    good (w_swim wa2) ∧ good (w_swim wb1) ∧
    Forall (λ '(u, b), beliefs (w_swim wa2) !! sample_uuid u = Some b ∧
                       beliefs (w_swim wb1) !! sample_uuid u = Some b)
      [(10, (7, status_code SWIM_STATUS_DEAD)); (20, (1, status_code SWIM_STATUS_DEAD));
       (40, (2, status_code SWIM_STATUS_ALIVE))].
Proof.
  destruct (swim_exchange_converges W partner sample_addr sample_addr 16 16
    (replicate 2048 xff) (replicate 2048 x00) blank_event blank_event
    (sample_node 30 SWIM_STATUS_SUSPECT 1766383800 4))
    as (r & ping & wa1 & e_b & n_b & wb1 & ack & e_a & n_a & wa2 &
        H1 & H2 & H3 & H4 & H5 & H6 & H7 & H8 & H9 & H10 & H11 & Hall).
  - done.
  - done.
  - intros k. vm_compute. done.
  - apply sample_good.
  - apply partner_good.
  - apply sample_addr_wf.
  - reflexivity.
  - reflexivity.
  - vm_compute. reflexivity.
  - intros b Hb. vm_compute in Hb. injection Hb as <-. discriminate.
  - intros b Hb. vm_compute in Hb. discriminate Hb.
  - rewrite length_replicate. reflexivity.
  - reflexivity.
  - rewrite length_replicate. reflexivity.
  - reflexivity.
  - exists r, ping, wa1, e_b, n_b, wb1, ack, e_a, n_a, wa2. split_and!; try assumption.
    assert (∀ u b, sample_uuid u ≠ sample_uuid 1 → sample_uuid u ≠ sample_uuid 30 →
      agreed (beliefs (w_swim W) !! sample_uuid u) (beliefs (w_swim partner) !! sample_uuid u)
        = Some b →
      beliefs (w_swim wa2) !! sample_uuid u = Some b ∧
      beliefs (w_swim wb1) !! sample_uuid u = Some b) as Hboth.
    { intros u b Hua Hub <-. destruct (Hall (sample_uuid u) Hua Hub) as [<- Hb]. by split. }
    apply Forall_cons; split; [|apply Forall_cons; split; [|apply Forall_cons; split; [|done]]];
      (apply Hboth; [by vm_compute|by vm_compute|vm_compute; reflexivity]).
Defined.
