(* ===== verification/Evolution.v ===== *)
(** * How a server evolves

    What a server believes and sends stays within what the nodes themselves
    have announced: given a bound on the incarnation of every node that holds
    for the view, for the event received and for the server itself, it holds
    for the view and for everything sent afterwards.  No node is forgotten, and
    no incarnation goes back, that of the server itself as long as it does not
    wrap around.  The calculus follows the code: [steady] for the
    parts that leave the server's own incarnation alone, gossip apart. *)

From Stdlib Require Import Init.Byte ZArith Lia.
From stdpp Require Import base tactics list vector sorting gmap.
From S2P Require Import Prelude Bytes Node Event Encoding EncodingFacts State StateFacts Samples.
From S2P Require Import Membership Probe Network Cluster Process Protocol Scenarios.

Open Scope Z_scope.

(** ** Sound entries, events and packets *)

(** An upper bound for the incarnation of every node. *)
Definition bound : Type := uuid_t → Z.

(** The entry claims no incarnation its node has not reached, and its status is
    a value of the enumeration. *)
Definition sound (B : bound) (i : NodeInfo) : Prop :=
  ni_incarnation i ≤ B (ni_uuid i) ∧ status_valid (ni_status i).

Record sound_event (B : bound) (e : Event) : Prop := {
  se_wf : wf_event e;
  se_count : ev_gossip_count e ≤ 11;
  se_sender : eh_incarnation (ev_hdr e) ≤ B (eh_uuid (ev_hdr e));
  se_gossip : Forall (sound B) (ev_entries e)
}.

Definition sound_packet `{Host} (B : bound) (d : Datagram) : Prop :=
  ∃ e, dg_bytes d = event_bytes e ∧ sound_event B e.

(** Every node of [s0] is still in the view, with an incarnation that is not
    lower. *)
Definition remembers (s0 s : SWIM) : Prop :=
  ∀ u n0, view_map s0 !! u = Some n0 →
    ∃ n, view_map s !! u = Some n ∧ ni_incarnation (ns_info n0) ≤ ni_incarnation (ns_info n).

#[export] Instance remembers_preorder : PreOrder remembers.
Proof.
  split; [by intros s u n ?; exists n|]. intros s1 s2 s3 H12 H23 u n1 Hn1.
  destruct (H12 u n1 Hn1) as (n2 & Hn2 & ?). destruct (H23 u n2 Hn2) as (n3 & ? & ?).
  exists n3. split; [done|lia].
Qed.

(** The state and the output of a server that was in the state [s0]. *)
Record evolved `{UuidLib} `{Host} (B : bound) (s0 : SWIM) (w : World) : Prop := {
  ev_server : server_wf (w_swim w);
  ev_self : sw_uuid (w_swim w) = sw_uuid s0;
  ev_sound : ∀ u n, view_map (w_swim w) !! u = Some n → sound B (ns_info n);
  ev_memory : remembers s0 (w_swim w);
  ev_out : Forall (sound_packet B) (w_out w)
}.

Definition bound_le (B B' : bound) : Prop := ∀ u, B u ≤ B' u.

Section Weakening.
Context {U : UuidLib} {UL : UuidLaws U} {H : Host}.

Lemma sound_le B B' i : bound_le B B' → sound B i → sound B' i.
Proof. intros Hle [? ?]. split; [|done]. specialize (Hle (ni_uuid i)). lia. Qed.

Lemma sound_event_le B B' e : bound_le B B' → sound_event B e → sound_event B' e.
Proof.
  intros Hle [? ? ? ?]. split; [done..| |].
  - specialize (Hle (eh_uuid (ev_hdr e))). lia.
  - eapply Forall_impl; [done|]. intros i. by apply sound_le.
Qed.

Lemma sound_packet_le B B' d : bound_le B B' → sound_packet B d → sound_packet B' d.
Proof. intros Hle (e & ? & ?). exists e. split; [done|]. by eapply sound_event_le. Qed.

Lemma evolved_le B B' s0 w : bound_le B B' → evolved B s0 w → evolved B' s0 w.
Proof.
  intros Hle [? ? Hv ? Ho]. split; [done|done| |done|].
  - intros u n Hn. eapply sound_le; [done|]. by eapply Hv.
  - eapply Forall_impl; [done|]. intros d. by apply sound_packet_le.
Qed.

(** An evolution in two parts. *)
Lemma evolved_from B s0 s1 w : evolved B s1 w → sw_uuid s1 = sw_uuid s0 → remembers s0 s1 →
  evolved B s0 w.
Proof. intros [? ? ? ? ?] Hu Hr. split; [done|congruence|done| |done]. by transitivity s1. Qed.

Lemma evolved_start B w :
  server_wf (w_swim w) → (∀ u n, view_map (w_swim w) !! u = Some n → sound B (ns_info n)) →
  Forall (sound_packet B) (w_out w) → evolved B (w_swim w) w.
Proof. by split. Qed.

(** What decoding makes of an event keeps it sound. *)
Lemma received_sound B old e :
  length (ev_gossip old) = 11%nat → wf_event (received_event old e) → sound_event B e →
  sound_event B (received_event old e).
Proof.
  intros Hold Hwf [He Hc Hs Hg]. split; [done|done|done|].
  rewrite entries_received by done. by apply Forall_received.
Qed.

Lemma announcement_sound B s t u now e :
  server_wf s → (∀ u n, view_map s !! u = Some n → sound B (ns_info n)) →
  sw_incarnation s ≤ B (sw_uuid s) → announcement s t u now e → sound_event B e.
Proof.
  intros Hs Hv Hi Han. pose proof (gossip_size_bound s). split.
  - apply Han.
  - rewrite (an_count _ _ _ _ _ Han). lia.
  - by rewrite (an_header _ _ _ _ _ Han).
  - apply Forall_take, (Forall_impl _ _ _ (an_members _ _ _ _ _ Han)).
    intros i (n & Hn & ->). apply (Hv (node_uuid n)), nodes_map_Some; [|done].
    eapply nodes_wf_NoDup, Hs.
Qed.

End Weakening.

(** ** Steps that leave the server's incarnation alone *)

Section Steady.
Context {U : UuidLib} {UL : UuidLaws U} {H : Host} {E : Env}.
Variables (B : bound) (s0 : SWIM) (inc : Z).

Definition settled (w : World) : Prop := evolved B s0 w ∧ sw_incarnation (w_swim w) = inc.

(** Whatever the outcome of [m], the server is settled if it was before. *)
Definition steady {A} (m : M A) : Prop := ∀ w, settled w → settled (m w).2.

Lemma steady_ret {A} (a : A) : steady (mret a).
Proof. by intros w Hw. Qed.

Lemma steady_lift {A} (o : outcome A) : steady (lift o).
Proof. by intros w Hw. Qed.

Lemma steady_bind {A C} (m : M A) (k : A → M C) :
  steady m → (∀ a, steady (k a)) → steady (a ← m; k a).
Proof.
  intros Hm Hk w Hw. specialize (Hm w Hw). unfold mbind, M_bind.
  destruct (m w) as [[a|f] w1]; [by apply Hk|done].
Qed.

Lemma steady_lift_bind {A C} (o : outcome A) (k : A → M C) :
  (∀ a, o = Ok a → steady (k a)) → steady (a ← lift o; k a).
Proof. intros Hk w Hw. unfold mbind, M_bind, lift. destruct o; [by apply Hk|done]. Qed.

(** The state read is the current one. *)
Lemma steady_get {A} (k : SWIM → M A) :
  (∀ w, settled w → settled (k (w_swim w) w).2) → steady (s ← get_swim; k s).
Proof. intros Hk w Hw. by apply Hk. Qed.

Lemma settled_quiet w w' : quiet w w' → settled w → settled w'.
Proof. intros [Hs Ho] [[? ? ? ? ?] ?]. unfold settled. split; [split|]; by rewrite ?Hs, ?Ho. Qed.

Lemma steady_quiet {A} (m : M A) : (∀ w, quiet w (m w).2) → steady m.
Proof. intros Hm w Hw. by apply (settled_quiet w). Qed.

Lemma steady_node_at i : steady (node_at i).
Proof.
  apply steady_get. intros w Hw. by destruct (sw_view (w_swim w) !! i).
Qed.

Lemma steady_deref {A} (p : option A) : steady (deref p).
Proof. destruct p; [apply steady_ret|apply steady_lift]. Qed.

Lemma steady_time : steady time.
Proof. by apply steady_quiet. Qed.

Lemma steady_random_index : steady random_index.
Proof.
  apply steady_bind; [by apply steady_quiet|]. intros r. apply steady_get. intros w Hw.
  by case_match.
Qed.

Lemma steady_for_each {S} (l : list nat) (body : nat → S → M S) state :
  (∀ i s, steady (body i s)) → steady (for_each l body state).
Proof.
  intros Hb. revert state. induction l as [|i l IH]; intros state; cbn [for_each];
    [apply steady_ret|]. apply steady_bind; [done|]. intros s. apply IH.
Qed.

(** Replacing a node by a sound one that is not older. *)
Lemma settled_updated w i n n' s' :
  settled w → live (w_swim w) !! i = Some n → node_updated (w_swim w) i n' s' →
  node_uuid n' = node_uuid n → wf_info (ns_info n') → sound B (ns_info n') →
  ni_incarnation (ns_info n) ≤ ni_incarnation (ns_info n') → settled (with_swim s' w).
Proof.
  intros [[Hs Hu Hv Hr Ho] Hi] Hn Hup Hun Hwf Hsound Hle. split; [split|]; simpl.
  - by eapply server_updated.
  - by rewrite (same_uuid _ _ (nu_same _ _ _ _ Hup)).
  - intros u m. rewrite (nu_map _ _ _ _ Hup). intros [[_ <-]|[_ ?]]%lookup_insert_Some; [done|].
    by eapply Hv.
  - intros u n0 Hn0. destruct (Hr u n0 Hn0) as (m & Hm & ?). rewrite (nu_map _ _ _ _ Hup).
    destruct (decide (node_uuid n' = u)) as [<-|Hne].
    + exists n'. rewrite lookup_insert_eq. split; [done|].
      assert (view_map (w_swim w) !! node_uuid n' = Some n) as Hn'.
      { apply nodes_map_Some; [eapply nodes_wf_NoDup, wf_nodes, Hs|].
        split; [by eapply list_elem_of_lookup_2|done]. }
      rewrite Hn' in Hm. simplify_eq. lia.
    + exists m. by rewrite lookup_insert_ne.
  - done.
  - by rewrite (same_incarnation _ _ (nu_same _ _ _ _ Hup)).
Qed.

Lemma settled_added w w' info cell :
  settled w → node_added (w_swim w) info cell (w_swim w') → w_out w' = w_out w →
  view_map (w_swim w) !! ni_uuid info = None → wf_info info → sound B info → settled w'.
Proof.
  intros [[Hs Hu Hv Hr Ho] Hi] Hadd Hout Hnew Hwf Hsound. split; [split|].
  - by eapply server_added.
  - by rewrite (same_uuid _ _ (na_same _ _ _ _ Hadd)).
  - intros u m. rewrite (na_map _ _ _ _ Hadd). intros [[_ <-]|[_ ?]]%lookup_insert_Some; [done|].
    by eapply Hv.
  - intros u n0 Hn0. destruct (Hr u n0 Hn0) as (m & Hm & ?). exists m.
    rewrite (na_map _ _ _ _ Hadd), lookup_insert_ne; [done|]. congruence.
  - by rewrite Hout.
  - by rewrite (same_incarnation _ _ (na_same _ _ _ _ Hadd)).
Qed.

Lemma settled_sends w w' ds :
  settled w → sends ds w w' → Forall (sound_packet B) ds → settled w'.
Proof.
  intros [[? ? ? ? ?] ?] [Hs Ho] Hds. split; [split|]; rewrite ?Hs, ?Ho; try done.
  by apply Forall_app.
Qed.

(** Assignments that neither change who a node is nor lower its incarnation. *)
Record harmless (f : NodeState → NodeState) : Prop := {
  ha_uuid n : node_uuid (f n) = node_uuid n;
  ha_wf n : wf_info (ns_info n) → wf_info (ns_info (f n));
  ha_sound n : sound B (ns_info n) → sound B (ns_info (f n));
  ha_incarnation n : ni_incarnation (ns_info n) ≤ ni_incarnation (ns_info (f n))
}.

Lemma live_sound w i n :
  settled w → live (w_swim w) !! i = Some n → wf_info (ns_info n) ∧ sound B (ns_info n).
Proof.
  intros [[Hs _ Hv _ _] _] Hn. split; [eapply live_info_wf; [apply Hs|done]|].
  apply (Hv (node_uuid n)), nodes_map_Some; [eapply nodes_wf_NoDup, wf_nodes, Hs|].
  split; [by eapply list_elem_of_lookup_2|done].
Qed.

Lemma settled_harmless w i n f s' :
  harmless f → settled w → live (w_swim w) !! i = Some n →
  node_updated (w_swim w) i (f n) s' → settled (with_swim s' w).
Proof.
  intros Hf Hw Hn Hup. destruct (live_sound w i n Hw Hn).
  eapply settled_updated; [done|exact Hn|exact Hup|apply Hf|by apply Hf|by apply Hf|apply Hf].
Qed.

(** A cell beyond the nodes in use may be assigned, too. *)
Lemma steady_set_node i f : harmless f → steady (set_node i f).
Proof.
  intros Hf w Hw. destruct (sw_view (w_swim w) !! i) as [n|] eqn:Hn.
  - rewrite (set_node_run i f n) by done. simpl.
    destruct (decide (i < sw_view_size (w_swim w))%nat) as [Hi|Hi].
    + assert (live (w_swim w) !! i = Some n) as Hl by by apply live_lookup_Some.
      eapply settled_harmless; [done|done|exact Hl|].
      apply (node_updated_intro _ _ n); [apply Hw|done|apply Hf].
    + set (s' := set_sw_view _ _).
      assert (live s' = live (w_swim w)) as Hlive.
      { unfold s'. rewrite live_insert. apply list_insert_ge. unfold live. rewrite length_take. lia. }
      assert (view_map s' = view_map (w_swim w)) as Hmap by (unfold view_map; by rewrite Hlive).
      destruct Hw as [[[[? ? ? ? ?] Hinf ?] ? Hv Hr ?] ?]. split; [split|]; simpl; try done.
      * split; [split; simpl; try done|..].
        -- by rewrite length_insert.
        -- unfold nodes_wf in *. by rewrite Hlive.
        -- unfold infos_wf. by rewrite Hlive.
        -- done.
      * by rewrite Hmap.
      * intros u n0 Hn0. rewrite Hmap. by apply Hr.
  - unfold set_node, node_at, mbind, M_bind, get_swim. by rewrite Hn.
Qed.

Lemma harmless_status st : status_valid st → wf_status st → harmless (set_node_status st).
Proof.
  intros Hv Hst. split; [done|by intros n []; split|by intros n []; split|]. intros n. simpl. lia.
Qed.

Lemma harmless_witness w : harmless (set_ns_witness w).
Proof. split; try done. Qed.

(** *** The operations on the view *)

Lemma steady_notice u t i :
  is_signed 8 t → is_unsigned 4 i → i ≤ B u → steady (swim_state_notice u t i).
Proof.
  intros Ht Hi Hle w Hw.
  destruct (notice_run u t i w (sv_wf _ (ev_server _ _ _ (proj1 Hw))))
    as [[_ ->]|(j & n & Hm & Hn & Hrun)]; [done|].
  destruct (known_info (ns_info n)); [|by rewrite Hrun]. destruct Hrun as (s' & -> & Hup). simpl.
  destruct (live_sound w j n Hw Hn) as [Hwf [Hb Hv]].
  apply view_map_lookup in Hm as [_ Hu].
  eapply settled_updated; [done|exact Hn|exact Hup|apply node_uuid_notice|by apply notice_node_wf|..].
  - unfold sound. rewrite <-Hu in Hle. unfold node_uuid in Hle.
    unfold notice_node. repeat case_match; simpl; (split; [lia|done]).
  - unfold notice_node. repeat case_match; simpl; rewrite ?Z.ltb_lt in *; lia.
Qed.

Lemma steady_add info : wf_info info → sound B info → steady (swim_state_add info).
Proof.
  intros Hwf Hso w Hw. pose proof (sv_wf _ (ev_server _ _ _ (proj1 Hw))) as Hs.
  destruct (decide (ni_uuid info = sw_uuid (w_swim w))) as [Heq|Hne].
  { unfold swim_state_add, mbind, M_bind, get_swim. by rewrite Heq, uuid_compare_same. }
  destruct (get_node_cases (w_swim w) (ni_uuid info) Hs) as [[_ Hm]|(i & n & Hg & _)].
  - destruct (add_run info w Hs Hne Hm)
      as [(w' & -> & ? & ? & _)|(cell & w' & -> & Ho & Hadd & _)]; simpl.
    + by apply (settled_quiet w).
    + by eapply settled_added.
  - unfold swim_state_add, mbind, M_bind, get_swim. rewrite uuid_compare_neq by done. simpl.
    by rewrite bool_decide_eq_false_2 by (by rewrite Hg).
Qed.

Lemma steady_merge info : wf_info info → sound B info → steady (swim_state_merge info).
Proof.
  intros Hwf Hso. unfold swim_state_merge. apply steady_get. intros w Hw. case_match; [done|].
  destruct (swim_state_get_node (w_swim w) (ni_uuid info)) as [j|] eqn:Hg.
  - assert (swim_wf (w_swim w)) as Hs by apply Hw.
    apply get_node_Some in Hg as (n & Hn & Hu); [|done].
    pose proof Hn as [Hn' _]%live_lookup_Some. rewrite (set_node_run j _ n) by done. simpl.
    destruct (live_sound w j n Hw Hn) as [Hwf' [Hb Hv]]. destruct Hso as [Hb' Hv'].
    apply (settled_updated w j n (merge_node info n));
      [done|done| |apply node_uuid_merge|by apply merge_node_wf|..].
    + by eapply node_updated_intro; [..|apply node_uuid_merge].
    + unfold sound. unfold node_uuid in Hu. rewrite <-Hu in Hb'.
      unfold merge_node. repeat case_match; simpl; (split; [lia|done]).
    + unfold merge_node. repeat case_match; simpl; rewrite ?Z.ltb_lt in *; lia.
  - apply (steady_bind (swim_state_add info)); [by apply steady_add|intros ?; apply steady_ret|done].
Qed.

Lemma steady_suspect u addr addrlen :
  wf_sockaddr addrlen → steady (swim_state_suspect u addr addrlen).
Proof.
  intros Hl. unfold swim_state_suspect. apply steady_get. intros w Hw.
  destruct (swim_state_get_node (w_swim w) u) as [i|]; [|done]. revert w Hw.
  apply (steady_bind (set_node i _)); [by apply steady_set_node, harmless_status|intros _].
  apply (steady_bind (node_at i)); [apply steady_node_at|intros n].
  apply (steady_bind (lift _)); [apply steady_lift|intros a].
  apply (steady_bind (set_node i _)); [apply steady_set_node, harmless_witness|intros _].
  apply steady_ret.
Qed.

Lemma steady_probe f : (∀ s, view_map (f s) = view_map s) →
  (∀ s, server_wf s → server_wf (f s)) →
  (∀ s, sw_uuid (f s) = sw_uuid s ∧ sw_incarnation (f s) = sw_incarnation s) → steady (modify f).
Proof.
  intros Hm Hs Hf w [[? ? Hv Hr ?] ?]. destruct (Hf (w_swim w)) as [Hu Hi].
  split; [split|]; simpl; [by apply Hs|by rewrite Hu|by rewrite Hm| |done|by rewrite Hi].
  intros u n. rewrite Hm. apply Hr.
Qed.

Lemma steady_del u : steady (swim_state_del u).
Proof.
  unfold swim_state_del. apply steady_get. intros w Hw.
  destruct (uuid_compare _ _ =? 0); [done|].
  destruct (swim_state_get_node (w_swim w) u) as [i|]; [|done]. revert w Hw.
  apply (steady_bind (set_node i _)); [by apply steady_set_node, harmless_status|intros _].
  apply (steady_bind swim_probe_invalidate); [|intros _; apply steady_ret].
  apply steady_probe; [done| |done]. intros s [[] ? ?]. split; [split; try done|done..]. by left.
Qed.

(** *** Sending *)

Hypothesis bound_self : inc ≤ B (sw_uuid s0).

Lemma steady_send_event e addr addrlen :
  sound_event B e → steady (swim_send_event e addr addrlen).
Proof.
  intros He w Hw. destruct (send_event_run e addr addrlen w (se_wf _ _ He) (se_count _ _ He))
    as (w' & -> & Hs). simpl. eapply settled_sends; [done|exact Hs|].
  constructor; [|constructor]. by exists e.
Qed.

Lemma steady_announce t u addr addrlen : event_type_valid t → steady (announce t u addr addrlen).
Proof.
  intros Ht w Hw. pose proof Hw as [[Hs Hu Hv _ _] Hi].
  pose proof (announce_run t u addr addrlen w Hs Ht) as Hrun.
  destruct (env_alloc (w_allocs w)).
  - destruct Hrun as (e & w' & -> & Hsend & Han). simpl. eapply settled_sends; [done|exact Hsend|].
    constructor; [|constructor]. exists e. split; [done|].
    eapply announcement_sound; [done|done| |exact Han]. by rewrite Hi, Hu.
  - destruct Hrun as (w' & -> & Hq). by apply (settled_quiet w).
Qed.

Lemma steady_send_ack u addr addrlen : steady (swim_send_ack u addr addrlen).
Proof. rewrite send_ack_announce. by apply steady_announce. Qed.

Lemma steady_send_ping addr addrlen : steady (swim_send_ping addr addrlen).
Proof. intros w Hw. rewrite send_ping_announce. by apply steady_announce. Qed.

Lemma steady_send_ping_req u addr addrlen : steady (swim_send_ping_req u addr addrlen).
Proof. rewrite send_ping_req_announce. by apply steady_announce. Qed.

Lemma steady_send_to_node e i : sound_event B e → steady (send_to_node e i).
Proof.
  intros He. apply (steady_bind (node_at i)); [apply steady_node_at|intros n].
  apply (steady_bind (swim_send_event _ _ _)); [by apply steady_send_event|intros _].
  apply steady_ret.
Qed.

(** *** Composed operations *)

Hypothesis alloc_ok : ∀ k, env_alloc k = true.

Lemma steady_probe_next : steady swim_probe_next.
Proof.
  intros w Hw. destruct (decide (sw_view_size (w_swim w) = 0%nat)) as [Hz|Hn].
  { unfold swim_probe_next. rewrite (bind_run get_swim _ w (w_swim w) w) by done. by rewrite Hz. }
  pose proof Hw as [[Hs Hu Hv Hr Ho] Hi].
  destruct (probe_next_server w alloc_ok Hs Hn) as (r & w' & -> & Ho' & Hs' & Hl & [Hu' Hi' _ _] & _).
  assert (view_map (w_swim w') = view_map (w_swim w)) as Hm by (unfold view_map; by rewrite Hl).
  simpl. split; [split|]; [done|by rewrite Hu'|by rewrite Hm| |by rewrite Ho'|by rewrite Hi'].
  intros u n. rewrite Hm. apply Hr.
Qed.

End Steady.

Create HintDb steady.
#[export] Hint Resolve steady_ret steady_lift steady_node_at steady_deref steady_time
  steady_random_index steady_for_each steady_set_node harmless_status harmless_witness
  steady_notice steady_add steady_merge steady_suspect steady_del steady_send_event
  steady_send_ack steady_send_ping steady_send_ping_req steady_send_to_node
  steady_probe_next : steady.

(** Follow the code: sequencing, reading the state, branches, known steps. *)
Ltac steadily :=
  repeat first
    [ solve [eauto 3 with steady]
    | apply steady_bind; [|intros ?]
    | match goal with
      | |- steady _ _ _ (match ?x with _ => _ end) => destruct x
      end ].

Section Operations.
Context {U : UuidLib} {UL : UuidLaws U} {H : Host} {E : Env}.
Variables (B : bound) (s0 : SWIM) (inc : Z).
Hypothesis bound_pos : ∀ u, 0 ≤ B u.
Hypothesis bound_self : inc ≤ B (sw_uuid s0).
Hypothesis alloc_ok : ∀ k, env_alloc k = true.

Lemma steady_read {A} (k : SWIM → M A) :
  (∀ s, steady B s0 inc (k s)) → steady B s0 inc (s ← get_swim; k s).
Proof. intros Hk. apply steady_get. intros w Hw. by apply Hk. Qed.

Lemma steady_ping_req_loop sent start target :
  steady B s0 inc (ping_req_loop sent start target).
Proof.
  induction sent as [|sent IH]; cbn [ping_req_loop]; [apply steady_ret|].
  case_match; [|apply steady_ret]. apply steady_read. intros s. steadily.
Qed.

Lemma steady_suspect_dead i : steady B s0 inc (swim_cluster_suspect_dead i).
Proof.
  apply steady_read. intros s. case_match; [apply steady_ret|].
  apply steady_bind; [apply steady_random_index|intros start].
  apply steady_bind; [by apply steady_set_node, harmless_status|intros _].
  apply steady_ping_req_loop.
Qed.

Lemma steady_refuted_dead i : steady B s0 inc (swim_cluster_refuted_dead i).
Proof.
  apply steady_bind; [by apply steady_set_node, harmless_status|intros _].
  apply steady_set_node, harmless_witness.
Qed.

Lemma steady_update_candidate now i : steady B s0 inc (update_candidate now i).
Proof.
  apply steady_bind; [apply steady_node_at|intros n].
  repeat case_match; try apply steady_ret; [apply steady_suspect_dead|].
  by apply steady_set_node, harmless_status.
Qed.

Lemma steady_heartbeat : steady B s0 inc swim_cluster_heartbeat.
Proof.
  apply steady_bind; [apply steady_time|intros now]. apply steady_read. intros s.
  case_match; [|apply steady_ret].
  apply steady_bind; [by apply steady_probe_next|intros r].
  apply steady_bind; [by apply steady_probe; [|intros ? [[] ? ?]; split|]|intros _].
  apply steady_bind; [steadily|intros _]. apply steady_read. intros s'.
  apply steady_for_each. intros i _. apply steady_update_candidate.
Qed.

Lemma bare_sound s t u now :
  server_wf s → event_type_valid t → sw_incarnation s ≤ B (sw_uuid s) →
  sound_event B (set_ev_uuid u (bare_event s t now)).
Proof. intros Hs Ht Hle. split; [by apply bare_event_wf|simpl; lia|done|constructor]. Qed.

Lemma settled_bare w t u now :
  settled B s0 inc w → event_type_valid t →
  sound_event B (set_ev_uuid u (bare_event (w_swim w) t now)).
Proof. intros [[Hs Hu _ _ _] Hi] Ht. apply bare_sound; [done|done|]. by rewrite Hi, Hu. Qed.

Lemma steady_join addr addrlen : steady B s0 inc (swim_cluster_join addr addrlen).
Proof.
  intros w Hw. destruct (event_init_run EVENT_TYPE_JOIN w) as (w1 & Hinit & Hq).
  unfold swim_cluster_join. rewrite (bind_run _ _ _ _ _ Hinit).
  pose proof (settled_quiet _ _ _ _ _ Hq Hw) as Hw1.
  assert (∀ u now, sound_event B (set_ev_uuid u (bare_event (w_swim w) EVENT_TYPE_JOIN now))) as He
    by (intros u now; by apply settled_bare).
  revert w1 Hw1 Hinit Hq. generalize (env_time (w_times w)) as now. intros now w1 Hw1 _ _.
  revert w1 Hw1. apply steady_read. intros s. steadily.
Qed.

Lemma steady_leave : steady B s0 inc swim_cluster_leave.
Proof.
  apply steady_get. intros w Hw. case_match; [done|].
  pose proof (steady_random_index B s0 inc w Hw) as Hw1. unfold mbind at 1, M_bind at 1.
  destruct (random_index w) as [[pos|f] w1]; [|done]. simpl in Hw1.
  destruct (event_init_run EVENT_TYPE_LEAVE w1) as (w2 & Hinit & Hq).
  rewrite (bind_run _ _ _ _ _ Hinit).
  assert (sound_event B (bare_event (w_swim w1) EVENT_TYPE_LEAVE (env_time (w_times w1)))) as He
    by (by apply (settled_bare w1 EVENT_TYPE_LEAVE (zeros 16))).
  apply steady_for_each; [|by apply (settled_quiet _ _ _ w1)]. intros i _.
  apply steady_read. intros s. by apply steady_send_to_node.
Qed.

End Operations.

(** ** Gossip and events

    Gossip may advance the server's own incarnation; nothing is sent after
    it. *)

Section Events.
Context {U : UuidLib} {UL : UuidLaws U} {H : Host} {E : Env}.
Variables (B : bound) (s0 : SWIM).

Lemma evolved_info info w :
  wf_info info → sound B info → evolved B s0 w → evolved B s0 (process_info info w).2.
Proof.
  intros Hwf Hso Hw. set (inc := sw_incarnation (w_swim w)).
  assert (settled B s0 inc w) as Hset by done.
  pose proof (proj1 (steady_merge B s0 inc info Hwf Hso w Hset)) as Hmerge.
  unfold process_info. destruct (known_info info); [|done].
  rewrite (bind_run (lift _) _ w tt w) by done.
  rewrite (bind_run get_swim _ w (w_swim w) w) by done.
  case_match; [|exact Hmerge]. destruct (ni_status info); try done.
  destruct Hw as [? ? ? ? ?]. split; try done. simpl.
  apply server_incarnation; [apply is_unsigned_to_unsigned|done].
Qed.

(** An entry advances the incarnation of the server by at most one. *)
Lemma info_incarnation info w :
  wf_info info → sound B info → evolved B s0 w → sw_incarnation (w_swim w) + 1 < 2 ^ 32 →
  sw_incarnation (w_swim w) ≤ sw_incarnation (w_swim (process_info info w).2)
    ≤ sw_incarnation (w_swim w) + 1.
Proof.
  intros Hwf Hso Hw Hroom. pose proof (proj1 (sv_incarnation _ (ev_server _ _ _ Hw))).
  pose proof (proj2 (steady_merge B s0 _ info Hwf Hso w (conj Hw eq_refl))) as Hmerge.
  unfold process_info. destruct (known_info info); [|simpl; lia].
  rewrite (bind_run (lift _) _ w tt w) by done.
  rewrite (bind_run get_swim _ w (w_swim w) w) by done.
  case_match; [|rewrite Hmerge; lia]. destruct (ni_status info); simpl; try lia.
  rewrite to_unsigned_id by (unfold is_unsigned; simpl; lia). lia.
Qed.

Lemma evolved_gossip e w :
  sound_event B e → evolved B s0 w →
  let w' := (swim_process_gossip (ev_gossip e) (ev_gossip_count e) w).2 in
  evolved B s0 w' ∧
  (sw_incarnation (w_swim w) + 11 < 2 ^ 32 → sw_incarnation (w_swim w) ≤ sw_incarnation (w_swim w')).
Proof.
  intros [[_ _ _ Hwf] Hcount _ Hso] Hw. unfold swim_process_gossip, ev_entries in *.
  assert (Z.to_nat (ev_gossip_count e) ≤ 11)%nat as Hk by lia. revert w Hwf Hso Hw Hk.
  generalize (ev_gossip e) as l. generalize (Z.to_nat (ev_gossip_count e)) as k. clear Hcount.
  assert (∀ k l w, Forall wf_info (take k l) → Forall (sound B) (take k l) → evolved B s0 w →
    evolved B s0 (process_infos l k w).2 ∧
    (sw_incarnation (w_swim w) + Z.of_nat k < 2 ^ 32 →
     sw_incarnation (w_swim w) ≤ sw_incarnation (w_swim (process_infos l k w).2))) as Hall.
  { induction k as [|k IH]; intros [|i l] w Hwf Hso Hw; cbn [process_infos];
      try (split; [done|simpl; lia]).
    simpl in Hwf, Hso. apply Forall_cons in Hwf as [Hwi Hwf], Hso as [Hsi Hso].
    pose proof (evolved_info i w Hwi Hsi Hw) as Hi.
    pose proof (info_incarnation i w Hwi Hsi Hw) as Hinc. unfold mbind, M_bind.
    destruct (process_info i w) as [[[]|f] w1]; simpl in Hi, Hinc; cycle 1.
    { split; [done|]. simpl. lia. }
    destruct (IH l w1 Hwf Hso Hi) as [? Hle]. split; [done|]. intros Hroom.
    specialize (Hinc ltac:(lia)). specialize (Hle ltac:(lia)). lia. }
  intros k l w Hwf Hso Hw Hk. destruct (Hall k l w Hwf Hso Hw) as [? Hle]. split; [done|].
  intros Hroom. apply Hle. lia.
Qed.

Variable inc : Z.

(** The incarnation of the server may have advanced; one event has at most 11
    entries. *)
Definition advanced (w' : World) : Prop :=
  evolved B s0 w' ∧ (inc + 11 < 2 ^ 32 → inc ≤ sw_incarnation (w_swim w')).

Lemma settled_advanced w : settled B s0 inc w → advanced w.
Proof. intros [? Hi]. split; [done|lia]. Qed.

(** [m] may be the end of the processing of an event. *)
Definition evolves {A} (m : M A) : Prop := ∀ w, settled B s0 inc w → advanced (m w).2.

Lemma evolves_steady {A} (m : M A) : steady B s0 inc m → evolves m.
Proof. intros Hm w Hw. by apply settled_advanced, Hm. Qed.

Lemma evolves_bind {A C} (m : M A) (k : A → M C) :
  steady B s0 inc m → (∀ a, evolves (k a)) → evolves (a ← m; k a).
Proof.
  intros Hm Hk w Hw. specialize (Hm w Hw). unfold mbind, M_bind.
  destruct (m w) as [[a|f] w1]; [by apply Hk|by apply settled_advanced].
Qed.

Lemma evolves_get {A} (k : SWIM → M A) : (∀ s, evolves (k s)) → evolves (s ← get_swim; k s).
Proof. intros Hk w Hw. by apply Hk. Qed.

Lemma evolves_gossip e :
  sound_event B e → evolves (swim_process_gossip (ev_gossip e) (ev_gossip_count e)).
Proof. intros He w [Hw Hi]. destruct (evolved_gossip e w He Hw). split; [done|lia]. Qed.

Hypothesis bound_pos : ∀ u, 0 ≤ B u.
Hypothesis bound_self : inc ≤ B (sw_uuid s0).

(** A node that is added by an event starts with incarnation 0. *)
Lemma fresh_sound u addr addrlen t st :
  status_valid st → sound B (fresh_info u addr addrlen t st).
Proof. intros Hst. split; [apply bound_pos|done]. Qed.

Lemma steady_ack_node e addr addrlen :
  is_signed 8 (eh_time (ev_hdr e)) → wf_sockaddr addrlen →
  steady B s0 inc (ack_node e addr addrlen).
Proof.
  intros Ht Hl. apply steady_read. intros s. case_match; [apply steady_ret|].
  rewrite node_init_ok by done. apply steady_lift_bind. intros info [= <-].
  apply steady_add; [by apply (fresh_info_wf _ _ _ _ SWIM_STATUS_UNKNOWN)|].
  by apply (fresh_sound _ _ _ _ SWIM_STATUS_UNKNOWN).
Qed.

Lemma steady_ack_update e i : steady B s0 inc (ack_update e i).
Proof.
  apply steady_bind; [apply steady_node_at|intros n]. case_match; try apply steady_ret.
  - apply steady_refuted_dead.
  - apply steady_bind; [|intros _; apply steady_refuted_dead]. case_match; [|apply steady_ret].
    apply steady_bind; [by apply steady_send_ack|intros _].
    apply steady_set_node, harmless_witness.
Qed.

Lemma evolves_ack e addr addrlen :
  sound_event B e → is_signed 8 (eh_time (ev_hdr e)) → wf_sockaddr addrlen →
  evolves (swim_process_ack e addr addrlen).
Proof.
  intros He Ht Hl. apply evolves_get. intros s. case_match; [apply evolves_steady, steady_ret|].
  apply evolves_bind; [by apply steady_ack_node|intros p].
  apply evolves_bind; [apply steady_deref|intros i].
  apply evolves_bind; [apply steady_ack_update|intros _]. by apply evolves_gossip.
Qed.

Lemma completed_sound e addr addrlen :
  sound_event B e → eh_type (ev_hdr e) = EVENT_TYPE_JOIN → wf_sockaddr addrlen →
  sound_event B (completed_join e addr addrlen).
Proof.
  intros [He Hc Hs Hg] Ht Hl.
  destruct (completed_join_wf e addr addrlen He Ht Hl) as (? & _ & Hc' & _ & Hh).
  split; [done|by rewrite Hc'|by rewrite Hh|].
  unfold ev_entries, completed_join in *. by case_match.
Qed.

Lemma steady_process_join e addr addrlen :
  sound_event B e → eh_type (ev_hdr e) = EVENT_TYPE_JOIN → is_signed 8 (eh_time (ev_hdr e)) →
  wf_sockaddr addrlen → steady B s0 inc (swim_process_join e addr addrlen).
Proof.
  intros He Htype Ht Hl. apply steady_read. intros s. do 2 (case_match; [apply steady_ret|]).
  rewrite fill_join_addr_ok by done. apply steady_lift_bind. intros e' [= <-].
  destruct (completed_join_wf e addr addrlen (se_wf _ _ He) Htype Hl) as (_ & Hl' & _ & _ & Hh).
  rewrite node_init_ok by done. apply steady_lift_bind. intros info [= <-].
  apply steady_bind; [apply steady_lift|intros _]. apply steady_bind; [|intros _].
  { apply steady_add; [apply (fresh_info_wf _ _ _ _ SWIM_STATUS_ALIVE); [done|by rewrite Hh|done]|].
    by apply (fresh_sound _ _ _ _ SWIM_STATUS_ALIVE). }
  apply steady_read. intros s'. apply steady_bind; [|intros _].
  { apply steady_for_each. intros i _. by apply steady_send_to_node, completed_sound. }
  apply steady_read. intros s''. apply steady_bind; [by apply steady_send_ack|intros _].
  apply steady_ret.
Qed.

Lemma steady_process_ping_req e addr addrlen :
  wf_sockaddr addrlen → steady B s0 inc (swim_process_ping_req e addr addrlen).
Proof.
  intros Hl. apply steady_bind; [by apply steady_suspect|intros [i|]; [|apply steady_ret]].
  apply steady_bind; [apply steady_node_at|intros n].
  apply steady_bind; [by apply steady_send_ping|intros _; apply steady_ret].
Qed.

Lemma evolves_event e addr addrlen :
  sound_event B e → is_signed 8 (eh_time (ev_hdr e)) → wf_sockaddr addrlen →
  evolves (swim_process_event e addr addrlen).
Proof.
  intros He Ht Hl. unfold swim_process_event.
  assert (steady B s0 inc (swim_state_notice (eh_uuid (ev_hdr e)) (eh_time (ev_hdr e))
    (eh_incarnation (ev_hdr e)))) as Hnotice by (apply steady_notice; [done|apply He|apply He]).
  pose proof (wf_header_type _ (wf_event_header _ (se_wf _ _ He))) as Hv.
  assert (∀ callback : Event → sockaddr_storage → Z → M unit, evolves (callback e addr addrlen) →
    evolves (callback ← lift (Ok (Some callback));
             swim_state_notice (eh_uuid (ev_hdr e)) (eh_time (ev_hdr e))
               (eh_incarnation (ev_hdr e));;
             callback ← deref callback; callback e addr addrlen)) as Hcall.
  { intros callback Hcb w Hw. rewrite (bind_run (lift (Ok _)) _ w _ w eq_refl).
    revert w Hw. by apply evolves_bind. }
  destruct (eh_type (ev_hdr e)) eqn:Etype; [| | | | |done]; cbn [swim_event_processing];
    apply Hcall.
  - apply evolves_get. intros s. apply evolves_bind; [by apply steady_send_ack|intros _].
    by apply evolves_gossip.
  - by apply evolves_ack.
  - by apply evolves_steady, steady_process_ping_req.
  - by apply evolves_steady, steady_process_join.
  - apply evolves_steady. apply steady_bind; [apply steady_del|intros _].
    apply steady_read. intros s. apply steady_bind; [by apply steady_send_ack|intros _].
    apply steady_ret.
Qed.

End Events.
