(* ===== verification/Client.v ===== *)
(** * The test client: [examples/swim_client.c], [examples/swim_common.c]

    The client sends one event, given on its command line, to a server and
    shows the answer.  It sends the memory of the structure [Event] as it is, and
    reads the answer as such a structure, so that the layout of the structure in
    memory is part of the model. *)

From Stdlib Require Import Init.Byte Strings.String ZArith Lia.
From stdpp Require Import base tactics list vector.
From S2P Require Import Prelude Bytes Node Event Text Encoding EncodingFacts State Printing.
From S2P Require Import PrintingFacts StateFacts Samples Membership Network Cluster Process Protocol.
From S2P Require Import Scenarios.

Open Scope Z_scope.

(** ** The structure [Event] in memory *)

Section Layout.
Context `{Host}.

(** The members at their offsets, with zeros in the gaps, as [memset] leaves
    them: type 0, uuid 4, time 24, incarnation 32; the uuid of the event 40,
    the length of the address 56, the address 64; gossip_count 192. *)
Definition event_image (e : Event) : list byte :=
  store 4 (event_type_code (eh_type (ev_hdr e))) ++ vec_to_list (eh_uuid (ev_hdr e))
  ++ replicate 4 x00 ++ store 8 (eh_time (ev_hdr e)) ++ store 4 (eh_incarnation (ev_hdr e))
  ++ replicate 4 x00 ++ vec_to_list (ev_uuid e) ++ store 4 (ev_join_addrlen e)
  ++ replicate 4 x00 ++ vec_to_list (ev_join_addr e) ++ store 2 (ev_gossip_count e)
  ++ replicate 6 x00.

(** The structure a buffer contains, when its address is cast to that of an event. *)
Definition event_at (buf : list byte) : Event :=
  {| ev_hdr := {| eh_type := event_type_of (to_unsigned 4 (load (take 4 buf)));
                  eh_uuid := array_of 16 (drop 4 buf);
                  eh_time := to_signed 8 (load (take 8 (drop 24 buf)));
                  eh_incarnation := to_unsigned 4 (load (take 4 (drop 32 buf))) |};
     ev_uuid := array_of 16 (drop 40 buf);
     ev_join_addrlen := to_unsigned 4 (load (take 4 (drop 56 buf)));
     ev_join_addr := array_of 128 (drop 64 buf);
     ev_gossip_count := to_unsigned 2 (load (take 2 (drop 192 buf)));
     ev_gossip := [] |}.

End Layout.

(** ** The client *)

Definition BUFSIZE : nat := 1024.
Definition EXIT_SUCCESS : Z := 0.
Definition EXIT_FAILURE : Z := 1.
Definition default_port : text := lit "7946".

(** The answers of the system and of libuuid: [getaddrinfo], [socket],
    [uuid_parse], [time], [uuid_generate], [sendto] and [recv]. *)
Record ClientEnv : Type := {
  cl_getaddrinfo : text → text → option (sockaddr_storage * Z);
  cl_socket : Z;
  cl_uuid_parse : text → option uuid_t;
  cl_time : Z;
  cl_uuid : uuid_t;
  cl_sendto : Z;
  cl_recv : option (list byte)
}.

(** What a run of the client has done: its exit code, the datagrams sent and
    what it has printed on the standard output. *)
Record ClientRun : Type := {
  cr_code : Z;
  cr_sent : list Datagram;
  cr_stdout : text
}.

Definition exits (code : Z) (sent : list Datagram) : ClientRun :=
  {| cr_code := code; cr_sent := sent; cr_stdout := [] |}.

(** [memset(&event, 0, sizeof(Event))] *)
Definition cleared_event : Event :=
  {| ev_hdr := {| eh_type := EVENT_TYPE_PING; eh_uuid := zeros 16; eh_time := 0;
                  eh_incarnation := 0 |};
     ev_uuid := zeros 16; ev_join_addrlen := 0; ev_join_addr := zeros 128;
     ev_gossip_count := 0; ev_gossip := [] |}.

Definition set_event_type (t : EventType) (e : Event) : Event :=
  set_ev_hdr {| eh_type := t; eh_uuid := eh_uuid (ev_hdr e); eh_time := eh_time (ev_hdr e);
                eh_incarnation := eh_incarnation (ev_hdr e) |} e.

(** The event the arguments ask for; [None] where the program exits with an
    error.  A uuid that cannot be parsed leaves the one in the event. *)
Definition with_uuid (cl : ClientEnv) (argv : list text) (e : Event) : option Event :=
  match argv !! 3%nat with
  | Some arg => Some (match cl_uuid_parse cl arg with
                      | Some u => set_ev_uuid u e | None => e end)
  | None => None
  end.

Definition client_event (cl : ClientEnv) (argv : list text) (command : text) : option Event :=
  if decide (command = lit "ping") then Some (set_event_type EVENT_TYPE_PING cleared_event)
  else if decide (command = lit "ping_req") then
    with_uuid cl argv (set_event_type EVENT_TYPE_PING_REQ cleared_event)
  else if decide (command = lit "ack") then
    Some (set_event_type EVENT_TYPE_ACK cleared_event)
  else if decide (command = lit "join") then
    with_uuid cl argv (set_event_type EVENT_TYPE_JOIN cleared_event)
  else if decide (command = lit "leave") then
    with_uuid cl argv (set_event_type EVENT_TYPE_LEAVE cleared_event)
  else None.

Definition waits_for_reply (t : EventType) : bool :=
  match t with
  | EVENT_TYPE_PING | EVENT_TYPE_JOIN | EVENT_TYPE_LEAVE => true
  | _ => false
  end.

Section Client.
Context `{Host} `{TextEnv}.

(** The end of [main]: send the event and show the answer.  The length passed
    to [sendto] is that of [struct sockaddr_storage]. *)
Definition client_exchange (cl : ClientEnv) (event : Event) (serveraddr : sockaddr_storage)
  : outcome ClientRun :=
  let d := {| dg_bytes := event_image event; dg_addr := serveraddr; dg_addrlen := 128 |} in
  if cl_sendto cl <? 0 then Ok (exits EXIT_FAILURE [d])
  else if waits_for_reply (eh_type (ev_hdr event)) then
    match cl_recv cl with
    | None => Ok (exits EXIT_FAILURE [d])
    | Some data =>
        let bytes := Nat.min (length data) BUFSIZE in
        let buf := take BUFSIZE data ++ drop (length data) (uninit 0 BUFSIZE) in
        '(known, str) ← swim_event_string (event_at buf) (uninit 1 BUFSIZE) BUFSIZE;
        if known : bool then
          s ← cstring str;
          Ok {| cr_code := EXIT_SUCCESS; cr_sent := [d];
                cr_stdout := lit "received " ++ decimal (Z.of_nat bytes) ++ lit " bytes: "
                             ++ s ++ newline |}
        else Ok (exits EXIT_SUCCESS [d])
    end
  else Ok (exits EXIT_SUCCESS [d]).

Definition client_main (cl : ClientEnv) (argv : list text) : outcome ClientRun :=
  match argv with
  | _ :: host :: command :: _ =>
      match cl_getaddrinfo cl host default_port with
      | None => Ok (exits EXIT_FAILURE [])
      | Some (ai_addr, ai_addrlen) =>
          match getnameinfo ai_addr ai_addrlen NI_NAMEREQD with
          | None => Ok (exits EXIT_FAILURE [])
          | Some _ =>
              if cl_socket cl =? -1 then Ok (exits EXIT_FAILURE [])
              else
                serveraddr ← memcpy (array_of 128 (uninit 2 128)) (vec_to_list ai_addr) ai_addrlen;
                match client_event cl argv command with
                | None => Ok (exits EXIT_FAILURE [])
                | Some event =>
                    let hdr := {| eh_type := eh_type (ev_hdr event); eh_uuid := cl_uuid cl;
                                  eh_time := cl_time cl;
                                  eh_incarnation := eh_incarnation (ev_hdr event) |} in
                    client_exchange cl (set_ev_hdr hdr event) serveraddr
                end
          end
      end
  | _ => Ok (exits EXIT_SUCCESS [])
  end.

(** ** [examples/swim_common.c] *)

(** [AF_INET] is 2 and [AF_INET6] is 10; the other entries are null. *)
Definition family_symbols : list (option text) :=
  [None; None; Some (lit "AF_INET")] ++ replicate 7 None ++ [Some (lit "AF_INET6")].

Definition show_family (val : Z) : outcome (option text) := index family_symbols val.

(** The family is the first two bytes of an address. *)
Definition sa_family (addr : sockaddr_storage) : Z :=
  to_unsigned 2 (load (take 2 (vec_to_list addr))).

Definition show_address (addr : sockaddr_storage) (addrlen : Z) (buf : list byte) (buflen : nat)
  : outcome (option (list byte)) :=
  match getnameinfo addr addrlen NI_NAMEREQD with
  | None => Ok None
  | Some (hostname, service) =>
      p ← show_family (sa_family addr);
      match p with
      | None => Fault NullDeref
      | Some family =>
          '(buf, _) ← snprintf buf buflen
            (lit "family " ++ family ++ lit " host " ++ hostname ++ lit " service " ++ service);
          Ok (Some buf)
      end
  end.

End Client.

(** ** Lemmas *)

Section LayoutFacts.
Context `{Host}.

Lemma length_event_image e : Z.of_nat (length (event_image e)) = sizeof_Event.
Proof.
  unfold event_image. rewrite !length_app, !length_array, !length_replicate, !length_store. done.
Qed.

Lemma load_store n z : to_unsigned n (load (store n z)) = to_unsigned n z.
Proof.
  unfold load, store. destruct host_endian;
    rewrite ?le_combine_split, ?be_combine_split; unfold to_unsigned; by rewrite Zmod_mod.
Qed.

Lemma load_store_signed n z : to_signed n (load (store n z)) = to_signed n z.
Proof. by rewrite <-(to_signed_to_unsigned n (load _)), load_store, to_signed_to_unsigned. Qed.

Lemma array_of_app {n} (a : array n) rest : array_of n (vec_to_list a ++ rest) = a.
Proof.
  rewrite <-(array_to_of_list n a) at 2. apply vec_eq. intros i. unfold array_of.
  rewrite !lookup_fun_to_vec. f_equal. apply lookup_app_l. rewrite length_array.
  apply fin_to_nat_lt.
Qed.

(** Skip the members before the one that is read. *)
Ltac skip_members :=
  repeat (rewrite drop_app_ge by (rewrite ?length_store, ?length_array, ?length_replicate; lia);
          rewrite ?length_store, ?length_array, ?length_replicate; cbn [Nat.sub];
          rewrite ?drop_0).

(** The members are read where they are stored. *)
Lemma event_at_image e rest :
  event_type_valid (eh_type (ev_hdr e)) → is_signed 8 (eh_time (ev_hdr e)) →
  is_unsigned 4 (eh_incarnation (ev_hdr e)) → is_unsigned 4 (ev_join_addrlen e) →
  is_unsigned 2 (ev_gossip_count e) → ev_gossip e = [] →
  event_at (event_image e ++ rest) = e.
Proof.
  intros Ht Htime Hinc Hlen Hcount Hg. unfold event_at, event_image.
  rewrite <-!(assoc_L (++)). skip_members.
  rewrite !take_app_length' by (by rewrite length_store).
  rewrite !load_store, load_store_signed, !array_of_app, to_signed_id by (done || lia).
  rewrite !to_unsigned_id by (done || by destruct (eh_type (ev_hdr e))).
  rewrite event_type_of_code by done. destruct e as [[] ? ? ? ? ?]. simpl in *. by rewrite Hg.
Qed.

End LayoutFacts.

Section DecodeFacts.
Context `{Host}.

(** Bytes that the decoder takes for a PING without gossip. *)
Lemma decode_raw_ping (v sz tm inc rest : list byte) (u : uuid_t) old :
  length v = 2%nat → length sz = 4%nat → length tm = 8%nat → length inc = 4%nat →
  swim_decode_event (v ++ [x00; x00] ++ sz ++ tm ++ vec_to_list u ++ inc ++ [x00; x00] ++ rest) old
  = Ok (set_ev_gossip 0 (ev_gossip old)
          (set_ev_hdr {| eh_type := EVENT_TYPE_PING; eh_uuid := u;
                         eh_time := to_signed 8 (be_combine tm);
                         eh_incarnation := to_unsigned 4 (be_combine inc) |} old), 38).
Proof.
  intros Hv Hsz Htm Hinc. unfold swim_decode_event, swim_decode_event_header.
  unfold swim_decode_uint16, swim_decode_uint32, swim_decode_int64, swim_decode_uuid.
  rewrite (make_decoder_ok 2) by done. bind_step.
  rewrite (make_decoder_ok 2) by done. bind_step.
  rewrite (make_decoder_ok 4) by done. bind_step.
  rewrite (make_decoder_ok 8) by done. bind_step.
  rewrite decode_uuid_ok. bind_step. rewrite (make_decoder_ok 4) by done. bind_step.
  change (event_type_of (to_unsigned 2 (be_combine [x00; x00]))) with EVENT_TYPE_PING.
  cbn [decode_body set_ev_hdr ev_hdr eh_type]. bind_step. unfold swim_decode_gossip.
  unfold swim_decode_uint16. rewrite (make_decoder_ok 2) by done. bind_step.
  change (to_unsigned 2 (be_combine [x00; x00])) with 0.
  rewrite (proj2 (Z.ltb_ge _ _)) by (apply is_unsigned_to_unsigned).
  change (Z.to_nat 0) with 0%nat. cbn [decode_infos]. bind_step.
  rewrite !length_app, length_array, Hv, Hsz, Htm, Hinc. cbn [length]. do 2 f_equal. lia.
Qed.

(** A packet of a server is not the memory of an event of any known type. *)
Lemma wire_type_unknown e rest :
  event_type_valid (eh_type (ev_hdr e)) →
  ∃ c, eh_type (ev_hdr (event_at (event_bytes e ++ rest))) = EVENT_TYPE_OTHER c.
Proof.
  intros Ht. unfold event_at, event_bytes, header_bytes. cbn [ev_hdr eh_type].
  rewrite <-!(assoc_L (++)), (assoc_L (++) (be_split 2 _)), take_app_length'
    by (by rewrite length_app, !length_be_split).
  unfold load. destruct host_endian, (eh_type (ev_hdr e)); try done; by eexists.
Qed.

End DecodeFacts.

(** What a little-endian server makes of the memory of an event: the type is in
    the place of the protocol version, and the end of the uuid, a gap and the
    time are in the place of the uuid. *)
Definition misread_uuid (u : uuid_t) (time : Z) : uuid_t :=
  array_of 16 (drop 12 (vec_to_list u) ++ replicate 4 x00 ++ le_split 8 time).

Lemma decode_image_little e rest old :
  event_type_valid (eh_type (ev_hdr e)) →
  ∃ e', @swim_decode_event LittleEndian (@event_image LittleEndian e ++ rest) old = Ok (e', 38) ∧
    eh_type (ev_hdr e') = EVENT_TYPE_PING ∧ eh_uuid (ev_hdr e') = misread_uuid (eh_uuid (ev_hdr e)) (eh_time (ev_hdr e)) ∧
    eh_incarnation (ev_hdr e') = bswap 4 (eh_incarnation (ev_hdr e)) ∧
    ev_gossip_count e' = 0.
Proof.
  intros Ht. set (u := vec_to_list (eh_uuid (ev_hdr e))).
  assert (length u = 16%nat) as Hu by apply length_array.
  assert (∃ v, length v = 2%nat ∧
    @store LittleEndian 4 (event_type_code (eh_type (ev_hdr e))) = v ++ [x00; x00])
    as (v & Hv & Hstore).
  { destruct (eh_type (ev_hdr e)); try done; by eexists [_; _]. }
  assert (vec_to_list (misread_uuid (eh_uuid (ev_hdr e)) (eh_time (ev_hdr e)))
    = drop 12 u ++ replicate 4 x00 ++ @store LittleEndian 8 (eh_time (ev_hdr e))) as Hm.
  { apply array_of_to_list. rewrite !length_app, length_drop, length_replicate, length_le_split.
    fold u. rewrite Hu. done. }
  eexists. split; [|split; [|split; [|split]]].
  - unfold event_image. fold u. rewrite Hstore, <-(take_drop 12 u), <-(take_drop 4 (take 12 u)).
    change (replicate 4 x00) with ([x00; x00] ++ [x00; x00]) at 2.
    rewrite <-!(assoc_L (++)).
    rewrite (assoc_L (++) (replicate 4 x00) (store 8 _)), (assoc_L (++) (drop 12 u)), <-Hm.
    apply decode_raw_ping; [done|..].
    + rewrite !length_take. lia.
    + rewrite length_drop, length_take. lia.
    + apply length_le_split.
  - done.
  - done.
  - simpl. unfold bswap. rewrite to_unsigned_id; [done|].
    apply is_unsigned_be_combine, length_le_split.
  - done.
Qed.

Section ClientFacts.
Context {H : Host} {T : TextEnv}.

(** The events a command line can ask for. *)
Lemma client_event_shape cl argv command e :
  client_event cl argv command = Some e →
  event_type_valid (eh_type (ev_hdr e)) ∧ eh_incarnation (ev_hdr e) = 0.
Proof.
  unfold client_event, with_uuid. repeat case_match; intros [= <-]; done.
Qed.

Lemma client_exchange_sent cl e serveraddr run d :
  client_exchange cl e serveraddr = Ok run → d ∈ cr_sent run → dg_bytes d = event_image e.
Proof.
  unfold client_exchange. intros Hrun Hd. revert Hrun.
  assert (∀ x : Datagram, d ∈ [x] → d = x) as Hone by (intros x; by rewrite list_elem_of_singleton).
  case_match; [by intros [= <-]; rewrite (Hone _ Hd)|].
  case_match; [|by intros [= <-]; rewrite (Hone _ Hd)].
  destruct (cl_recv cl); [|by intros [= <-]; rewrite (Hone _ Hd)]. intros Hrun. simplify_outcome.
  case_match; simplify_outcome; by rewrite (Hone _ Hd).
Qed.

(** Whatever is sent is the memory of an event. *)
Lemma client_sent cl argv run d :
  client_main cl argv = Ok run → d ∈ cr_sent run →
  ∃ e serveraddr, client_exchange cl e serveraddr = Ok run ∧ dg_bytes d = event_image e ∧
    event_type_valid (eh_type (ev_hdr e)) ∧ eh_uuid (ev_hdr e) = cl_uuid cl ∧
    eh_time (ev_hdr e) = cl_time cl ∧ eh_incarnation (ev_hdr e) = 0.
Proof.
  assert (∀ c r, Ok (exits c []) = Ok r → d ∈ cr_sent r → False) as Hnone
    by (intros c r [= <-] Hd; by apply elem_of_nil in Hd).
  unfold client_main. intros Hrun Hd.
  destruct argv as [|a0 [|host [|command argv']]]; try (by destruct (Hnone _ _ Hrun Hd)).
  destruct (cl_getaddrinfo _ _ _) as [[a len]|]; [|by destruct (Hnone _ _ Hrun Hd)].
  destruct (getnameinfo _ _ _); [|by destruct (Hnone _ _ Hrun Hd)].
  destruct (cl_socket cl =? -1); [by destruct (Hnone _ _ Hrun Hd)|].
  destruct (memcpy _ _ _) as [serveraddr|]; [|done]. cbn [mbind outcome_bind] in Hrun.
  destruct (client_event _ _ _) as [e|] eqn:He; [|by destruct (Hnone _ _ Hrun Hd)].
  apply client_event_shape in He as [Ht Hi].
  eexists _, serveraddr. split; [exact Hrun|]. split; [by eapply client_exchange_sent|done].
Qed.

(** An answer in the format of the servers is not recognised. *)
Lemma client_no_output cl e serveraddr run a rest :
  client_exchange cl e serveraddr = Ok run → event_type_valid (eh_type (ev_hdr a)) →
  cl_recv cl = Some (event_bytes a ++ rest) → cr_stdout run = [].
Proof.
  intros Hrun Ha Hrecv. revert Hrun. unfold client_exchange. rewrite Hrecv.
  case_match; [by intros [= <-]|]. case_match; [|by intros [= <-]].
  set (buf := take BUFSIZE _ ++ _).
  assert (∃ c, eh_type (ev_hdr (event_at buf)) = EVENT_TYPE_OTHER c) as [c Hc].
  { destruct (wire_type_unknown a rest Ha) as [c Hc]. exists c. rewrite <-Hc. unfold event_at.
    cbn [ev_hdr eh_type]. unfold buf. rewrite take_app_le, take_take; [done|].
    rewrite length_take, length_app. unfold event_bytes, header_bytes.
    rewrite !length_app, !length_be_split. unfold BUFSIZE. lia. }
  unfold swim_event_string. rewrite Hc.
  rewrite write_ok by (rewrite length_replicate, length_uninit; lia). bind_step.
  by intros [= <-].
Qed.

End ClientFacts.

(** ** Theorem *)

Section Theorems.
Context {U : UuidLib} {UL : UuidLaws U} {E : Env} {T : TextEnv}.
#[local] Instance little : Host := LittleEndian.

(** C36: The client does not speak the protocol: on little-endian hosts, whatever
    event the command line asks for, join and leave included, a server decodes
    it as a PING without gossip, from a sender whose uuid is made of the end of
    the uuid and the time; it answers by an ACK and changes nothing, and when
    an answer in the format of the servers arrives, the client does not
    recognise it and prints nothing. *)
Theorem swim_client_misunderstood (cl : ClientEnv) (argv : list text) (run : ClientRun)
  (d : Datagram) (stack : list byte) (old : Event) (addr : sockaddr_storage) (addrlen : Z)
  (w : World) :
  client_main cl argv = Ok run → d ∈ cr_sent run →
  (∀ k, env_alloc k = true) → length stack = 2048%nat → good (w_swim w) →
  misread_uuid (cl_uuid cl) (cl_time cl) ∉ uuids (w_swim w) →
  (∃ e reply w',
     swim_recv_event stack old
       {| rc_data := Some (dg_bytes d); rc_addr := addr; rc_addrlen := addrlen |} = Ok (e, 38) ∧
     eh_type (ev_hdr e) = EVENT_TYPE_PING ∧
     eh_uuid (ev_hdr e) = misread_uuid (cl_uuid cl) (cl_time cl) ∧
     swim_process_event e addr addrlen w = (Ok tt, w') ∧ w_swim w' = w_swim w ∧
     w_out w' = w_out w ++ [reply] ∧ dg_addr reply = addr ∧
     carries (w_swim w) EVENT_TYPE_ACK (sw_uuid (w_swim w)) reply) ∧
  ∀ a rest, event_type_valid (eh_type (ev_hdr a)) →
    cl_recv cl = Some (event_bytes a ++ rest) → cr_stdout run = [].
Proof.
  intros Hrun Hd Ha Hst Hg Hno.
  destruct (client_sent cl argv run d Hrun Hd) as (e & sa & Hex & Hbytes & Ht & Hu & Htime & _).
  split; [|by intros a rest ? ?; eapply client_no_output].
  pose proof (length_event_image e) as Hlen. change sizeof_Event with 200 in Hlen.
  destruct (decode_image_little e (drop (length (event_image e)) stack) old Ht)
    as (e' & Hdec & Ht' & Hu' & _ & Hc). rewrite Hu, Htime in Hu'.
  destruct (send_ack_good Ha (sw_uuid (w_swim w)) addr addrlen w Hg)
    as (r & reply & w' & Hack & [Hs Ho] & ? & _ & ?).
  exists e', reply, w'. split.
  { unfold swim_recv_event, recvfrom. cbn [rc_data]. rewrite Hbytes.
    rewrite (proj2 (Z.leb_gt _ _)) by lia. by rewrite take_ge by lia. }
  do 2 (split; [done|]). split; [|done].
  rewrite (event_from_stranger e' addr addrlen swim_process_ping w);
    [|apply Hg|by rewrite Hu'|by rewrite Ht'].
  unfold swim_process_ping. rewrite (bind_run get_swim _ w (w_swim w) w) by done.
  rewrite (bind_run _ _ _ _ _ Hack). by rewrite Hc.
Qed.

End Theorems.

(** ** Witness *)

#[local] Existing Instance lexicographic.
#[local] Existing Instance sample_env.
#[local] Existing Instance plain_text.

(** [swim_client peer leave UUID], answered by an ACK. *)
Definition sample_client : ClientEnv :=
  {| cl_getaddrinfo := λ _ _, Some (sample_addr, 16); cl_socket := 3;
     cl_uuid_parse := λ _, Some (sample_uuid 10); cl_time := 1766383895;
     cl_uuid := sample_uuid 99; cl_sendto := 200;
     cl_recv := Some (@event_bytes LittleEndian (sample_event EVENT_TYPE_ACK)) |}.

Definition leave_line : list text :=
  [lit "swim_client"; lit "peer"; lit "leave"; lit "0a"].

Definition sample_run : ClientRun :=
  match @client_main LittleEndian plain_text sample_client leave_line with
  | Ok run => run | Fault _ => exits 0 [] end.

Definition sample_sent : Datagram :=
  default {| dg_bytes := []; dg_addr := sample_addr; dg_addrlen := 0 |} (head (cr_sent sample_run)).

Lemma swim_client_misunderstood_witness :
  (∃ e reply w',
     @swim_recv_event LittleEndian (replicate 2048 xff) blank_event
       {| rc_data := Some (dg_bytes sample_sent); rc_addr := sample_addr; rc_addrlen := 16 |}
       = Ok (e, 38) ∧
     eh_type (ev_hdr e) = EVENT_TYPE_PING ∧
     eh_uuid (ev_hdr e) = misread_uuid (sample_uuid 99) 1766383895 ∧
     @swim_process_event lexicographic LittleEndian sample_env e sample_addr 16 W = (Ok tt, w') ∧
     w_swim w' = w_swim W ∧ w_out w' = w_out W ++ [reply] ∧ dg_addr reply = sample_addr ∧
     @carries LittleEndian sample_env (w_swim W) EVENT_TYPE_ACK (sw_uuid (w_swim W)) reply) ∧
  ∀ a rest, event_type_valid (eh_type (ev_hdr a)) →
    cl_recv sample_client = Some (@event_bytes LittleEndian a ++ rest) → cr_stdout sample_run = [].
Proof.
  apply (swim_client_misunderstood sample_client leave_line sample_run sample_sent
    (replicate 2048 xff) blank_event sample_addr 16 W).
  - vm_compute. reflexivity.
  - vm_compute. apply list_elem_of_here.
  - done.
  - apply length_replicate.
  - apply sample_good.
  - by apply (bool_decide_unpack _).
Defined.
