(* ===== verification/Server.v ===== *)
(** * The server: [swim/server.c], [swim/server_pthread.c], [swim_state_init]

    A server starts with an empty view, optionally announces itself, and then
    runs its loop until it is stopped: it receives an event and processes it,
    does a heartbeat, and now and then prints its view. *)

From Stdlib Require Import Init.Byte Strings.String ZArith Lia.
From stdpp Require Import base tactics list vector sorting gmap.
From S2P Require Import Prelude Bytes Node Event Text Encoding EncodingFacts State Printing PrintingFacts.
From S2P Require Import StateFacts Samples.
From S2P Require Import Membership Probe Network Cluster Process Protocol Scenarios.

Open Scope Z_scope.

(** ** Initialisation *)

(** The answers of the system to [socket], [setsockopt], [bind] (of an
    address), [uuid_generate] and [pthread_create]. *)
Record InitEnv : Type := {
  in_socket : Z;
  in_setsockopt : Z;
  in_bind : sockaddr_in → Z;
  in_uuid : uuid_t;
  in_create : Z
}.

(** [memset(swim, 0, sizeof(SWIM))] *)
Definition zero_swim : SWIM :=
  {| sw_sockfd := 0; sw_last_heartbeat := 0; sw_addr := zeros 16; sw_uuid := zeros 16; sw_incarnation := 0;
     sw_view_capacity := 0; sw_view_size := 0; sw_view := [];
     sw_probe := {| pr_order := []; pr_pos := 0; pr_size := 0 |} |}.

Section Operations.
Context `{UuidLib} `{Host} `{Env} `{TextEnv} {App : Type}.

Definition AF_INET : Z := 2.
Definition INADDR_ANY : Z := 0.

(** [sin_family], [sin_port] and [sin_addr], after the zeros of [memset]. *)
Definition server_addr (port : Z) : sockaddr_in :=
  array_of 16 (store 2 AF_INET ++ store 2 (hton 2 port) ++ store 4 (hton 4 INADDR_ANY)).

(** [port] is a [uint16_t].  A failure of [setsockopt] or [bind] also closes the
    socket.  A view that cannot be allocated is not noticed: its cells do not
    exist. *)
Definition swim_state_init (port : Z) (sys : InitEnv) : M bool :=
  put_swim zero_swim;;
  if in_socket sys <? 0 then mret false
  else if in_setsockopt sys <? 0 then mret false
  else
    modify (set_sw_addr (server_addr port));;
    if in_bind sys (server_addr port) <? 0 then mret false
    else
      let view_capacity := 32%nat in
      p ← alloc;
      now ← time;
      modify (λ s,
        {| sw_sockfd := in_socket sys; sw_last_heartbeat := now; sw_addr := sw_addr s;
           sw_uuid := in_uuid sys;
           sw_incarnation := sw_incarnation s; sw_view_capacity := view_capacity;
           sw_view_size := sw_view_size s;
           sw_view := match p with Some _ => replicate view_capacity zero_node | None => [] end;
           sw_probe := sw_probe s |});;
      mret true.

(** ** The loop *)

(** [struct PThreadServerState]: [thread] tells whether there is one;
    [address] is that of a node to join, with length 0 if there is none. *)
Record PThreadServerState : Type := {
  ps_thread : bool;
  ps_stopped : bool;
  ps_addr : sockaddr_storage;
  ps_addrlen : Z
}.

(** The [int] [swim_listen_port] is converted to the [uint16_t] parameter of
    [swim_state_init], whose result is ignored. [None] stands for the field
    [server] not being assigned. *)
Definition swim_server_init (swim_listen_port : Z) (sys : InitEnv)
  (addr : sockaddr_storage) (addrlen : Z) : M (option PThreadServerState) :=
  p ← alloc;
  match p with
  | None => mret None
  | Some _ =>
      swim_state_init (to_unsigned 2 swim_listen_port) sys;;
      mret (Some {| ps_thread := false; ps_stopped := false;
                    ps_addr := addr; ps_addrlen := addrlen |})
  end.

Definition swim_server_stop (state : PThreadServerState) : PThreadServerState :=
  {| ps_thread := ps_thread state; ps_stopped := true;
     ps_addr := ps_addr state; ps_addrlen := ps_addrlen state |}.

Definition swim_server_running (state : PThreadServerState) : bool := negb (ps_stopped state).

(** What one iteration finds: whether another thread has called
    [swim_server_stop] by then, the contents of the stack where the packet
    buffer is, the memory of the event, and what [recvfrom] receives. *)
Record Input : Type := {
  ip_stop : bool;
  ip_stack : list byte;
  ip_event : Event;
  ip_packet : Incoming
}.

Definition server_iteration (input : Input) (last_printout : Z) (out : Output App)
  : M (Z * Output App) :=
  '(event, bytes) ← lift (swim_recv_event (ip_stack input) (ip_event input) (ip_packet input));
  (if 0 <? bytes
   then swim_process_event event (rc_addr (ip_packet input)) (rc_addrlen (ip_packet input))
   else mret tt);;
  swim_cluster_heartbeat;;
  next_printout ← time;
  if last_printout + 5 <? next_printout then
    s ← get_swim;
    out ← lift (swim_state_print s out);
    mret (next_printout, out)
  else mret (last_printout, out).

(** [while (swim_server_running(swim)) ...], as far as the inputs go. *)
Fixpoint server_iterations (inputs : list Input) (state : PThreadServerState)
  (last_printout : Z) (out : Output App) : M (PThreadServerState * Output App) :=
  match inputs with
  | [] => mret (state, out)
  | input :: inputs =>
      let state := if ip_stop input then swim_server_stop state else state in
      if swim_server_running state then
        '(last_printout, out) ← server_iteration input last_printout out;
        server_iterations inputs state last_printout out
      else mret (state, out)
  end.

Definition swim_server_loop (inputs : list Input) (state : PThreadServerState)
  (out : Output App) : M (PThreadServerState * Output App) :=
  server_iterations inputs state 0 out.

(** The body of the server thread. *)
Definition pthread_server_loop (inputs : list Input) (state : PThreadServerState)
  (out : Output App) : M (PThreadServerState * Output App) :=
  (if 0 <? ps_addrlen state then swim_cluster_join (ps_addr state) (ps_addrlen state)
   else mret tt);;
  swim_server_loop inputs state out.

(** [swim_server_start] creates the thread, and [swim_server_wait] waits for
    its end.  Between the two the program does nothing but to stop the server
    from a signal handler, which is part of the inputs, so that the thread can
    be run by the latter.  The state is a pointer that may be null, and the
    first component of the result of [swim_server_start] is whether there was
    an error; waiting for a thread that was not created is undefined. *)
Definition swim_server_start (sys : InitEnv) (server : option PThreadServerState)
  : outcome (bool * PThreadServerState) :=
  match server with
  | None => Fault NullDeref
  | Some state =>
      if in_create sys =? 0
      then Ok (false, {| ps_thread := true; ps_stopped := ps_stopped state;
                         ps_addr := ps_addr state; ps_addrlen := ps_addrlen state |})
      else Ok (true, state)
  end.

Definition swim_server_wait (inputs : list Input) (state : PThreadServerState)
  (out : Output App) : M (PThreadServerState * Output App) :=
  if ps_thread state then pthread_server_loop inputs state out else fail NullDeref.

(** The memory of the iteration: a buffer of 2048 bytes for the packet and
    another for the event, which leaves room for 11 gossip entries; the
    address of the sender fits [struct sockaddr_storage]. *)
Record input_wf (input : Input) : Prop := {
  iw_stack : Z.of_nat (length (ip_stack input)) = SWIM_MAX_PACKET_SIZE;
  iw_event : length (ev_gossip (ip_event input)) = 11%nat;
  iw_addrlen : wf_sockaddr (rc_addrlen (ip_packet input))
}.

(** The decoder does not fault on the packet. *)
Definition decodable (input : Input) : Prop :=
  ∃ e r, swim_recv_event (ip_stack input) (ip_event input) (ip_packet input) = Ok (e, r).

(** ** Reachable states *)

Inductive reachable : World → Prop :=
| reach_init port sys w w' :
    swim_state_init port sys w = (Ok true, w') → reachable w'
| reach_join addr addrlen w w' :
    reachable w → swim_cluster_join addr addrlen w = (Ok tt, w') → reachable w'
| reach_iteration input last_printout out r w w' :
    reachable w → input_wf input →
    server_iteration input last_printout out w = (Ok r, w') → reachable w'
| reach_leave w w' :
    reachable w → swim_cluster_leave w = (Ok tt, w') → reachable w'.

End Operations.

(** ** Facts *)

(** A fault of the printing of the state in which the server then is. *)
Definition print_stops (App : Type) `{TextEnv} `{UuidLib} (f : fault) (w : World) : Prop :=
  server_wf (w_swim w) ∧ ∃ out : Output App, swim_state_print (w_swim w) out = Fault f.

Section Facts.
Context {U : UuidLib} {UL : UuidLaws U} {H : Host} {E : Env} {T : TextEnv} {App : Type}.
Hypothesis alloc_ok : ∀ k, env_alloc k = true.

Lemma init_run port sys w :
  ∃ b w', swim_state_init port sys w = (Ok b, w') ∧ w_out w' = w_out w ∧
    (b = true → good (w_swim w') ∧ live (w_swim w') = [] ∧ sw_uuid (w_swim w') = in_uuid sys).
Proof.
  unfold swim_state_init. rewrite (bind_run (put_swim _) _ w tt _ eq_refl).
  do 2 (case_match; [by eexists false, _|]).
  rewrite (bind_run (modify _) _ (with_swim zero_swim w) tt _ eq_refl).
  case_match; [by eexists false, _|].
  unfold alloc, time, modify, mbind, M_bind. simpl. rewrite alloc_ok.
  eexists true, _. split; [done|]. split; [done|]. intros _. split; [|done].
  split; [split|].
  - split; simpl; [done|lia|lia| |by left]. split; [constructor|apply not_elem_of_nil].
  - constructor.
  - split; simpl; lia.
  - intros u n Hm. exfalso. by apply view_map_lookup in Hm as [?%elem_of_nil _].
Qed.

Lemma server_addr_bytes port :
  vec_to_list (server_addr port) = store 2 AF_INET ++ be_split 2 port ++ replicate 12 x00.
Proof.
  unfold server_addr. rewrite !store_hton.
  rewrite array_of_short by (rewrite !length_app, length_store, !length_be_split; lia).
  rewrite !length_app, length_store, !length_be_split, <-!app_assoc. done.
Qed.

Lemma heartbeat_keeps : keeps swim_cluster_heartbeat.
Proof.
  intros w Hw. destruct (heartbeat_run w alloc_ok Hw) as (w' & Hrun & Hcase).
  eapply wp_run; [exact Hrun|]. case_decide; [by destruct Hcase|].
  destruct Hcase as [-> _]. done.
Qed.

(** A received event is one the decoder accepts. *)
Lemma recv_wf input e r :
  input_wf input →
  swim_recv_event (ip_stack input) (ip_event input) (ip_packet input) = Ok (e, r) → 0 < r →
  wf_event e ∧ ev_gossip_count e ≤ 11 ∧ is_signed 8 (eh_time (ev_hdr e)).
Proof.
  intros [Hst _ _] Hrun Hr. unfold swim_recv_event, recvfrom in Hrun.
  change SWIM_MAX_PACKET_SIZE with 2048 in Hst.
  destruct (rc_data (ip_packet input)) as [d|]; [|simpl in Hrun; simplify_eq; lia].
  case_match; [apply Ok_inj in Hrun; simplify_eq; rewrite Z.leb_le in *; lia|].
  apply decode_event_wf in Hrun as (? & ? & ? & _); [done| |lia].
  rewrite length_app, length_take, length_drop. lia.
Qed.

(** [m] keeps the invariant, or fails in a way that is allowed to a server
    that prints its state. *)
Definition runs {A} (m : M A) : Prop :=
  ∀ w, server_wf (w_swim w) →
    wp m (λ _ w', server_wf (w_swim w')) (λ f w', stops f w' ∨ print_stops App f w') w.

Lemma runs_keeps {A} (m : M A) : keeps m → runs m.
Proof.
  intros Hm w Hw. specialize (Hm w Hw). unfold wp in *. destruct (m w) as [[a|f] w']; auto.
Qed.

Lemma runs_ret {A} (a : A) : runs (mret a).
Proof. apply runs_keeps, keeps_ret. Qed.

Lemma runs_bind {A B} (m : M A) (k : A → M B) :
  runs m → (∀ a, runs (k a)) → runs (a ← m; k a).
Proof.
  intros Hm Hk w Hw. apply wp_bind. eapply wp_mono; [by apply Hm| |done].
  intros a w' Hw'. by apply Hk.
Qed.

Lemma runs_print (out : Output App) : runs (s ← get_swim; lift (swim_state_print s out)).
Proof.
  intros w Hw. unfold wp. rewrite (bind_run get_swim _ w (w_swim w) w) by done. unfold lift.
  destruct (swim_state_print (w_swim w) out) as [out'|f] eqn:Hp; [done|].
  right. split; [done|]. by exists out.
Qed.

Lemma iteration_runs input last_printout (out : Output App) :
  input_wf input → decodable input → runs (server_iteration input last_printout out).
Proof.
  intros Hin (e & r & Hdec). unfold server_iteration. intros w Hw.
  eapply wp_step; [unfold lift; rewrite Hdec; done|]. revert w Hw. apply runs_bind.
  - apply runs_keeps. destruct (Z.ltb_spec 0 r) as [Hr|_]; [|apply keeps_ret].
    destruct (recv_wf input e r Hin Hdec Hr) as (? & ? & ?).
    apply keeps_event; [done..|apply Hin].
  - intros _. apply runs_bind; [apply runs_keeps, heartbeat_keeps|]. intros _.
    apply runs_bind; [by intros w Hw|]. intros next. case_match; [|apply runs_ret].
    intros w Hw. pose proof (runs_print out w Hw) as Hp. unfold wp in *.
    unfold mbind, M_bind, lift in *. simpl in *.
    by destruct (swim_state_print (w_swim w) out).
Qed.

Lemma iteration_decodable input last_printout (out : Output App) r w w' :
  server_iteration input last_printout out w = (Ok r, w') → decodable input.
Proof.
  unfold server_iteration, mbind, M_bind, lift, decodable.
  destruct (swim_recv_event _ _ _) as [[e b]|]; [eauto|done].
Qed.

Lemma iterations_run inputs state last_printout (out : Output App) :
  Forall input_wf inputs → Forall decodable inputs →
  runs (server_iterations inputs state last_printout out).
Proof.
  intros Hin Hdec. revert state last_printout out.
  induction inputs as [|input inputs IH]; intros state last_printout out;
    cbn [server_iterations]; [apply runs_ret|].
  apply Forall_cons in Hin as [? ?], Hdec as [? ?].
  destruct (swim_server_running _); [|apply runs_ret].
  apply runs_bind; [by apply iteration_runs|]. intros [? ?]. auto.
Qed.

(** A loop that returns early was stopped. *)
Lemma iterations_stopped inputs state last_printout (out : Output App) w state' out' w' :
  server_iterations inputs state last_printout out w = (Ok (state', out'), w') →
  existsb ip_stop inputs = true → swim_server_running state' = false.
Proof.
  revert state last_printout out w. induction inputs as [|input inputs IH];
    intros state last_printout out w Hrun Hex; [done|]. cbn [server_iterations] in Hrun.
  destruct (swim_server_running (if ip_stop input then _ else _)) eqn:Er;
    [|injection Hrun as <- _ _; done].
  unfold mbind, M_bind in Hrun. destruct (server_iteration _ _ _ _) as [[[l out1]|] w1]; [|done].
  eapply IH; [exact Hrun|]. simpl in Hex. destruct (ip_stop input); [done|exact Hex].
Qed.

Lemma join_keeps addr addrlen : keeps (swim_cluster_join addr addrlen).
Proof.
  intros w Hw. destruct (cluster_join_run addr addrlen w Hw) as (w' & Hrun & [Hs _]).
  eapply wp_run; [exact Hrun|]. by rewrite Hs.
Qed.

Lemma reachable_server w : reachable (App := App) w → server_wf (w_swim w).
Proof.
  induction 1 as [port sys w w' Hrun|addr addrlen w w' _ IH Hrun
    |input last_printout out r w w' _ IH Hin Hrun|w w' _ IH Hrun].
  - destruct (init_run port sys w) as (b & w1 & Hrun1 & _ & Hgood). rewrite Hrun in Hrun1.
    injection Hrun1 as <- <-. by apply Hgood.
  - pose proof (join_keeps addr addrlen w IH) as Hk. unfold wp in Hk. by rewrite Hrun in Hk.
  - pose proof (iteration_runs input last_printout out Hin
      (iteration_decodable _ _ _ _ _ _ Hrun) w IH) as Hk. unfold wp in Hk. by rewrite Hrun in Hk.
  - destruct (cluster_leave_run w IH) as (ds & w1 & e & idxs & Hrun1 & [Hs _] & _).
    rewrite Hrun in Hrun1. injection Hrun1 as <-. by rewrite Hs.
Qed.

(** A PING with one gossip entry about a new node. *)
Lemma announcing_gossip e info addr addrlen w :
  server_wf (w_swim w) → ev_gossip_count e = 1 → ev_gossip e !! 0%nat = Some info →
  0 < ni_last_seen info → ni_status info ≠ SWIM_STATUS_UNKNOWN →
  ni_uuid info ≠ sw_uuid (w_swim w) → view_map (w_swim w) !! ni_uuid info = None →
  ∃ d cell w', swim_process_ping e addr addrlen w = (Ok tt, w') ∧ w_out w' = w_out w ++ [d] ∧
    node_added (w_swim w) info cell (w_swim w').
Proof.
  intros Hs Hcount Hinfo Hseen Hst Hself Hnew. unfold swim_process_ping.
  rewrite (bind_run get_swim _ w (w_swim w) w) by done. rewrite send_ack_announce.
  pose proof (announce_run EVENT_TYPE_ACK (sw_uuid (w_swim w)) addr addrlen w Hs I) as Hrun.
  rewrite alloc_ok in Hrun. destruct Hrun as (a & w1 & Hrun & [Hs1 Ho1] & _).
  rewrite (bind_run _ _ _ _ _ Hrun). unfold swim_process_gossip. rewrite Hcount.
  destruct (ev_gossip e) as [|i g]; [done|]. injection Hinfo as ->.
  change (Z.to_nat 1) with 1%nat. cbn [process_infos].
  destruct (merge_run info w1) as
    [[? _]|[_ [(? & ? & ? & Hm & _)|(_ & w' & Hmerge & Ho & Hadd)]]];
    [rewrite Hs1; apply Hs|congruence|rewrite Hs1 in Hm; congruence|].
  destruct Hadd as [(_ & Hno & _)|[cell Hna]]; [by rewrite alloc_ok in Hno|].
  rewrite Hs1 in Hna. eexists _, cell, w'. split; [|split; [by rewrite Ho, Ho1|done]].
  assert (known_info info = true) as Hk.
  { unfold known_info. by rewrite (proj2 (Z.ltb_lt _ _)), bool_decide_eq_false_2. }
  rewrite (bind_run (process_info info) _ w1 tt w'); [done|]. unfold process_info. rewrite Hk.
  rewrite (bind_run (lift _) _ w1 tt w1) by done.
  rewrite (bind_run get_swim _ w1 (w_swim w1) w1) by done.
  by rewrite Hs1, uuid_compare_neq.
Qed.

Lemma swim_server_init_run port sys addr addrlen w :
  0 ≤ in_socket sys → 0 ≤ in_setsockopt sys → (∀ a, 0 ≤ in_bind sys a) →
  ∃ w', swim_server_init port sys addr addrlen w
      = (Ok (Some {| ps_thread := false; ps_stopped := false; ps_addr := addr;
                     ps_addrlen := addrlen |}), w') ∧ good (w_swim w') ∧
    sw_view_size (w_swim w') = 0%nat ∧
    vec_to_list (sw_addr (w_swim w')) =
      store 2 AF_INET ++ be_split 2 (to_unsigned 2 port) ++ replicate 12 x00.
Proof.
  intros Hs Ho Hb. unfold swim_server_init.
  set (w1 := (alloc w).2).
  rewrite (bind_run alloc _ w (Some (w_allocs w)) w1) by (unfold alloc; by rewrite alloc_ok).
  destruct (init_run (to_unsigned 2 port) sys w1) as (b & w' & Hrun & _ & Hgood).
  rewrite (bind_run _ _ _ _ _ Hrun). exists w'. split; [done|]. revert Hrun Hgood.
  unfold swim_state_init. rewrite (bind_run (put_swim _) _ w1 tt _ eq_refl).
  rewrite !(proj2 (Z.ltb_ge _ _)) by done.
  rewrite (bind_run (modify _) _ (with_swim zero_swim w1) tt _ eq_refl).
  unfold alloc, time, modify, mbind, M_bind. simpl. intros [= <- <-] Hgood.
  split; [by apply Hgood|]. split; [done|]. apply server_addr_bytes.
Qed.

(** The outcomes of the loop. *)
Lemma loop_safe (inputs : list Input) (state : PThreadServerState)
  (out : Output App) (w : World) :
  server_wf (w_swim w) → Forall input_wf inputs →
  Forall decodable inputs →
  ∃ r w', pthread_server_loop inputs state out w = (r, w') ∧
    ((∃ state' out', r = Ok (state', out') ∧ server_wf (w_swim w') ∧
        (existsb ip_stop inputs = true → swim_server_running state' = false)) ∨
     r = Fault AssertFailed ∨ r = Fault (Exited 1) ∨
     ∃ f, r = Fault f ∧ print_stops App f w').
Proof.
  intros Hw Hin Hdec.
  assert (runs (pthread_server_loop inputs state out)) as Hk.
  { apply runs_bind; [apply runs_keeps; case_match; [apply join_keeps|apply keeps_ret]|].
    intros _. by apply iterations_run. }
  specialize (Hk w Hw). unfold wp in Hk.
  destruct (pthread_server_loop inputs state out w) as [[[state' out']|f] w'] eqn:Hrun.
  - exists (Ok (state', out')), w'. split; [done|]. left. exists state', out'.
    split_and!; [done..|]. unfold pthread_server_loop, mbind, M_bind in Hrun.
    match type of Hrun with (let (_, _) := ?m in _) = _ => destruct m as [[[]|] w1] end; [|done].
    by eapply iterations_stopped.
  - exists (Fault f), w'. destruct Hk as [[->| ->]|Hk]; eauto 8.
Qed.

End Facts.

(** ** Theorems *)

Section Theorems.
Context {U : UuidLib} {UL : UuidLaws U} {H : Host} {E : Env} {T : TextEnv} {App : Type}.

(** Initialisation reports success exactly if the socket could be created,
    configured and bound, to the given port of all interfaces in network byte
    order; if also the view could be allocated, the server then has the given
    uuid, an empty view and a state satisfying all invariants. *)
Theorem swim_state_init_correct (port : Z) (sys : InitEnv) (w : World) :
  (∀ k, env_alloc k = true) →
  ∃ b w', swim_state_init port sys w = (Ok b, w') ∧ w_out w' = w_out w ∧
    (b = true ↔ 0 ≤ in_socket sys ∧ 0 ≤ in_setsockopt sys ∧ 0 ≤ in_bind sys (server_addr port)) ∧
    (b = true → good (w_swim w') ∧ live (w_swim w') = [] ∧ sw_uuid (w_swim w') = in_uuid sys ∧
       sw_incarnation (w_swim w') = 0 ∧ sw_view_capacity (w_swim w') = 32%nat ∧
       vec_to_list (sw_addr (w_swim w')) =
         store 2 AF_INET ++ be_split 2 port ++ replicate 12 x00).
Proof.
  intros Ha. destruct (init_run Ha port sys w) as (b & w' & Hrun & Ho & Hgood).
  exists b, w'. split; [done|]. split; [done|]. revert Hrun Hgood. unfold swim_state_init.
  rewrite (bind_run (put_swim _) _ w tt _ eq_refl).
  destruct (Z.ltb_spec (in_socket sys) 0); [by intros [= <- _] _; split; [lia|]|].
  destruct (Z.ltb_spec (in_setsockopt sys) 0); [by intros [= <- _] _; split; [lia|]|].
  rewrite (bind_run (modify _) _ (with_swim zero_swim w) tt _ eq_refl).
  destruct (Z.ltb_spec (in_bind sys (server_addr port)) 0);
    [by intros [= <- _] _; split; [lia|]|].
  unfold alloc, time, modify, mbind, M_bind. simpl. intros [= <- <-] Hgood.
  split; [done|]. intros _. destruct (Hgood eq_refl) as (? & ? & ?). split_and!; try done.
  apply server_addr_bytes.
Qed.

(** C4: The invariant of the server: every state that a server reaches, by
    initialisation, joining, leaving and any number of iterations on arbitrary
    packets, is well formed: the view is sorted by uuid without duplicates
    and without the server itself, sizes and capacities agree with the memory,
    the probe schedule is a permutation of the view or invalid, and every
    entry can be put on the wire. *)
Theorem swim_server_invariant (w : World) :
  (∀ k, env_alloc k = true) → reachable (App := App) w → server_wf (w_swim w).
Proof. intros Ha. by apply reachable_server. Qed.


(** C32: A single event makes the view unprintable: a PING from a stranger whose
    gossip has one entry about a new node, with a status that is none of the
    enumeration, is processed and acknowledged like any other; the node is
    added with that status, and the next time the view is printed the program
    faults, by indexing the table of names out of bounds. *)
Theorem swim_status_unprintable (e : Event) (info : NodeInfo) (c : Z) (addr : sockaddr_storage)
  (addrlen : Z) (w : World) :
  TextLaws T → (∀ k, env_alloc k = true) → server_wf (w_swim w) →
  eh_type (ev_hdr e) = EVENT_TYPE_PING → eh_uuid (ev_hdr e) ∉ uuids (w_swim w) →
  ev_gossip_count e = 1 → ev_gossip e !! 0%nat = Some info →
  0 < ni_last_seen info → ni_status info = status_of c → 4 ≤ c →
  ni_uuid info ≠ sw_uuid (w_swim w) → ni_uuid info ∉ uuids (w_swim w) →
  swim_status_name (ni_status info) = Fault OutOfBounds ∧
  ∃ d n w', swim_process_event e addr addrlen w = (Ok tt, w') ∧ w_out w' = w_out w ++ [d] ∧
    n ∈ live (w_swim w') ∧ ns_info n = info ∧
    ∀ out : Output App, out_print out = None → ∃ f, swim_state_print (w_swim w') out = Fault f.
Proof.
  intros TL Ha Hs Ht Hsend Hcount Hinfo Hseen Hst Hc Hself Hnew.
  assert (status_code (ni_status info) = c) as Hcode by (by rewrite Hst, status_code_of).
  split. { unfold swim_status_name. apply index_fault. simpl. lia. }
  rewrite (event_from_stranger e addr addrlen swim_process_ping w) by
    (done || apply Hs || by rewrite Ht).
  destruct (announcing_gossip Ha e info addr addrlen w Hs Hcount Hinfo Hseen) as
    (d & cell & w' & Hrun & Ho & Hadd); [|done|by apply view_map_None|].
  { intros E0. rewrite E0 in Hcode. simpl in Hcode. lia. }
  exists d, (set_ns_info info cell), w'. do 2 (split; [done|]).
  assert (set_ns_info info cell ∈ live (w_swim w')) as Hin.
  { eapply (view_map_lookup _ (ni_uuid info)). rewrite (na_map _ _ _ _ Hadd).
    apply lookup_insert_eq. }
  do 2 (split; [done|]). intros out Hcb. apply list_elem_of_lookup_1 in Hin as [i Hi].
  pose proof (na_wf _ _ _ _ Hadd) as Hwf.
  eapply (state_print_fault _ _ i); [|done|exact Hi|].
  - pose proof (wf_capacity _ Hwf). pose proof (wf_size _ Hwf). lia.
  - intros [Hstat _ _ _]. change (node_status _) with (ni_status info) in Hstat. lia.
Qed.

End Theorems.

(** ** Witnesses *)

#[local] Existing Instance lexicographic.
#[local] Instance sample_host : Host := LittleEndian.
#[local] Existing Instance ticking_env.
#[local] Existing Instance plain_text.

Definition sample_sys : InitEnv :=
  {| in_socket := 3; in_setsockopt := 0; in_bind := λ _, 0; in_uuid := sample_uuid 1;
     in_create := 0 |}.

Lemma swim_state_init_correct_witness :
  ∃ b w', swim_state_init 7946 sample_sys W = (Ok b, w') ∧ w_out w' = [] ∧
    (b = true ↔ 0 ≤ 3 ∧ 0 ≤ 0 ∧ 0 ≤ 0) ∧
    (b = true → good (w_swim w') ∧ live (w_swim w') = [] ∧ sw_uuid (w_swim w') = sample_uuid 1 ∧
       sw_incarnation (w_swim w') = 0 ∧ sw_view_capacity (w_swim w') = 32%nat ∧
       vec_to_list (sw_addr (w_swim w')) =
         store 2 AF_INET ++ be_split 2 7946 ++ replicate 12 x00).
Proof. apply (swim_state_init_correct 7946 sample_sys W). done. Defined.

(** A JOIN arrives from node 9. *)
Definition sample_input : Input :=
  {| ip_stop := false; ip_stack := replicate 2048 xff; ip_event := blank_event;
     ip_packet := {| rc_data := Some (event_bytes (sample_event EVENT_TYPE_JOIN));
                     rc_addr := sample_addr; rc_addrlen := 16 |} |}.

Lemma sample_input_wf : input_wf sample_input.
Proof. split; [vm_compute; reflexivity|done|vm_compute; split; congruence]. Qed.

(** The state of a new server after it has received that. *)
Lemma swim_server_invariant_witness :
  let w0 := (swim_state_init 7946 sample_sys W).2 in
  let w1 := (server_iteration sample_input 0 sample_output w0).2 in
  sw_view_size (w_swim w1) = 1%nat ∧ server_wf (w_swim w1).
Proof.
  intros w0 w1. split; [vm_compute; reflexivity|].
  apply (swim_server_invariant (App := unit)); [done|].
  apply (reach_iteration sample_input 0 sample_output
    (1766383912, (* the printout *)
     match (server_iteration sample_input 0 sample_output w0).1 with
     | Ok r => r.2 | Fault _ => sample_output end) w0).
  - apply (reach_init 7946 sample_sys W). reflexivity.
  - apply sample_input_wf.
  - vm_compute. reflexivity.
Defined.

(** The second iteration finds that the server has been stopped. *)
Definition stop_input : Input :=
  {| ip_stop := true; ip_stack := ip_stack sample_input; ip_event := ip_event sample_input;
     ip_packet := ip_packet sample_input |}.

Definition sample_state : PThreadServerState :=
  {| ps_thread := true; ps_stopped := false; ps_addr := sample_addr; ps_addrlen := 16 |}.


(** A PING from node 77 tells of node 55 with status 1000. *)
Definition rumour : NodeInfo :=
  {| ni_uuid := sample_uuid 55; ni_last_seen := 1766383895; ni_incarnation := 0;
     ni_status := STATUS_OTHER 1000; ni_addr := sample_addr; ni_addrlen := 16 |}.

Lemma swim_status_unprintable_witness :
  swim_status_name (STATUS_OTHER 1000) = Fault OutOfBounds ∧
  ∃ d n w', swim_process_event (event_from EVENT_TYPE_PING 77 0 [rumour]) sample_addr 16 W
      = (Ok tt, w') ∧ w_out w' = [d] ∧
    n ∈ live (w_swim w') ∧ ns_info n = rumour ∧
    ∀ out : Output unit, out_print out = None → ∃ f, swim_state_print (w_swim w') out = Fault f.
Proof.
  apply (swim_status_unprintable (event_from EVENT_TYPE_PING 77 0 [rumour]) rumour 1000).
  - apply plain_text_laws.
  - done.
  - apply sample_server_wf.
  - done.
  - by apply (bool_decide_unpack _).
  - done.
  - done.
  - done.
  - done.
  - done.
  - done.
  - by apply (bool_decide_unpack _).
Defined.
