(* ===== verification/Distributed.v ===== *)
(** * A cluster of servers

    Any number of servers that exchange datagrams, as a step relation.  The
    network may lose, duplicate, reorder and misdirect datagrams, but it does
    not make them up: a server receives what some server has sent.  Servers are
    started, run, stop by a fault or by themselves, and crash. *)

From Stdlib Require Import Init.Byte ZArith Lia.
From stdpp Require Import base tactics list vector sorting gmap relations.
From S2P Require Import Prelude Bytes Node Event Text Encoding EncodingFacts State Printing.
From S2P Require Import StateFacts Samples PrintingFacts Membership Probe Network Cluster.
From S2P Require Import Process Protocol Scenarios Evolution Server.

Open Scope Z_scope.

(** ** The system *)

Record Member : Type := {
  mb_running : bool;
  mb_world : World
}.

(** The servers that were ever started, by their uuid. *)
Abbreviation cluster := (gmap uuid_t Member).

(** A server that has stopped leaves its datagrams behind. *)
Definition in_flight (c : cluster) (d : Datagram) : Prop :=
  ∃ u m, c !! u = Some m ∧ d ∈ w_out (mb_world m).

(** The incarnation a node has reached; 0 for one that was not started. *)
Definition incarnation_of (c : cluster) : bound := λ u,
  match c !! u with Some m => sw_incarnation (w_swim (mb_world m)) | None => 0 end.

(** What a running server does. *)
Inductive operation (App : Type) : Type :=
| Join (addr : sockaddr_storage) (addrlen : Z)
| Leave
| Iterate (input : Input) (last_printout : Z) (out : Output App).
Arguments Join {App} addr addrlen.
Arguments Leave {App}.
Arguments Iterate {App} input last_printout out.

Section System.
Context `{UuidLib} `{Host} `{TextEnv} {App : Type}.

Definition perform `{Env} (op : operation App) : M unit :=
  match op with
  | Join addr addrlen => swim_cluster_join addr addrlen
  | Leave => swim_cluster_leave
  | Iterate input last_printout out => server_iteration input last_printout out;; mret tt
  end.

(** What is received was sent. *)
Definition delivered (c : cluster) (r : Incoming) : Prop :=
  ∀ bytes, rc_data r = Some bytes → ∃ d, in_flight c d ∧ dg_bytes d = bytes.

Definition admissible (c : cluster) (op : operation App) : Prop :=
  match op with
  | Iterate input _ _ => input_wf input ∧ delivered c (ip_packet input)
  | _ => True
  end.

(** The system a server runs on may answer differently in every step; memory is
    available.  An incarnation that is about to wrap around at 2^32 is excluded: one
    event can advance it by its 11 entries. *)
Inductive cluster_step (c : cluster) : cluster → Prop :=
| step_start `(E : Env) port sys w0 w :
    (∀ k, env_alloc k = true) → c !! in_uuid sys = None → w_out w0 = [] →
    swim_state_init port sys w0 = (Ok true, w) →
    cluster_step c (<[in_uuid sys := {| mb_running := true; mb_world := w |}]> c)
| step_run `(E : Env) u op w r w' :
    (∀ k, env_alloc k = true) → c !! u = Some {| mb_running := true; mb_world := w |} →
    admissible c op → perform op w = (r, w') →
    sw_incarnation (w_swim w) + 11 < 2 ^ 32 →
    cluster_step c (<[u := {| mb_running := bool_decide (r = Ok tt); mb_world := w' |}]> c)
| step_crash u m :
    c !! u = Some m →
    cluster_step c (<[u := {| mb_running := false; mb_world := mb_world m |}]> c).

Definition cluster_reachable (c : cluster) : Prop := rtc cluster_step ∅ c.

End System.

(** ** One step of a server *)

(** The bound with the incarnation of one node raised, if it is larger. *)
Definition raised (B : bound) (u : uuid_t) (inc : Z) : bound :=
  λ v, if decide (v = u) then Z.max (B v) inc else B v.

Lemma raised_le B u inc : bound_le B (raised B u inc).
Proof. intros v. unfold raised. case_decide; lia. Qed.

Section Steps.
Context {U : UuidLib} {UL : UuidLaws U} {H : Host} {T : TextEnv} {App : Type} {E : Env}.
Hypothesis alloc_ok : ∀ k, env_alloc k = true.
Variables (B : bound) (s0 : SWIM).
Hypothesis bound_pos : ∀ u, 0 ≤ B u.

(** A packet that some server has sent is received as a sound event. *)
Lemma recv_sound input bytes :
  input_wf input → rc_data (ip_packet input) = Some bytes →
  (∃ d, sound_packet B d ∧ dg_bytes d = bytes) →
  ∃ e n, swim_recv_event (ip_stack input) (ip_event input) (ip_packet input) = Ok (e, n) ∧
    0 < n ∧ sound_event B e ∧ is_signed 8 (eh_time (ev_hdr e)).
Proof.
  intros Hin Hdata (d & (e & Hbytes & He) & <-). rewrite Hbytes in Hdata.
  assert (0 < Z.of_nat (length (event_bytes e))) as Hpos
    by (unfold event_bytes; rewrite length_app, length_header_bytes; lia).
  destruct Hin as [Hst Hev Hl]. destruct (ip_packet input) as [data addr addrlen] eqn:Hp.
  simpl in Hdata. subst data.
  pose proof (recv_event_run e (ip_event input) (ip_stack input) addr addrlen (se_wf _ _ He)
    (se_count _ _ He) Hst Hev) as Hrun.
  exists (received_event (ip_event input) e), (Z.of_nat (length (event_bytes e))).
  split; [done|]. split; [done|].
  destruct (recv_wf input (received_event (ip_event input) e)
    (Z.of_nat (length (event_bytes e)))) as (Hwf & _ & Hs);
    [by split; rewrite ?Hp|by rewrite Hp|lia|].
  split; [by apply received_sound|done].
Qed.

(** The rest of an iteration, after the event has been processed. *)
Lemma steady_after B' s inc last_printout (out : Output App) :
  inc ≤ B' (sw_uuid s) →
  steady B' s inc (swim_cluster_heartbeat;;
    next_printout ← time;
    if last_printout + 5 <? next_printout then
      s ← get_swim;
      out ← lift (swim_state_print s out);
      mret (next_printout, out)
    else mret (last_printout, out)).
Proof.
  intros Hle. apply steady_bind; [by apply steady_heartbeat|intros _].
  apply steady_bind; [apply steady_time|intros now]. case_match; [|apply steady_ret].
  apply steady_read. intros s'. apply steady_bind; [apply steady_lift|intros ?; apply steady_ret].
Qed.

(** An iteration on a packet that was sent, or on none. *)
Lemma iteration_evolved input last_printout (out : Output App) w :
  evolved B s0 w → sw_incarnation (w_swim w) ≤ B (sw_uuid s0) → input_wf input →
  (∀ bytes, rc_data (ip_packet input) = Some bytes → ∃ d, sound_packet B d ∧ dg_bytes d = bytes) →
  let w' := (server_iteration input last_printout out w).2 in
  evolved (raised B (sw_uuid s0) (sw_incarnation (w_swim w'))) s0 w' ∧
  (sw_incarnation (w_swim w) + 11 < 2 ^ 32 → sw_incarnation (w_swim w) ≤ sw_incarnation (w_swim w')).
Proof.
  intros Hw Hinc Hin Hdel. unfold server_iteration.
  assert (∃ e n, swim_recv_event (ip_stack input) (ip_event input) (ip_packet input) = Ok (e, n) ∧
    (0 < n → sound_event B e ∧ is_signed 8 (eh_time (ev_hdr e)))) as (e & n & Hrecv & He).
  { destruct (rc_data (ip_packet input)) as [bytes|] eqn:Hdata.
    - destruct (recv_sound input bytes Hin Hdata (Hdel bytes eq_refl)) as (e & n & ? & _ & ?). eauto.
    - exists (ip_event input), (-1). unfold swim_recv_event, recvfrom. rewrite Hdata.
      split; [done|lia]. }
  rewrite Hrecv, (bind_run (lift (Ok _)) _ w _ w eq_refl).
  set (process := if 0 <? n then _ else _).
  assert (advanced B s0 (sw_incarnation (w_swim w)) (process w).2) as [Hw1 Hgrow].
  { unfold process. destruct (Z.ltb_spec 0 n) as [Hn|_]; [|by apply settled_advanced].
    destruct (He Hn). eapply evolves_event; [exact bound_pos|exact Hinc|done|done|apply Hin|done]. }
  match goal with |- context [mbind ?k process w] =>
    change (mbind k process w) with
      (match process w with (Ok a, w1) => k a w1 | (Fault f, w1) => (Fault f, w1) end) end.
  destruct (process w) as [[[]|f] w1]; simpl in Hw1, Hgrow; cycle 1.
  { split; [|done]. by apply (evolved_le B); [apply raised_le|]. }
  set (inc := sw_incarnation (w_swim w1)).
  destruct (steady_after (raised B (sw_uuid s0) inc) s0 inc last_printout out) with (w := w1)
    as [Hev Hi]; [|split; [by apply (evolved_le B); [apply raised_le|]|done]|by rewrite !Hi].
  unfold raised. rewrite decide_True by done. lia.
Qed.

Lemma perform_evolved (op : operation App) w :
  evolved B s0 w → sw_incarnation (w_swim w) ≤ B (sw_uuid s0) →
  match op with
  | Iterate input _ _ =>
      input_wf input ∧ ∀ bytes, rc_data (ip_packet input) = Some bytes →
        ∃ d, sound_packet B d ∧ dg_bytes d = bytes
  | _ => True
  end →
  let w' := (perform op w).2 in
  evolved (raised B (sw_uuid s0) (sw_incarnation (w_swim w'))) s0 w' ∧
  (sw_incarnation (w_swim w) + 11 < 2 ^ 32 → sw_incarnation (w_swim w) ≤ sw_incarnation (w_swim w')).
Proof.
  intros Hw Hinc Hop. destruct op as [addr addrlen| |input last_printout out]; simpl.
  - destruct (steady_join B s0 (sw_incarnation (w_swim w)) Hinc addr addrlen w (conj Hw eq_refl))
      as [Hev ->]. split; [|done]. by apply (evolved_le B); [apply raised_le|].
  - destruct (steady_leave B s0 (sw_incarnation (w_swim w)) Hinc w (conj Hw eq_refl)) as [Hev ->].
    split; [|done]. by apply (evolved_le B); [apply raised_le|].
  - destruct Hop as [Hin Hdel].
    pose proof (iteration_evolved input last_printout out w Hw Hinc Hin Hdel) as Hev.
    unfold mbind, M_bind. by destruct (server_iteration input last_printout out w) as [[]].
Qed.

End Steps.

(** ** The invariant of the cluster *)

Section Invariant.
Context {U : UuidLib} {UL : UuidLaws U} {H : Host} {T : TextEnv} {App : Type}.

Record member_ok (c : cluster) (u : uuid_t) (m : Member) : Prop := {
  mo_self : sw_uuid (w_swim (mb_world m)) = u;
  mo_evolved : evolved (incarnation_of c) (w_swim (mb_world m)) (mb_world m)
}.

Definition cluster_ok (c : cluster) : Prop := ∀ u m, c !! u = Some m → member_ok c u m.

Lemma incarnation_pos c u : cluster_ok c → 0 ≤ incarnation_of c u.
Proof.
  intros Hc. unfold incarnation_of. destruct (c !! u) as [m|] eqn:Hm; [|done].
  apply (sv_incarnation _ (ev_server _ _ _ (mo_evolved _ _ _ (Hc u m Hm)))).
Qed.

Lemma incarnation_self c u m :
  c !! u = Some m → incarnation_of c u = sw_incarnation (w_swim (mb_world m)).
Proof. intros Hm. unfold incarnation_of. by rewrite Hm. Qed.

Lemma incarnation_insert c u m :
  incarnation_of c u ≤ sw_incarnation (w_swim (mb_world m)) →
  ∀ v, incarnation_of (<[u := m]> c) v =
    raised (incarnation_of c) u (sw_incarnation (w_swim (mb_world m))) v.
Proof.
  intros Hle v. unfold incarnation_of at 1, raised. case_decide as Hv.
  - subst v. rewrite lookup_insert_eq. lia.
  - by rewrite lookup_insert_ne.
Qed.

(** Replacing one server, whose incarnation is not lower than before. *)
Lemma cluster_insert c u m :
  cluster_ok c → incarnation_of c u ≤ sw_incarnation (w_swim (mb_world m)) →
  member_ok (<[u := m]> c) u m → cluster_ok (<[u := m]> c).
Proof.
  intros Hc Hle Hm v m' [[<- <-]|[Hne Hv]]%lookup_insert_Some; [done|].
  destruct (Hc v m' Hv) as [Hu Hev]. split; [done|].
  eapply evolved_le; [|exact Hev]. intros x. rewrite incarnation_insert by done. apply raised_le.
Qed.

Lemma in_flight_sound c d : cluster_ok c → in_flight c d → sound_packet (incarnation_of c) d.
Proof.
  intros Hc (u & m & Hm & Hd). pose proof (ev_out _ _ _ (mo_evolved _ _ _ (Hc u m Hm))) as Ho.
  rewrite Forall_forall in Ho. by apply Ho.
Qed.

Lemma delivered_sound c r bytes :
  cluster_ok c → delivered c r → rc_data r = Some bytes →
  ∃ d, sound_packet (incarnation_of c) d ∧ dg_bytes d = bytes.
Proof.
  intros Hc Hdel Hr. destruct (Hdel bytes Hr) as (d & Hd & ?). exists d.
  split; [by apply in_flight_sound|done].
Qed.

(** One step of a running server, in the cluster. *)
Lemma perform_step `{Env} c u (op : operation App) w r w' :
  (∀ k, env_alloc k = true) → cluster_ok c →
  c !! u = Some {| mb_running := true; mb_world := w |} → admissible c op →
  perform op w = (r, w') →
  evolved (raised (incarnation_of c) u (sw_incarnation (w_swim w'))) (w_swim w) w' ∧
  (sw_incarnation (w_swim w) + 11 < 2 ^ 32 → sw_incarnation (w_swim w) ≤ sw_incarnation (w_swim w')).
Proof.
  intros Ha Hc Hu Hop Hrun. destruct (Hc u _ Hu) as [Hself Hev]. simpl in *.
  pose proof (perform_evolved Ha (incarnation_of c) (w_swim w) (λ v, incarnation_pos c v Hc) op w
    Hev) as Hstep.
  rewrite Hrun, Hself in Hstep. apply Hstep.
  - by rewrite (incarnation_self c u _ Hu).
  - destruct op; try done. destruct Hop as [Hin Hdel]. split; [done|].
    intros bytes. by apply delivered_sound.
Qed.

Lemma evolved_now B s0 w : evolved B s0 w → evolved B (w_swim w) w.
Proof. intros [? ? ? ? ?]. by apply evolved_start. Qed.

Lemma cluster_step_ok c c' : cluster_ok c → cluster_step (App := App) c c' → cluster_ok c'.
Proof.
  intros Hc [E port sys w0 w Ha Hu Ho Hrun|E u op w r w' Ha Hu Hop Hrun Hroom|u m Hu].
  - destruct (init_run Ha port sys w0) as (b & w1 & Hrun1 & Ho1 & Hgood).
    rewrite Hrun in Hrun1. injection Hrun1 as <- <-. destruct (Hgood eq_refl) as (Hg & Hl & Hself).
    assert (incarnation_of c (in_uuid sys) = 0) as H0 by (unfold incarnation_of; by rewrite Hu).
    pose proof (proj1 (sv_incarnation _ (go_server _ Hg))) as Hpos.
    apply cluster_insert; [done|simpl; lia|]. split; [done|]. simpl.
    apply evolved_start; [apply Hg| |by rewrite Ho1, Ho].
    intros v n Hn. exfalso. apply view_map_lookup in Hn as [Hn _]. rewrite Hl in Hn.
    by apply elem_of_nil in Hn.
  - destruct (perform_step c u op w r w' Ha Hc Hu Hop Hrun) as [Hev Hle].
    assert (incarnation_of c u ≤ sw_incarnation (w_swim w')) as Hle'
      by (rewrite (incarnation_self c u _ Hu); by apply Hle).
    apply cluster_insert; [done|done|]. split; simpl.
    + rewrite (ev_self _ _ _ Hev). apply (mo_self _ _ _ (Hc u _ Hu)).
    + apply (evolved_le (raised (incarnation_of c) u (sw_incarnation (w_swim w'))));
        [|by eapply evolved_now].
      intros v. by rewrite incarnation_insert.
  - destruct (Hc u m Hu) as [Hself Hev].
    apply cluster_insert; [done|by rewrite (incarnation_self c u _ Hu)|].
    split; [done|]. simpl. eapply evolved_le; [|exact Hev]. intros v.
    rewrite incarnation_insert by (by rewrite (incarnation_self c u _ Hu)). apply raised_le.
Qed.

Lemma cluster_reachable_ok c : cluster_reachable (App := App) c → cluster_ok c.
Proof.
  intros Hr. unfold cluster_reachable in Hr.
  assert (cluster_ok ∅) as H0 by (intros u m Hm; by rewrite lookup_empty in Hm).
  revert H0 Hr. generalize (∅ : cluster). intros c0 H0 Hr.
  induction Hr as [|c1 c2 c3 Hstep _ IH]; [done|]. apply IH. by eapply cluster_step_ok.
Qed.

(** Nobody is forgotten. *)
Definition member_grows (m m' : Member) : Prop :=
  sw_incarnation (w_swim (mb_world m)) ≤ sw_incarnation (w_swim (mb_world m')) ∧
  remembers (w_swim (mb_world m)) (w_swim (mb_world m')).

Lemma member_grows_refl m : member_grows m m.
Proof. split; [lia|done]. Qed.

Lemma cluster_step_grows c c' u m :
  cluster_ok c → cluster_step (App := App) c c' → c !! u = Some m →
  ∃ m', c' !! u = Some m' ∧ member_grows m m'.
Proof.
  intros Hc Hstep Hm. destruct Hstep as [E port sys w0 w Ha Hu Ho Hrun
    |E v op w r w' Ha Hv Hop Hrun Hroom|v m' Hv].
  - exists m. rewrite lookup_insert_ne by congruence. split; [done|apply member_grows_refl].
  - destruct (decide (v = u)) as [->|Hne].
    + eexists. rewrite lookup_insert_eq. split; [done|].
      rewrite Hm in Hv. injection Hv as ->.
      destruct (perform_step c u op w r w' Ha Hc Hm Hop Hrun) as [Hev Hle].
      split; [by apply Hle|apply (ev_memory _ _ _ Hev)].
    + exists m. rewrite lookup_insert_ne by done. split; [done|apply member_grows_refl].
  - destruct (decide (v = u)) as [->|Hne].
    + rewrite Hm in Hv. injection Hv as <-. eexists. rewrite lookup_insert_eq. split; [done|].
      split; [simpl; lia|done].
    + exists m. rewrite lookup_insert_ne by done. split; [done|apply member_grows_refl].
Qed.

End Invariant.

(** ** Theorems *)

Section Theorems.
Context {U : UuidLib} {UL : UuidLaws U} {H : Host} {T : TextEnv} {App : Type}.

(** C1: No incarnation is made up: in every reachable state of a cluster, with
    whatever losses, repetitions and crashes, every server is well formed, the
    entry of a node in its view has a status of the enumeration and an
    incarnation the node itself has reached, and the same holds for the sender
    and the gossip of every event ever sent.  So an incarnation a server takes
    to refute a suspicion is newer than what anybody believes about it.  Servers
    do not run on once their incarnation is about to wrap around at 2^32. *)
Theorem swim_cluster_incarnations (c : cluster) (u : uuid_t) (m : Member) :
  cluster_reachable (App := App) c → c !! u = Some m →
  server_wf (w_swim (mb_world m)) ∧ sw_uuid (w_swim (mb_world m)) = u ∧
  (∀ v n, view_map (w_swim (mb_world m)) !! v = Some n →
     ni_incarnation (ns_info n) ≤ incarnation_of c v ∧ status_valid (node_status n)) ∧
  (∀ d, d ∈ w_out (mb_world m) →
     ∃ e, dg_bytes d = event_bytes e ∧ wf_event e ∧
       eh_incarnation (ev_hdr e) ≤ incarnation_of c (eh_uuid (ev_hdr e)) ∧
       Forall (λ i, ni_incarnation i ≤ incarnation_of c (ni_uuid i) ∧ status_valid (ni_status i))
         (ev_entries e)).
Proof.
  intros Hr Hm. destruct (cluster_reachable_ok c Hr u m Hm) as [Hu [Hs _ Hv _ Ho]].
  split; [done|]. split; [done|]. split.
  - intros v n Hn. destruct (Hv v n Hn) as [? ?]. apply view_map_lookup in Hn as [_ <-]. done.
  - intros d Hd. rewrite Forall_forall in Ho. destruct (Ho d Hd) as (e & ? & [? _ ? ?]). by exists e.
Qed.


(** C3: Nobody is forgotten: along any steps of a cluster, a server that was
    started stays known, with an incarnation that is not lower, and every node
    of its view stays there, with an incarnation that is not lower.  (Servers do
    not run on once their incarnation is about to wrap around at 2^32.) *)
Theorem swim_cluster_never_forgets (c c' : cluster) (u : uuid_t) (m : Member) :
  cluster_reachable (App := App) c → rtc (cluster_step (App := App)) c c' → c !! u = Some m →
  ∃ m', c' !! u = Some m' ∧
    sw_incarnation (w_swim (mb_world m)) ≤ sw_incarnation (w_swim (mb_world m')) ∧
    ∀ v n, view_map (w_swim (mb_world m)) !! v = Some n →
      ∃ n', view_map (w_swim (mb_world m')) !! v = Some n' ∧
        ni_incarnation (ns_info n) ≤ ni_incarnation (ns_info n').
Proof.
  intros Hr Hsteps Hm. pose proof (cluster_reachable_ok c Hr) as Hc. clear Hr.
  change (∃ m', c' !! u = Some m' ∧ member_grows m m').
  revert m Hm. induction Hsteps as [c|c1 c2 c3 Hstep _ IH]; intros m Hm.
  - exists m. split; [done|apply member_grows_refl].
  - destruct (cluster_step_grows c1 c2 u m Hc Hstep Hm) as (m2 & Hm2 & Hi & Hg).
    destruct (IH (cluster_step_ok c1 c2 Hc Hstep) m2 Hm2) as (m3 & Hm3 & Hi' & Hg').
    exists m3. split; [done|]. split; [lia|]. by transitivity (w_swim (mb_world m2)).
Qed.

End Theorems.

(** ** Witnesses

    Two servers are started, the second one joins, the first one processes the
    JOIN and answers. *)

#[local] Existing Instance lexicographic.
#[local] Instance sample_host : Host := LittleEndian.
#[local] Existing Instance ticking_env.
#[local] Existing Instance plain_text.

Definition sample_member (k : Z) : InitEnv :=
  {| in_socket := 3; in_setsockopt := 0; in_bind := λ _, 0; in_uuid := sample_uuid k;
     in_create := 0 |}.

Definition started (k : Z) : World :=
  (swim_state_init 7946 (sample_member k) (sample_world zero_swim)).2.

Definition running (w : World) : Member := {| mb_running := true; mb_world := w |}.

Definition joining : operation unit := Join sample_addr 16.

Definition joined : World := (perform joining (started 5)).2.

(** A server receives the first datagram another one has sent. *)
Definition receiving (sent : World) : Input :=
  {| ip_stop := false; ip_stack := replicate 2048 xff; ip_event := blank_event;
     ip_packet := {| rc_data := dg_bytes <$> head (w_out sent);
                     rc_addr := sample_addr; rc_addrlen := 16 |} |}.

Definition welcoming : operation unit := Iterate (receiving joined) 0 sample_output.

Definition welcomed : World := (perform welcoming (started 1)).2.

Definition two_started : cluster :=
  <[sample_uuid 5 := running (started 5)]> (<[sample_uuid 1 := running (started 1)]> ∅).

Definition one_joined : cluster := <[sample_uuid 5 := running joined]> two_started.

Definition one_welcomed : cluster := <[sample_uuid 1 := running welcomed]> one_joined.

Lemma receiving_wf w : input_wf (receiving w).
Proof. split; [vm_compute; reflexivity|done|vm_compute; split; congruence]. Qed.

(** The bytes received are those of the first datagram. *)
Lemma receiving_delivered (c : cluster) u w :
  c !! u = Some (running w) → delivered c (ip_packet (receiving w)).
Proof.
  intros Hm bytes Hb. simpl in Hb. apply fmap_Some in Hb as (d & Hd & ->).
  exists d. split; [|done]. exists u, (running w). split; [done|]. simpl.
  apply list_elem_of_lookup_2 with 0%nat. by destruct (w_out w).
Qed.

Lemma two_started_reachable : cluster_reachable (App := unit) two_started.
Proof.
  eapply rtc_l.
  { apply (step_start ∅ ticking_env 7946 (sample_member 1) (sample_world zero_swim) (started 1));
      reflexivity. }
  eapply rtc_l; [|reflexivity].
  apply (step_start _ ticking_env 7946 (sample_member 5) (sample_world zero_swim) (started 5));
    reflexivity.
Qed.

Lemma one_joined_reachable : cluster_reachable (App := unit) one_joined.
Proof.
  eapply rtc_r; [apply two_started_reachable|].
  apply (step_run two_started ticking_env (sample_uuid 5) joining (started 5) (Ok tt) joined).
  - done.
  - apply lookup_insert_eq.
  - done.
  - vm_compute. reflexivity.
  - vm_compute. congruence.
Qed.

Lemma one_welcomed_step : cluster_step (App := unit) one_joined one_welcomed.
Proof.
  apply (step_run one_joined ticking_env (sample_uuid 1) welcoming (started 1) (Ok tt) welcomed).
  - done.
  - vm_compute. reflexivity.
  - split; [apply receiving_wf|]. by apply (receiving_delivered _ (sample_uuid 5) joined).
  - vm_compute. reflexivity.
  - vm_compute. congruence.
Qed.

Lemma one_welcomed_reachable : cluster_reachable (App := unit) one_welcomed.
Proof. eapply rtc_r; [apply one_joined_reachable|apply one_welcomed_step]. Qed.

Lemma swim_cluster_incarnations_witness :
  sw_view_size (w_swim welcomed) = 1%nat ∧ length (w_out welcomed) = 3%nat ∧
  server_wf (w_swim (mb_world (running welcomed))) ∧
  (∀ v n, view_map (w_swim (mb_world (running welcomed))) !! v = Some n →
     ni_incarnation (ns_info n) ≤ incarnation_of one_welcomed v ∧ status_valid (node_status n)).
Proof.
  split; [vm_compute; reflexivity|]. split; [vm_compute; reflexivity|].
  destruct (swim_cluster_incarnations (App := unit) one_welcomed (sample_uuid 1) (running welcomed))
    as (Hs & _ & Hv & _).
  - apply one_welcomed_reachable.
  - apply lookup_insert_eq.
  - split; [exact Hs|exact Hv].
Defined.


Lemma swim_cluster_never_forgets_witness :
  ∃ m', one_welcomed !! sample_uuid 5 = Some m' ∧
    sw_incarnation (w_swim (mb_world (running joined))) ≤ sw_incarnation (w_swim (mb_world m')) ∧
    ∀ v n, view_map (w_swim (mb_world (running joined))) !! v = Some n →
      ∃ n', view_map (w_swim (mb_world m')) !! v = Some n' ∧
        ni_incarnation (ns_info n) ≤ ni_incarnation (ns_info n').
Proof.
  refine (swim_cluster_never_forgets (App := unit) one_joined one_welcomed (sample_uuid 5)
    (running joined) _ _ _).
  - apply one_joined_reachable.
  - apply rtc_once, one_welcomed_step.
  - apply lookup_insert_eq.
Defined.
