(* ===== verification/Logged.v ===== *)
(** * The server with its log

    The same functions as in [Network], [Cluster], [Process] and [Server], with
    the lines they log: [LOG] of [swim_recv_event], [swim_send_event] and
    [swim_process_event] while the server is verbose, [TRACE] everywhere while
    it is traced, and what is written to [stderr] in any case.  The functions
    that log nothing, neither themselves nor through others, are those of the
    other files. *)

From Stdlib Require Import Init.Byte Strings.String ZArith Lia.
From stdpp Require Import base tactics list vector sorting gmap.
From S2P Require Import Prelude Bytes Node Event Text Encoding EncodingFacts State Printing PrintingFacts.
From S2P Require Import StateFacts Samples Membership Probe Network Cluster Process Protocol Scenarios.
From S2P Require Import Server.

Open Scope Z_scope.

(** ** A monad with a log *)

(** The time that the [k]-th line of the log is written.  These readings of the
    clock are apart from those of [Env], of which the program makes use. *)
Class LogClock := log_time : nat → Z.

Record Log (App : Type) : Type := {
  lg_out : Output App;
  lg_times : nat
}.
Arguments lg_out {App} _.
Arguments lg_times {App} _.

(** A function ends as before, or because a text could not be written. *)
Inductive reply (A : Type) : Type :=
| Reply (o : outcome A)
| TextFault (f : fault).
Arguments Reply {A} o.
Arguments TextFault {A} f.

Definition V (App A : Type) : Type := World → Log App → reply A * World * Log App.

#[export] Instance V_ret {App} : MRet (V App) := λ A a w l, (Reply (Ok a), w, l).

#[export] Instance V_bind {App} : MBind (V App) := λ A B k v w l,
  match v w l with
  | (Reply (Ok a), w', l') => k a w' l'
  | (Reply (Fault f), w', l') => (Reply (Fault f), w', l')
  | (TextFault f, w', l') => (TextFault f, w', l')
  end.

Section Primitives.
Context `{TextEnv} `{LogClock} {App : Type}.

(** A part that logs nothing. *)
Definition quietly {A} (m : M A) : V App A := λ w l,
  let '(r, w') := m w in (Reply r, w', l).

Definition write_out (f : Output App → outcome (Output App)) : V App unit := λ w l,
  match f (lg_out l) with
  | Ok out => (Reply (Ok tt), w, {| lg_out := out; lg_times := lg_times l |})
  | Fault e => (TextFault e, w, l)
  end.

(** [fprintf(stderr, ...)] *)
Definition complain (msg : outcome text) : V App unit :=
  write_out (λ out, s ← msg; Ok (put_stderr s out)).

(** [LOG(...)] reads the clock if the log is on. *)
Definition log (msg : Output App → outcome (text * Output App)) : V App unit := λ w l,
  match LOG (log_time (lg_times l)) msg (lg_out l) with
  | Ok out =>
      (Reply (Ok tt), w,
       {| lg_out := out;
          lg_times := if out_verbose (lg_out l) then S (lg_times l) else lg_times l |})
  | Fault e => (TextFault e, w, l)
  end.

(** [TRACE(...)] makes its message only if tracing is on. *)
Definition trace (func : text) (msg : outcome text) : V App unit :=
  write_out (λ out, if out_tracing out then s ← msg; TRACE func s out else Ok out).

(** The view, whose function ends the server where it fails. *)
Definition show_view (s : SWIM) : V App unit := λ w l,
  match swim_state_print s (lg_out l) with
  | Ok out => (Reply (Ok tt), w, {| lg_out := out; lg_times := lg_times l |})
  | Fault e => (Reply (Fault e), w, l)
  end.

Fixpoint logged_for_each {S} (l : list nat) (body : nat → S → V App S) (state : S) : V App S :=
  match l with
  | [] => mret state
  | i :: l => state ← body i state; logged_for_each l body state
  end.

End Primitives.

Lemma V_bind_run {App A B} (v : V App A) (k : A → V App B) w l a w' l' :
  v w l = (Reply (Ok a), w', l') → (a ← v; k a) w l = k a w' l'.
Proof. unfold mbind, V_bind. by intros ->. Qed.

Lemma V_bind_quietly {App A B} (a : A) (k : A → V App B) w l :
  (a ← quietly (lift (Ok a)); k a) w l = k a w l.
Proof. done. Qed.

(** ** Sending and receiving *)

Section Network.
Context `{TextEnv} `{LogClock} `{Host} `{Env} {App : Type}.

Definition gossip_trace (i : nat) (event : Event) : outcome text :=
  info ← index (ev_gossip event) (Z.of_nat i);
  u ← uuid_arg 0 (ni_uuid info);
  st ← swim_status_name (ni_status info);
  Ok (lit "uuid " ++ u ++ lit " state " ++ st).

Definition logged_copy_gossip (i idx : nat) (event : Event) : V App Event :=
  event ← quietly (copy_gossip i idx event);
  trace (lit "swim_fill_gossip") (gossip_trace i event);;
  mret event.

Definition logged_fill_gossip (event : Event) (count : Z) : V App Event :=
  quietly (lift (assert (count <=? ev_gossip_count event)));;
  s ← quietly get_swim;
  if Z.of_nat (sw_view_size s) <? SWIM_MAX_GOSSIP_SIZE then
    logged_for_each (seq 0 (sw_view_size s)) (λ i event, logged_copy_gossip i i event) event
  else
    logged_for_each (seq 0 (Z.to_nat count))
      (λ i event, idx ← quietly random_index; logged_copy_gossip i idx event) event.

Definition logged_send_event (event : Event) (addr : sockaddr_storage) (addrlen : Z) : V App Z :=
  bytes ← quietly (lift (swim_encode_event (Z.to_nat SWIM_MAX_PACKET_SIZE) event));
  log (transfer_message (lit "-->") event
         (match bytes with Some buf => Z.of_nat (length buf) | None => -1 end) addr addrlen);;
  match bytes with
  | None => quietly (fail OutOfBounds)
  | Some buf =>
      quietly (sendto {| dg_bytes := buf; dg_addr := addr; dg_addrlen := addrlen |})
  end.

Definition logged_send_ack (uuid : uuid_t) (addr : sockaddr_storage) (addrlen : Z) : V App Z :=
  s ← quietly get_swim;
  p ← quietly (swim_event_create EVENT_TYPE_ACK (gossip_size s));
  event ← quietly (deref p);
  trace (lit "swim_send_ack")
    (u ← uuid_arg 0 (sw_uuid s);
     a ← addr_arg 1 addr addrlen;
     Ok (lit "from " ++ u ++ lit " gossip of size " ++ decimal (gossip_size s)
           ++ lit " to " ++ a));;
  event ← logged_fill_gossip (set_ev_uuid uuid event) (gossip_size s);
  logged_send_event event addr addrlen.

Definition logged_send_ping (addr : sockaddr_storage) (addrlen : Z) : V App Z :=
  s ← quietly get_swim;
  p ← quietly (swim_event_create EVENT_TYPE_PING (gossip_size s));
  event ← quietly (deref p);
  trace (lit "swim_send_ping") (a ← addr_arg 0 addr addrlen; Ok (lit "sending ping to " ++ a));;
  event ← logged_fill_gossip event (gossip_size s);
  logged_send_event event addr addrlen.

Definition logged_send_ping_req (target_uuid : uuid_t) (addr : sockaddr_storage) (addrlen : Z)
  : V App Z :=
  s ← quietly get_swim;
  p ← quietly (swim_event_create EVENT_TYPE_PING_REQ (gossip_size s));
  event ← quietly (deref p);
  trace (lit "swim_send_ping_req")
    (u ← uuid_arg 0 target_uuid;
     a ← addr_arg 1 addr addrlen;
     Ok (lit "sending ping_req for node " ++ u ++ lit " to " ++ a));;
  event ← logged_fill_gossip (set_ev_uuid target_uuid event) (gossip_size s);
  logged_send_event event addr addrlen.

(** What [swim_decode_gossip] writes about a message it drops. *)
Definition decode_complaint (buf : list byte) (event : Event) : outcome text :=
  '(hdr, ptr) ← swim_decode_event_header buf (ev_hdr event);
  match decode_body ptr (set_ev_hdr hdr event) with
  | None => Ok []
  | Some body =>
      '(_, ptr) ← body;
      '(count, _) ← swim_decode_uint16 ptr;
      Ok (if gossip_capacity (length ptr) <? count
          then lit "gossip_count " ++ decimal count ++ lit " exceeds capacity "
                 ++ decimal (gossip_capacity (length ptr)) ++ lit ", dropping message" ++ newline
          else [])
  end.

Definition logged_recv_event (stack : list byte) (event : Event) (r : Incoming)
  : V App (Event * Z) :=
  let (bytes, buf) := recvfrom stack r in
  if bytes <=? 0 then mret (event, bytes)
  else
    '(event', result) ← quietly (lift (swim_decode_event buf event));
    if result <? 0 then complain (decode_complaint buf event);; mret (event', result)
    else
      log (transfer_message (lit "<--") event' bytes (rc_addr r) (rc_addrlen r));;
      mret (event', result).

End Network.

(** ** The view and the cluster *)

Section Cluster.
Context `{UuidLib} `{TextEnv} `{LogClock} `{Host} `{Env} {App : Type}.

Definition logged_state_add (info : NodeInfo) : V App (option nat) :=
  s ← quietly get_swim;
  quietly (lift (assert (negb (uuid_compare (ni_uuid info) (sw_uuid s) =? 0))));;
  quietly (lift (assert (bool_decide (swim_state_get_node s (ni_uuid info) = None))));;
  trace (lit "swim_state_add")
    (u ← uuid_arg 0 (ni_uuid info);
     a ← addr_arg 1 (ni_addr info) (ni_addrlen info);
     Ok (lit "node " ++ u ++ lit " addr " ++ a ++ lit " addrlen " ++ decimal (ni_addrlen info)));;
  node ← quietly (add_checked info s);
  match node with
  | Some node => mret (Some node)
  | None =>
      complain (Ok (lit "failed to grow view from " ++ decimal (Z.of_nat (sw_view_capacity s))
        ++ lit " to " ++ decimal (2 * Z.of_nat (sw_view_capacity s)) ++ newline));;
      mret None
  end.

Definition logged_state_merge (info : NodeInfo) : V App unit :=
  s ← quietly get_swim;
  if uuid_compare (ni_uuid info) (sw_uuid s) =? 0 then mret tt
  else
    match swim_state_get_node s (ni_uuid info) with
    | None => logged_state_add info;; mret tt
    | Some node => quietly (set_node node (merge_node info))
    end.

Definition logged_cluster_join (addr : sockaddr_storage) (addrlen : Z) : V App unit :=
  event ← quietly (swim_event_init (zero_event 0) EVENT_TYPE_JOIN);
  s ← quietly get_swim;
  logged_send_event (set_ev_uuid (sw_uuid s) event) addr addrlen;;
  mret tt.

Definition logged_send_to_node (event : Event) (idx : nat) : V App unit :=
  n ← quietly (node_at idx);
  logged_send_event event (ni_addr (ns_info n)) (ni_addrlen (ns_info n));;
  mret tt.

Definition logged_cluster_leave : V App unit :=
  s ← quietly get_swim;
  if (sw_view_size s =? 0)%nat then mret tt
  else
    pos ← quietly random_index;
    event ← quietly (swim_event_init (zero_event 0) EVENT_TYPE_LEAVE);
    logged_for_each (seq 0 (Nat.min (sw_view_size s) (Z.to_nat SWIM_MAXLEAVE)))
      (λ i _, s ← quietly get_swim;
              logged_send_to_node event ((pos + i) mod sw_view_size s)) tt.

Fixpoint logged_ping_req_loop (sent start target : nat) : V App unit :=
  match sent with
  | O => mret tt
  | S sent' =>
      if (start <? sent)%nat then
        s ← quietly get_swim;
        node ← quietly (node_at ((start + sent) mod sw_view_size s));
        (if bool_decide (node_status node = SWIM_STATUS_ALIVE) then
           t ← quietly (node_at target);
           logged_send_ping_req (node_uuid t) (ni_addr (ns_info node))
             (ni_addrlen (ns_info node));;
           mret tt
         else mret tt);;
        logged_ping_req_loop sent' start target
      else mret tt
  end.

Definition logged_suspect_dead (target : nat) : V App unit :=
  s ← quietly get_swim;
  if (sw_view_size s =? 0)%nat then mret tt
  else
    start ← quietly random_index;
    quietly (set_node target (set_node_status SWIM_STATUS_SUSPECT));;
    logged_ping_req_loop (Nat.min (sw_view_size s) (Z.to_nat SWIM_MAXPINGREQ)) start target.

Definition logged_update_candidate (now : Z) (i : nat) : V App unit :=
  candidate ← quietly (node_at i);
  let last_seen := ni_last_seen (ns_info candidate) in
  match node_status candidate with
  | SWIM_STATUS_ALIVE =>
      if last_seen <=? now - 60 then
        trace (lit "swim_cluster_heartbeat")
          (Ok (lit "node was last seen " ++ decimal last_seen ++ lit ", which is before "
                 ++ decimal (now - 60)));;
        logged_suspect_dead i
      else mret tt
  | SWIM_STATUS_SUSPECT =>
      if last_seen <=? now - 120 then
        trace (lit "swim_cluster_heartbeat")
          (Ok (lit "witness time " ++ decimal last_seen ++ lit ", which is before "
                 ++ decimal (now - 120)));;
        quietly (swim_cluster_declare_dead i)
      else mret tt
  | SWIM_STATUS_DEAD | SWIM_STATUS_UNKNOWN => mret tt
  | STATUS_OTHER c => complain (Ok (lit "unknown status of node: " ++ decimal c ++ newline))
  end.

Definition logged_heartbeat : V App unit :=
  now ← quietly time;
  s ← quietly get_swim;
  if (0 <? sw_view_size s)%nat && (sw_last_heartbeat s + SWIM_HEARTBEAT_INTERVAL <? now) then
    target_idx ← quietly swim_probe_next;
    quietly (modify (set_sw_last_heartbeat now));;
    (if 0 <=? target_idx then
       target ← quietly (node_at (Z.to_nat target_idx));
       logged_send_ping (ni_addr (ns_info target)) (ni_addrlen (ns_info target));;
       mret tt
     else mret tt);;
    s ← quietly get_swim;
    logged_for_each (seq 0 (sw_view_size s)) (λ i _, logged_update_candidate now i) tt
  else mret tt.

End Cluster.

(** ** Events *)

Section Events.
Context `{UuidLib} `{TextEnv} `{LogClock} `{Host} `{Env} {App : Type}.

Definition logged_process_info (info : NodeInfo) : V App unit :=
  quietly (lift (assert (known_info info)));;
  trace (lit "swim_process_gossip")
    (u ← uuid_arg 0 (ni_uuid info);
     st ← swim_status_name (ni_status info);
     Ok (lit "uuid " ++ u ++ lit " status " ++ st));;
  s ← quietly get_swim;
  if uuid_compare (ni_uuid info) (sw_uuid s) =? 0 then
    match ni_status info with
    | SWIM_STATUS_DEAD =>
        complain (u ← uuid_arg 0 (ni_uuid info);
                  Ok (lit "Node " ++ u ++ lit " declared dead, exiting" ++ newline));;
        quietly (fail (Exited 1))
    | SWIM_STATUS_SUSPECT =>
        trace (lit "swim_process_gossip")
          (Ok (lit "self suspected, incrementing incarnation to "
                 ++ decimal (to_unsigned 4 (sw_incarnation s + 1))));;
        quietly (modify (λ s, set_sw_incarnation (to_unsigned 4 (sw_incarnation s + 1)) s))
    | SWIM_STATUS_ALIVE | SWIM_STATUS_UNKNOWN => mret tt
    | STATUS_OTHER _ => logged_state_merge info
    end
  else logged_state_merge info.

Fixpoint logged_process_infos (gossip : list NodeInfo) (count : nat) {struct count}
  : V App unit :=
  match count, gossip with
  | O, _ => mret tt
  | S _, [] => quietly (fail OutOfBounds)
  | S count, info :: gossip => logged_process_info info;; logged_process_infos gossip count
  end.

Definition logged_process_gossip (gossip : list NodeInfo) (count : Z) : V App unit :=
  s ← quietly get_swim;
  trace (lit "swim_process_gossip") (u ← uuid_arg 0 (sw_uuid s); Ok (lit "self uuid " ++ u));;
  logged_process_infos gossip (Z.to_nat count).

Definition logged_process_ping (event : Event) (addr : sockaddr_storage) (addrlen : Z)
  : V App unit :=
  s ← quietly get_swim;
  logged_send_ack (sw_uuid s) addr addrlen;;
  logged_process_gossip (ev_gossip event) (ev_gossip_count event).

Definition logged_process_ping_req (event : Event) (addr : sockaddr_storage) (addrlen : Z)
  : V App unit :=
  node ← quietly (swim_state_suspect (ping_req_uuid event) addr addrlen);
  match node with
  | Some node =>
      n ← quietly (node_at node);
      logged_send_ping (ni_addr (ns_info n)) (ni_addrlen (ns_info n));;
      mret tt
  | None => mret tt
  end.

Definition logged_ack_node (event : Event) (addr : sockaddr_storage) (addrlen : Z)
  : V App (option nat) :=
  s ← quietly get_swim;
  match swim_state_get_node s (ack_uuid event) with
  | Some node => mret (Some node)
  | None =>
      info ← quietly (lift (swim_node_init (ack_uuid event) addr addrlen));
      logged_state_add (set_ni_last_seen (eh_time (ev_hdr event)) info)
  end.

Definition logged_ack_update (event : Event) (node : nat) : V App unit :=
  n ← quietly (node_at node);
  match node_status n with
  | SWIM_STATUS_SUSPECT =>
      (if swim_node_has_witness n then
         logged_send_ack (ack_uuid event) (wi_addr (ns_witness n)) (wi_addrlen (ns_witness n));;
         quietly (set_node node swim_node_reset_witness)
       else mret tt);;
      quietly (swim_cluster_refuted_dead node)
  | SWIM_STATUS_UNKNOWN => quietly (swim_cluster_refuted_dead node)
  | SWIM_STATUS_DEAD | SWIM_STATUS_ALIVE | STATUS_OTHER _ => mret tt
  end.

Definition logged_process_ack (event : Event) (addr : sockaddr_storage) (addrlen : Z)
  : V App unit :=
  s ← quietly get_swim;
  if uuid_compare (ack_uuid event) (sw_uuid s) =? 0
  then trace (lit "swim_process_ack") (Ok (lit "Got ack for myself. Weird."))
  else
    p ← logged_ack_node event addr addrlen;
    node ← quietly (deref p);
    logged_ack_update event node;;
    logged_process_gossip (ev_gossip event) (ev_gossip_count event).

Definition logged_process_join (event : Event) (addr : sockaddr_storage) (addrlen : Z)
  : V App unit :=
  s ← quietly get_swim;
  if uuid_compare (sw_uuid s) (join_uuid event) =? 0 then mret tt
  else if bool_decide (swim_state_get_node s (join_uuid event) ≠ None) then mret tt
  else
    event ← quietly (lift (fill_join_addr event addr addrlen));
    info ← quietly (lift (swim_node_init (join_uuid event) (ev_join_addr event)
                            (ev_join_addrlen event)));
    let info := set_ni_last_seen (eh_time (ev_hdr event)) (set_ni_status SWIM_STATUS_ALIVE info) in
    quietly (lift (assert (known_info info)));;
    logged_state_add info;;
    s ← quietly get_swim;
    logged_for_each (seq 0 (sw_view_size s)) (λ i _, logged_send_to_node event i) tt;;
    s ← quietly get_swim;
    logged_send_ack (sw_uuid s) addr addrlen;;
    mret tt.

Definition logged_process_leave (event : Event) (addr : sockaddr_storage) (addrlen : Z)
  : V App unit :=
  quietly (swim_state_del (leave_uuid event));;
  s ← quietly get_swim;
  logged_send_ack (sw_uuid s) addr addrlen;;
  mret tt.

Definition logged_event_processing (type : EventType)
  : outcome (option (Event → sockaddr_storage → Z → V App unit)) :=
  match type with
  | EVENT_TYPE_PING => Ok (Some logged_process_ping)
  | EVENT_TYPE_PING_REQ => Ok (Some logged_process_ping_req)
  | EVENT_TYPE_ACK => Ok (Some logged_process_ack)
  | EVENT_TYPE_JOIN => Ok (Some logged_process_join)
  | EVENT_TYPE_LEAVE => Ok (Some logged_process_leave)
  | EVENT_TYPE_OTHER c => if (0 <=? c) && (c <? 18) then Ok None else Fault OutOfBounds
  end.

Definition logged_process_event (event : Event) (addr : sockaddr_storage) (addrlen : Z)
  : V App unit :=
  callback ← quietly (lift (logged_event_processing (eh_type (ev_hdr event))));
  log (process_message event addr addrlen);;
  quietly (swim_state_notice (eh_uuid (ev_hdr event)) (eh_time (ev_hdr event))
    (eh_incarnation (ev_hdr event)));;
  callback ← quietly (deref callback);
  callback event addr addrlen.

End Events.

(** ** The server *)

Section Server.
Context `{UuidLib} `{TextEnv} `{LogClock} `{Host} `{Env} {App : Type}.

(** [strerror] is the text [perror] has for the failure of [setsockopt]. *)
Definition logged_state_init (strerror : text) (port : Z) (sys : InitEnv) : V App bool :=
  b ← quietly (swim_state_init port sys);
  if b : bool then
    s ← quietly get_swim;
    trace (lit "swim_state_init")
      (u ← uuid_arg 0 (sw_uuid s);
       a ← addr_arg 1 (array_of 128 (vec_to_list (sw_addr s))) 16;
       Ok (lit "initialized server with UUID " ++ u ++ lit " to listen on " ++ a));;
    mret true
  else
    (if (0 <=? in_socket sys) && (in_setsockopt sys <? 0) then
       complain (Ok (lit "setsockopt: " ++ strerror ++ newline))
     else mret tt);;
    mret false.

Definition logged_server_init (strerror : text) (swim_listen_port : Z) (sys : InitEnv)
  (addr : sockaddr_storage) (addrlen : Z) : V App (option PThreadServerState) :=
  p ← quietly alloc;
  match p with
  | None => mret None
  | Some _ =>
      logged_state_init strerror (to_unsigned 2 swim_listen_port) sys;;
      mret (Some {| ps_thread := false; ps_stopped := false;
                    ps_addr := addr; ps_addrlen := addrlen |})
  end.

(** The value is the time of the last printout. *)
Definition logged_iteration (input : Input) (last_printout : Z) : V App Z :=
  '(event, bytes) ← logged_recv_event (ip_stack input) (ip_event input) (ip_packet input);
  (if 0 <? bytes
   then logged_process_event event (rc_addr (ip_packet input)) (rc_addrlen (ip_packet input))
   else mret tt);;
  logged_heartbeat;;
  next_printout ← quietly time;
  if last_printout + 5 <? next_printout then
    s ← quietly get_swim;
    show_view s;;
    mret next_printout
  else mret last_printout.

Fixpoint logged_iterations (inputs : list Input) (state : PThreadServerState)
  (last_printout : Z) : V App PThreadServerState :=
  match inputs with
  | [] => mret state
  | input :: inputs =>
      let state := if ip_stop input then swim_server_stop state else state in
      if swim_server_running state then
        last_printout ← logged_iteration input last_printout;
        logged_iterations inputs state last_printout
      else mret state
  end.

Definition logged_server_loop (inputs : list Input) (state : PThreadServerState)
  : V App PThreadServerState :=
  (if 0 <? ps_addrlen state then logged_cluster_join (ps_addr state) (ps_addrlen state)
   else mret tt);;
  logged_iterations inputs state 0.

Definition logged_server_wait (inputs : list Input) (state : PThreadServerState)
  : V App PThreadServerState :=
  if ps_thread state then logged_server_loop inputs state else quietly (fail NullDeref).

End Server.

(** ** Logging changes nothing else *)

(** The output may have changed by calls of the function registered for log
    lines, but it is the same function, and the same for the view. *)
Record hears {App} (out out' : Output App) : Prop := {
  he_print : out_print out' = out_print out;
  he_sink : out_log_sink out' = out_log_sink out;
  he_app : rtc (λ a b, ∃ f s, out_log_sink out = Some f ∧ f s a = Ok b)
             (out_app out) (out_app out')
}.

#[export] Instance hears_preorder {App} : PreOrder (@hears App).
Proof.
  split.
  - intros out. by split.
  - intros o1 o2 o3 [Hp1 Hs1 Ha1] [Hp2 Hs2 Ha2]. split; [congruence..|].
    rewrite Hs1 in Ha2. by etransitivity.
Qed.

(** [v] ends as [m] does, in the same state of the world, unless a text could
    not be written. *)
Definition shadows {App A} (v : V App A) (m : M A) : Prop :=
  ∀ w l,
  match v w l with
  | (Reply r, w', l') => m w = (r, w') ∧ hears (lg_out l) (lg_out l')
  | (TextFault _, _, _) => True
  end.

Create HintDb shadows.

Section Shadows.
Context {T : TextEnv} {C : LogClock} {App : Type}.

Lemma shadows_quietly {A} (m : M A) : shadows (App := App) (quietly m) m.
Proof. intros w l. unfold quietly. by destruct (m w). Qed.

Lemma shadows_ret {A} (a : A) : shadows (App := App) (mret a) (mret a).
Proof. by intros w l. Qed.

Lemma shadows_bind {A B} (v : V App A) (k : A → V App B) m n :
  shadows v m → (∀ a, shadows (k a) (n a)) → shadows (a ← v; k a) (a ← m; n a).
Proof.
  intros Hv Hk w l. unfold mbind, V_bind, M_bind. specialize (Hv w l).
  destruct (v w l) as [[[[a|f]|f] w1] l1]; [|by destruct Hv as [-> ?]|done].
  destruct Hv as [-> Hp]. specialize (Hk a w1 l1).
  destruct (k a w1 l1) as [[[r|f] w2] l2]; [|done]. destruct Hk as [-> Hk].
  split; [done|]. by etransitivity.
Qed.

(** A line of the log may stand before anything. *)
Lemma shadows_aside {B} (v : V App unit) (k : V App B) n :
  shadows v (mret tt) → shadows k n → shadows (v;; k) n.
Proof.
  intros Hv Hk w l. exact (shadows_bind v (λ _, k) (mret tt) (λ _, n) Hv (λ _, Hk) w l).
Qed.

Lemma shadows_write_out f :
  (∀ out out', f out = Ok out' → hears out out') →
  shadows (App := App) (write_out f) (mret tt).
Proof.
  intros Hf w l. unfold write_out. destruct (f (lg_out l)) as [out|] eqn:Ef; [|done].
  split; [done|]. by apply Hf.
Qed.

Lemma log_write_hears s (out out' : Output App) :
  swim_log_write s out = Ok out' → hears out out'.
Proof.
  unfold swim_log_write. intros Hw. simplify_outcome.
  destruct (out_log_sink out) as [f|] eqn:Ef; simplify_outcome; split; try done.
  apply rtc_once. eauto.
Qed.

Lemma shadows_complain msg : shadows (App := App) (complain msg) (mret tt).
Proof. apply shadows_write_out. intros out out' Hf. by simplify_outcome. Qed.

Lemma shadows_trace func msg : shadows (App := App) (trace func msg) (mret tt).
Proof.
  apply shadows_write_out. intros out out' Hf. unfold TRACE in Hf.
  destruct (out_tracing out) eqn:Et; [|by simplify_eq]. simplify_outcome. by eapply log_write_hears.
Qed.

Lemma shadows_log msg :
  (∀ (out : Output App) s out', msg out = Ok (s, out') → hears out out') →
  shadows (log msg) (mret tt).
Proof.
  intros Hm w l. unfold log. destruct (LOG _ _ _) as [out|] eqn:El; [|done]. split; [done|].
  simpl. revert El. unfold LOG. destruct (out_verbose (lg_out l)); [|by intros [= <-]].
  destruct (localtime_r _) as [t|]; [|done]. destruct (strftime _ _ t) as [str n].
  case_match; [by intros [= <-]|]. intros Hw. simplify_outcome.
  etransitivity; [by eapply Hm|by eapply log_write_hears].
Qed.

Lemma shadows_transfer arrow e bytes addr addrlen :
  shadows (App := App) (log (transfer_message arrow e bytes addr addrlen)) (mret tt).
Proof. apply shadows_log. intros out s out' Hm. unfold transfer_message in Hm. by simplify_outcome. Qed.

Lemma shadows_process e addr addrlen :
  shadows (App := App) (log (process_message e addr addrlen)) (mret tt).
Proof. apply shadows_log. intros out s out' Hm. unfold process_message in Hm. by simplify_outcome. Qed.

Lemma shadows_for_each {S} l (body : nat → S → V App S) (body' : nat → S → M S) state :
  (∀ i s, shadows (body i s) (body' i s)) →
  shadows (logged_for_each l body state) (for_each l body' state).
Proof.
  intros Hb. revert state. induction l as [|i l IH]; intros state; [apply shadows_ret|].
  apply shadows_bind; [apply Hb|]. intros s. apply IH.
Qed.

End Shadows.

#[export] Hint Resolve shadows_quietly shadows_ret shadows_complain shadows_trace
  shadows_transfer shadows_process : shadows.

(** The steps of a function and of its counterpart, side by side. *)
Ltac shadow_step :=
  match goal with
  | |- shadows (mbind _ (trace _ _)) _ => apply shadows_aside; [apply shadows_trace|]
  | |- shadows (mbind _ (complain _)) _ => apply shadows_aside; [apply shadows_complain|]
  | |- shadows (mbind _ (log (transfer_message _ _ _ _ _))) _ =>
      apply shadows_aside; [apply shadows_transfer|]
  | |- shadows (mbind _ (log (process_message _ _ _))) _ =>
      apply shadows_aside; [apply shadows_process|]
  | |- shadows _ _ => solve [auto with shadows]
  | |- shadows (mbind _ _) (mbind _ _) => apply shadows_bind; [|intros ?]
  | |- shadows (logged_for_each _ _ _) (for_each _ _ _) => apply shadows_for_each; intros ? ?
  | |- shadows (if ?b then _ else _) (if ?b then _ else _) => destruct b
  | |- shadows (match ?x with _ => _ end) _ => destruct x
  end.

Ltac shadow := repeat shadow_step.

Section Functions.
Context {U : UuidLib} {T : TextEnv} {C : LogClock} {H : Host} {E : Env} {App : Type}.

Lemma shadows_ext {A} (v : V App A) m m' :
  shadows v m → (∀ w, m w = m' w) → shadows v m'.
Proof. intros Hv Hm w l. specialize (Hv w l). rewrite Hm in Hv. done. Qed.

(** Nothing but lines of the log at the end. *)
Lemma shadows_end {A} (v : V App A) k m :
  shadows v m → (∀ a, shadows (k a) (mret a)) → shadows (a ← v; k a) m.
Proof.
  intros Hv Hk. apply (shadows_ext _ (a ← m; mret a)).
  - by apply shadows_bind.
  - intros w. unfold mbind, M_bind. by destruct (m w) as [[]].
Qed.

Lemma shadows_copy_gossip i idx e :
  shadows (App := App) (logged_copy_gossip i idx e) (copy_gossip i idx e).
Proof. apply shadows_end; [apply shadows_quietly|]. intros e'. shadow. Qed.
#[local] Hint Resolve shadows_copy_gossip : shadows.

Lemma shadows_fill_gossip e count :
  shadows (App := App) (logged_fill_gossip e count) (swim_fill_gossip e count).
Proof. unfold logged_fill_gossip, swim_fill_gossip. shadow. Qed.
#[local] Hint Resolve shadows_fill_gossip : shadows.

Lemma shadows_send_event e addr addrlen :
  shadows (App := App) (logged_send_event e addr addrlen) (swim_send_event e addr addrlen).
Proof. unfold logged_send_event, swim_send_event. shadow. Qed.
#[local] Hint Resolve shadows_send_event : shadows.

Lemma shadows_send_ack u addr addrlen :
  shadows (App := App) (logged_send_ack u addr addrlen) (swim_send_ack u addr addrlen).
Proof. unfold logged_send_ack, swim_send_ack. shadow. Qed.
#[local] Hint Resolve shadows_send_ack : shadows.

Lemma shadows_send_ping addr addrlen :
  shadows (App := App) (logged_send_ping addr addrlen) (swim_send_ping addr addrlen).
Proof. unfold logged_send_ping, swim_send_ping. shadow. Qed.
#[local] Hint Resolve shadows_send_ping : shadows.

Lemma shadows_send_ping_req u addr addrlen :
  shadows (App := App) (logged_send_ping_req u addr addrlen) (swim_send_ping_req u addr addrlen).
Proof. unfold logged_send_ping_req, swim_send_ping_req. shadow. Qed.
#[local] Hint Resolve shadows_send_ping_req : shadows.

Lemma shadows_recv stack e r :
  shadows (App := App) (logged_recv_event stack e r) (lift (swim_recv_event stack e r)).
Proof.
  unfold logged_recv_event, swim_recv_event. destruct (recvfrom stack r) as [bytes buf].
  destruct (bytes <=? 0); [apply shadows_ret|]. apply shadows_end; [apply shadows_quietly|].
  intros [e' result]. shadow.
Qed.
#[local] Hint Resolve shadows_recv : shadows.

Lemma shadows_state_add info :
  shadows (App := App) (logged_state_add info) (swim_state_add info).
Proof.
  apply (shadows_ext _ (s ← get_swim;
    lift (assert (negb (uuid_compare (ni_uuid info) (sw_uuid s) =? 0)));;
    lift (assert (bool_decide (swim_state_get_node s (ni_uuid info) = None)));;
    add_checked info s)); [|done].
  unfold logged_state_add. shadow. apply shadows_end; [apply shadows_quietly|]. intros [i|]; shadow.
Qed.
#[local] Hint Resolve shadows_state_add : shadows.

Lemma shadows_state_merge info :
  shadows (App := App) (logged_state_merge info) (swim_state_merge info).
Proof. unfold logged_state_merge, swim_state_merge. shadow. Qed.
#[local] Hint Resolve shadows_state_merge : shadows.

Lemma shadows_cluster_join addr addrlen :
  shadows (App := App) (logged_cluster_join addr addrlen) (swim_cluster_join addr addrlen).
Proof. unfold logged_cluster_join, swim_cluster_join. shadow. Qed.

Lemma shadows_send_to_node e idx :
  shadows (App := App) (logged_send_to_node e idx) (send_to_node e idx).
Proof. unfold logged_send_to_node, send_to_node. shadow. Qed.
#[local] Hint Resolve shadows_send_to_node : shadows.

Lemma shadows_cluster_leave : shadows (App := App) logged_cluster_leave swim_cluster_leave.
Proof. unfold logged_cluster_leave, swim_cluster_leave. shadow. Qed.

Lemma shadows_ping_req_loop sent start target :
  shadows (App := App) (logged_ping_req_loop sent start target) (ping_req_loop sent start target).
Proof.
  induction sent as [|sent IH]; cbn [logged_ping_req_loop ping_req_loop]; shadow.
Qed.
#[local] Hint Resolve shadows_ping_req_loop : shadows.

Lemma shadows_suspect_dead target :
  shadows (App := App) (logged_suspect_dead target) (swim_cluster_suspect_dead target).
Proof. unfold logged_suspect_dead, swim_cluster_suspect_dead. shadow. Qed.
#[local] Hint Resolve shadows_suspect_dead : shadows.

Lemma shadows_update_candidate now i :
  shadows (App := App) (logged_update_candidate now i) (update_candidate now i).
Proof. unfold logged_update_candidate, update_candidate. cbn zeta. shadow. Qed.
#[local] Hint Resolve shadows_update_candidate : shadows.

Lemma shadows_heartbeat : shadows (App := App) logged_heartbeat swim_cluster_heartbeat.
Proof. unfold logged_heartbeat, swim_cluster_heartbeat. shadow. Qed.

Lemma shadows_process_info info :
  shadows (App := App) (logged_process_info info) (process_info info).
Proof. unfold logged_process_info, process_info. shadow. Qed.
#[local] Hint Resolve shadows_process_info : shadows.

Lemma shadows_process_infos gossip count :
  shadows (App := App) (logged_process_infos gossip count) (process_infos gossip count).
Proof.
  revert gossip. induction count as [|count IH]; intros [|i gossip];
    cbn [logged_process_infos process_infos]; shadow.
Qed.
#[local] Hint Resolve shadows_process_infos : shadows.

Lemma shadows_process_gossip gossip count :
  shadows (App := App) (logged_process_gossip gossip count) (swim_process_gossip gossip count).
Proof.
  apply (shadows_ext _ (s ← get_swim; process_infos gossip (Z.to_nat count))); [|done].
  unfold logged_process_gossip. shadow.
Qed.
#[local] Hint Resolve shadows_process_gossip : shadows.

Lemma shadows_ack_node e addr addrlen :
  shadows (App := App) (logged_ack_node e addr addrlen) (ack_node e addr addrlen).
Proof. unfold logged_ack_node, ack_node. shadow. Qed.

Lemma shadows_ack_update e node :
  shadows (App := App) (logged_ack_update e node) (ack_update e node).
Proof. unfold logged_ack_update, ack_update. shadow. Qed.
#[local] Hint Resolve shadows_ack_node shadows_ack_update : shadows.

Lemma shadows_ping e addr addrlen :
  shadows (App := App) (logged_process_ping e addr addrlen) (swim_process_ping e addr addrlen).
Proof. unfold logged_process_ping, swim_process_ping. shadow. Qed.

Lemma shadows_ping_req e addr addrlen :
  shadows (App := App) (logged_process_ping_req e addr addrlen) (swim_process_ping_req e addr addrlen).
Proof. unfold logged_process_ping_req, swim_process_ping_req. shadow. Qed.

Lemma shadows_ack e addr addrlen :
  shadows (App := App) (logged_process_ack e addr addrlen) (swim_process_ack e addr addrlen).
Proof. unfold logged_process_ack, swim_process_ack. shadow. Qed.

Lemma shadows_join e addr addrlen :
  shadows (App := App) (logged_process_join e addr addrlen) (swim_process_join e addr addrlen).
Proof. unfold logged_process_join, swim_process_join. cbn zeta. shadow. Qed.

Lemma shadows_leave e addr addrlen :
  shadows (App := App) (logged_process_leave e addr addrlen) (swim_process_leave e addr addrlen).
Proof. unfold logged_process_leave, swim_process_leave. shadow. Qed.

Lemma shadows_event e addr addrlen :
  shadows (App := App) (logged_process_event e addr addrlen) (swim_process_event e addr addrlen).
Proof.
  set (notice := swim_state_notice (eh_uuid (ev_hdr e)) (eh_time (ev_hdr e))
    (eh_incarnation (ev_hdr e))).
  assert (∀ (cv : Event → sockaddr_storage → Z → V App unit) cm,
    shadows (cv e addr addrlen) (cm e addr addrlen) →
    shadows (callback ← quietly (lift (Ok (Some cv))); log (process_message e addr addrlen);;
             quietly notice;; callback ← quietly (deref callback); callback e addr addrlen)
      (callback ← lift (Ok (Some cm)); notice;; callback ← deref callback;
       callback e addr addrlen)) as Hcall.
  { intros cv cm Hc.
    change (shadows (log (process_message e addr addrlen);; quietly notice;; cv e addr addrlen)
      (notice;; cm e addr addrlen)). shadow. }
  unfold logged_process_event, swim_process_event. fold notice.
  destruct (eh_type (ev_hdr e)) as [| | | | |c];
    cbn [logged_event_processing swim_event_processing];
    try (apply Hcall; auto using shadows_ping, shadows_ping_req, shadows_ack, shadows_join,
      shadows_leave).
  destruct ((0 <=? c) && (c <? 18)); [|by intros w l].
  change (shadows (log (process_message e addr addrlen);; quietly notice;;
      quietly (App := App) (fail (A := unit) NullDeref)) (notice;; fail NullDeref)). shadow.
Qed.

Lemma shadows_state_init strerror port sys :
  shadows (App := App) (logged_state_init strerror port sys) (swim_state_init port sys).
Proof.
  apply shadows_end; [apply shadows_quietly|]. intros [].
  - apply (shadows_ext _ (s ← get_swim; mret true)); [|done]. shadow.
  - apply (shadows_ext _ (mret tt;; mret false)); [|done]. shadow.
Qed.

Lemma shadows_server_init strerror port sys addr addrlen :
  shadows (App := App) (logged_server_init strerror port sys addr addrlen)
    (swim_server_init port sys addr addrlen).
Proof.
  unfold logged_server_init, swim_server_init. shadow. apply shadows_state_init.
Qed.

End Functions.

(** ** The loop

    The loop also shows the view, so that the two outputs differ.  The function
    registered for the view, if there is one, must not notice what the one for
    the log does: [R] relates the states of the application that it does not
    distinguish. *)

Record unaffected {App} (print : option (SWIM → App → outcome App))
  (sink : option (text → App → outcome App)) (R : App → App → Prop) : Prop := {
  un_sink f s a a' b : sink = Some f → R a b → f s a = Ok a' → R a' b;
  un_print f s a b :
    print = Some f → R a b →
    match f s a, f s b with
    | Ok a', Ok b' => R a' b'
    | Fault e, Fault e' => e = e'
    | _, _ => False
    end
}.

Section Loop.
Context {U : UuidLib} {T : TextEnv} {C : LogClock} {H : Host} {E : Env} {App : Type}.
Context (print : option (SWIM → App → outcome App)) (sink : option (text → App → outcome App)).
Context (R : App → App → Prop) (HR : unaffected print sink R).

(** The output of the server that logs, and of the one that does not. *)
Record linked (out lout : Output App) : Prop := {
  li_print : out_print out = print;
  li_lprint : out_print lout = print;
  li_sink : out_log_sink lout = sink;
  li_app : R (out_app lout) (out_app out)
}.

Lemma linked_hears out lout lout' : linked out lout → hears lout lout' → linked out lout'.
Proof using HR.
  intros [Hp Hlp Hs Ha] [Hp' Hs' Happ]. split; [congruence..|]. rewrite Hs in Happ.
  induction Happ as [|a a1 a2 (f & s & Hf & E1) _ IH]; [done|].
  apply IH. by eapply un_sink.
Qed.

(** [P] holds of the output before, [Q] of the results and the output after. *)
Definition simulates {A B} (P : Output App → Prop) (Q : A → B → Output App → Prop)
  (v : V App A) (m : M B) : Prop :=
  ∀ w l, P (lg_out l) →
  match v w l with
  | (Reply (Ok a), w', l') => ∃ b, m w = (Ok b, w') ∧ Q a b (lg_out l')
  | (Reply (Fault f), w', l') => m w = (Fault f, w')
  | (TextFault _, _, _) => True
  end.

Lemma simulates_bind {A A' B B'} P (Q : A → A' → Output App → Prop)
  (S : B → B' → Output App → Prop) v m k n :
  simulates P Q v m → (∀ a b, simulates (Q a b) S (k a) (n b)) →
  simulates P S (a ← v; k a) (b ← m; n b).
Proof.
  intros Hv Hk w l Hl. unfold mbind, V_bind, M_bind. specialize (Hv w l Hl).
  destruct (v w l) as [[[[a|f]|f] w1] l1]; [|by rewrite Hv|done].
  destruct Hv as (b & -> & Hab). by apply (Hk a b w1 l1).
Qed.

(** A part that does not show the view, before the rest. *)
Lemma simulates_then {A B B'} out (S : B → B' → Output App → Prop) (v : V App A) m k n :
  shadows v m → (∀ a, simulates (linked out) S (k a) (n a)) →
  simulates (linked out) S (a ← v; k a) (a ← m; n a).
Proof using HR.
  intros Hv Hk. apply (simulates_bind _ (λ a b lout, a = b ∧ linked out lout)).
  - intros w l Hl. specialize (Hv w l). destruct (v w l) as [[[[a|f]|f] w'] l']; [| |done].
    + destruct Hv as [-> Hh]. exists a. split_and!; [done..|]. by eapply linked_hears.
    + by destruct Hv.
  - intros a b w l [<- Hl]. by apply Hk.
Qed.

(** Results paired with the output in the server that does not log. *)
Definition paired {A} (a : A) (r : A * Output App) (lout : Output App) : Prop :=
  a = r.1 ∧ linked r.2 lout.

Lemma simulates_view s next out :
  simulates (linked out) paired (show_view s;; mret next)
    (out ← lift (swim_state_print s out); mret (next, out) : M (Z * Output App)).
Proof using HR.
  intros w l [Hp Hlp Hs Ha]. unfold mbind, V_bind, M_bind, show_view, lift, swim_state_print.
  replace (out_print (lg_out l)) with (out_print out) by congruence.
  destruct (out_print out) as [f|] eqn:Ep.
  - pose proof (un_print _ _ _ HR f s _ _ (eq_sym Hp) Ha) as Hf.
    destruct (f s (out_app (lg_out l))) as [a'|e], (f s (out_app out)) as [b'|e'];
      cbn [mbind outcome_bind]; [|done..|by subst].
    exists (next, set_out_app b' out). split; [done|]. split; [done|]. split; simpl; congruence.
  - destruct (uuid_arg 0 (sw_uuid s)); [|done]. cbn [mbind outcome_bind].
    destruct (print_nodes s) as [rows|]; [|done]. cbn [mbind outcome_bind].
    eexists (next, _). split; [done|]. split; [done|]. split; simpl; congruence.
Qed.

Lemma simulates_iteration input last out :
  simulates (linked out) paired (logged_iteration input last) (server_iteration input last out).
Proof using HR.
  unfold logged_iteration, server_iteration.
  apply simulates_then; [apply shadows_recv|intros [e r]].
  apply simulates_then; [destruct (0 <? r); auto using shadows_event, shadows_ret|intros []].
  apply simulates_then; [apply shadows_heartbeat|intros []].
  apply simulates_then; [apply shadows_quietly|intros next].
  destruct (last + 5 <? next).
  - apply simulates_then; [apply shadows_quietly|intros s]. apply simulates_view.
  - intros w l Hl. exists (last, out). by split; [|split].
Qed.

Lemma simulates_iterations inputs state last out :
  simulates (linked out) paired (logged_iterations inputs state last)
    (server_iterations inputs state last out).
Proof using HR.
  revert state last out. induction inputs as [|input inputs IH]; intros state last out.
  { intros w l Hl. exists (state, out). by split; [|split]. }
  cbn [logged_iterations server_iterations].
  set (state' := if ip_stop input then swim_server_stop state else state).
  destruct (swim_server_running state').
  - apply (simulates_bind _ paired); [apply simulates_iteration|].
    intros a [next out'] w l [-> Hl]. by apply IH.
  - intros w l Hl. exists (state', out). by split; [|split].
Qed.

Lemma simulates_server_loop inputs state out :
  simulates (linked out) paired (logged_server_loop inputs state)
    (pthread_server_loop inputs state out).
Proof using HR.
  unfold logged_server_loop, pthread_server_loop, swim_server_loop.
  apply simulates_then; [destruct (0 <? ps_addrlen state); auto using shadows_cluster_join, shadows_ret|].
  intros []. apply simulates_iterations.
Qed.

End Loop.
