(* ===== verification/LoggedFacts.v ===== *)
(** * The log does not disturb the server

    Whatever is logged, the server does what it does without a log, unless a
    text cannot be written; and when texts can be written. *)

From Stdlib Require Import Init.Byte Strings.String ZArith Lia.
From stdpp Require Import base tactics list vector sorting gmap pretty.
From S2P Require Import Prelude Bytes Node Event Text Encoding EncodingFacts State Printing PrintingFacts.
From S2P Require Import StateFacts Samples Membership Probe Network Cluster Process Protocol Scenarios.
From S2P Require Import Server Logged.

Open Scope Z_scope.

(** ** Numbers *)

Lemma pretty_N_go_nul_free (x : N) s : nul_free (lit s) → nul_free (lit (pretty_N_go x s)).
Proof.
  revert s. induction (N.lt_wf_0 x) as [x _ IH]; intros s Hs.
  destruct (decide (x = 0)%N) as [->|Hx]; [done|]. rewrite pretty_N_go_step by lia.
  apply IH; [apply N.div_lt; lia|]. unfold nul_free, lit. cbn [String.list_byte_of_string].
  apply not_elem_of_cons. split; [|done]. unfold pretty_N_char. by repeat case_match.
Qed.

Lemma decimal_nul_free z : nul_free (decimal z).
Proof.
  destruct z as [|p|p]; [by apply (bool_decide_unpack _)|apply (pretty_N_go_nul_free (N.pos p) "")|];
    [by apply (bool_decide_unpack _)|].
  unfold nul_free. change (decimal (Z.neg p)) with (x2d :: lit (pretty_N_go (N.pos p) "")).
  apply not_elem_of_cons. split; [done|]. apply pretty_N_go_nul_free. by apply (bool_decide_unpack _).
Qed.

(** ** When texts can be written *)

(** Every address that is not empty has a name, and the calendar has the times
    of the log. *)
Class Legible (T : TextEnv) (C : LogClock) : Prop := {
  legible_named addr addrlen : 0 < addrlen → is_Some (addr_text addr addrlen);
  legible_times k : is_Some (localtime_r (log_time k))
}.

(** For an empty address [swim_addr_str_r] returns the local buffer as it is:
    it may happen to contain no null byte. *)
Definition unterminated `{TextEnv} : Prop := x00 ∉ uninit 1 ABUF_SIZE.

(** The log is not traced, lines can be made if it is on, and the function
    registered for them does not fail on the states of the application that
    satisfy [good], which all its functions preserve. *)
Record attentive {T : TextEnv} {C : LogClock} {App} (good : App → Prop) (out : Output App)
  : Prop := {
  at_legible : out_verbose out = true → Legible T C;
  at_tracing : out_tracing out = false;
  at_buf : length (out_event_buf out) = EVENT_BUF_SIZE;
  at_sink f s app :
    out_log_sink out = Some f → nul_free s → good app → ∃ app', f s app = Ok app' ∧ good app';
  at_print f s app app' : out_print out = Some f → good app → f s app = Ok app' → good app';
  at_app : good (out_app out)
}.

Section Writing.
Context {T : TextEnv} {TL : TextLaws T} {C : LogClock} {App : Type}.
Context {good : App → Prop}.
Implicit Types out : Output App.

Lemma attentive_app out app : good app → attentive good out → attentive good (set_out_app app out).
Proof. by intros ? []. Qed.

Lemma attentive_stderr out s : attentive good out → attentive good (put_stderr s out).
Proof. by intros []. Qed.

Lemma log_write_attentive msg out :
  nul_free msg → attentive good out → ∃ out', swim_log_write msg out = Ok out' ∧ attentive good out'.
Proof.
  intros Hm Ho. rewrite log_write_run by done. destruct (out_log_sink out) as [f|] eqn:Ef.
  - destruct (at_sink _ _ Ho f (take (LOG_BUF_SIZE - 1) msg) (out_app out) Ef)
      as (app' & -> & Happ); [by apply nul_free_take|by apply at_app|]. eexists. split; [done|]. by apply attentive_app.
  - eexists. split; [done|by apply attentive_stderr].
Qed.

Lemma addr_arg_legible {L : Legible T C} addr addrlen :
  (∃ a, addr_arg 1 addr addrlen = Ok a ∧ nul_free a) ∨
  addr_arg 1 addr addrlen = Fault OutOfBounds ∧ unterminated.
Proof.
  destruct (Z.lt_ge_cases 0 addrlen) as [Hl|Hl].
  { left. destruct (legible_named addr addrlen Hl) as [a Ha]. exists a.
    split; [by apply addr_arg_named|]. by destruct (addr_text_fits _ _ _ Ha). }
  unfold addr_arg. rewrite addr_buf_none by done. bind_step. unfold arg.
  destruct (decide (x00 ∈ uninit 1 ABUF_SIZE)) as [Hin|Hin].
  - left. destruct (proj1 (cstring_ok _) Hin) as [a Ha]. exists a. split; [done|].
    by eapply cstring_nul_free.
  - right. split; [by apply cstring_unterminated|done].
Qed.

Lemma event_text_legible {L : Legible T C} e : event_type_valid (eh_type (ev_hdr e)) → is_Some (event_text e).
Proof.
  unfold event_text. intros Hv. destruct (eh_type (ev_hdr e)); try done.
  destruct (Z.ltb_spec 0 (ev_join_addrlen e)) as [Hl|]; [|done].
  by destruct (legible_named (ev_join_addr e) _ Hl) as [a ->].
Qed.

(** The message of a log line can be made, unless that buffer is in the way. *)
Definition tells (msg : Output App → outcome (text * Output App)) : Prop :=
  ∀ out, attentive good out → out_verbose out = true →
    (∃ s out', msg out = Ok (s, out') ∧ nul_free s ∧ attentive good out') ∨
    msg out = Fault OutOfBounds ∧ unterminated.

Lemma event_line e addr addrlen (line : text → text → text → text) :
  event_type_valid (eh_type (ev_hdr e)) →
  (∀ t u a, nul_free t → nul_free u → nul_free a → nul_free (line t u a)) →
  tells (λ out,
    buf ← swim_event_print e (out_event_buf out);
    t ← cstring buf;
    u ← uuid_arg 0 (eh_uuid (ev_hdr e));
    a ← addr_arg 1 addr addrlen;
    Ok (line t u a, set_out_event_buf buf out)).
Proof.
  intros Hv Hline out Ho Hon. pose proof (at_legible _ _ Ho Hon) as L. destruct (event_text_legible e Hv) as [s Hs].
  destruct (event_print_run e (out_event_buf out) s) as (b & -> & Hlen & Hc);
    [by rewrite (at_buf _ _ Ho)|done|].
  bind_step. rewrite Hc. bind_step. rewrite uuid_arg_run. bind_step.
  destruct (addr_arg_legible addr addrlen) as [(a & -> & Hf)|[-> Hu]]; bind_step; [left|by right].
  eexists _, _. split; [done|]. split.
  - apply Hline; [by eapply cstring_nul_free|apply uuid_unparse_nul_free|done].
  - destruct Ho. split; simpl; by try congruence.
Qed.

Ltac nul_free_line :=
  rewrite !nul_free_app; split_and!; try done; try apply decimal_nul_free;
  by apply (bool_decide_unpack _).

Lemma transfer_tells arrow e bytes addr addrlen :
  nul_free arrow → event_type_valid (eh_type (ev_hdr e)) →
  tells (transfer_message arrow e bytes addr addrlen).
Proof.
  intros Hn Hv. apply (event_line e addr addrlen (λ t u a, arrow ++ lit " " ++ t ++ lit " ("
    ++ decimal bytes ++ lit " bytes) node " ++ u ++ lit " addr " ++ a)); [done|].
  intros t u a Ht Hu Ha. nul_free_line.
Qed.

Lemma process_tells e addr addrlen :
  event_type_valid (eh_type (ev_hdr e)) → tells (process_message e addr addrlen).
Proof.
  intros Hv. apply (event_line e addr addrlen (λ t u a, lit "=== " ++ t ++ lit " from node "
    ++ u ++ lit " addr " ++ a)); [done|].
  intros t u a Ht Hu Ha. nul_free_line.
Qed.

Lemma LOG_tells msg k out :
  tells msg → attentive good out →
  (∃ out', LOG (log_time k) msg out = Ok out' ∧ attentive good out') ∨
  LOG (log_time k) msg out = Fault OutOfBounds ∧ unterminated ∧ out_verbose out = true.
Proof.
  intros Hm Ho. unfold LOG. destruct (out_verbose out) eqn:Hon; [|left; by eexists].
  pose proof (at_legible _ _ Ho Hon) as L.
  destruct (legible_times k) as [t ->].
  assert (nul_free (strftime_text (lit "%c") t)) as Hf
    by (apply strftime_nul_free; by apply (bool_decide_unpack _)).
  unfold strftime. rewrite length_uninit. destruct (_ <? 200)%nat; [|left; by eexists].
  destruct (_ =? 0); [left; by eexists|].
  destruct (Hm out Ho Hon) as [(s & out1 & -> & Hs & Ho1)|[-> Hu]]; bind_step; [left|by right].
  cbn [app]. rewrite cstring_app by done. bind_step. apply log_write_attentive; [|done].
  rewrite !nul_free_app. split_and!; [done|by apply (bool_decide_unpack _)|done].
Qed.

End Writing.

(** ** Functions that never fail to write *)

(** [v] is ended by no text, except by an empty address in the log, and what it
    returns satisfies [Q]. *)
Definition fluent `{TextEnv} `{LogClock} {App A} (good : App → Prop) (Q : A → Prop) (v : V App A) : Prop :=
  ∀ w l, attentive good (lg_out l) →
  let '(r, w', l') := v w l in
  attentive good (lg_out l') ∧
  match r with
  | Reply (Ok a) => Q a
  | Reply (Fault _) => True
  | TextFault f => f = OutOfBounds ∧ unterminated ∧ out_verbose (lg_out l') = true
  end.

(** What [m] returns satisfies [Q]. *)
Definition yields {A} (Q : A → Prop) (m : M A) : Prop :=
  ∀ w, match (m w).1 with Ok a => Q a | Fault _ => True end.

Definition any {A} (_ : A) : Prop := True.

Definition known (e : Event) : Prop := event_type_valid (eh_type (ev_hdr e)).

Create HintDb fluent.

Section Fluency.
Context {T : TextEnv} {TL : TextLaws T} {C : LogClock} {App : Type}.
Context {good : App → Prop}.

Lemma fluent_ret {A} (Q : A → Prop) a : Q a → fluent good Q (mret a).
Proof. by intros Hq w l Hl. Qed.

Lemma fluent_quietly {A} (Q : A → Prop) m : yields Q m → fluent good Q (quietly m).
Proof. intros Hm w l Hl. specialize (Hm w). unfold quietly. by destruct (m w) as [r w']. Qed.

Lemma yields_any {A} (m : M A) : yields any m.
Proof. intros w. by destruct (m w) as [[]]. Qed.

Lemma fluent_bind {A B} (P : A → Prop) (Q : B → Prop) (v : V App A) k :
  fluent good P v → (∀ a, P a → fluent good Q (k a)) → fluent good Q (a ← v; k a).
Proof.
  intros Hv Hk w l Hl. specialize (Hv w l Hl). unfold mbind, V_bind.
  destruct (v w l) as [[[[a|f]|f] w1] l1]; destruct Hv as [Hl1 Ha]; [by apply Hk|done..].
Qed.

Lemma fluent_complain s : fluent good any (complain (Ok s)).
Proof. intros w l Hl. split; [|done]. by apply attentive_stderr. Qed.

Lemma fluent_trace func msg : fluent good any (trace func msg).
Proof. intros w l Hl. unfold trace, write_out. by rewrite (at_tracing _ _ Hl). Qed.

Lemma fluent_log msg : tells (good := good) msg → fluent good any (log msg).
Proof.
  intros Hm w l Hl. unfold log.
  by destruct (LOG_tells msg (lg_times l) (lg_out l) Hm Hl) as [(out & -> & ?)|[-> ?]].
Qed.

Lemma fluent_for_each {S} (Q : S → Prop) l (body : nat → S → V App S) state :
  (∀ i s, Q s → fluent good Q (body i s)) → Q state → fluent good Q (logged_for_each l body state).
Proof.
  intros Hb. revert state. induction l as [|i l IH]; intros state Hq; [by apply fluent_ret|].
  apply (fluent_bind Q); [by apply Hb|]. intros s Hs. by apply IH.
Qed.

Lemma fluent_view s : fluent good any (show_view s).
Proof.
  intros w l Hl. unfold show_view. destruct (swim_state_print s (lg_out l)) as [out|] eqn:Ep; [|done].
  split; [|done]. simpl. revert Ep.
  unfold swim_state_print. destruct (out_print (lg_out l)) as [f|] eqn:Ef; intros Ep; simplify_outcome.
  - apply attentive_app; [|done]. eapply (at_print _ _ Hl); [done| |done].
    by apply at_app with (out := lg_out l).
  - by apply attentive_stderr.
Qed.

Lemma fluent_transfer arrow e bytes addr addrlen :
  nul_free arrow → known e → fluent good any (log (transfer_message arrow e bytes addr addrlen)).
Proof. intros ? ?. by apply fluent_log, transfer_tells. Qed.

Lemma fluent_process e addr addrlen :
  known e → fluent good any (log (process_message e addr addrlen)).
Proof. intros ?. by apply fluent_log, process_tells. Qed.

End Fluency.

#[export] Hint Resolve fluent_complain fluent_trace fluent_process fluent_view : fluent.
#[export] Hint Extern 1 (fluent _ any (quietly _)) => apply fluent_quietly, yields_any : fluent.
#[export] Hint Extern 1 (fluent _ any (mret _)) => by apply fluent_ret : fluent.

(** Step by step, for functions of whose results nothing is needed. *)
Ltac fluent_step :=
  match goal with
  | |- fluent _ _ _ => solve [eauto with fluent]
  | |- fluent _ _ (mbind _ _) => apply (fluent_bind any); [|intros ? _]
  | |- fluent _ _ (logged_for_each _ _ _) => apply fluent_for_each; [intros ? ? _|done]
  | |- fluent _ _ (if ?b then _ else _) => destruct b
  | |- fluent _ _ (match ?x with _ => _ end) => destruct x
  end.

Ltac fluently := repeat fluent_step.

(** ** The functions of the server *)

Section Functions.
Context {U : UuidLib} {T : TextEnv} {TL : TextLaws T} {C : LogClock}.
Context {H : Host} {E : Env} {App : Type} {good : App → Prop}.

Lemma yields_bind {A B} (P : A → Prop) (Q : B → Prop) (m : M A) k :
  yields P m → (∀ a, P a → yields Q (k a)) → yields Q (a ← m; k a).
Proof.
  intros Hm Hk w. specialize (Hm w). unfold mbind, M_bind. destruct (m w) as [[a|f] w']; [|done].
  by apply Hk.
Qed.

Lemma yields_event_init e type : event_type_valid type → yields known (swim_event_init e type).
Proof. by intros Hv w. Qed.

Definition known_event (p : option Event) : Prop := ∀ e, p = Some e → known e.

Lemma yields_event_create type count :
  event_type_valid type → yields known_event (swim_event_create type count).
Proof.
  intros Hv. unfold swim_event_create. cbn zeta. do 2 (apply (yields_bind any); [apply yields_any|intros _ _]).
  apply (yields_bind any); [apply yields_any|]. intros [p|] _; [|by intros w ?].
  apply (yields_bind known); [by apply yields_event_init|]. intros e He w e' [= <-]. done.
Qed.

Lemma yields_deref p : known_event p → yields known (deref p).
Proof. intros Hp w. destruct p as [e|]; [by apply Hp|done]. Qed.

Lemma yields_copy_gossip i idx e : known e → yields known (copy_gossip i idx e).
Proof.
  intros He. unfold copy_gossip. apply (yields_bind any); [apply yields_any|]. intros n _.
  destruct (ev_gossip e !! i); [|by intros w].
  apply (yields_bind any); [apply yields_any|]. by intros info _ w.
Qed.

Lemma fluent_copy_gossip i idx e : known e → fluent good known (logged_copy_gossip i idx e).
Proof.
  intros He. apply (fluent_bind known); [by apply fluent_quietly, yields_copy_gossip|].
  intros e' He'. apply (fluent_bind any); [apply fluent_trace|]. intros _ _. by apply fluent_ret.
Qed.

Lemma fluent_fill_gossip e count : known e → fluent good known (logged_fill_gossip e count).
Proof.
  intros He. unfold logged_fill_gossip. apply (fluent_bind any); [auto with fluent|]. intros _ _.
  apply (fluent_bind any); [auto with fluent|]. intros s _.
  destruct (_ <? _); (apply fluent_for_each; [|done]); intros i e' He'.
  - by apply fluent_copy_gossip.
  - apply (fluent_bind any); [auto with fluent|]. intros idx _. by apply fluent_copy_gossip.
Qed.

Lemma fluent_send_event e addr addrlen :
  known e → fluent good any (logged_send_event e addr addrlen).
Proof.
  intros He. unfold logged_send_event. apply (fluent_bind any); [auto with fluent|]. intros bytes _.
  apply (fluent_bind any); [|intros _ _; destruct bytes; auto with fluent].
  apply fluent_transfer; [by apply (bool_decide_unpack _)|done].
Qed.

#[local] Hint Resolve fluent_send_event : fluent.

(** ACK, PING and PING_REQ are sent alike. *)
Lemma fluent_send type func msg f addr addrlen :
  event_type_valid type → (∀ e, known e → known (f e)) →
  fluent good any (
    s ← quietly get_swim;
    p ← quietly (swim_event_create type (gossip_size s));
    event ← quietly (deref p);
    trace func (msg s);;
    event ← logged_fill_gossip (f event) (gossip_size s);
    logged_send_event event addr addrlen).
Proof.
  intros Hv Hf. apply (fluent_bind any); [auto with fluent|]. intros s _.
  apply (fluent_bind known_event); [by apply fluent_quietly, yields_event_create|]. intros p Hp.
  apply (fluent_bind known); [by apply fluent_quietly, yields_deref|]. intros e He.
  apply (fluent_bind any); [auto with fluent|]. intros _ _.
  apply (fluent_bind known); [by apply fluent_fill_gossip, Hf|auto with fluent].
Qed.

Lemma fluent_send_ack u addr addrlen : fluent good any (logged_send_ack u addr addrlen).
Proof. by apply (fluent_send EVENT_TYPE_ACK (lit "swim_send_ack") _ (set_ev_uuid u)). Qed.

Lemma fluent_send_ping addr addrlen : fluent good any (logged_send_ping addr addrlen).
Proof.
  by apply (fluent_send EVENT_TYPE_PING (lit "swim_send_ping")
    (λ _, a ← addr_arg 0 addr addrlen; Ok (lit "sending ping to " ++ a)) id).
Qed.

Lemma fluent_send_ping_req u addr addrlen :
  fluent good any (logged_send_ping_req u addr addrlen).
Proof.
  by apply (fluent_send EVENT_TYPE_PING_REQ (lit "swim_send_ping_req")
    (λ _, t ← uuid_arg 0 u; a ← addr_arg 1 addr addrlen;
          Ok (lit "sending ping_req for node " ++ t ++ lit " to " ++ a)) (set_ev_uuid u)).
Qed.
#[local] Hint Resolve fluent_send_ack fluent_send_ping fluent_send_ping_req : fluent.

Lemma fluent_state_add info : fluent good any (logged_state_add info).
Proof. unfold logged_state_add. fluently. Qed.
#[local] Hint Resolve fluent_state_add : fluent.

Lemma fluent_state_merge info : fluent good any (logged_state_merge info).
Proof. unfold logged_state_merge. fluently. Qed.
#[local] Hint Resolve fluent_state_merge : fluent.

Lemma fluent_cluster_join addr addrlen : fluent good any (logged_cluster_join addr addrlen).
Proof.
  apply (fluent_bind known); [by apply fluent_quietly, yields_event_init|]. intros e He.
  apply (fluent_bind any); [auto with fluent|]. intros s _.
  apply (fluent_bind any); [by apply fluent_send_event|auto with fluent].
Qed.

Lemma fluent_send_to_node e idx : known e → fluent good any (logged_send_to_node e idx).
Proof. intros He. unfold logged_send_to_node. fluently. Qed.
#[local] Hint Resolve fluent_send_to_node : fluent.

Lemma fluent_ping_req_loop sent start target :
  fluent good any (logged_ping_req_loop sent start target).
Proof. induction sent as [|sent IH]; cbn [logged_ping_req_loop]; fluently. Qed.
#[local] Hint Resolve fluent_ping_req_loop : fluent.

Lemma fluent_suspect_dead target : fluent good any (logged_suspect_dead target).
Proof. unfold logged_suspect_dead. fluently. Qed.
#[local] Hint Resolve fluent_suspect_dead : fluent.

Lemma fluent_update_candidate now i : fluent good any (logged_update_candidate now i).
Proof. unfold logged_update_candidate. cbn zeta. fluently. Qed.
#[local] Hint Resolve fluent_update_candidate : fluent.

Lemma fluent_heartbeat : fluent good any logged_heartbeat.
Proof. unfold logged_heartbeat. fluently. Qed.

#[local] Hint Resolve fluent_heartbeat : fluent.

Lemma fluent_process_info info : fluent good any (logged_process_info info).
Proof.
  unfold logged_process_info. rewrite uuid_arg_run.
  change (u ← Ok (uuid_unparse (ni_uuid info)); Ok (lit "Node " ++ u ++ lit " declared dead, exiting" ++ newline))
    with (Ok (lit "Node " ++ uuid_unparse (ni_uuid info) ++ lit " declared dead, exiting" ++ newline)).
  fluently.
Qed.
#[local] Hint Resolve fluent_process_info : fluent.

Lemma fluent_process_infos gossip count : fluent good any (logged_process_infos gossip count).
Proof.
  revert gossip. induction count as [|count IH]; intros [|i gossip]; cbn [logged_process_infos]; fluently.
Qed.
#[local] Hint Resolve fluent_process_infos : fluent.

Lemma fluent_process_gossip gossip count : fluent good any (logged_process_gossip gossip count).
Proof. unfold logged_process_gossip. fluently. Qed.
#[local] Hint Resolve fluent_process_gossip : fluent.

Lemma fluent_ping e addr addrlen : fluent good any (logged_process_ping e addr addrlen).
Proof. unfold logged_process_ping. fluently. Qed.

Lemma fluent_ping_req e addr addrlen : fluent good any (logged_process_ping_req e addr addrlen).
Proof. unfold logged_process_ping_req. fluently. Qed.

Lemma fluent_ack e addr addrlen : fluent good any (logged_process_ack e addr addrlen).
Proof. unfold logged_process_ack, logged_ack_node, logged_ack_update. fluently. Qed.

Lemma yields_fill_join_addr e addr addrlen :
  known e → yields known (lift (fill_join_addr e addr addrlen)).
Proof.
  intros He w. unfold lift, fill_join_addr. simpl. destruct (_ =? _); [|done].
  by destruct (memcpy _ _ _).
Qed.

Lemma fluent_join e addr addrlen : known e → fluent good any (logged_process_join e addr addrlen).
Proof.
  intros He. unfold logged_process_join. apply (fluent_bind any); [auto with fluent|]. intros s _.
  destruct (_ =? _); [auto with fluent|]. destruct (bool_decide _); [auto with fluent|].
  apply (fluent_bind known); [by apply fluent_quietly, yields_fill_join_addr|]. intros e' He'.
  fluently.
Qed.

Lemma fluent_leave e addr addrlen : fluent good any (logged_process_leave e addr addrlen).
Proof. unfold logged_process_leave. fluently. Qed.

Lemma fluent_event e addr addrlen : known e → fluent good any (logged_process_event e addr addrlen).
Proof.
  intros He. unfold logged_process_event.
  assert (∀ c : Event → sockaddr_storage → Z → V App unit, fluent good any (c e addr addrlen) →
    fluent good any (callback ← quietly (lift (Ok (Some c))); log (process_message e addr addrlen);;
      quietly (swim_state_notice (eh_uuid (ev_hdr e)) (eh_time (ev_hdr e))
        (eh_incarnation (ev_hdr e)));;
      callback ← quietly (deref callback); callback e addr addrlen)) as Hcall.
  { intros c Hc. apply (fluent_bind any (B := unit) any (log (process_message e addr addrlen))
      (λ _, quietly (swim_state_notice (eh_uuid (ev_hdr e)) (eh_time (ev_hdr e))
        (eh_incarnation (ev_hdr e)));; c e addr addrlen)); [by apply fluent_process|].
    intros _ _. fluently. }
  unfold known in He. destruct (eh_type (ev_hdr e)) eqn:Ht; [..|done]; apply Hcall;
    auto using fluent_ping, fluent_ping_req, fluent_ack, fluent_leave.
  apply fluent_join. unfold known. by rewrite Ht.
Qed.

(** An event that has been decoded is of a known type, and if it has not, there
    is something to write about it. *)
Lemma decode_known buf e e' r : swim_decode_event buf e = Ok (e', r) → 0 ≤ r → known e'.
Proof.
  intros Hrun Hr. unfold swim_decode_event in Hrun. simplify_outcome.
  destruct (decode_body _ _) as [body|] eqn:Eb; [|simplify_eq; lia]. simplify_outcome.
  eapply decode_body_inv in Eb as (Eh & _ & Hv & _); [|done].
  case_match; simplify_outcome; [|lia]. unfold known. simpl. by rewrite Eh.
Qed.

Lemma decode_complaint_ok buf e r :
  swim_decode_event buf e = Ok r → ∃ s, decode_complaint buf e = Ok s.
Proof.
  unfold swim_decode_event, decode_complaint. intros Hrun. simplify_outcome. bind_step.
  destruct (decode_body _ _) as [body|]; [|by eexists]. simplify_outcome. bind_step.
  unfold swim_decode_gossip in *. simplify_outcome. bind_step. by eexists.
Qed.

Lemma fluent_recv stack e r :
  fluent good (λ p : Event * Z, 0 < p.2 → known p.1) (logged_recv_event stack e r).
Proof.
  unfold logged_recv_event. destruct (recvfrom stack r) as [bytes buf].
  destruct (Z.leb_spec bytes 0); [apply fluent_ret; simpl; lia|].
  apply (fluent_bind (λ p : Event * Z, swim_decode_event buf e = Ok p)).
  { apply fluent_quietly. intros w. unfold lift. simpl. by destruct (swim_decode_event buf e). }
  intros [e' result] Hd. destruct (Z.ltb_spec result 0).
  - destruct (decode_complaint_ok _ _ _ Hd) as [s ->].
    apply (fluent_bind any); [apply fluent_complain|]. intros _ _. apply fluent_ret. simpl. lia.
  - pose proof (decode_known _ _ _ _ Hd ltac:(lia)) as Hk.
    apply (fluent_bind any); [apply fluent_transfer; [by apply (bool_decide_unpack _)|done]|].
    intros _ _. by apply fluent_ret.
Qed.

Lemma fluent_iteration input last : fluent good any (logged_iteration input last).
Proof.
  unfold logged_iteration. eapply fluent_bind; [apply fluent_recv|]. intros [e r] He. simpl in He.
  apply (fluent_bind any).
  { destruct (Z.ltb_spec 0 r); [by apply fluent_event, He|auto with fluent]. }
  intros _ _. fluently.
Qed.
#[local] Hint Resolve fluent_iteration fluent_cluster_join : fluent.

Lemma fluent_iterations inputs state last : fluent good any (logged_iterations inputs state last).
Proof.
  revert state last. induction inputs as [|input inputs IH]; intros state last;
    cbn [logged_iterations]; cbn zeta; fluently.
Qed.
#[local] Hint Resolve fluent_iterations : fluent.

Lemma fluent_server_loop inputs state : fluent good any (logged_server_loop inputs state).
Proof. unfold logged_server_loop. fluently. Qed.

End Functions.

(** A line of the trace, when it is on. *)
Lemma trace_run {T : TextEnv} {TL : TextLaws T} {App} func msg s (w : World) (l : Log App) :
  out_tracing (lg_out l) = true → out_log_sink (lg_out l) = None → msg = Ok s →
  nul_free func → nul_free s →
  ∃ out, trace func msg w l
      = (Reply (Ok tt), w, {| lg_out := put_stderr out (lg_out l); lg_times := lg_times l |}).
Proof.
  intros Ht Hn -> Hf Hs. unfold trace, write_out, TRACE. rewrite Ht. bind_step.
  rewrite log_write_run, Hn; [by eexists|].
  rewrite !nul_free_app. split_and!; [done|by apply (bool_decide_unpack _)|done].
Qed.

Section Start.
Context {U : UuidLib} {T : TextEnv} {TL : TextLaws T} {C : LogClock} {H : Host} {E : Env}.
Context {App : Type} {good : App → Prop}.

Lemma fluent_server_init strerror port sys addr addrlen :
  fluent good any (logged_server_init strerror port sys addr addrlen).
Proof. unfold logged_server_init, logged_state_init. fluently. Qed.

(** A function that logs runs as its counterpart, if every line can be made. *)
Lemma fluent_run {A} (Q : A → Prop) (v : V App A) m w l :
  shadows v m → fluent good Q v → attentive good (lg_out l) →
  match v w l with
  | (Reply r, w', l') => m w = (r, w') ∧ hears (lg_out l) (lg_out l') ∧ attentive good (lg_out l')
  | (TextFault f, _, l') =>
      attentive good (lg_out l') ∧ f = OutOfBounds ∧ unterminated ∧ out_verbose (lg_out l') = true
  end.
Proof.
  intros Hv Hf Hl. specialize (Hv w l). specialize (Hf w l Hl).
  destruct (v w l) as [[[r|f] w'] l']; destruct Hf as [Hl' Hf]; [|done].
  by destruct Hv.
Qed.

End Start.

(** ** Theorems *)

Section Theorems.
Context {U : UuidLib} {T : TextEnv} {C : LogClock} {H : Host} {E : Env} {App : Type}.

(** The server that logs, but is not traced. *)
Lemma verbose_server_loop {TL : TextLaws T} (R : App → App → Prop)
  (good : App → Prop) (inputs : list Input) (state : PThreadServerState) (w : World)
  (l : Log App) (out : Output App) :
  attentive good (lg_out l) →
  unaffected (out_print (lg_out l)) (out_log_sink (lg_out l)) R →
  out_print out = out_print (lg_out l) → R (out_app (lg_out l)) (out_app out) →
  match logged_server_loop inputs state w l with
  | (Reply (Ok state'), w', l') => attentive good (lg_out l') ∧
      ∃ out', pthread_server_loop inputs state out w = (Ok (state', out'), w') ∧
        R (out_app (lg_out l')) (out_app out')
  | (Reply (Fault f), w', l') => attentive good (lg_out l') ∧
      pthread_server_loop inputs state out w = (Fault f, w')
  | (TextFault f, _, l') => attentive good (lg_out l') ∧ f = OutOfBounds ∧ unterminated ∧
      out_verbose (lg_out l') = true
  end.
Proof.
  intros Hl HR Ho Ha.
  pose proof (simulates_server_loop _ _ R HR inputs state out w l (Build_linked _ _ _ _ _ Ho eq_refl eq_refl Ha)) as Hs.
  pose proof (fluent_server_loop inputs state w l Hl) as Hf.
  destruct (logged_server_loop inputs state w l) as [[[[state'|f]|f] w'] l']; destruct Hf as [Hl' Hf];
    (split; [done|]); [|done..].
  destruct Hs as ([? out'] & -> & [-> [_ _ _ Happ]]). by exists out'.
Qed.

(** Logging is transparent.  Whatever the switches and the function
    registered for log lines, a server that logs ends as the one that does
    not, in the same state and with the same datagrams sent, or because a text
    cannot be written; provided that the function registered for the view, if
    there is one, does not notice what the one for the log does. *)
Theorem swim_logging_transparent (R : App → App → Prop) (inputs : list Input)
  (state : PThreadServerState) (w : World) (l : Log App) (out : Output App) :
  unaffected (out_print (lg_out l)) (out_log_sink (lg_out l)) R →
  out_print out = out_print (lg_out l) → R (out_app (lg_out l)) (out_app out) →
  match logged_server_loop inputs state w l with
  | (Reply (Ok state'), w', _) =>
      ∃ out', pthread_server_loop inputs state out w = (Ok (state', out'), w')
  | (Reply (Fault f), w', _) => pthread_server_loop inputs state out w = (Fault f, w')
  | (TextFault _, _, _) => True
  end.
Proof.
  intros HR Ho Ha.
  pose proof (simulates_server_loop _ _ R HR inputs state out w l (Build_linked _ _ _ _ _ Ho eq_refl eq_refl Ha)) as Hs.
  destruct (logged_server_loop inputs state w l) as [[[[state'|f]|f] w'] l']; [|done..].
  destruct Hs as ([? out'] & -> & [-> _]). by exists out'.
Qed.

(** C8: The server that logs, but is not traced, ends as the one that does not
    log, in the same state and with the same datagrams sent, and its log goes
    on: every line can be written, if each address that is not empty has a name,
    the calendar has the time, the function registered for log lines does not
    fail, and the one registered for the view does not notice it.  The only
    exception is a line about an empty address, for which [swim_addr_str_r]
    returns a buffer it has not written to: the server reads beyond it if it
    happens to contain no null byte.  In particular no event of an unknown type
    gets as far as the log. *)
Theorem swim_verbose_server {TL : TextLaws T} (R : App → App → Prop) (good : App → Prop)
  (inputs : list Input) (state : PThreadServerState) (w : World) (l : Log App) (out : Output App) :
  attentive good (lg_out l) →
  unaffected (out_print (lg_out l)) (out_log_sink (lg_out l)) R →
  out_print out = out_print (lg_out l) → R (out_app (lg_out l)) (out_app out) →
  match logged_server_loop inputs state w l with
  | (Reply (Ok state'), w', l') => attentive good (lg_out l') ∧
      ∃ out', pthread_server_loop inputs state out w = (Ok (state', out'), w') ∧
        R (out_app (lg_out l')) (out_app out')
  | (Reply (Fault f), w', l') => attentive good (lg_out l') ∧
      pthread_server_loop inputs state out w = (Fault f, w')
  | (TextFault f, _, l') => attentive good (lg_out l') ∧ f = OutOfBounds ∧ unterminated ∧
      out_verbose (lg_out l') = true
  end.
Proof. apply verbose_server_loop. Qed.

(** A traced server reads beyond the table of status names: gossip about a
    status outside the enumeration, which the decoder accepts, makes the trace
    of [swim_process_gossip] take its name, before the entry has been looked
    at. *)
Theorem swim_trace_overrun {TL : TextLaws T} (info : NodeInfo) (gossip : list NodeInfo) (count : Z)
  (w : World) (l : Log App) :
  0 < count → known_info info = true → 4 ≤ status_code (ni_status info) →
  out_tracing (lg_out l) = true → out_log_sink (lg_out l) = None →
  ∃ l', logged_process_gossip (info :: gossip) count w l = (TextFault OutOfBounds, w, l').
Proof.
  intros Hc Hk Hs Ht Hn. destruct (Z.to_nat count) as [|k] eqn:Ek; [lia|].
  destruct (trace_run (lit "swim_process_gossip")
    (u ← uuid_arg 0 (sw_uuid (w_swim w)); Ok (lit "self uuid " ++ u))
    (lit "self uuid " ++ uuid_unparse (sw_uuid (w_swim w))) w l Ht Hn) as [line Eline].
  { by rewrite uuid_arg_run. }
  { by apply (bool_decide_unpack _). }
  { rewrite nul_free_app. split; [by apply (bool_decide_unpack _)|apply uuid_unparse_nul_free]. }
  eexists. unfold logged_process_gossip. rewrite Ek.
  cbn [logged_process_infos]. unfold mbind at 1, V_bind at 1. cbn [quietly get_swim].
  unfold mbind at 1, V_bind at 1. rewrite Eline.
  unfold logged_process_info, mbind, V_bind, quietly. rewrite Hk. cbn [assert lift].
  unfold trace, write_out. cbn [lg_out put_stderr out_tracing]. rewrite Ht, uuid_arg_run. bind_step.
  assert (swim_status_name (ni_status info) = Fault OutOfBounds) as ->; [|done].
  unfold swim_status_name. apply index_fault. right. exact Hs.
Qed.

End Theorems.

(** ** Witnesses *)

#[local] Existing Instance lexicographic.
#[local] Instance sample_host : Host := LittleEndian.
#[local] Existing Instance ticking_env.

(** A system that has names for all addresses, and its clock. *)
Definition named_text : TextEnv := {|
  tm := Z;
  getnameinfo := λ a _ _, Some (hex (take 4 (drop 4 (vec_to_list a))),
                                hex (take 2 (drop 2 (vec_to_list a))));
  uuid_unparse := hex_uuid;
  localtime_r := Some;
  strftime_text := λ _ _, lit "2026-01-31 12:34:56";
  strftime_rest := id;
  stack_bytes := λ _, []
|}.

#[export] Instance named_text_laws : TextLaws named_text.
Proof.
  destruct plain_text_laws as [Hg Hu Hn Hf Hr]. split; [|done..].
  intros a len flags host service Ha. by apply (Hg a 16 flags).
Qed.

Definition log_ticks : LogClock := λ k, 1766383900 + Z.of_nat k.

#[export] Instance named_text_legible : Legible named_text log_ticks.
Proof.
  split.
  - by intros addr addrlen _.
  - by intros k.
Qed.

#[local] Existing Instance named_text.
#[local] Existing Instance log_ticks.

(** An application that keeps the lines, and how often the view was shown. *)
Definition app_log (tracing : bool) : Log (list text * nat) :=
  {| lg_out := {| out_stderr := []; out_verbose := true; out_tracing := tracing;
       out_log_sink := Some (λ s app, Ok (app.1 ++ [s], app.2));
       out_print := Some (λ _ app, Ok (app.1, S app.2));
       out_event_buf := replicate EVENT_BUF_SIZE x00; out_app := ([], 0%nat) |};
     lg_times := 0 |}.

Lemma app_log_attentive : attentive any (lg_out (app_log false)).
Proof. split; [intros _; apply named_text_legible|done|vm_compute; done| |done|done]. intros f s app [= <-] _ _. by eexists. Qed.

Lemma app_log_unaffected b :
  unaffected (out_print (lg_out (app_log b))) (out_log_sink (lg_out (app_log b))) (λ _ _, True).
Proof. split; [done|]. by intros f s a c [= <-] _. Qed.

(** A JOIN is sent, one arrives and is answered, and the server is stopped. *)
Lemma swim_verbose_server_witness :
  match logged_server_loop [sample_input; stop_input] sample_state W (app_log false) with
  | (Reply (Ok _), w', l') =>
      length (out_app (lg_out l')).1 = 9%nat ∧ length (w_out w') = 7%nat
  | _ => False
  end ∧
  match logged_server_loop [sample_input; stop_input] sample_state W (app_log false) with
  | (Reply (Ok state'), w', l') => attentive any (lg_out l') ∧
      ∃ out', pthread_server_loop [sample_input; stop_input] sample_state
          (lg_out (app_log false)) W = (Ok (state', out'), w') ∧ True
  | (Reply (Fault f), w', l') => attentive any (lg_out l') ∧
      pthread_server_loop [sample_input; stop_input] sample_state
        (lg_out (app_log false)) W = (Fault f, w')
  | (TextFault f, _, l') => attentive any (lg_out l') ∧ f = OutOfBounds ∧ unterminated ∧
      out_verbose (lg_out l') = true
  end.
Proof.
  split; [|apply (swim_verbose_server (λ _ _, True) any [sample_input; stop_input] sample_state W
    (app_log false) (lg_out (app_log false)));
    [apply app_log_attentive|apply app_log_unaffected|reflexivity|done]].
  vm_compute. by split.
Defined.

(** The same server, traced. *)
Lemma swim_logging_transparent_witness :
  match logged_server_loop [sample_input; stop_input] sample_state W (app_log true) with
  | (Reply (Ok _), w', l') =>
      length (out_app (lg_out l')).1 = 20%nat ∧ length (w_out w') = 7%nat
  | _ => False
  end ∧
  match logged_server_loop [sample_input; stop_input] sample_state W (app_log true) with
  | (Reply (Ok state'), w', _) =>
      ∃ out', pthread_server_loop [sample_input; stop_input] sample_state
        (lg_out (app_log true)) W = (Ok (state', out'), w')
  | (Reply (Fault f), w', _) =>
      pthread_server_loop [sample_input; stop_input] sample_state (lg_out (app_log true)) W
        = (Fault f, w')
  | (TextFault _, _, _) => True
  end.
Proof.
  split; [|apply (swim_logging_transparent (λ _ _, True) [sample_input; stop_input] sample_state W
    (app_log true) (lg_out (app_log true))); [apply app_log_unaffected|reflexivity|done]].
  vm_compute. by split.
Defined.

(** The rumour of [swim_status_unprintable], which the server would merge. *)
Definition traced_log : Log unit :=
  {| lg_out := {| out_stderr := []; out_verbose := false; out_tracing := true;
       out_log_sink := None; out_print := None;
       out_event_buf := replicate EVENT_BUF_SIZE x00; out_app := tt |};
     lg_times := 0 |}.

Lemma swim_trace_overrun_witness :
  (swim_process_gossip [rumour] 1 W).1 = Ok tt ∧
  ∃ l', logged_process_gossip [rumour] 1 W traced_log = (TextFault OutOfBounds, W, l').
Proof.
  split; [vm_compute; reflexivity|].
  apply (swim_trace_overrun rumour [] 1 W traced_log); [lia|reflexivity|simpl; lia|done|done].
Defined.
