(* ===== verification/Recording.v ===== *)
(** * The lines that are logged

    The lines a server hands to the function registered for them are made
    visible by a history variable: the state of the application is paired with
    the list of the lines, which nothing reads.  A server runs the same with
    and without it. *)

From Stdlib Require Import Init.Byte Strings.String ZArith Lia.
From stdpp Require Import base tactics list vector sorting gmap.
From S2P Require Import Prelude Bytes Node Event Text Encoding State Printing.
From S2P Require Import Network Cluster Process Server Logged.

Open Scope Z_scope.

Section Recording.
Context {App : Type}.

Definition recording_sink (f : text → App → outcome App) (s : text) (p : App * list text)
  : outcome (App * list text) :=
  app ← f s p.1; Ok (app, p.2 ++ [s]).

Definition recording_print (f : SWIM → App → outcome App) (s : SWIM) (p : App * list text)
  : outcome (App * list text) :=
  app ← f s p.1; Ok (app, p.2).

Definition recording (out : Output App) (lines : list text) : Output (App * list text) :=
  {| out_stderr := out_stderr out; out_verbose := out_verbose out; out_tracing := out_tracing out;
     out_log_sink := recording_sink <$> out_log_sink out;
     out_print := recording_print <$> out_print out;
     out_event_buf := out_event_buf out; out_app := (out_app out, lines) |}.

(** [lines] is what has been logged before. *)
Definition record_lines (l : Log App) (lines : list text) : Log (App * list text) :=
  {| lg_out := recording (lg_out l) lines; lg_times := lg_times l |}.

(** The two are the same function, with and without the history variable. *)
Definition recorded {A} (v : V App A) (v' : V (App * list text) A) : Prop :=
  ∀ w l lines,
  let '(r, w', l') := v w l in
  ∃ lines', v' w (record_lines l lines) = (r, w', record_lines l' lines').

Definition recorded_out (f : Output App → outcome (Output App))
  (f' : Output (App * list text) → outcome (Output (App * list text))) : Prop :=
  ∀ out lines,
  match f out with
  | Ok out' => ∃ lines', f' (recording out lines) = Ok (recording out' lines')
  | Fault e => f' (recording out lines) = Fault e
  end.

Definition recorded_message (f : Output App → outcome (text * Output App))
  (f' : Output (App * list text) → outcome (text * Output (App * list text))) : Prop :=
  ∀ out lines,
  match f out with
  | Ok (s, out') => f' (recording out lines) = Ok (s, recording out' lines)
  | Fault e => f' (recording out lines) = Fault e
  end.

Context {T : TextEnv} {C : LogClock}.

Lemma recorded_quietly {A} (m : M A) : recorded (quietly m) (quietly m).
Proof. intros w l lines. unfold quietly. destruct (m w) as [r w']. by exists lines. Qed.

Lemma recorded_ret {A} (a : A) : recorded (mret a) (mret a).
Proof. intros w l lines. by exists lines. Qed.

Lemma recorded_bind {A B} (v : V App A) v' (k : A → V App B) k' :
  recorded v v' → (∀ a, recorded (k a) (k' a)) → recorded (a ← v; k a) (a ← v'; k' a).
Proof.
  intros Hv Hk w l lines. unfold mbind, V_bind. specialize (Hv w l lines).
  destruct (v w l) as [[[[a|f]|f] w1] l1]; destruct Hv as [lines1 ->]; [|by eexists..].
  apply Hk.
Qed.

Lemma recorded_write_out f f' : recorded_out f f' → recorded (write_out f) (write_out f').
Proof.
  intros Hf w l lines. unfold write_out. specialize (Hf (lg_out l) lines). simpl.
  destruct (f (lg_out l)) as [out|e]; [destruct Hf as [lines' ->]|rewrite Hf]; by eexists.
Qed.

Lemma log_write_recorded s : recorded_out (swim_log_write s) (swim_log_write s).
Proof.
  intros out lines. unfold swim_log_write. destruct (snprintf _ _ _) as [[buf n]|]; [|done].
  cbn [mbind outcome_bind]. destruct (cstring buf) as [t|]; [|done]. cbn [mbind outcome_bind].
  change (out_log_sink (recording out lines)) with (recording_sink <$> out_log_sink out).
  destruct (out_log_sink out) as [f|] eqn:Ef; cbn [fmap option_fmap option_map].
  - change (out_app (recording out lines)) with (out_app out, lines). unfold recording_sink.
    cbn [fst snd]. destruct (f t (out_app out)); [|done]. by eexists.
  - by eexists.
Qed.

Lemma recorded_complain msg : recorded (complain msg) (complain msg).
Proof.
  apply recorded_write_out. intros out lines. destruct msg as [s|]; [|done]. by eexists.
Qed.

Lemma recorded_trace func msg : recorded (trace func msg) (trace func msg).
Proof.
  apply recorded_write_out. intros out lines.
  change (out_tracing (recording out lines)) with (out_tracing out). unfold TRACE.
  change (out_tracing (recording out lines)) with (out_tracing out).
  destruct (out_tracing out); [|by eexists]. destruct msg as [s|]; [|done].
  apply log_write_recorded.
Qed.

Lemma recorded_log msg msg' : recorded_message msg msg' → recorded (log msg) (log msg').
Proof.
  intros Hm w l lines. unfold log, LOG. cbn [record_lines lg_out lg_times].
  change (out_verbose (recording (lg_out l) lines)) with (out_verbose (lg_out l)).
  destruct (out_verbose (lg_out l)) eqn:Ev; [|by eexists].
  destruct (localtime_r _) as [t|]; [|by eexists]. destruct (strftime _ _ t) as [str n].
  destruct (n =? 0); [by eexists|]. specialize (Hm (lg_out l) lines).
  destruct (msg (lg_out l)) as [[s out]|e]; rewrite Hm; [|by eexists].
  cbn [mbind outcome_bind]. destruct (cstring str) as [u|]; [|by eexists]. cbn [mbind outcome_bind].
  pose proof (log_write_recorded (u ++ lit " " ++ s) out lines) as Hw.
  destruct (swim_log_write _ out) as [out'|e]; [destruct Hw as [lines' ->]|rewrite Hw]; by eexists.
Qed.

Lemma transfer_recorded arrow e bytes addr addrlen :
  recorded (log (transfer_message arrow e bytes addr addrlen))
    (log (transfer_message arrow e bytes addr addrlen)).
Proof.
  apply recorded_log. intros out lines. unfold transfer_message.
  change (out_event_buf (recording out lines)) with (out_event_buf out).
  destruct (swim_event_print _ _) as [buf|]; [|done]. cbn [mbind outcome_bind].
  destruct (cstring buf) as [t|]; [|done]. cbn [mbind outcome_bind].
  destruct (uuid_arg _ _) as [u|]; [|done]. cbn [mbind outcome_bind].
  by destruct (addr_arg _ _ _).
Qed.

Lemma process_recorded e addr addrlen :
  recorded (log (process_message e addr addrlen)) (log (process_message e addr addrlen)).
Proof.
  apply recorded_log. intros out lines. unfold process_message.
  change (out_event_buf (recording out lines)) with (out_event_buf out).
  destruct (swim_event_print _ _) as [buf|]; [|done]. cbn [mbind outcome_bind].
  destruct (cstring buf) as [t|]; [|done]. cbn [mbind outcome_bind].
  destruct (uuid_arg _ _) as [u|]; [|done]. cbn [mbind outcome_bind].
  by destruct (addr_arg _ _ _).
Qed.

Lemma recorded_view s : recorded (show_view s) (show_view s).
Proof.
  intros w l lines. unfold show_view, swim_state_print. cbn [record_lines lg_out].
  change (out_print (recording (lg_out l) lines)) with (recording_print <$> out_print (lg_out l)).
  destruct (out_print (lg_out l)) as [f|] eqn:Ef; cbn [fmap option_fmap option_map].
  - change (out_app (recording (lg_out l) lines)) with (out_app (lg_out l), lines).
    unfold recording_print. cbn [fst snd]. destruct (f s (out_app (lg_out l))); by eexists.
  - destruct (uuid_arg _ _); [|by eexists]. cbn [mbind outcome_bind].
    destruct (print_nodes s); by eexists.
Qed.

Lemma recorded_for_each {S} l (body : nat → S → V App S) body' state :
  (∀ i s, recorded (body i s) (body' i s)) →
  recorded (logged_for_each l body state) (logged_for_each l body' state).
Proof.
  intros Hb. revert state. induction l as [|i l IH]; intros state; [apply recorded_ret|].
  apply recorded_bind; [apply Hb|]. intros s. apply IH.
Qed.

End Recording.

Create HintDb recorded.

#[export] Hint Resolve recorded_quietly recorded_ret recorded_complain recorded_trace
  transfer_recorded process_recorded recorded_view : recorded.

(** The two run in step. *)
Ltac record_step :=
  match goal with
  | |- recorded _ _ => solve [auto with recorded]
  | |- recorded (mbind _ _) (mbind _ _) => apply recorded_bind; [|intros ?]
  | |- recorded (logged_for_each _ _ _) (logged_for_each _ _ _) =>
      apply recorded_for_each; intros ? ?
  | |- recorded (if ?b then _ else _) (if ?b then _ else _) => destruct b
  | |- recorded (match ?x with _ => _ end) _ => destruct x
  end.

Ltac record_all := repeat record_step.

Section Functions.
Context {U : UuidLib} {T : TextEnv} {C : LogClock} {H : Host} {E : Env} {App : Type}.
Notation P := (App * list text)%type.

Lemma recorded_fill_gossip e count :
  recorded (App := App) (logged_fill_gossip e count) (logged_fill_gossip e count).
Proof. unfold logged_fill_gossip, logged_copy_gossip. record_all. Qed.
#[local] Hint Resolve recorded_fill_gossip : recorded.

Lemma recorded_send_event e addr addrlen :
  recorded (App := App) (logged_send_event e addr addrlen) (logged_send_event e addr addrlen).
Proof. unfold logged_send_event. record_all. Qed.
#[local] Hint Resolve recorded_send_event : recorded.

Lemma recorded_send_ack u addr addrlen :
  recorded (App := App) (logged_send_ack u addr addrlen) (logged_send_ack u addr addrlen).
Proof. unfold logged_send_ack. record_all. Qed.

Lemma recorded_send_ping addr addrlen :
  recorded (App := App) (logged_send_ping addr addrlen) (logged_send_ping addr addrlen).
Proof. unfold logged_send_ping. record_all. Qed.

Lemma recorded_send_ping_req u addr addrlen :
  recorded (App := App) (logged_send_ping_req u addr addrlen) (logged_send_ping_req u addr addrlen).
Proof. unfold logged_send_ping_req. record_all. Qed.
#[local] Hint Resolve recorded_send_ack recorded_send_ping recorded_send_ping_req : recorded.

Lemma recorded_recv stack e r :
  recorded (App := App) (logged_recv_event stack e r) (logged_recv_event stack e r).
Proof. unfold logged_recv_event. record_all. Qed.

Lemma recorded_state_add info :
  recorded (App := App) (logged_state_add info) (logged_state_add info).
Proof. unfold logged_state_add. record_all. Qed.
#[local] Hint Resolve recorded_recv recorded_state_add : recorded.

Lemma recorded_state_merge info :
  recorded (App := App) (logged_state_merge info) (logged_state_merge info).
Proof. unfold logged_state_merge. record_all. Qed.
#[local] Hint Resolve recorded_state_merge : recorded.

Lemma recorded_ping_req_loop sent start target :
  recorded (App := App) (logged_ping_req_loop sent start target)
    (logged_ping_req_loop sent start target).
Proof. induction sent as [|sent IH]; cbn [logged_ping_req_loop]; record_all. Qed.
#[local] Hint Resolve recorded_ping_req_loop : recorded.

Lemma recorded_heartbeat : recorded (App := App) logged_heartbeat logged_heartbeat.
Proof.
  unfold logged_heartbeat, logged_update_candidate, logged_suspect_dead. cbn zeta. record_all.
Qed.

Lemma recorded_process_info info :
  recorded (App := App) (logged_process_info info) (logged_process_info info).
Proof. unfold logged_process_info. record_all. Qed.
#[local] Hint Resolve recorded_heartbeat recorded_process_info : recorded.

Lemma recorded_process_infos gossip count :
  recorded (App := App) (logged_process_infos gossip count) (logged_process_infos gossip count).
Proof.
  revert gossip. induction count as [|count IH]; intros [|i gossip];
    cbn [logged_process_infos]; record_all.
Qed.
#[local] Hint Resolve recorded_process_infos : recorded.

Lemma recorded_process_gossip gossip count :
  recorded (App := App) (logged_process_gossip gossip count) (logged_process_gossip gossip count).
Proof. unfold logged_process_gossip. record_all. Qed.
#[local] Hint Resolve recorded_process_gossip : recorded.

Lemma recorded_handlers e addr addrlen :
  recorded (App := App) (logged_process_ping e addr addrlen) (logged_process_ping e addr addrlen) ∧
  recorded (App := App) (logged_process_ping_req e addr addrlen) (logged_process_ping_req e addr addrlen) ∧
  recorded (App := App) (logged_process_ack e addr addrlen) (logged_process_ack e addr addrlen) ∧
  recorded (App := App) (logged_process_join e addr addrlen) (logged_process_join e addr addrlen) ∧
  recorded (App := App) (logged_process_leave e addr addrlen) (logged_process_leave e addr addrlen).
Proof.
  unfold logged_process_ping, logged_process_ping_req, logged_process_ack, logged_ack_node,
    logged_ack_update, logged_process_join, logged_process_leave, logged_send_to_node.
  cbn zeta. split_and!; record_all.
Qed.

Lemma recorded_event e addr addrlen :
  recorded (App := App) (logged_process_event e addr addrlen) (logged_process_event e addr addrlen).
Proof.
  set (notice := swim_state_notice (eh_uuid (ev_hdr e)) (eh_time (ev_hdr e))
    (eh_incarnation (ev_hdr e))).
  assert (∀ (c : Event → sockaddr_storage → Z → V App unit)
      (c' : Event → sockaddr_storage → Z → V P unit),
    recorded (c e addr addrlen) (c' e addr addrlen) →
    recorded (log (process_message e addr addrlen);; quietly notice;; c e addr addrlen)
      (log (process_message e addr addrlen);; quietly notice;; c' e addr addrlen)) as Hcall
    by (intros c c' Hc; record_all).
  destruct (recorded_handlers e addr addrlen) as (H1 & H2 & H3 & H4 & H5).
  unfold logged_process_event. fold notice.
  destruct (eh_type (ev_hdr e)) as [| | | | |c]; cbn [logged_event_processing];
    [by apply (Hcall _ logged_process_ping)|by apply (Hcall _ logged_process_ack)
    |by apply (Hcall _ logged_process_ping_req)|by apply (Hcall _ logged_process_join)
    |by apply (Hcall _ logged_process_leave)|].
  destruct ((0 <=? c) && (c <? 18)); [|by intros w l lines; exists lines].
  change (recorded (log (process_message e addr addrlen);; quietly notice;;
      quietly (App := App) (fail (A := unit) NullDeref))
    (log (process_message e addr addrlen);; quietly notice;;
      quietly (App := P) (fail (A := unit) NullDeref))). record_all.
Qed.
#[local] Hint Resolve recorded_event : recorded.

Lemma recorded_iterations inputs state last :
  recorded (App := App) (logged_iterations inputs state last) (logged_iterations inputs state last).
Proof.
  revert state last. induction inputs as [|input inputs IH]; intros state last;
    cbn [logged_iterations]; cbn zeta; unfold logged_iteration; record_all.
Qed.
#[local] Hint Resolve recorded_iterations : recorded.

(** A server runs the same whether its lines are recorded or not. *)
Lemma recorded_server_loop inputs state :
  recorded (App := App) (logged_server_loop inputs state) (logged_server_loop inputs state).
Proof. unfold logged_server_loop, logged_cluster_join. record_all. Qed.

End Functions.
