(* ===== verification/Tui.v ===== *)
(** * The terminal user interface: [examples/swim_server_tui.c]

    A server that shows its view and its log in two windows.  The log lines are
    kept in a ring of 256 lines of 256 bytes, from which the newest ones are
    shown.  The curses library is a parameter: a window is described by its size
    and by the calls that have drawn on it since it was erased. *)

From Stdlib Require Import Init.Byte Strings.String ZArith Lia.
From stdpp Require Import base tactics list vector.
From S2P Require Import Prelude Bytes Node Event Text EncodingFacts State Printing PrintingFacts StateFacts.
From S2P Require Import Samples Server.

Open Scope Z_scope.

(** ** Windows *)

Inductive drawing : Type :=
| Box
| Print (y x : Z) (s : text).

(** What has been drawn since the window was erased, and what was last copied
    to the screen. *)
Record Window : Type := {
  win_rows : Z;
  win_cols : Z;
  win_draws : list drawing;
  win_shown : list drawing
}.

(** [newwin(nlines, ncols, begin_y, begin_x)]: the size of the new window, or
    [None] for a null pointer. *)
Class Curses := newwin : Z → Z → Z → Z → option (Z * Z).

(** A window of a given size has that size. *)
Class CursesLaws (C : Curses) : Prop :=
  newwin_size h w y x r c :
    0 < h → 0 < w → newwin h w y x = Some (r, c) → r = h ∧ c = w.

(** A pointer to a window may be null, in which case its size is -1 and drawing
    has no effect; neither has a call with a position outside of the window. *)
Definition getmaxyx (w : option Window) : Z * Z :=
  match w with Some w => (win_rows w, win_cols w) | None => (-1, -1) end.

Definition draw (ds : list drawing) (w : Window) : Window :=
  {| win_rows := win_rows w; win_cols := win_cols w; win_draws := ds;
     win_shown := win_shown w |}.

Definition werase (w : option Window) : option Window := draw [] <$> w.

Definition box (w : option Window) : option Window :=
  (λ w, draw (win_draws w ++ [Box]) w) <$> w.

Definition mvwprintw (y x : Z) (s : text) (w : option Window) : option Window :=
  (λ w, if (0 <=? y) && (y <? win_rows w) && (0 <=? x) && (x <? win_cols w)
        then draw (win_draws w ++ [Print y x s]) w else w) <$> w.

Definition wrefresh (w : option Window) : option Window :=
  (λ w, {| win_rows := win_rows w; win_cols := win_cols w; win_draws := win_draws w;
           win_shown := win_draws w |}) <$> w.

(** ** State *)

Definition LOG_RING_SIZE : nat := 256.
Definition LOG_LINE_MAX : nat := 256.

(** The static variables of the program. *)
Record Tui : Type := {
  status_win : option Window;
  log_win : option Window;
  log_ring : list (list byte);
  log_head : Z;
  log_count : Z
}.

Definition tui_start : Tui :=
  {| status_win := None; log_win := None;
     log_ring := replicate LOG_RING_SIZE (replicate LOG_LINE_MAX x00);
     log_head := 0; log_count := 0 |}.

Definition set_status_win (w : option Window) (t : Tui) : Tui :=
  {| status_win := w; log_win := log_win t; log_ring := log_ring t;
     log_head := log_head t; log_count := log_count t |}.

Definition set_log_win (w : option Window) (t : Tui) : Tui :=
  {| status_win := status_win t; log_win := w; log_ring := log_ring t;
     log_head := log_head t; log_count := log_count t |}.

Section Operations.
Context `{TextEnv} `{Curses}.

Definition new_window (h w y x : Z) : option Window :=
  (λ '(r, c), {| win_rows := r; win_cols := c; win_draws := []; win_shown := [] |})
    <$> newwin h w y x.

Definition status_height (rows : Z) : Z :=
  let h := rows * 2 ÷ 5 in
  if h <? 4 then 4 else h.

(** [rows] and [cols] are the size of the screen; the old windows are deleted. *)
Definition create_windows (rows cols : Z) (t : Tui) : Tui :=
  let h := status_height rows in
  set_log_win (new_window (rows - h) cols h 0)
    (set_status_win (new_window h cols 0 0) t).

(** [for (int i = 0; i < count; i++)], from the given [i]. *)
Fixpoint render_lines (n : nat) (i start cols : Z) (t : Tui) (w : option Window)
  : outcome (option Window) :=
  match n with
  | O => Ok w
  | S n =>
      let idx := Z.rem (log_head t - log_count t + start + i + Z.of_nat LOG_RING_SIZE)
                   (Z.of_nat LOG_RING_SIZE) in
      line ← index (log_ring t) idx;
      s ← cstring line;
      render_lines n (i + 1) start cols t (mvwprintw (1 + i) 1 (precision (cols - 2) s) w)
  end.

Definition render_log (t : Tui) : outcome Tui :=
  let '(rows, cols) := getmaxyx (log_win t) in
  let w := mvwprintw 0 2 (lit " Log ") (box (werase (log_win t))) in
  let visible := rows - 2 in
  let '(start, count) :=
    if visible <? log_count t then (log_count t - visible, visible) else (0, log_count t) in
  w ← render_lines (Z.to_nat count) 0 start cols t w;
  Ok (set_log_win (wrefresh w) t).

Definition tui_log_sink (msg : text) (t : Tui) : outcome Tui :=
  line ← index (log_ring t) (log_head t);
  line ← strncpy line msg (LOG_LINE_MAX - 1);
  line ← write line (LOG_LINE_MAX - 1) [x00];
  render_log
    {| status_win := status_win t; log_win := log_win t;
       log_ring := <[Z.to_nat (log_head t) := line]> (log_ring t);
       log_head := Z.rem (log_head t + 1) (Z.of_nat LOG_RING_SIZE);
       log_count := if log_count t <? Z.of_nat LOG_RING_SIZE then log_count t + 1
                    else log_count t |}.

(** The columns of the table. *)
Definition table_row (a b c d e : text) : text :=
  pad 36 a ++ lit " " ++ pad 19 b ++ lit " " ++ pad 8 c ++ lit " " ++ pad 21 d
  ++ lit " " ++ pad 21 e.

(** The text of the [i]-th node. *)
Definition tui_row (i : nat) (node : NodeState) : outcome text :=
  let timestr := match localtime_r (ni_last_seen (ns_info node)) with
                 | Some t => (strftime (uninit (3 * i + 1) 20) (lit "%F %T") t).1
                 | None => [x00]
                 end in
  address ← addr_buf (3 * i + 2) (ni_addr (ns_info node)) (ni_addrlen (ns_info node));
  let address := default [x00] address in
  witness ← (if 0 <? wi_addrlen (ns_witness node)
             then addr_buf (3 * i + 3) (wi_addr (ns_witness node)) (wi_addrlen (ns_witness node))
             else Ok (Some [x00]));
  u ← uuid_arg 0 (node_uuid node);
  tm ← cstring timestr;
  st ← swim_status_name (node_status node);
  a ← cstring address;
  w ← arg witness;
  Ok (table_row u tm st a w).

(** [for (int i = 0; i < s->view_size && i < rows - 4; i++)] *)
Fixpoint tui_rows (n i : nat) (s : SWIM) (w : option Window) : outcome (option Window) :=
  match n with
  | O => Ok w
  | S n =>
      node ← index (sw_view s) (Z.of_nat i);
      row ← tui_row i node;
      tui_rows n (S i) s (mvwprintw (3 + Z.of_nat i) 1 row w)
  end.

Definition tui_state_print (s : SWIM) (t : Tui) : outcome Tui :=
  let '(rows, _) := getmaxyx (status_win t) in
  let view_size := Z.of_nat (sw_view_size s) in
  let w := mvwprintw 0 2 (lit " Nodes ") (box (werase (status_win t))) in
  u ← uuid_arg 0 (sw_uuid s);
  let w := mvwprintw 1 1 (lit "Self: " ++ u) w in
  let w := mvwprintw 2 1 (table_row (lit "UUID") (lit "LAST_SEEN") (lit "STATUS")
                            (lit "ADDRESS") (lit "WITNESS")) w in
  w ← tui_rows (Z.to_nat (Z.min view_size (rows - 4))) 0 s w;
  let w := if rows - 4 <=? view_size
           then mvwprintw (rows - 1) 1 (lit "(" ++ decimal (view_size - (rows - 4))
                                          ++ lit " more)") w
           else w in
  Ok (set_status_win (wrefresh w) t).

Definition handle_sigint (state : PThreadServerState) : PThreadServerState :=
  swim_server_stop state.

(** The screen has got a new size. *)
Definition handle_sigwinch (rows cols : Z) (s : SWIM) (t : Tui) : outcome Tui :=
  t ← tui_state_print s (create_windows rows cols t);
  render_log t.

End Operations.

(** ** The log as a sequence

    Abstractly the log is the list of all messages, of which the last 256 are
    kept and cut to 255 characters; message number [k] is in line [k mod 256]. *)

Record ring_holds (t : Tui) (log : list text) : Prop := {
  rh_ring : length (log_ring t) = LOG_RING_SIZE;
  rh_lines : Forall (λ l, length l = LOG_LINE_MAX) (log_ring t);
  rh_head : log_head t = Z.of_nat (length log) mod 256;
  rh_count : log_count t = Z.min 256 (Z.of_nat (length log));
  rh_line k msg :
    log !! k = Some msg → (length log ≤ k + 256)%nat →
    ∃ line, log_ring t !! (k mod 256)%nat = Some line ∧
      cstring line = Ok (take (LOG_LINE_MAX - 1) msg)
}.

(** The newest [n] messages. *)
Definition newest (n : nat) (log : list text) : list text := drop (length log - n) log.

(** The lines of a window of [cols] columns that shows [msgs]. *)
Definition log_lines (cols : Z) (msgs : list text) : list drawing :=
  imap (λ i msg, Print (1 + Z.of_nat i) 1
                   (precision (cols - 2) (take (LOG_LINE_MAX - 1) msg))) msgs.

(** The number of lines of the log a window of [rows] rows shows. *)
Definition log_visible (rows : Z) (log : list text) : nat :=
  Z.to_nat (Z.min (rows - 2) (Z.min 256 (Z.of_nat (length log)))).

Section LogFacts.
Context {T : TextEnv} {C : Curses}.

Lemma ring_holds_start : ring_holds tui_start [].
Proof. by split; [done|apply Forall_replicate| | |]. Qed.

(** The ring does not depend on the windows. *)
Lemma ring_holds_windows t t' log :
  log_ring t' = log_ring t → log_head t' = log_head t → log_count t' = log_count t →
  ring_holds t log → ring_holds t' log.
Proof. intros E1 E2 E3 []. by split; rewrite ?E1, ?E2, ?E3. Qed.

(** The line of message number [k], found by the index the program computes. *)
Lemma ring_index t log k msg :
  ring_holds t log → log !! k = Some msg → (length log ≤ k + 256)%nat →
  let i := Z.of_nat k - (Z.of_nat (length log) - log_count t) in
  ∃ line, index (log_ring t)
      (Z.rem (log_head t - log_count t + i + Z.of_nat LOG_RING_SIZE) (Z.of_nat LOG_RING_SIZE))
      = Ok line ∧ cstring line = Ok (take (LOG_LINE_MAX - 1) msg).
Proof.
  intros [_ _ Hhead Hcount Hline] Hk Hge i. destruct (Hline k msg Hk Hge) as (line & Hl & Hc).
  exists line. split; [|done]. rewrite <-(index_ok (log_ring t) (k mod 256)%nat) by done. f_equal.
  pose proof (lookup_lt_Some _ _ _ Hk). change (Z.of_nat LOG_RING_SIZE) with 256.
  pose proof (Z.mod_pos_bound (Z.of_nat (length log)) 256 ltac:(lia)).
  rewrite Z.rem_mod_nonneg by (unfold i; rewrite ?Hhead, ?Hcount; lia).
  rewrite Nat2Z.inj_mod. change (Z.of_nat 256) with 256. unfold i. rewrite Hhead.
  replace (Z.of_nat (length log) `mod` 256 - log_count t
    + (Z.of_nat k - (Z.of_nat (length log) - log_count t)) + 256)
    with (Z.of_nat (length log) `mod` 256 + (Z.of_nat k - Z.of_nat (length log) + 1 * 256)) by lia.
  rewrite Zplus_mod_idemp_l.
  replace (Z.of_nat (length log) + (Z.of_nat k - Z.of_nat (length log) + 1 * 256))
    with (Z.of_nat k + 1 * 256) by lia. by rewrite Z_mod_plus_full.
Qed.

Lemma same_slot (k n : nat) : (k < n)%nat → (n < k + 256)%nat → (k mod 256 ≠ n mod 256)%nat.
Proof.
  intros H1 H2 E. pose proof (Nat.div_mod_eq k 256). pose proof (Nat.div_mod_eq n 256). lia.
Qed.

(** Storing a line in the ring. *)
Lemma store_line line msg :
  length line = LOG_LINE_MAX → nul_free msg →
  ∃ line1 line2, strncpy line msg (LOG_LINE_MAX - 1) = Ok line1 ∧
    write line1 (LOG_LINE_MAX - 1) [x00] = Ok line2 ∧ length line2 = LOG_LINE_MAX ∧
    cstring line2 = Ok (take (LOG_LINE_MAX - 1) msg).
Proof.
  intros Hl Hm. rewrite strncpy_ok by (rewrite Hl; unfold LOG_LINE_MAX; lia).
  set (p := take (LOG_LINE_MAX - 1) msg ++ replicate (LOG_LINE_MAX - 1 - length msg) x00).
  assert (length p = (LOG_LINE_MAX - 1)%nat) as Hp
    by (unfold p; rewrite length_app, length_take, length_replicate; lia).
  rewrite app_assoc. fold p. set (l1 := p ++ drop (LOG_LINE_MAX - 1) line).
  assert (length l1 = LOG_LINE_MAX) as Hl1
    by (unfold l1; rewrite length_app, Hp, length_drop, Hl; unfold LOG_LINE_MAX; lia).
  eexists l1, _. split; [done|].
  rewrite write_ok by (rewrite Hl1; unfold LOG_LINE_MAX; simpl; lia). split; [done|]. split.
  { rewrite !length_app, length_take, length_drop, Hl1. simpl. unfold LOG_LINE_MAX. lia. }
  unfold l1. rewrite take_app_length' by done. unfold p. rewrite <-app_assoc.
  destruct (LOG_LINE_MAX - 1 - length msg)%nat; apply cstring_app; by apply nul_free_take.
Qed.

(** A message that is logged is kept, as the newest one. *)
Lemma sink_stores t log msg :
  ring_holds t log → nul_free msg →
  ∃ t', tui_log_sink msg t = render_log t' ∧ ring_holds t' (log ++ [msg]) ∧
    log_win t' = log_win t ∧ status_win t' = status_win t.
Proof.
  intros [Hring Hlines Hhead Hcount Hline] Hm.
  assert (log_head t = Z.of_nat (length log mod 256)) as Hslot
    by (by rewrite Hhead, Nat2Z.inj_mod).
  assert (length log mod 256 < 256)%nat as Hlt by (apply Nat.mod_upper_bound; lia).
  destruct (lookup_lt_is_Some_2 (log_ring t) (length log mod 256)) as [line Hl].
  { rewrite Hring. unfold LOG_RING_SIZE. lia. }
  destruct (store_line line msg) as (l1 & l2 & Hs & Hw & Hlen & Hc);
    [exact (Forall_lookup_1 _ _ _ _ Hlines Hl)|done|].
  unfold tui_log_sink. rewrite Hslot, (index_ok _ _ line) by done. bind_step.
  rewrite Hs. bind_step. rewrite Hw. bind_step. eexists. split; [done|]. split; [|done].
  split; cbn [log_ring log_head log_count].
  - by rewrite length_insert.
  - by apply Forall_insert.
  - change (Z.of_nat LOG_RING_SIZE) with 256. rewrite Nat2Z.inj_mod, length_app, Nat2Z.inj_add.
    rewrite Z.rem_mod_nonneg by lia. by rewrite Zplus_mod_idemp_l.
  - change (Z.of_nat LOG_RING_SIZE) with 256. rewrite Hcount, length_app. simpl.
    case_match; lia.
  - rewrite Nat2Z.id, length_app. cbn [length]. intros k m Hk Hge.
    destruct (decide (k = length log)) as [->|Hne].
    + rewrite lookup_app_r, Nat.sub_diag in Hk by lia. injection Hk as <-. exists l2.
      split; [|done]. apply list_lookup_insert_eq. rewrite Hring. unfold LOG_RING_SIZE. lia.
    + pose proof (lookup_lt_Some _ _ _ Hk) as Hk'. rewrite length_app in Hk'. simpl in Hk'.
      rewrite lookup_app_l in Hk by lia. destruct (Hline k m Hk) as (ln & ? & ?); [lia|].
      exists ln. split; [|done]. rewrite list_lookup_insert_ne; [done|].
      intros E. symmetry in E. revert E. apply same_slot; lia.
Qed.

End LogFacts.

Section RenderFacts.
Context {T : TextEnv} {C : Curses}.

(** The first index shown, and how many lines. *)
Lemma render_range t log rows :
  ring_holds t log →
  let visible := rows - 2 in
  let '(start, count) :=
    if visible <? log_count t then (log_count t - visible, visible) else (0, log_count t) in
  Z.to_nat count = log_visible rows log ∧
  (0 < count → start = log_count t - Z.of_nat (log_visible rows log)).
Proof.
  intros Hr visible. unfold visible, log_visible. rewrite <-(rh_count _ _ Hr).
  destruct (Z.ltb_spec (rows - 2) (log_count t)); split; [f_equal; lia|lia|f_equal; lia|].
  intros ?. rewrite Z2Nat.id; lia.
Qed.

(** Reading the lines of the messages from number [k] on succeeds. *)
Lemma render_lines_run t log n k start cols :
  ring_holds t log → (k + n ≤ length log)%nat → (length log ≤ k + 256)%nat →
  ∀ (i : nat) w,
    start + Z.of_nat i = Z.of_nat k - (Z.of_nat (length log) - log_count t) →
    render_lines n (Z.of_nat i) start cols t w =
      Ok (foldl (λ w d, match d with Print y x s => mvwprintw y x s w | Box => w end) w
            (imap (λ j msg, Print (1 + Z.of_nat (i + j)) 1
                     (precision (cols - 2) (take (LOG_LINE_MAX - 1) msg)))
               (take n (drop k log)))).
Proof.
  intros Hr. revert k. induction n as [|n IH]; intros k Hk Hge i w Hi; [done|].
  cbn [render_lines].
  destruct (lookup_lt_is_Some_2 log k) as [msg Hmsg]; [lia|].
  destruct (ring_index t log k msg Hr Hmsg Hge) as (line & Hidx & Hc).
  rewrite <-Hi, Z.add_assoc in Hidx. rewrite Hidx. bind_step. rewrite Hc. bind_step.
  rewrite (drop_S _ _ _ Hmsg). cbn [take imap]. rewrite Nat.add_0_r. cbn [foldl].
  replace (Z.of_nat i + 1) with (Z.of_nat (S i)) by lia.
  destruct (decide (n = 0%nat)) as [->|Hn]; [done|].
  rewrite (IH (S k)) by lia. do 2 f_equal. apply imap_ext. intros j m _.
  simpl. do 3 f_equal. lia.
Qed.

Lemma mvwprintw_in y x s w :
  0 ≤ y < win_rows w → 0 ≤ x < win_cols w →
  mvwprintw y x s (Some w) = Some (draw (win_draws w ++ [Print y x s]) w).
Proof.
  intros Hy Hx. unfold mvwprintw. simpl.
  by rewrite !(proj2 (Z.leb_le _ _)), !(proj2 (Z.ltb_lt _ _)) by lia.
Qed.

Lemma fold_draws ds (w : Window) :
  Forall (λ d, match d with
               | Print y x _ => 0 ≤ y < win_rows w ∧ 0 ≤ x < win_cols w
               | Box => False end) ds →
  foldl (λ w d, match d with Print y x s => mvwprintw y x s w | Box => w end) (Some w) ds
  = Some (draw (win_draws w ++ ds) w).
Proof.
  revert w. induction ds as [|d ds IH]; intros w Hds; cbn [foldl].
  { rewrite app_nil_r. by destruct w. }
  apply Forall_cons in Hds as [Hd Hds]. destruct d as [|y x s]; [done|]. destruct Hd.
  rewrite mvwprintw_in by done. rewrite IH by done. simpl. by rewrite <-app_assoc.
Qed.

Lemma log_lines_at cols rows log ds :
  ds = log_lines cols (newest (log_visible rows log) log) → 1 ≤ rows → 2 ≤ cols →
  Forall (λ d, match d with
               | Print y x _ => 0 ≤ y < rows ∧ 0 ≤ x < cols | Box => False end) ds.
Proof.
  intros -> Hrows Hcols. apply Forall_lookup. intros i d Hd. unfold log_lines in Hd.
  apply list_lookup_imap_Some in Hd as (msg & Hmsg & ->).
  apply lookup_lt_Some in Hmsg. unfold newest in Hmsg. rewrite length_drop in Hmsg.
  unfold log_visible in Hmsg. lia.
Qed.

(** What the log window shows. *)
Definition log_picture (rows cols : Z) (log : list text) : list drawing :=
  [Box; Print 0 2 (lit " Log ")] ++ log_lines cols (newest (log_visible rows log) log).

Lemma render_log_run t log :
  ring_holds t log →
  ∃ w, render_log t = Ok (set_log_win w t) ∧
    match log_win t with
    | None => w = None
    | Some w0 =>
        1 ≤ win_rows w0 → 3 ≤ win_cols w0 →
        w = Some {| win_rows := win_rows w0; win_cols := win_cols w0;
                    win_draws := log_picture (win_rows w0) (win_cols w0) log;
                    win_shown := log_picture (win_rows w0) (win_cols w0) log |}
    end.
Proof.
  intros Hr. unfold render_log. destruct (getmaxyx (log_win t)) as [rows cols] eqn:Hmax.
  pose proof (render_range t log rows Hr) as Hrange. cbv zeta in Hrange.
  destruct (if rows - 2 <? log_count t then _ else _) as [start count].
  destruct Hrange as [Hn Hstart]. rewrite Hn.
  set (n := log_visible rows log) in *. set (k := (length log - n)%nat).
  assert (n ≤ length log ∧ n ≤ 256)%nat as [Hlen H256] by (unfold n, log_visible; lia).
  set (w1 := mvwprintw 0 2 _ _).
  assert (render_lines n 0 start cols t w1 =
    Ok (foldl (λ w d, match d with Print y x s => mvwprintw y x s w | Box => w end) w1
          (log_lines cols (newest n log)))) as Hrun.
  { destruct (decide (n = 0%nat)) as [E0|Hne].
    { rewrite E0. unfold newest. by rewrite Nat.sub_0_r, drop_all. }
    change 0 with (Z.of_nat 0).
    rewrite (render_lines_run t log n k) by (done || unfold k; lia).
    do 3 f_equal. unfold newest. rewrite take_ge by (rewrite length_drop; lia). done. }
  rewrite Hrun. bind_step. eexists. split; [done|].
  destruct (log_win t) as [w0|]; simpl in Hmax; injection Hmax as <- <-.
  - intros Hrows Hcols. unfold w1. simpl.
    rewrite (proj2 (Z.ltb_lt _ _)), (proj2 (Z.ltb_lt _ _)) by lia. simpl.
    rewrite fold_draws by (simpl; eapply log_lines_at; [done|lia|lia]). done.
  - unfold w1. clear. simpl. induction (log_lines _ _) as [|[] ds IH]; simpl; done.
Qed.

End RenderFacts.

(** ** The table of nodes *)

(** When the row of a node is defined; see [printable]: a time or an address
    without a text is shown as empty, but the buffer of the time has only 20
    bytes. *)
Record tui_printable `{TextEnv} (i : nat) (n : NodeState) : Prop := {
  tp_status : 0 ≤ status_code (node_status n) < 4;
  tp_time t :
    localtime_r (ni_last_seen (ns_info n)) = Some t →
    (length (strftime_text (lit "%F %T") t) < 20)%nat ∨
    x00 ∈ strftime_rest (uninit (3 * i + 1) 20);
  tp_addr : 0 < ni_addrlen (ns_info n) ∨ x00 ∈ uninit (3 * i + 2) ABUF_SIZE;
  tp_witness :
    0 < wi_addrlen (ns_witness n) →
    is_Some (addr_text (wi_addr (ns_witness n)) (wi_addrlen (ns_witness n)))
}.

Section TableFacts.
Context {T : TextEnv} {TL : TextLaws T} {C : Curses}.

Lemma tui_time_ok k time :
  (∃ s, cstring (match localtime_r time with
                 | Some t => (strftime (uninit k 20) (lit "%F %T") t).1
                 | None => [x00] end) = Ok s) ↔
  ∀ t, localtime_r time = Some t →
    (length (strftime_text (lit "%F %T") t) < 20)%nat ∨ x00 ∈ strftime_rest (uninit k 20).
Proof.
  destruct (localtime_r time) as [t|]; [|by split; [|eexists]].
  unfold strftime. rewrite length_uninit.
  destruct (Nat.ltb_spec (length (strftime_text (lit "%F %T") t)) 20).
  - split; [by intros _ t' [= <-]; left|]. intros _. eexists. simpl.
    apply cstring_app, strftime_nul_free. by apply (bool_decide_unpack _).
  - cbn [fst]. rewrite <-cstring_ok. split; [by intros ? t' [= <-]; right|].
    intros Ht. destruct (Ht t eq_refl) as [?|?]; [lia|done].
Qed.

Lemma tui_addr_ok k addr addrlen :
  ∃ p, addr_buf k addr addrlen = Ok p ∧
    ((∃ s, cstring (default [x00] p) = Ok s) ↔ 0 < addrlen ∨ x00 ∈ uninit k ABUF_SIZE).
Proof.
  destruct (addr_text_dec k addr addrlen) as [[Hl Hp]|[Hl [[_ Hp]|(s & b & _ & Hp & Hb)]]];
    eexists; (split; [exact Hp|]); simpl.
  - rewrite <-cstring_ok. split; [by right|intros [?|?]; [lia|done]].
  - split; [by left|by eexists].
  - split; [by left|by eexists].
Qed.

Lemma tui_row_ok i n : (∃ s, tui_row i n = Ok s) ↔ tui_printable i n.
Proof.
  unfold tui_row.
  destruct (tui_addr_ok (3 * i + 2) (ni_addr (ns_info n)) (ni_addrlen (ns_info n)))
    as (p & -> & Hp). bind_step. rewrite bind_ok. setoid_rewrite uuid_arg_run. bind_step.
  pose proof (witness_ok (3 * i + 3) (ns_witness n)) as Hw.
  pose proof (tui_time_ok (3 * i + 1) (ni_last_seen (ns_info n))) as Ht.
  pose proof (status_name_ok (node_status n)) as Hst. split.
  - intros (wi & Hwi & Hrest). apply bind_ok in Hrest as (tm & Htm & Hrest).
    apply bind_ok in Hrest as (st & Hs & Hrest). apply bind_ok in Hrest as (a & Ha & Hrest).
    apply bind_ok in Hrest as (w & Hw' & _). split.
    + apply Hst. by exists st.
    + apply Ht. by exists tm.
    + apply Hp. by exists a.
    + apply Hw. by exists wi, w.
  - intros [H1 H2 H3 H4]. apply Hst in H1 as [st ->]. apply Ht in H2 as [tm ->].
    apply Hp in H3 as [a ->]. apply Hw in H4 as (wi & w & -> & Hwi).
    exists wi. split; [done|]. bind_step. rewrite Hwi. by eexists.
Qed.

(** The rows of the nodes from number [i] on. *)
Lemma tui_rows_run s n i :
  (∀ j, (i ≤ j < i + n)%nat → ∃ node row, sw_view s !! j = Some node ∧ tui_row j node = Ok row) →
  ∃ rows, length rows = n ∧
    (∀ j node row, sw_view s !! (i + j)%nat = Some node → rows !! j = Some row →
       tui_row (i + j) node = Ok row) ∧
    ∀ w, tui_rows n i s w =
      Ok (foldl (λ w d, match d with Print y x s => mvwprintw y x s w | Box => w end) w
            (imap (λ j row, Print (3 + Z.of_nat (i + j)) 1 row) rows)).
Proof.
  revert i. induction n as [|n IH]; intros i Hall; [by exists []|].
  destruct (Hall i) as (node & row & Hnode & Hrow); [lia|].
  destruct (IH (S i)) as (rows & Hlen & Hrows & Hrun); [intros j Hj; apply Hall; lia|].
  exists (row :: rows). split; [by rewrite <-Hlen|]. split.
  - intros [|j] node' row'; simpl; rewrite ?Nat.add_0_r; intros H1 H2; simplify_eq; [done|].
    rewrite <-plus_n_Sm in *. by apply Hrows.
  - intros w. cbn [tui_rows]. rewrite (index_ok _ _ node) by done. bind_step. rewrite Hrow.
    bind_step. rewrite Hrun. cbn [imap foldl]. rewrite Nat.add_0_r. do 2 f_equal.
    apply imap_ext. intros j r _. simpl. do 2 f_equal. lia.
Qed.

End TableFacts.

(** ** Sequences of log lines *)

Section Runs.
Context `{TextEnv} `{Curses}.

(** What can happen to the interface: a log line, a printout of the view, and
    a screen of a new size. *)
Inductive action : Type :=
| LogLine (msg : text)
| PrintView (s : SWIM)
| Resize (rows cols : Z) (s : SWIM).

Definition act (a : action) (t : Tui) : outcome Tui :=
  match a with
  | LogLine msg => tui_log_sink msg t
  | PrintView s => tui_state_print s t
  | Resize rows cols s => handle_sigwinch rows cols s t
  end.

Fixpoint act_all (l : list action) (t : Tui) : outcome Tui :=
  match l with
  | [] => Ok t
  | a :: l => t ← act a t; act_all l t
  end.

Definition logged (a : action) : list text :=
  match a with LogLine msg => [msg] | _ => [] end.

End Runs.

(** The static variables as C declares them: 256 lines of 256 bytes, each a
    string, and the two indices within their ranges. *)
Record tui_wf (t : Tui) : Prop := {
  tw_ring : length (log_ring t) = LOG_RING_SIZE;
  tw_lines : Forall (λ l, length l = LOG_LINE_MAX ∧ x00 ∈ l) (log_ring t);
  tw_head : 0 ≤ log_head t < 256;
  tw_count : 0 ≤ log_count t ≤ 256
}.

Section RunFacts.
Context {T : TextEnv} {C : Curses}.

Lemma tui_wf_start : tui_wf tui_start.
Proof.
  split; [done| |simpl; lia|simpl; lia]. apply Forall_replicate. split; [done|].
  by apply (bool_decide_unpack _).
Qed.

Lemma tui_wf_windows t t' :
  log_ring t' = log_ring t → log_head t' = log_head t → log_count t' = log_count t →
  tui_wf t → tui_wf t'.
Proof. intros E1 E2 E3 []. by split; rewrite ?E1, ?E2, ?E3. Qed.

Lemma render_lines_total t n (i start cols : Z) w :
  tui_wf t → 0 ≤ i → 0 ≤ log_head t - log_count t + start + 256 →
  ∃ w', render_lines n i start cols t w = Ok w'.
Proof.
  intros Ht. revert i w. induction n as [|n IH]; intros i w Hi Hs; [by eexists|].
  cbn [render_lines]. change (Z.of_nat LOG_RING_SIZE) with 256.
  set (idx := Z.rem _ 256).
  assert (0 ≤ idx < 256) as Hidx by (apply Z.rem_bound_pos; lia).
  destruct (lookup_lt_is_Some_2 (log_ring t) (Z.to_nat idx)) as [line Hl].
  { rewrite (tw_ring _ Ht). unfold LOG_RING_SIZE. lia. }
  rewrite <-(Z2Nat.id idx) by lia. rewrite (index_ok _ _ line) by done. bind_step.
  destruct (Forall_lookup_1 _ _ _ _ (tw_lines _ Ht) Hl) as [_ [s Hc]%cstring_ok].
  rewrite Hc. bind_step. apply IH; lia.
Qed.

Lemma render_total t :
  tui_wf t → ∃ w, render_log t = Ok (set_log_win w t).
Proof.
  intros Ht. unfold render_log. destruct (getmaxyx (log_win t)) as [rows cols].
  pose proof (tw_head _ Ht). pose proof (tw_count _ Ht).
  destruct (if rows - 2 <? log_count t then _ else _) as [start count] eqn:E.
  destruct (render_lines_total t (Z.to_nat count) 0 start cols
    (mvwprintw 0 2 (lit " Log ") (box (werase (log_win t))))) as [w ->]; [done|lia| |].
  { destruct (Z.ltb_spec (rows - 2) (log_count t)); injection E as <- <-; lia. }
  by eexists.
Qed.

(** A log line is always stored, and the types of the variables are kept. *)
Lemma sink_total msg t : tui_wf t → ∃ t', tui_log_sink msg t = Ok t' ∧ tui_wf t'.
Proof.
  intros [Hring Hlines Hhead Hcount]. unfold tui_log_sink.
  destruct (lookup_lt_is_Some_2 (log_ring t) (Z.to_nat (log_head t))) as [line Hl].
  { rewrite Hring. unfold LOG_RING_SIZE. lia. }
  destruct (Forall_lookup_1 _ _ _ _ Hlines Hl) as [Hlen _].
  rewrite <-(Z2Nat.id (log_head t)) by lia. rewrite (index_ok _ _ line) by done. bind_step.
  rewrite strncpy_ok by (rewrite Hlen; unfold LOG_LINE_MAX; lia). bind_step.
  set (l1 := take _ msg ++ _). assert (length l1 = LOG_LINE_MAX) as Hl1.
  { unfold l1. rewrite !length_app, length_take, length_replicate, length_drop, Hlen.
    unfold LOG_LINE_MAX. lia. }
  rewrite write_ok by (rewrite Hl1; unfold LOG_LINE_MAX; simpl; lia). bind_step.
  set (l2 := take _ l1 ++ _).
  set (t1 := {| status_win := _; log_win := _; log_ring := _; log_head := _; log_count := _ |}).
  assert (tui_wf t1) as Ht1.
  { split; unfold t1; cbn [log_ring log_head log_count].
    - by rewrite length_insert.
    - apply Forall_insert; [done|]. split.
      + unfold l2. rewrite !length_app, length_take, length_drop, Hl1. simpl.
        unfold LOG_LINE_MAX. lia.
      + unfold l2. rewrite !elem_of_app. right. left. by apply list_elem_of_singleton.
    - change (Z.of_nat LOG_RING_SIZE) with 256. apply Z.rem_bound_pos; lia.
    - change (Z.of_nat LOG_RING_SIZE) with 256. case_match eqn:Eq; [|done].
      apply Z.ltb_lt in Eq. lia. }
  destruct (render_total t1 Ht1) as [w ->]. eexists. split; [done|].
  by eapply tui_wf_windows; [..|exact Ht1].
Qed.

Lemma state_print_ring s t t' :
  tui_state_print s t = Ok t' →
  log_ring t' = log_ring t ∧ log_head t' = log_head t ∧ log_count t' = log_count t ∧
  log_win t' = log_win t.
Proof.
  unfold tui_state_print. destruct (getmaxyx _) as [rows cols]. intros Hrun.
  simplify_outcome. done.
Qed.

Lemma act_wf a t t' : tui_wf t → act a t = Ok t' → tui_wf t'.
Proof.
  intros Ht. destruct a as [msg|s|rows cols s]; simpl.
  - destruct (sink_total msg t Ht) as (t1 & -> & ?). by intros [= <-].
  - intros (? & ? & ? & _)%state_print_ring. by eapply tui_wf_windows.
  - unfold handle_sigwinch. intros Hrun. simplify_outcome.
    apply state_print_ring in Hrun0 as (? & ? & ? & _).
    assert (tui_wf a) as Ha by (by apply (tui_wf_windows t)).
    destruct (render_total a Ha) as [w Hw]. rewrite Hw in Hrun. injection Hrun as <-.
    by eapply tui_wf_windows; [..|exact Ha].
Qed.

Lemma act_holds a t t' log :
  ring_holds t log → Forall nul_free (logged a) → act a t = Ok t' →
  ring_holds t' (log ++ logged a).
Proof.
  intros Hr Hnf. destruct a as [msg|s|rows cols s]; simpl in *.
  - apply Forall_cons in Hnf as [Hm _].
    destruct (sink_stores t log msg Hr Hm) as (t1 & -> & Hr1 & _).
    destruct (render_log_run t1 _ Hr1) as (w & -> & _). intros [= <-].
    by eapply ring_holds_windows; [..|exact Hr1].
  - rewrite app_nil_r. intros (? & ? & ? & _)%state_print_ring. by eapply ring_holds_windows.
  - rewrite app_nil_r. unfold handle_sigwinch. intros Hrun. simplify_outcome.
    apply state_print_ring in Hrun0 as (? & ? & ? & _).
    assert (ring_holds a log) as Ha by (by apply (ring_holds_windows t)).
    destruct (render_log_run a log Ha) as (w & Hw & _). rewrite Hw in Hrun. injection Hrun as <-.
    by eapply ring_holds_windows; [..|exact Ha].
Qed.

Lemma act_all_wf l t t' : tui_wf t → act_all l t = Ok t' → tui_wf t'.
Proof.
  revert t. induction l as [|a l IH]; intros t Ht Hrun; simpl in Hrun; simplify_outcome; [done|].
  eapply IH; [|done]. by eapply act_wf.
Qed.

Lemma act_all_holds l t t' log :
  ring_holds t log → Forall nul_free (l ≫= logged) → act_all l t = Ok t' →
  ring_holds t' (log ++ (l ≫= logged)).
Proof.
  revert t log. induction l as [|a l IH]; intros t log Hr Hnf Hrun; simpl in Hrun;
    simplify_outcome; [by rewrite app_nil_r|].
  cbn [mbind list_bind] in *. apply Forall_app in Hnf as [? ?].
  rewrite app_assoc. eapply IH; [|done|done]. by eapply act_holds.
Qed.

End RunFacts.

(** A screen of at least five rows is divided into a table of at least four
    rows and a log of at least one. *)
Lemma create_windows_sizes {C : Curses} {CL : CursesLaws C} rows cols t sw lw :
  5 ≤ rows → 0 < cols →
  status_win (create_windows rows cols t) = Some sw →
  log_win (create_windows rows cols t) = Some lw →
  win_rows sw = status_height rows ∧ win_rows lw = rows - status_height rows ∧
  win_cols sw = cols ∧ win_cols lw = cols ∧ 4 ≤ win_rows sw ∧ 1 ≤ win_rows lw.
Proof.
  intros Hrows Hcols.
  assert (4 ≤ status_height rows ∧ 1 ≤ rows - status_height rows) as [H4 H1].
  { unfold status_height. rewrite Z.quot_div_nonneg by lia.
    pose proof (Z.div_mod (rows * 2) 5 ltac:(lia)).
    pose proof (Z.mod_pos_bound (rows * 2) 5 ltac:(lia)).
    destruct (Z.ltb_spec (rows * 2 / 5) 4); lia. }
  simpl. unfold new_window.
  destruct (newwin (status_height rows) cols 0 0) as [[r c]|] eqn:E1; [|done].
  destruct (newwin (rows - status_height rows) cols (status_height rows) 0) as [[r' c']|] eqn:E2;
    [|done].
  apply newwin_size in E1 as [-> ->]; [|lia|lia]. apply newwin_size in E2 as [-> ->]; [|lia|lia].
  intros [= <-] [= <-]. simpl. lia.
Qed.

(** ** Theorems *)

Section Theorems.
Context {T : TextEnv} {C : Curses}.

(** C30: The types of the static variables: whatever is logged, printed and
    resized, the ring keeps its 256 lines of 256 bytes, each with a terminating
    null, and its indices keep their ranges; in every such state a further
    message of any length can be logged, and the log can be shown, without an
    access out of bounds. *)
Theorem tui_well_typed (l : list action) (t : Tui) :
  act_all l tui_start = Ok t →
  tui_wf t ∧ (∀ msg, ∃ t', tui_log_sink msg t = Ok t' ∧ tui_wf t') ∧
  ∃ w, render_log t = Ok (set_log_win w t).
Proof.
  intros Hrun. assert (tui_wf t) as Ht by (eapply act_all_wf; [apply tui_wf_start|done]).
  split; [done|]. split; [intros msg; by apply sink_total|by apply render_total].
Qed.

(** C29: The ring refines the sequence of all messages: after any actions, a
    message is stored as the newest one, the ring holds the last 256 messages,
    cut to 255 characters, and the log window shows exactly the newest ones
    there is room for (its rows less two), oldest first, one per line inside
    the box, cut to the columns less two. *)
Theorem tui_log_shows_newest (l : list action) (msg : text) (t : Tui) (w0 : Window) :
  Forall nul_free (l ≫= logged) → nul_free msg →
  act_all l tui_start = Ok t → log_win t = Some w0 → 1 ≤ win_rows w0 → 3 ≤ win_cols w0 →
  let log := (l ≫= logged) ++ [msg] in
  ∃ t', tui_log_sink msg t = Ok t' ∧ ring_holds t' log ∧
    win_shown <$> log_win t' = Some (log_picture (win_rows w0) (win_cols w0) log).
Proof.
  intros Hnf Hm Hrun Hw Hrows Hcols log.
  pose proof (act_all_holds l tui_start t [] ring_holds_start Hnf Hrun) as Hr.
  rewrite app_nil_l in Hr.
  destruct (sink_stores t _ msg Hr Hm) as (t1 & -> & Hr1 & Hw1 & _).
  destruct (render_log_run t1 _ Hr1) as (w & -> & Hshow). rewrite Hw1, Hw in Hshow.
  eexists. split; [done|]. split; [by eapply ring_holds_windows; [..|exact Hr1]|].
  simpl. by rewrite Hshow.
Qed.

(** The table of nodes in a window of at least four rows: if the rows of the
    nodes that fit can be printed, they are shown in the order of the view, one
    per line above the lower border, and the number of the others is shown in
    the border, also if it is zero because the nodes exactly fill the window. *)
Theorem tui_state_print_correct (s : SWIM) (t : Tui) (w0 : Window) :
  TextLaws T → (sw_view_size s ≤ length (sw_view s))%nat →
  status_win t = Some w0 → 4 ≤ win_rows w0 → 3 ≤ win_cols w0 →
  let shown := Nat.min (sw_view_size s) (Z.to_nat (win_rows w0 - 4)) in
  (∀ i n, (i < shown)%nat → live s !! i = Some n → tui_printable i n) →
  ∃ table,
    length table = shown ∧
    (∀ i n row, live s !! i = Some n → table !! i = Some row → tui_row i n = Ok row) ∧
    let picture :=
      [Box; Print 0 2 (lit " Nodes ");
       Print 1 1 (lit "Self: " ++ uuid_unparse (sw_uuid s));
       Print 2 1 (table_row (lit "UUID") (lit "LAST_SEEN") (lit "STATUS") (lit "ADDRESS")
                    (lit "WITNESS"))]
      ++ imap (λ i row, Print (3 + Z.of_nat i) 1 row) table
      ++ (if decide (win_rows w0 - 4 ≤ Z.of_nat (sw_view_size s))
          then [Print (win_rows w0 - 1) 1
                  (lit "(" ++ decimal (Z.of_nat (sw_view_size s - shown)) ++ lit " more)")]
          else []) in
    tui_state_print s t =
      Ok (set_status_win (Some {| win_rows := win_rows w0; win_cols := win_cols w0;
                                  win_draws := picture; win_shown := picture |}) t).
Proof.
  intros TL Hsz Hw Hrows Hcols shown Hall.
  destruct (tui_rows_run s shown 0) as (table & Hlen & Htable & Hrun).
  { intros j Hj. destruct (lookup_lt_is_Some_2 (sw_view s) j) as [n Hn]; [lia|].
    destruct (proj2 (tui_row_ok j n)) as [row Hrow]; [|by exists n, row].
    apply Hall; [lia|]. unfold live. apply lookup_take_Some. split; [done|lia]. }
  exists table. split; [done|]. split.
  { intros i n row [Hn _]%lookup_take_Some. by apply (Htable i). }
  intros picture. unfold tui_state_print. rewrite Hw, uuid_arg_run. cbn [getmaxyx]. bind_step.
  replace (Z.to_nat (Z.min (Z.of_nat (sw_view_size s)) (win_rows w0 - 4))) with shown
    by (unfold shown; lia).
  rewrite Hrun. bind_step. change (box (werase (Some w0))) with (Some (draw [Box] w0)).
  do 3 rewrite mvwprintw_in by (simpl; lia). rewrite fold_draws.
  2: { apply Forall_lookup. intros i d Hd. apply list_lookup_imap_Some in Hd as (row & Hr & ->).
       apply lookup_lt_Some in Hr. simpl. lia. }
  destruct (Z.leb_spec (win_rows w0 - 4) (Z.of_nat (sw_view_size s))) as [Hle|Hlt].
  - rewrite mvwprintw_in by (simpl; lia). unfold picture. rewrite decide_True by done.
    replace (Z.of_nat (sw_view_size s - shown)) with (Z.of_nat (sw_view_size s) - (win_rows w0 - 4))
      by (unfold shown; lia).
    unfold wrefresh, draw. simpl. do 3 f_equal; by rewrite <-?app_assoc.
  - unfold picture. rewrite decide_False by lia. unfold wrefresh, draw. simpl.
    rewrite app_nil_r. done.
Qed.

End Theorems.

(** ** Witnesses *)

#[local] Existing Instance plain_text.
#[local] Instance sample_curses : Curses :=
  λ h w y x, if (0 <? h) && (0 <? w) then Some (h, w) else None.

#[local] Instance sample_curses_laws : CursesLaws sample_curses.
Proof. intros h w y x r c Hh Hw. unfold newwin, sample_curses. case_match; [|done]. by intros [= <- <-]. Qed.

(** A screen of 9 rows, so that the log has room for three of four messages. *)
Definition sample_actions : list action :=
  [Resize 9 80 (sample_swim sample_nodes); LogLine (lit "one"); LogLine (lit "two");
   PrintView (sample_swim sample_nodes); LogLine (lit "three")].

Definition sample_tui : Tui :=
  match act_all sample_actions tui_start with Ok t => t | Fault _ => tui_start end.

Definition sample_window (w : option Window) : Window :=
  default {| win_rows := 0; win_cols := 0; win_draws := []; win_shown := [] |} w.

Lemma tui_well_typed_witness :
  tui_wf sample_tui ∧ (∀ msg, ∃ t', tui_log_sink msg sample_tui = Ok t' ∧ tui_wf t') ∧
  ∃ w, render_log sample_tui = Ok (set_log_win w sample_tui).
Proof. apply (tui_well_typed sample_actions). vm_compute. reflexivity. Defined.

Lemma tui_log_shows_newest_witness :
  log_picture 5 80 [lit "one"; lit "two"; lit "three"; lit "four"]
    = [Box; Print 0 2 (lit " Log "); Print 1 1 (lit "two"); Print 2 1 (lit "three");
       Print 3 1 (lit "four")] ∧
  ∃ t', tui_log_sink (lit "four") sample_tui = Ok t' ∧
    ring_holds t' [lit "one"; lit "two"; lit "three"; lit "four"] ∧
    win_shown <$> log_win t' =
      Some (log_picture 5 80 [lit "one"; lit "two"; lit "three"; lit "four"]).
Proof.
  split; [vm_compute; reflexivity|].
  apply (tui_log_shows_newest sample_actions (lit "four") sample_tui
    (sample_window (log_win sample_tui))).
  - by apply (bool_decide_unpack _).
  - by apply (bool_decide_unpack _).
  - vm_compute. reflexivity.
  - vm_compute. reflexivity.
  - vm_compute. congruence.
  - vm_compute. congruence.
Defined.

(** The three nodes of the sample do not fit below a heading in four rows. *)
Lemma tui_state_print_correct_witness :
  ∃ (table : list text) t', length table = 0%nat ∧
    tui_state_print (sample_swim sample_nodes) sample_tui = Ok t' ∧
    (w ← status_win t'; last (win_shown w)) = Some (Print 3 1 (lit "(3 more)")).
Proof.
  destruct (tui_state_print_correct (sample_swim sample_nodes) sample_tui
    (sample_window (status_win sample_tui))) as (table & Hlen & _ & Hrun).
  - apply plain_text_laws.
  - simpl. lia.
  - vm_compute. reflexivity.
  - vm_compute. congruence.
  - vm_compute. congruence.
  - intros i n Hi. exfalso. revert Hi. vm_compute. lia.
  - exists table. eexists. split; [exact Hlen|]. split; [exact Hrun|].
    apply nil_length_inv in Hlen as ->. vm_compute. reflexivity.
Defined.
