(* ===== verification/TuiServer.v ===== *)
(** * The terminal interface on top of a server

    The functions of [examples/swim_server_tui.c] are registered with a server
    that logs: the log goes to the ring, and the view to the other window. *)

From Stdlib Require Import Init.Byte Strings.String ZArith Lia.
From stdpp Require Import base tactics list vector.
From S2P Require Import Prelude Bytes Node Event Text EncodingFacts State Printing PrintingFacts StateFacts.
From S2P Require Import Samples Membership Server Logged LoggedFacts Recording Tui.

Open Scope Z_scope.

(** The window of the view is the same. *)
Definition same_table (a b : Tui) : Prop := status_win a = status_win b.

Section Facts.
Context {T : TextEnv} {LC : LogClock} {C : Curses}.

Lemma sink_status_win msg t t' : tui_log_sink msg t = Ok t' → status_win t' = status_win t.
Proof.
  unfold tui_log_sink. intros Hrun. simplify_outcome. unfold render_log in Hrun.
  destruct (getmaxyx _) as [rows cols]. destruct (if _ <? _ then _ else _) as [start count].
  by simplify_outcome.
Qed.

Lemma state_print_table s a b :
  same_table a b →
  match tui_state_print s a, tui_state_print s b with
  | Ok a', Ok b' => same_table a' b'
  | Fault e, Fault e' => e = e'
  | _, _ => False
  end.
Proof.
  unfold same_table, tui_state_print. intros ->. destruct (getmaxyx _) as [rows cols]. cbn zeta.
  destruct (uuid_arg 0 (sw_uuid s)) as [u|]; [|done]. cbn [mbind outcome_bind].
  destruct (tui_rows _ _ _ _) as [w|]; done.
Qed.

(** What is logged cannot be seen in the window of the view. *)
Lemma tui_unaffected : unaffected (Some tui_state_print) (Some tui_log_sink) same_table.
Proof.
  split.
  - intros f s a a' b [= <-] Hab Hrun. unfold same_table. by rewrite (sink_status_win _ _ _ Hrun).
  - intros f s a b [= <-] Hab. by apply state_print_table.
Qed.

(** Registered with [swim_set_log_sink] and [swim_state_set_print_callback]. *)
Record tui_registered (out : Output Tui) : Prop := {
  tr_tracing : out_tracing out = false;
  tr_buf : length (out_event_buf out) = EVENT_BUF_SIZE;
  tr_sink : out_log_sink out = Some tui_log_sink;
  tr_print : out_print out = Some tui_state_print;
  tr_app : tui_wf (out_app out)
}.

Lemma tui_attentive out :
  (out_verbose out = true → Legible T LC) → tui_registered out → attentive tui_wf out.
Proof.
  intros HL [Ht Hb Hs Hp Ha]. split; [done|done|done| | |done].
  - intros f s t Hf _ Hwf. rewrite Hs in Hf. injection Hf as <-. by apply sink_total.
  - intros f s t t' Hf Hwf Hrun. rewrite Hp in Hf. injection Hf as <-.
    apply state_print_ring in Hrun as (? & ? & ? & _). by eapply tui_wf_windows.
Qed.

(** The ring holds what was logged before, and then the lines recorded. *)
Definition ring_follows (log : list text) (p : Tui * list text) : Prop :=
  tui_wf p.1 ∧ ring_holds p.1 (log ++ p.2).

Lemma sink_holds msg t log :
  tui_wf t → ring_holds t log → nul_free msg →
  ∃ t', tui_log_sink msg t = Ok t' ∧ tui_wf t' ∧ ring_holds t' (log ++ [msg]).
Proof.
  intros Hwf Hr Hm. destruct (sink_total msg t Hwf) as (t' & Hrun & Hwf'). exists t'.
  split; [done|]. split; [done|].
  by apply (act_holds (LogLine msg) t t' log Hr); [constructor|].
Qed.

Lemma tui_recording out log :
  Legible T LC → tui_registered out → ring_holds (out_app out) log →
  attentive (ring_follows log) (recording out []).
Proof.
  intros HL [Ht Hb Hs Hp Ha] Hr. split; [done|done|done| | |].
  - intros f s [t lines] Hf Hn [Hwf Hh]. simpl in *. rewrite Hs in Hf.
    apply (inj Some) in Hf as <-.
    destruct (sink_holds s t _ Hwf Hh Hn) as (t' & Hrun & Hwf' & Hh').
    exists (t', lines ++ [s]). unfold recording_sink. simpl. rewrite Hrun. split; [done|].
    split; [done|]. simpl. by rewrite (assoc_L (++)).
  - intros f s [t lines] [t' lines'] Hf [Hwf Hh] Hrun. simpl in *. rewrite Hp in Hf.
    apply (inj Some) in Hf as <-. unfold recording_print in Hrun. simpl in Hrun.
    destruct (tui_state_print s t) as [t1|] eqn:E; [|done]. simplify_outcome.
    apply state_print_ring in E as (? & ? & ? & _).
    split; [by eapply tui_wf_windows|by eapply ring_holds_windows].
  - split; simpl; [done|by rewrite app_nil_r].
Qed.

End Facts.

Section Theorems.
Context {U : UuidLib} {T : TextEnv} {TL : TextLaws T} {LC : LogClock} {H : Host} {E : Env}.
Context {C : Curses}.

(** C9: The terminal interface does not get in the way of its server, and shows
    its log.  With the log switched on and its two functions registered, the
    server ends as one with the log switched off does (a fault of the printing
    of the view included), having sent the same datagrams; the window of the
    view shows the same; and however it ends, all the lines it has logged,
    which are those that the same server records in a list, are held by the
    ring in their order, after those that were there before.  Each address that
    is not empty must have a name and the calendar the time; a line about an
    empty address reads beyond a buffer if it happens to contain no null
    byte. *)
Theorem tui_server_undisturbed (inputs : list Input) (state : PThreadServerState) (w : World)
  (l : Log Tui) (log : list text) (out : Output Tui) :
  Legible T LC → tui_registered (lg_out l) → ring_holds (out_app (lg_out l)) log →
  out_print out = Some tui_state_print → same_table (out_app (lg_out l)) (out_app out) →
  match logged_server_loop inputs state w l with (r, w', l') =>
  ∃ lines,
    logged_server_loop inputs state w (record_lines l []) = (r, w', record_lines l' lines) ∧
    ring_holds (out_app (lg_out l')) (log ++ lines) ∧ tui_wf (out_app (lg_out l')) ∧
    match r with
    | Reply (Ok state') =>
        ∃ out', pthread_server_loop inputs state out w = (Ok (state', out'), w') ∧
          same_table (out_app (lg_out l')) (out_app out')
    | Reply (Fault f) => pthread_server_loop inputs state out w = (Fault f, w')
    | TextFault f => f = OutOfBounds ∧ unterminated ∧ out_verbose (lg_out l') = true
    end
  end.
Proof.
  intros HL Hl Hlog Ho Ha.
  pose proof (verbose_server_loop same_table tui_wf inputs state w l out (tui_attentive _ (λ _, HL) Hl)) as Hv.
  rewrite (tr_print _ Hl), (tr_sink _ Hl) in Hv. specialize (Hv tui_unaffected Ho Ha).
  pose proof (recorded_server_loop inputs state w l []) as Hrec.
  pose proof (fluent_server_loop inputs state w (record_lines l [])
    (tui_recording _ _ HL Hl Hlog)) as Hf.
  destruct (logged_server_loop inputs state w l) as [[r w'] l'].
  destruct Hrec as [lines Hrec]. rewrite Hrec in Hf. destruct Hf as [Hf _].
  destruct (at_app _ _ Hf) as [Hwf Hh]. exists lines. split; [done|]. split; [done|].
  split; [done|]. by destruct r as [[state'|f]|f]; destruct Hv as [_ Hv].
Qed.

End Theorems.

(** ** Witness *)

#[local] Existing Instance lexicographic.
#[local] Instance sample_host : Host := LittleEndian.
#[local] Existing Instance ticking_env.
#[local] Existing Instance named_text.
#[local] Existing Instance log_ticks.
#[local] Instance sample_curses : Curses :=
  λ h w y x, if (0 <? h) && (0 <? w) then Some (h, w) else None.

Definition tui_log : Log Tui :=
  {| lg_out := {| out_stderr := []; out_verbose := true; out_tracing := false;
       out_log_sink := Some tui_log_sink; out_print := Some tui_state_print;
       out_event_buf := replicate EVENT_BUF_SIZE x00;
       out_app := create_windows 24 80 tui_start |};
     lg_times := 0 |}.

Lemma tui_log_registered : tui_registered (lg_out tui_log).
Proof.
  split; [done|vm_compute; done|done|done|]. by eapply tui_wf_windows; [..|apply tui_wf_start].
Qed.

(** Nine lines are logged. *)
Lemma tui_server_undisturbed_witness :
  match logged_server_loop [sample_input; stop_input] sample_state W tui_log with
  | (Reply (Ok _), _, l') => log_count (out_app (lg_out l')) = 9
  | _ => False
  end ∧
  match logged_server_loop [sample_input; stop_input] sample_state W tui_log with (r, w', l') =>
  ∃ lines,
    logged_server_loop [sample_input; stop_input] sample_state W (record_lines tui_log []) = (r, w', record_lines l' lines) ∧
    ring_holds (out_app (lg_out l')) ([] ++ lines) ∧ tui_wf (out_app (lg_out l')) ∧
    match r with
    | Reply (Ok state') =>
        ∃ out', pthread_server_loop [sample_input; stop_input] sample_state (lg_out tui_log) W = (Ok (state', out'), w') ∧
          same_table (out_app (lg_out l')) (out_app out')
    | Reply (Fault f) => pthread_server_loop [sample_input; stop_input] sample_state (lg_out tui_log) W = (Fault f, w')
    | TextFault f => f = OutOfBounds ∧ unterminated ∧ out_verbose (lg_out l') = true
    end
  end.
Proof.
  split; [vm_compute; reflexivity|].
  apply (tui_server_undisturbed [sample_input; stop_input] sample_state W tui_log []
    (lg_out tui_log));
    [apply named_text_legible|apply tui_log_registered| |reflexivity|reflexivity].
  by eapply ring_holds_windows; [..|apply ring_holds_start].
Defined.
