(* ===== verification/Races.v ===== *)
(** * Drawing while the terminal is resized: [examples/swim_server_tui.c]

    [handle_sigwinch] deletes both windows and creates new ones, while the
    server may be drawing: from [tui_log_sink] and [tui_state_print], in its own
    thread.  The signal is delivered to any thread, at any instruction.  The
    functions are modelled by what they do to the pointers to the windows: read
    one of the two static variables, call the curses library with what was read,
    delete and create windows, and store the new pointer.  Deleted windows are
    not reused, so that a pointer to one is recognised. *)

From Stdlib Require Import Lia.
From stdpp Require Import base tactics list gmap relations.
From S2P Require Import Prelude.

(** ** Instructions *)

(** The two static variables. *)
Inductive variable : Type := status_var | log_var.

#[export] Instance variable_eq_dec : EqDecision variable.
Proof. solve_decision. Defined.

Inductive instr : Type :=
| Load (v : variable)   (** read the variable *)
| Draw                  (** call the library with the pointer that was read *)
| Delwin                (** [if (win) delwin(win)] with it *)
| Newwin                (** create a window *)
| Store (v : variable). (** assign the result to the variable *)

(** The windows that exist, and what the variables point to; [next] is a window
    that has never existed. *)
Record screen : Type := {
  status_ptr : option nat;
  log_ptr : option nat;
  windows : gset nat;
  next : nat
}.

Definition pointer (s : screen) (v : variable) : option nat :=
  match v with status_var => status_ptr s | log_var => log_ptr s end.

Definition assign (v : variable) (p : option nat) (s : screen) : screen :=
  match v with
  | status_var => {| status_ptr := p; log_ptr := log_ptr s; windows := windows s; next := next s |}
  | log_var => {| status_ptr := status_ptr s; log_ptr := p; windows := windows s; next := next s |}
  end.

Definition remove (p : nat) (s : screen) : screen :=
  {| status_ptr := status_ptr s; log_ptr := log_ptr s; windows := windows s ∖ {[p]};
     next := next s |}.

Definition create (s : screen) : screen :=
  {| status_ptr := status_ptr s; log_ptr := log_ptr s; windows := {[next s]} ∪ windows s;
     next := S (next s) |}.

(** A call with a null pointer has no effect. *)
Definition usable (s : screen) (p : option nat) : Prop := ∀ q, p = Some q → q ∈ windows s.

(** A thread that runs some code; [reg] is the pointer it has read last. *)
Record thread : Type := { reg : option nat; code : list instr }.

(** One instruction; none for a call with a window that has been deleted. *)
Inductive executes : screen → thread → screen → thread → Prop :=
| ex_load s v p c : executes s {| reg := p; code := Load v :: c |} s {| reg := pointer s v; code := c |}
| ex_draw s p c :
    usable s p → executes s {| reg := p; code := Draw :: c |} s {| reg := p; code := c |}
| ex_skip s c : executes s {| reg := None; code := Delwin :: c |} s {| reg := None; code := c |}
| ex_delwin s q c :
    q ∈ windows s →
    executes s {| reg := Some q; code := Delwin :: c |} (remove q s) {| reg := Some q; code := c |}
| ex_newwin s p c :
    executes s {| reg := p; code := Newwin :: c |} (create s) {| reg := Some (next s); code := c |}
| ex_newwin_fails s p c :
    executes s {| reg := p; code := Newwin :: c |} s {| reg := None; code := c |}
| ex_store s v p c :
    executes s {| reg := p; code := Store v :: c |} (assign v p s) {| reg := p; code := c |}.

(** ** The functions *)

Definition call (v : variable) : list instr := [Load v; Draw].

Definition calls (vs : list variable) : list instr := vs ≫= call.

(** Both windows are deleted before the first of the variables is set. *)
Definition create_windows_code : list instr :=
  [Load status_var; Delwin; Load log_var; Delwin;
   Newwin; Store status_var; Newwin; Store log_var] ++ call log_var.

(** [getmaxyx] (two calls), [werase], [box], the title, [lines] lines and [wrefresh]. *)
Definition render_log_calls (lines : nat) : list variable := replicate (6 + lines) log_var.

(** The same, with two more lines of titles; [rows] counts the nodes and the
    line that tells how many are not shown. *)
Definition tui_state_print_calls (rows : nat) : list variable := replicate (8 + rows) status_var.

Definition handle_sigwinch_code (rows lines : nat) : list instr :=
  create_windows_code ++ calls (tui_state_print_calls rows ++ render_log_calls lines).

(** What the server draws: calls of the two functions, in any order. *)
Inductive painting : Type :=
| paint_log (lines : nat)
| paint_state (rows : nat).

Definition painting_calls (d : painting) : list variable :=
  match d with
  | paint_log lines => render_log_calls lines
  | paint_state rows => tui_state_print_calls rows
  end.

(** ** Delivery of the signal *)

(** Whether the signal can arrive between reading a variable and the call that
    uses it, and whether the thread that draws runs on while the signal is
    handled, in another thread. *)
Record delivery : Type := { anywhere : bool; concurrently : bool }.

Record system : Type := { sys_screen : screen; drawing : thread; handling : thread }.

Definition idle (t : thread) : Prop := code t = [].

Definition between_calls (t : thread) : Prop := ∀ c, code t ≠ Draw :: c.

Inductive system_step (d : delivery) : system → system → Prop :=
| sy_draw s s' t t' h :
    idle h ∨ concurrently d = true → executes s t s' t' →
    system_step d {| sys_screen := s; drawing := t; handling := h |}
                  {| sys_screen := s'; drawing := t'; handling := h |}
| sy_signal s t h rows lines :
    idle h → anywhere d = true ∨ between_calls t →
    system_step d {| sys_screen := s; drawing := t; handling := h |}
      {| sys_screen := s; drawing := t;
         handling := {| reg := None; code := handle_sigwinch_code rows lines |} |}
| sy_handle s s' t h h' :
    executes s h s' h' →
    system_step d {| sys_screen := s; drawing := t; handling := h |}
                  {| sys_screen := s'; drawing := t; handling := h' |}.

(** Both windows exist, or a variable is null; they are different windows, and
    all windows are older than the next one. *)
Record screen_ok (s : screen) : Prop := {
  ok_status : usable s (status_ptr s);
  ok_log : usable s (log_ptr s);
  ok_distinct : ∀ p, status_ptr s = Some p → log_ptr s ≠ Some p;
  ok_next : ∀ p, p ∈ windows s → p < next s
}.

(** A thread is about to use a window that has been deleted. *)
Definition dangling (s : screen) (t : thread) : Prop :=
  ∃ p c, reg t = Some p ∧ p ∉ windows s ∧ (code t = Draw :: c ∨ code t = Delwin :: c).

Definition faulty (y : system) : Prop :=
  dangling (sys_screen y) (drawing y) ∨ dangling (sys_screen y) (handling y).

Definition starts (s : screen) (vs : list variable) : system :=
  {| sys_screen := s; drawing := {| reg := None; code := calls vs |};
     handling := {| reg := None; code := [] |} |}.

(** ** Running code undisturbed *)

(** The code runs from here without using a deleted window, whatever [newwin]
    returns, and leaves the screen in order. *)
Fixpoint runs (c : list instr) (s : screen) (p : option nat) : Prop :=
  match c with
  | [] => screen_ok s
  | Load v :: c => runs c s (pointer s v)
  | Draw :: c => usable s p ∧ runs c s p
  | Delwin :: c =>
      match p with None => runs c s None | Some q => q ∈ windows s ∧ runs c (remove q s) (Some q) end
  | Newwin :: c => runs c (create s) (Some (next s)) ∧ runs c s None
  | Store v :: c => runs c (assign v p s) p
  end.

Lemma runs_step s t s' t' :
  executes s t s' t' → runs (code t) s (reg t) → runs (code t') s' (reg t').
Proof. destruct 1; simpl; naive_solver. Qed.

Lemma runs_sound s t : runs (code t) s (reg t) → ¬ dangling s t.
Proof.
  intros Hr (p & c & Hp & Hd & Hc). rewrite Hp in Hr.
  destruct Hc as [Hc|Hc]; rewrite Hc in Hr; simpl in Hr; [by apply Hd, Hr|by destruct Hr].
Qed.

Lemma usable_pointer s v : screen_ok s → usable s (pointer s v).
Proof. intros []. by destruct v. Qed.

Lemma runs_calls vs s p : screen_ok s → runs (calls vs) s p.
Proof.
  intros Hs. revert p. induction vs as [|v vs IH]; intros p; [done|].
  split; [by apply usable_pointer|apply IH].
Qed.

(** Deleting the window of a variable. *)
Lemma runs_delete s v c :
  usable s (pointer s v) →
  (∀ s', status_ptr s' = status_ptr s → log_ptr s' = log_ptr s → next s' = next s →
     windows s' ⊆ windows s → (∀ q, q ∈ windows s → pointer s v ≠ Some q → q ∈ windows s') →
     ∀ p, runs c s' p) →
  ∀ p, runs (Load v :: Delwin :: c) s p.
Proof.
  intros Hu Hc p. simpl. destruct (pointer s v) as [q|] eqn:Ep; [|by apply Hc].
  split; [by apply Hu|]. apply Hc; try done; simpl; set_solver.
Qed.

(** The screen after both windows have been created. *)
Lemma runs_create s c :
  (∀ p, p ∈ windows s → p < next s) →
  (∀ s', screen_ok s' → ∀ p, runs c s' p) →
  ∀ p, runs (Newwin :: Store status_var :: Newwin :: Store log_var :: c) s p.
Proof.
  intros Hn Hc p. simpl. split; (split; apply Hc; split; simpl; intros q; simpl; intros Hq);
    try discriminate; try (injection Hq as <-); try congruence; try set_solver.
  all: try (intros [=]; lia).
  all: repeat (apply elem_of_union in Hq as [Hq%elem_of_singleton|Hq]; [lia|]).
  all: specialize (Hn _ Hq); lia.
Qed.

Lemma runs_handler rows lines s p : screen_ok s → runs (handle_sigwinch_code rows lines) s p.
Proof.
  intros Hok. unfold handle_sigwinch_code, create_windows_code. rewrite <-app_assoc.
  generalize (tui_state_print_calls rows ++ render_log_calls lines). intros vs. simpl app.
  apply runs_delete; [apply Hok|]. intros s1 Hs1 Hl1 Hn1 Hsub1 Hkeep1. apply runs_delete.
  - intros q Hq. simpl in Hq. rewrite Hl1 in Hq. apply Hkeep1; [by apply (ok_log _ Hok)|].
    intros Hs. by apply (ok_distinct _ Hok q).
  - intros s2 Hs2 Hl2 Hn2 Hsub2 _. apply runs_create.
    + intros q Hq. rewrite Hn2, Hn1. apply (ok_next _ Hok). set_solver.
    + intros s3 Hok3 q. by apply (runs_calls (log_var :: vs)).
Qed.

(** ** When resizing is safe *)

(** The thread that draws is about to read a variable, or has read one just now
    and the window exists; while the signal is handled it is at the beginning
    of a call. *)
Definition system_ok (y : system) : Prop :=
  runs (code (handling y)) (sys_screen y) (reg (handling y)) ∧
  ∃ vs, code (drawing y) = calls vs ∨
        idle (handling y) ∧ code (drawing y) = Draw :: calls vs ∧
        usable (sys_screen y) (reg (drawing y)).

Lemma starts_ok s vs : screen_ok s → system_ok (starts s vs).
Proof. intros Hs. split; [done|]. exists vs. by left. Qed.

Lemma system_ok_step y y' :
  system_step {| anywhere := false; concurrently := false |} y y' → system_ok y → system_ok y'.
Proof.
  destruct 1 as [s s' t t' h [Hidle|Hd] Hex|s t h rows lines Hidle Hb|s s' t h h' Hex];
    intros [Hh [vs Hvs]]; simpl in *; [|done|..].
  - unfold idle in Hidle. rewrite Hidle in Hh. simpl in Hh.
    destruct Hvs as [Hvs|(_ & Hvs & _)]; destruct t as [p c]; simpl in Hvs; subst c.
    + destruct vs as [|v vs]; [by inversion Hex|]. inversion Hex; subst.
      split; simpl; [by rewrite Hidle|]. exists vs. right. split_and!; try done.
      by apply usable_pointer.
    + inversion Hex; subst. split; simpl; [by rewrite Hidle|]. exists vs. by left.
  - unfold idle in Hidle. rewrite Hidle in Hh. destruct Hb as [Hb|Hb]; [done|].
    split; [by apply runs_handler|]. exists vs.
    destruct Hvs as [Hvs|(_ & Hvs & _)]; [by left|]. by destruct (Hb (calls vs)).
  - split; simpl; [by eapply runs_step|]. exists vs. destruct Hvs as [Hvs|(Hidle & _)]; [by left|].
    unfold idle in Hidle. destruct h as [p c]. simpl in Hidle. subst c. inversion Hex.
Qed.

Lemma system_ok_safe y : system_ok y → ¬ faulty y.
Proof.
  intros [Hh [vs Hvs]] [Hf|Hf]; [|by eapply runs_sound].
  destruct Hf as (p & c & Hp & Hd & Hc). destruct Hvs as [Hvs|(_ & Hvs & Hu)].
  - rewrite Hvs in Hc. destruct vs, Hc as [Hc|Hc]; discriminate Hc.
  - by apply Hd, Hu.
Qed.

(** Only a delivery that neither splits a call nor overlaps with drawing. *)
Definition polite : delivery := {| anywhere := false; concurrently := false |}.

Lemma polite_safe s vs y :
  screen_ok s → rtc (system_step polite) (starts s vs) y → ¬ faulty y.
Proof.
  intros Hs Hy. apply system_ok_safe. pose proof (starts_ok s vs Hs) as H.
  induction Hy as [|y1 y2 y3 Hstep _ IH]; [done|]. apply IH. by eapply system_ok_step.
Qed.

(** *** The other deliveries *)

Lemma handler_unfold rows lines :
  ∃ c, handle_sigwinch_code rows lines = [Load status_var; Delwin; Load log_var; Delwin] ++ c.
Proof. by eexists. Qed.

(** The beginning of the handler deletes the windows of both variables. *)
Lemma handler_deletes d s t a b c :
  screen_ok s → status_ptr s = Some a → log_ptr s = Some b →
  ∃ p, rtc (system_step d)
    {| sys_screen := s; drawing := t;
       handling := {| reg := None; code := [Load status_var; Delwin; Load log_var; Delwin] ++ c |} |}
    {| sys_screen := remove b (remove a s); drawing := t; handling := {| reg := p; code := c |} |}.
Proof.
  intros [Hs Hl Hd _] Ha Hb. exists (Some b).
  assert (a ≠ b) as Hab by (intros <-; by apply (Hd a)).
  eapply rtc_l; [apply sy_handle, ex_load|]. simpl pointer. rewrite Ha.
  eapply rtc_l; [apply sy_handle, ex_delwin; by apply Hs|].
  eapply rtc_l; [apply sy_handle, ex_load|]. simpl pointer. rewrite Hb.
  eapply rtc_l; [apply sy_handle, ex_delwin|done]. simpl. specialize (Hl b Hb). set_solver.
Qed.

Lemma removed s a b v p :
  status_ptr s = Some a → log_ptr s = Some b → pointer s v = Some p →
  p ∉ windows (remove b (remove a s)).
Proof. destruct v; simpl; set_solver. Qed.

Lemma delivery_faults d s a b v vs :
  screen_ok s → status_ptr s = Some a → log_ptr s = Some b →
  anywhere d = true ∨ concurrently d = true →
  ∃ y, rtc (system_step d) (starts s (v :: vs)) y ∧ faulty y.
Proof.
  intros Hs Ha Hb Hd.
  assert (∃ p, pointer s v = Some p) as [p Hp] by (destruct v; simpl; eauto).
  pose proof (removed s a b v p Ha Hb Hp) as Hgone.
  destruct (handler_unfold 0 0) as [c Hc].
  destruct Hd as [Hany|Hcon].
  - destruct (handler_deletes d s {| reg := pointer s v; code := Draw :: calls vs |} a b c Hs Ha Hb)
      as [q Hrun].
    eexists. split.
    + eapply rtc_l; [apply sy_draw; [by left|apply ex_load]|].
      eapply rtc_l; [apply (sy_signal d _ _ _ 0 0); [done|by left]|]. rewrite Hc. exact Hrun.
    + left. exists p. eexists. simpl. split_and!; [done|done|by left].
  - destruct (handler_deletes d s {| reg := None; code := calls (v :: vs) |} a b c Hs Ha Hb)
      as [q Hrun].
    eexists. split.
    + eapply rtc_l; [apply (sy_signal d _ _ _ 0 0); [done|right]|]; [by intros ?|].
      rewrite Hc. eapply rtc_r; [exact Hrun|]. apply sy_draw; [by right|apply ex_load].
    + left. exists p. eexists. split_and!; [by destruct v|done|by left].
Qed.

(** ** Theorem *)

(** C31: Resizing the terminal while the server draws.  The two windows exist,
    and the server draws its log and its state any number of times, each time
    with any number of lines.  Then no execution calls the curses library with a
    deleted window if and only if the resize signal is handled only between two
    calls and drawing waits until it has been handled: if the signal can also
    arrive between the read of a variable and the call that uses it, or is
    handled in another thread while the server draws on, then some execution
    does.  Both can happen with the handler that [signal] installs. *)
Theorem tui_resize_safe_iff (d : delivery) (s : screen) (a b : nat) (paints : list painting) :
  screen_ok s → status_ptr s = Some a → log_ptr s = Some b →
  paints ≠ [] →
  (∀ y, rtc (system_step d) (starts s (paints ≫= painting_calls)) y → ¬ faulty y) ↔
    anywhere d = false ∧ concurrently d = false.
Proof.
  intros Hs Ha Hb Hne.
  assert (∃ v vs, paints ≫= painting_calls = v :: vs) as (v & vs & ->)
    by (destruct paints as [|[] ?]; [done|by eexists _, _..]).
  split.
  - intros Hsafe.
    destruct (anywhere d) eqn:Eany.
    { destruct (delivery_faults d s a b v vs) as (y & Hy & Hf); try done; [by left|].
      by destruct (Hsafe y Hy). }
    destruct (concurrently d) eqn:Econ; [|done].
    destruct (delivery_faults d s a b v vs) as (y & Hy & Hf); try done; [by right|].
    by destruct (Hsafe y Hy).
  - intros [Eany Econ] y Hy. destruct d as [any con]. simpl in *. subst.
    by eapply polite_safe.
Qed.

(** The server draws one line of its log and one node, on two windows, and the
    signal is delivered to the main thread. *)
Lemma tui_resize_safe_iff_witness :
  ¬ ∀ y, rtc (system_step {| anywhere := true; concurrently := true |})
      (starts {| status_ptr := Some 1; log_ptr := Some 2; windows := {[1; 2]}; next := 3 |}
         ([paint_log 1; paint_state 1] ≫= painting_calls)) y → ¬ faulty y.
Proof.
  intros Hsafe.
  apply (tui_resize_safe_iff {| anywhere := true; concurrently := true |} _ 1 2) in Hsafe
    as [Hany _]; [discriminate Hany| |reflexivity|reflexivity|discriminate].
  split; simpl; [intros q [= <-]; set_solver..| |].
  - intros p [= <-]. discriminate.
  - intros p Hp. apply elem_of_union in Hp as [Hp|Hp]; apply elem_of_singleton in Hp; lia.
Defined.
