(* ===== verification/Programs.v ===== *)
(** * The server programs: [examples/swim_server.c] and [main] of
    [examples/swim_server_tui.c]

    The command line, and how the programs put the server together.  [getopt]
    and [strtol] of the C library are modelled as far as the programs use them;
    [getaddrinfo] is a parameter. *)

From Stdlib Require Import Init.Byte Strings.Byte Strings.String ZArith Lia.
From stdpp Require Import base tactics list vector.
From S2P Require Import Prelude Bytes Node Event Text Encoding EncodingFacts State Printing.
From S2P Require Import PrintingFacts StateFacts Samples Membership Network Cluster Process.
From S2P Require Import Protocol Client Server Logged LoggedFacts Tui TuiServer.

Open Scope Z_scope.

(** ** [getopt] *)

(** What a call of [getopt] finds: an option with its argument, or an error. *)
Inductive option_found : Type :=
| Option (c : byte) (optarg : option text)
| OptionError.

(** The option string: which characters are options, and whether they take an
    argument. *)
Definition optstring : Type := byte → option bool.

(** The characters of an argument that starts with a dash; an option that takes
    an argument takes the rest of the characters, or the next argument. *)
Fixpoint getopt_chars (spec : optstring) (chars : text) (rest : list text)
  : list option_found * list text :=
  match chars with
  | [] => ([], rest)
  | c :: cs =>
      match spec c with
      | None => let '(os, rest) := getopt_chars spec cs rest in (OptionError :: os, rest)
      | Some false =>
          let '(os, rest) := getopt_chars spec cs rest in (Option c None :: os, rest)
      | Some true =>
          match cs, rest with
          | [], [] => ([OptionError], [])
          | [], a :: rest => ([Option c (Some a)], rest)
          | _, _ => ([Option c (Some cs)], rest)
          end
      end
  end.

(** All options of the arguments, and then the operands, which GNU [getopt]
    moves behind the options; [--] ends the options. *)
Fixpoint getopt_loop (fuel : nat) (spec : optstring) (args : list text)
  : list option_found * list text :=
  match fuel with
  | O => ([], args)
  | S fuel =>
      match args with
      | [] => ([], [])
      | a :: rest =>
          if decide (a = lit "--") then ([], rest)
          else
            match a with
            | x2d :: ((_ :: _) as chars) =>
                let '(os, rest) := getopt_chars spec chars rest in
                let '(os', operands) := getopt_loop fuel spec rest in
                (os ++ os', operands)
            | _ =>
                let '(os, operands) := getopt_loop fuel spec rest in
                (os, a :: operands)
            end
      end
  end.

(** There are at most as many rounds as arguments. *)
Definition getopt (spec : optstring) (args : list text) : list option_found * list text :=
  getopt_loop (length args) spec args.

(** ** [strtol(s, NULL, 10)] *)

Definition LONG_MAX : Z := 2 ^ 63 - 1.
Definition LONG_MIN : Z := - 2 ^ 63.

Definition is_space (b : byte) : bool :=
  let n := Byte.to_N b in ((9 <=? n) && (n <=? 13))%N || (n =? 32)%N.

Fixpoint skip_space (s : text) : text :=
  match s with
  | b :: s' => if is_space b then skip_space s' else s
  | [] => []
  end.

Fixpoint digits (acc : Z) (s : text) : Z :=
  match s with
  | b :: s =>
      let d := Z.of_N (Byte.to_N b) - 48 in
      if (0 <=? d) && (d <=? 9) then digits (10 * acc + d) s else acc
  | [] => acc
  end.

Definition strtol (s : text) : Z :=
  let z := match skip_space s with
           | x2d :: s => - digits 0 s
           | x2b :: s => digits 0 s
           | s => digits 0 s
           end in
  Z.max LONG_MIN (Z.min LONG_MAX z).

(** ** [parse_options] *)

(** The result, and the global variables that are assigned. *)
Record Options : Type := {
  op_addr : sockaddr_storage;
  op_addrlen : Z;
  op_verbose : bool;
  op_tracing : bool;
  op_listen_port : Z
}.

Definition SWIM_DEFAULT_PORTNO : Z := 7946.

Definition no_options : Options :=
  {| op_addr := zeros 128; op_addrlen := 0; op_verbose := false; op_tracing := false;
     op_listen_port := SWIM_DEFAULT_PORTNO |}.

(** [SWIM_OPTSTRING]: "vl:", and "dvl:" where [SWIM_TRACING] is defined. *)
Definition SWIM_OPTSTRING (tracing : bool) : optstring := λ c,
  match c with
  | x64 => if tracing then Some false else None
  | x76 => Some false
  | x6c => Some true
  | _ => None
  end.

(** The loop over the options; anything else prints the usage and exits. *)
Fixpoint apply_options (os : list option_found) (o : Options) : outcome Options :=
  match os with
  | [] => Ok o
  | Option x64 _ :: os =>
      apply_options os
        {| op_addr := op_addr o; op_addrlen := op_addrlen o; op_verbose := op_verbose o;
           op_tracing := true; op_listen_port := op_listen_port o |}
  | Option x76 _ :: os =>
      apply_options os
        {| op_addr := op_addr o; op_addrlen := op_addrlen o; op_verbose := true;
           op_tracing := op_tracing o; op_listen_port := op_listen_port o |}
  | Option x6c (Some optarg) :: os =>
      apply_options os
        {| op_addr := op_addr o; op_addrlen := op_addrlen o; op_verbose := op_verbose o;
           op_tracing := op_tracing o; op_listen_port := to_signed 4 (strtol optarg) |}
  | _ => Fault (Exited EXIT_FAILURE)
  end.

(** [getaddrinfo] for IPv4 datagrams: the first address, or an error. *)
Definition resolver : Type := text → text → option (list byte * Z).

Definition parse_options (tracing : bool) (getaddrinfo : resolver) (args : list text)
  : outcome Options :=
  let '(os, operands) := getopt (SWIM_OPTSTRING tracing) args in
  o ← apply_options os no_options;
  match operands with
  | [] => Ok o
  | hostname :: operands =>
      let service := match operands with s :: _ => s | [] => default_port end in
      match getaddrinfo hostname service with
      | None => Fault (Exited EXIT_FAILURE)
      | Some (ai_addr, ai_addrlen) =>
          a ← memcpy (op_addr o) ai_addr ai_addrlen;
          Ok {| op_addr := a; op_addrlen := ai_addrlen; op_verbose := op_verbose o;
                op_tracing := op_tracing o; op_listen_port := op_listen_port o |}
      end
  end.

(** The terminal program has the same code, compiled with the option for
    tracing. *)
Definition tui_parse_options (getaddrinfo : resolver) (args : list text) : outcome Options :=
  parse_options true getaddrinfo args.

(** ** [main] *)

Section Main.
Context `{UuidLib} `{Host} `{Env} `{TextEnv} `{LogClock} `{Curses}.

Definition set_out_flags {App} (verbose tracing : bool) (out : Output App) : Output App :=
  {| out_stderr := out_stderr out; out_verbose := verbose; out_tracing := tracing;
     out_log_sink := out_log_sink out; out_print := out_print out;
     out_event_buf := out_event_buf out; out_app := out_app out |}.

(** An assignment to the static variables of the output, and a function of the
    application. *)
Definition change_out {App} (f : Output App → Output App) : V App unit :=
  write_out (λ out, Ok (f out)).

Definition run_app {App} (f : App → outcome App) : V App unit := λ w l,
  match f (out_app (lg_out l)) with
  | Ok app =>
      (Reply (Ok tt), w, {| lg_out := set_out_app app (lg_out l); lg_times := lg_times l |})
  | Fault e => (Reply (Fault e), w, l)
  end.

(** [swim_server.c] does not include [swim/config.h], so that it has no option
    for tracing.  [args] are the arguments after the name of the program, and
    [strerror] is the text of an error of [setsockopt]. *)
Definition server_main {App} (getaddrinfo : resolver) (args : list text) (strerror : text)
  (sys : InitEnv) (inputs : list Input) : V App PThreadServerState :=
  o ← quietly (lift (parse_options false getaddrinfo args));
  change_out (set_out_flags (op_verbose o) (op_tracing o));;
  server ← logged_server_init strerror (op_listen_port o) sys (op_addr o) (op_addrlen o);
  '(_, state) ← quietly (lift (swim_server_start sys server));
  logged_server_wait inputs state.

(** The interface of a screen of the given size; the windows and the two
    functions are in place before the server starts. *)
Definition tui_main (getaddrinfo : resolver) (args : list text) (strerror : text)
  (rows cols : Z) (sys : InitEnv) (inputs : list Input) : V Tui PThreadServerState :=
  o ← quietly (lift (tui_parse_options getaddrinfo args));
  change_out (set_out_flags (op_verbose o) (op_tracing o));;
  run_app (λ t, Ok (create_windows rows cols t));;
  change_out (swim_set_log_sink (Some tui_log_sink));;
  change_out (swim_state_set_print_callback (Some tui_state_print));;
  server ← logged_server_init strerror (op_listen_port o) sys (op_addr o) (op_addrlen o);
  s ← quietly get_swim;
  run_app (tui_state_print s);;
  run_app render_log;;
  '(_, state) ← quietly (lift (swim_server_start sys server));
  logged_server_wait inputs state.

End Main.

(** ** Command lines

    What a user can ask for, and how it is written as arguments. *)

Inductive item : Type :=
| Verbose
| Tracing
| Listen (port : text)
| Operand (s : text).

Definition item_args (i : item) : list text :=
  match i with
  | Verbose => [lit "-v"]
  | Tracing => [lit "-d"]
  | Listen port => [lit "-l"; port]
  | Operand s => [s]
  end.

(** An operand does not look like an option, and tracing must be an option. *)
Definition item_ok (tracing : bool) (i : item) : Prop :=
  match i with
  | Tracing => tracing = true
  | Operand s => match s with x2d :: _ :: _ => False | _ => True end
  | _ => True
  end.

Definition item_option (i : item) : list option_found :=
  match i with
  | Verbose => [Option x76 None]
  | Tracing => [Option x64 None]
  | Listen port => [Option x6c (Some port)]
  | Operand _ => []
  end.

Definition item_operand (i : item) : list text :=
  match i with Operand s => [s] | _ => [] end.

Definition is_verbose (i : item) : bool := match i with Verbose => true | _ => false end.
Definition is_tracing (i : item) : bool := match i with Tracing => true | _ => false end.

(** The last port that is given. *)
Definition listen_port (items : list item) : Z :=
  default SWIM_DEFAULT_PORTNO
    (last (items ≫= λ i, match i with Listen p => [to_signed 4 (strtol p)] | _ => [] end)).

Section OptionFacts.

Lemma getopt_chars_length spec chars rest :
  (length (getopt_chars spec chars rest).2 ≤ length rest)%nat.
Proof.
  revert rest. induction chars as [|c cs IH]; intros rest; simpl; [done|].
  specialize (IH rest). destruct (spec c) as [[]|]; [|by destruct (getopt_chars spec cs rest)..].
  destruct cs, rest; simpl; lia.
Qed.

(** The fuel of [getopt] is enough: more does not change its result. *)
Lemma getopt_fuel spec args fuel :
  (length args ≤ fuel)%nat → getopt_loop fuel spec args = getopt spec args.
Proof.
  unfold getopt. assert (∀ n f1 f2 args, (length args ≤ n)%nat → (length args ≤ f1)%nat →
    (length args ≤ f2)%nat → getopt_loop f1 spec args = getopt_loop f2 spec args) as Hgen.
  { clear. intros n. induction n as [|n IH]; intros f1 f2 [|a rest] Hn H1 H2;
      try (simpl in Hn; lia); [by destruct f1, f2|by destruct f1, f2|].
    simpl in Hn, H1, H2. destruct f1 as [|f1]; [lia|]. destruct f2 as [|f2]; [lia|].
    cbn [getopt_loop]. case_decide; [done|].
    assert (∀ rest', (length rest' ≤ length rest)%nat →
      getopt_loop f1 spec rest' = getopt_loop f2 spec rest') as Hrest
      by (intros rest' ?; apply IH; lia).
    destruct a as [|[] [|c chars]]; try by rewrite Hrest.
    pose proof (getopt_chars_length spec (c :: chars) rest) as Hlen.
    destruct (getopt_chars spec (c :: chars) rest) as [os rest']. simpl in Hlen.
    by rewrite Hrest. }
  intros Hf. by eapply (Hgen fuel).
Qed.

Lemma getopt_items tracing items fuel :
  Forall (item_ok tracing) items → (length (items ≫= item_args) ≤ fuel)%nat →
  getopt_loop fuel (SWIM_OPTSTRING tracing) (items ≫= item_args)
  = (items ≫= item_option, items ≫= item_operand).
Proof.
  intros Hok. revert fuel. induction Hok as [|i items Hi Hok IH]; intros fuel Hf.
  { by destruct fuel. }
  cbn [mbind list_bind] in *. rewrite length_app in Hf.
  destruct i as [| |port|s]; simpl in Hi, Hf; (destruct fuel as [|fuel]; [lia|]).
  - cbn [item_args app getopt_loop]. rewrite decide_False by done. simpl.
    by rewrite IH by lia.
  - cbn [item_args app getopt_loop]. rewrite decide_False by done. subst tracing. simpl.
    by rewrite IH by lia.
  - cbn [item_args app getopt_loop]. rewrite decide_False by done. simpl.
    by rewrite IH by lia.
  - cbn [item_args app getopt_loop].
    rewrite decide_False by (intros ->; done).
    destruct s as [|b [|b' s]]; [by rewrite IH by lia| |]; destruct b; try done; by rewrite IH by lia.
Qed.

Lemma apply_items items o :
  apply_options (items ≫= item_option) o =
    Ok {| op_addr := op_addr o; op_addrlen := op_addrlen o;
          op_verbose := existsb is_verbose items || op_verbose o;
          op_tracing := existsb is_tracing items || op_tracing o;
          op_listen_port :=
            default (op_listen_port o)
              (last (items ≫= λ i, match i with
                                   | Listen p => [to_signed 4 (strtol p)] | _ => [] end)) |}.
Proof.
  revert o. induction items as [|i items IH]; intros o; [by destruct o|].
  cbn [mbind list_bind]. destruct i as [| |port|s]; cbn [item_option app apply_options existsb];
    rewrite IH; simpl; rewrite ?orb_true_r; try done.
  f_equal. f_equal. rewrite last_cons. by destruct (last _).
Qed.

Lemma to_unsigned_to_signed (n m : nat) z :
  (n ≤ m)%nat → (0 < m)%nat → to_unsigned n (to_signed m z) = to_unsigned n z.
Proof.
  intros Hn Hm. unfold to_unsigned, to_signed. set (h := 2 ^ (Z.of_nat m * 8 - 1)).
  replace (2 ^ (Z.of_nat m * 8)) with (2 ^ (Z.of_nat n * 8) * 2 ^ (Z.of_nat (m - n) * 8))
    by (rewrite <-Z.pow_add_r by lia; f_equal; lia).
  rewrite <-Zminus_mod_idemp_l, Z.mod_mod_divide by apply Z.divide_factor_l.
  rewrite Zminus_mod_idemp_l. f_equal. lia.
Qed.

(** Only the characters of the option string are found as options. *)
Lemma getopt_chars_found spec chars rest c a :
  Option c a ∈ (getopt_chars spec chars rest).1 → is_Some (spec c).
Proof.
  revert rest. induction chars as [|b chars IH]; intros rest; cbn [getopt_chars].
  { by intros ?%elem_of_nil. }
  destruct (spec b) as [[]|] eqn:Eb.
  - destruct chars as [|b' chars]; [destruct rest as [|r rest]|]; simpl;
      intros Hin%list_elem_of_singleton; [done|injection Hin as -> _..]; eauto.
  - specialize (IH rest). destruct (getopt_chars spec chars rest) as [os r]; simpl in *.
    intros [[= -> _]|Hin]%elem_of_cons; [by rewrite Eb|by apply IH].
  - specialize (IH rest). destruct (getopt_chars spec chars rest) as [os r]; simpl in *.
    intros [[=]|Hin]%elem_of_cons. by apply IH.
Qed.

Lemma getopt_found spec args c a : Option c a ∈ (getopt spec args).1 → is_Some (spec c).
Proof.
  unfold getopt. generalize (length args). intros fuel. revert args.
  induction fuel as [|fuel IH]; intros args; cbn [getopt_loop]; [by intros ?%elem_of_nil|].
  destruct args as [|x rest]; [by intros ?%elem_of_nil|].
  case_decide; [by intros ?%elem_of_nil|].
  assert (∀ y, Option c a ∈ (let '(os, operands) := getopt_loop fuel spec rest in
    (os, y :: operands) : list option_found * list text).1 → is_Some (spec c)) as Hskip.
  { intros y. specialize (IH rest). by destruct (getopt_loop fuel spec rest). }
  destruct x as [|b [|b' x]]; [apply Hskip|destruct b; apply Hskip|].
  destruct b; try apply Hskip.
  pose proof (getopt_chars_found spec (b' :: x) rest c a) as Hc.
  destruct (getopt_chars spec (b' :: x) rest) as [os rest'].
  specialize (IH rest'). destruct (getopt_loop fuel spec rest') as [os' operands].
  simpl in *. intros [Hin|Hin]%elem_of_app; [by apply Hc|by apply IH].
Qed.

Lemma apply_options_tracing os o o' :
  (∀ a, Option x64 a ∉ os) → apply_options os o = Ok o' → op_tracing o' = op_tracing o.
Proof.
  revert o. induction os as [|x os IH]; intros o Hno; [by intros [= <-]|].
  assert (∀ a, Option x64 a ∉ os) as Hno' by (intros a Hin; apply (Hno a); by right).
  destruct x as [c a|]; [|done].
  destruct (decide (c = x64)) as [->|Hc]; [by destruct (Hno a); left|].
  destruct c; try done; cbn [apply_options].
  - destruct a; [|done]. intros Hrun. by rewrite (IH _ Hno' Hrun).
  - intros Hrun. by rewrite (IH _ Hno' Hrun).
Qed.

(** The server program has no option for tracing. *)
Lemma parse_options_tracing getaddrinfo args o :
  parse_options false getaddrinfo args = Ok o → op_tracing o = false.
Proof.
  unfold parse_options. pose proof (getopt_found (SWIM_OPTSTRING false) args) as Hf.
  destruct (getopt _ args) as [os operands]. simpl in Hf. intros Hrun.
  destruct (apply_options os no_options) as [o1|] eqn:Eo; [|done]. cbn [mbind outcome_bind] in Hrun.
  apply apply_options_tracing in Eo; [|intros a Hin; by destruct (Hf _ _ Hin)]. simpl in Eo.
  destruct operands as [|host operands]; [by injection Hrun as <-|].
  destruct (getaddrinfo _ _) as [[a len]|]; [|done].
  destruct (memcpy _ _ _); [|done]. by injection Hrun as <-.
Qed.

End OptionFacts.

(** ** Theorems *)

Section Theorems.
Context {U : UuidLib} {UL : UuidLaws U} {H : Host} {E : Env} {T : TextEnv}.

(** C35: Command lines are read as they are written: options and operands may be
    mixed in any order, the switches hold wherever they are given, the last
    port counts, and the first two operands are host and service of a node to
    join, with the default port as service; a name that cannot be resolved ends
    the program, and without operands there is no node to join. *)
Theorem swim_parse_options_roundtrip (tracing : bool) (getaddrinfo : resolver)
  (items : list item) :
  Forall (item_ok tracing) items →
  parse_options tracing getaddrinfo (items ≫= item_args) =
    let o a len :=
      {| op_addr := a; op_addrlen := len; op_verbose := existsb is_verbose items;
         op_tracing := existsb is_tracing items; op_listen_port := listen_port items |} in
    match items ≫= item_operand with
    | [] => Ok (o (zeros 128) 0)
    | host :: rest =>
        match getaddrinfo host (default default_port (head rest)) with
        | None => Fault (Exited 1)
        | Some (a, len) => a ← memcpy (zeros 128) a len; Ok (o a len)
        end
    end.
Proof.
  intros Hok. unfold parse_options, getopt. rewrite (getopt_items tracing) by done.
  rewrite apply_items. bind_step. simpl. rewrite !orb_false_r.
  destruct (items ≫= item_operand) as [|host [|service rest]]; done.
Qed.

(** The port to listen on is not checked: the number given by [-l], of any
    size, is reduced modulo 2^16, so that the server binds to another port
    than the one that was asked for if that has no 16 bits, and to any free
    port if it is 0 or not a number. *)
Theorem swim_listen_port_truncated (p : text) (getaddrinfo : resolver) (sys : InitEnv) (w : World) :
  (∀ k, env_alloc k = true) → 0 ≤ in_socket sys → 0 ≤ in_setsockopt sys →
  (∀ a, 0 ≤ in_bind sys a) →
  ∃ o state w', parse_options false getaddrinfo [lit "-l"; p] = Ok o ∧
    swim_server_init (op_listen_port o) sys (op_addr o) (op_addrlen o) w = (Ok (Some state), w') ∧
    ps_addrlen state = 0 ∧ good (w_swim w') ∧
    vec_to_list (sw_addr (w_swim w')) =
      store 2 AF_INET ++ be_split 2 (strtol p mod 2 ^ 16) ++ replicate 12 x00.
Proof.
  intros Ha Hs Ho Hb.
  destruct (swim_server_init_run Ha (to_signed 4 (strtol p)) sys (zeros 128) 0 w Hs Ho Hb)
    as (w' & Hrun & Hg & _ & Haddr).
  exists {| op_addr := zeros 128; op_addrlen := 0; op_verbose := false; op_tracing := false;
            op_listen_port := to_signed 4 (strtol p) |}.
  eexists _, w'. split; [|split; [exact Hrun|]].
  - unfold parse_options, getopt. change [lit "-l"; p] with ([Listen p] ≫= item_args).
    rewrite (getopt_items false) by (done || by repeat constructor). reflexivity.
  - split; [reflexivity|]. split; [done|]. rewrite Haddr, to_unsigned_to_signed by lia.
    reflexivity.
Qed.

End Theorems.

(** How a server that logs ends: it has been stopped, by a failed assertion, by
    its exit, because the view cannot be printed, or because a line about an
    empty address reads beyond a buffer. *)
Definition run_ends {App : Type} `{UuidLib} `{TextEnv} (inputs : list Input)
  (r : reply PThreadServerState) (w : World) (l : Log App) : Prop :=
  (∃ state, r = Reply (Ok state) ∧ server_wf (w_swim w) ∧
     (existsb ip_stop inputs = true → swim_server_running state = false)) ∨
  r = Reply (Fault AssertFailed) ∨ r = Reply (Fault (Exited 1)) ∨
  (∃ f, r = Reply (Fault f) ∧ print_stops App f w) ∨
  r = TextFault OutOfBounds ∧ unterminated ∧ out_verbose (lg_out l) = true.

Section Starting.
Context {U : UuidLib} {UL : UuidLaws U} {H : Host} {E : Env} {T : TextEnv} {TL : TextLaws T}.
Context {LC : LogClock} {App : Type} {sane : App → Prop}.

(** Nothing is logged before the server runs, unless it is traced. *)
Lemma server_init_silent strerror port (sys : InitEnv) addr addrlen w (l : Log App) f w1 l1 :
  out_tracing (lg_out l) = false →
  logged_server_init strerror port sys addr addrlen w l ≠ (TextFault f, w1, l1).
Proof.
  intros Ht. unfold logged_server_init, logged_state_init, mbind, V_bind, quietly, alloc.
  destruct (env_alloc (w_allocs w)); [|done].
  destruct (swim_state_init _ sys _) as [[[]|e] w']; [| |done].
  - cbn [get_swim]. unfold trace, write_out. by rewrite Ht.
  - by destruct (_ && _).
Qed.

Lemma server_init_run strerror port (sys : InitEnv) addr addrlen w (l : Log App) :
  (∀ k, env_alloc k = true) → 0 ≤ in_socket sys → 0 ≤ in_setsockopt sys →
  (∀ a, 0 ≤ in_bind sys a) → attentive sane (lg_out l) →
  ∃ w1 l1, logged_server_init strerror port sys addr addrlen w l
      = (Reply (Ok (Some {| ps_thread := false; ps_stopped := false;
                            ps_addr := addr; ps_addrlen := addrlen |})), w1, l1) ∧
    good (w_swim w1) ∧ sw_view_size (w_swim w1) = 0%nat ∧
    hears (lg_out l) (lg_out l1) ∧ attentive sane (lg_out l1).
Proof.
  intros Ha Hs Ho Hb Hl.
  pose proof (fluent_run any _ _ w l (shadows_server_init strerror port sys addr addrlen)
    (fluent_server_init strerror port sys addr addrlen) Hl) as Hrun.
  destruct (swim_server_init_run Ha port sys addr addrlen w Hs Ho Hb) as (w' & Hq & Hg & Hsize & _).
  destruct (logged_server_init _ _ _ _ _ w l) as [[[r|f] w1] l1] eqn:E0.
  - rewrite Hq in Hrun. destruct Hrun as ([= <- <-] & Hh & Hl1). by exists w', l1.
  - by apply server_init_silent in E0; [|apply Hl].
Qed.

Lemma server_wait_run (R : App → App → Prop) inputs state w (l : Log App) :
  (∀ k, env_alloc k = true) → server_wf (w_swim w) → Reflexive R →
  attentive sane (lg_out l) → unaffected (out_print (lg_out l)) (out_log_sink (lg_out l)) R →
  Forall input_wf inputs → Forall decodable inputs → ps_thread state = true →
  let '(r, w', l') := logged_server_wait inputs state w l in
  attentive sane (lg_out l') ∧ run_ends inputs r w' l'.
Proof.
  intros Ha Hs HR Hl Hun Hin Hdec Hth. unfold logged_server_wait. rewrite Hth.
  pose proof (verbose_server_loop R sane inputs state w l (lg_out l) Hl Hun eq_refl (HR _)) as Hv.
  destruct (loop_safe Ha inputs state (lg_out l) w Hs Hin Hdec) as (r0 & w0 & Hrun & Hends).
  rewrite Hrun in Hv. unfold run_ends.
  destruct (logged_server_loop inputs state w l) as [[[[state'|f]|f] w'] l']; destruct Hv as [Hl' Hv];
    (split; [done|]).
  - destruct Hv as (out' & [= -> ->] & _).
    destruct Hends as [(s1 & o1 & [= <- <-] & ? & ?)|[?|[?|(? & ? & _)]]]; [|done..]. left. eauto.
  - injection Hv as -> ->.
    destruct Hends as [(? & ? & ? & _)|[[= ->]|[[= ->]|(f' & [= <-] & ?)]]]; [done|auto 6..].
    right. right. right. left. eauto.
  - destruct Hv as (-> & ? & ?). do 4 right. done.
Qed.

End Starting.

Section Main.
Context {U : UuidLib} {UL : UuidLaws U} {H : Host} {E : Env} {T : TextEnv} {TL : TextLaws T}.
Context {LC : LogClock}.

(** The static variables of the output as the program finds them. *)
Record at_start {App} (out : Output App) : Prop := {
  as_sink : out_log_sink out = None;
  as_print : out_print out = None;
  as_buf : length (out_event_buf out) = EVENT_BUF_SIZE
}.


Lemma tui_print_empty {C : Curses} (s : SWIM) (t : Tui) :
  sw_view_size s = 0%nat → ∃ w, tui_state_print s t = Ok (set_status_win w t).
Proof.
  intros Hs. unfold tui_state_print. destruct (getmaxyx _) as [rows cols].
  rewrite Hs, uuid_arg_run. bind_step.
  replace (Z.to_nat (Z.min (Z.of_nat 0) (rows - 4))) with 0%nat by lia. bind_step. by eexists.
Qed.

(** The server with the interface behaves like the one without, its view being
    shown in a window and its log in another. *)
Theorem swim_tui_main_correct {C : Curses} (getaddrinfo : resolver) (args : list text)
  (o : Options) (strerror : text) (rows cols : Z) (sys : InitEnv) (inputs : list Input)
  (w : World) (l : Log Tui) :
  (∀ k, env_alloc k = true) → 0 ≤ in_socket sys → 0 ≤ in_setsockopt sys →
  (∀ a, 0 ≤ in_bind sys a) → in_create sys = 0 →
  tui_parse_options getaddrinfo args = Ok o → op_tracing o = false →
  (op_verbose o = true → Legible T LC) → at_start (lg_out l) → tui_wf (out_app (lg_out l)) →
  Forall input_wf inputs → Forall decodable inputs →
  let '(r, w', l') := tui_main getaddrinfo args strerror rows cols sys inputs w l in
  tui_wf (out_app (lg_out l')) ∧ run_ends inputs r w' l'.
Proof.
  intros Ha Hs Ho Hb Hcr Hopt Htr HL [Hsink Hprint Hbuf] Ht Hin Hdec. unfold tui_main.
  rewrite Hopt, V_bind_quietly. unfold change_out, run_app.
  do 4 (erewrite V_bind_run by reflexivity).
  match goal with |- context [mbind _ _ w ?l] => set (l0 := l) end.
  assert (tui_wf (out_app (lg_out l0))) as Ht0 by (by eapply tui_wf_windows; [..|exact Ht]).
  assert (attentive tui_wf (lg_out l0)) as Hl0 by (by apply tui_attentive).
  destruct (server_init_run strerror (op_listen_port o) sys (op_addr o) (op_addrlen o) w l0
    Ha Hs Ho Hb Hl0) as (w1 & l1 & Hrun & Hg & Hsize & Hh1 & Hl1).
  rewrite (V_bind_run _ _ _ _ _ _ _ Hrun).
  erewrite V_bind_run by reflexivity.
  destruct (tui_print_empty (w_swim w1) (out_app (lg_out l1)) Hsize) as [ww Hp].
  erewrite V_bind_run by (by rewrite Hp).
  set (t1 := set_status_win ww _).
  assert (tui_wf t1) as Ht1 by (by eapply tui_wf_windows; [..|apply Hl1]).
  destruct (render_total t1 Ht1) as [lw Hlw]. erewrite V_bind_run by (simpl; by rewrite Hlw).
  unfold swim_server_start. rewrite Hcr, Z.eqb_refl, V_bind_quietly.
  match goal with |- context [logged_server_wait inputs ?s w1 ?l] => set (state := s); set (l2 := l) end.
  assert (tui_registered (lg_out l2)) as Hreg2.
  { destruct Hh1 as [Hp1 Hs1 _]. split; [apply Hl1|apply Hl1|exact Hs1|exact Hp1|].
    by eapply tui_wf_windows; [..|exact Ht1]. }
  assert (attentive tui_wf (lg_out l2)) as Hl2 by (apply tui_attentive; [apply Hl1|done]).
  pose proof (server_wait_run same_table inputs state w1 l2 Ha (go_server _ Hg) ltac:(done) Hl2) as Hwait.
  rewrite (tr_print _ Hreg2), (tr_sink _ Hreg2) in Hwait.
  specialize (Hwait tui_unaffected Hin Hdec eq_refl).
  destruct (logged_server_wait inputs state w1 l2) as [[r w'] l']. destruct Hwait as [Hl' Hends].
  split; [apply Hl'|done].
Qed.

End Main.

(** ** Witnesses *)

#[local] Existing Instance lexicographic.
#[local] Instance sample_host : Host := LittleEndian.
#[local] Existing Instance ticking_env.
#[local] Existing Instance named_text.
#[local] Existing Instance log_ticks.
#[local] Instance sample_curses : Curses :=
  λ h w y x, if (0 <? h) && (0 <? w) then Some (h, w) else None.

(** Only one name can be resolved. *)
Definition sample_resolver : resolver := λ host service,
  if decide (host = lit "peer") then Some (take 16 (vec_to_list sample_addr), 16) else None.

(** [-v peer -l 70000 7000] *)
Lemma swim_parse_options_roundtrip_witness :
  parse_options false sample_resolver
    [lit "-v"; lit "peer"; lit "-l"; lit "70000"; lit "7000"] =
  Ok {| op_addr := sample_addr; op_addrlen := 16; op_verbose := true; op_tracing := false;
        op_listen_port := 70000 |}.
Proof.
  etransitivity.
  - apply (swim_parse_options_roundtrip false sample_resolver
      [Verbose; Operand (lit "peer"); Listen (lit "70000"); Operand (lit "7000")]).
    repeat constructor.
  - vm_compute. reflexivity.
Defined.

(** The port 70000 becomes 4464. *)
Lemma swim_listen_port_truncated_witness :
  ∃ o state w', parse_options false sample_resolver [lit "-l"; lit "70000"] = Ok o ∧
    swim_server_init (op_listen_port o) sample_sys (op_addr o) (op_addrlen o) W
      = (Ok (Some state), w') ∧ ps_addrlen state = 0 ∧ good (w_swim w') ∧
    vec_to_list (sw_addr (w_swim w')) =
      store 2 AF_INET ++ be_split 2 (strtol (lit "70000") mod 2 ^ 16) ++ replicate 12 x00.
Proof.
  apply (swim_listen_port_truncated (lit "70000") sample_resolver sample_sys W).
  - done.
  - simpl. lia.
  - simpl. lia.
  - intros a. simpl. lia.
Defined.

(** The program before [main]: nothing logged, no window, no function set. *)
Definition program_start {App} (app : App) : Log App :=
  {| lg_out := {| out_stderr := []; out_verbose := false; out_tracing := false;
       out_log_sink := None; out_print := None; out_event_buf := replicate 128 x00;
       out_app := app |};
     lg_times := 0 |}.

Definition peer_options : Options :=
  {| op_addr := sample_addr; op_addrlen := 16; op_verbose := true; op_tracing := false;
     op_listen_port := 7946 |}.


Lemma swim_tui_main_correct_witness :
  let '(r, w', l') := tui_main sample_resolver [lit "-v"; lit "peer"] (lit "error") 24 80 sample_sys
    [sample_input; stop_input] W (program_start tui_start) in
  tui_wf (out_app (lg_out l')) ∧ run_ends [sample_input; stop_input] r w' l'.
Proof.
  apply (swim_tui_main_correct sample_resolver [lit "-v"; lit "peer"] peer_options (lit "error")
    24 80 sample_sys [sample_input; stop_input] W (program_start tui_start)).
  - done.
  - simpl. lia.
  - simpl. lia.
  - intros a. simpl. lia.
  - reflexivity.
  - vm_compute. reflexivity.
  - reflexivity.
  - intros _. apply named_text_legible.
  - by split.
  - apply tui_wf_start.
  - destruct sample_input_wf. repeat constructor; done.
  - repeat constructor; (eexists _, _; vm_compute; reflexivity).
Defined.
