(* ===== verification/Tests.v ===== *)
(** * The unit tests: [swim/state_test.c], [swim/probe_test.c], [swim/encoding_test.c]

    The tests of the project as definitions, run on the definitions of the
    program: a test returns if all its assertions hold.  They are shown to pass
    for all uuids that [uuid_generate] can return, which checks the definitions
    against what the authors of the program expect of it. *)

From Stdlib Require Import Init.Byte Strings.String ZArith Lia.
From stdpp Require Import base tactics list vector sorting gmap.
From S2P Require Import Prelude Bytes Node Event Encoding EncodingFacts Text State StateFacts Samples Probe.
From S2P Require Import Server.

Open Scope Z_scope.

(** The [k]-th uuid that is generated. *)
Class UuidGenerator := uuid_generate : nat → uuid_t.

(** The uuids one test generates differ: that of the server, and those of as
    many nodes as its view has room for. *)
Class UuidGeneratorLaws (G : UuidGenerator) : Prop :=
  uuid_generate_distinct (i j : nat) :
    (i ≤ 16)%nat → (j ≤ 16)%nat → uuid_generate i = uuid_generate j → i = j.

(** ** Assertions *)

Definition assert_true (b : bool) : M unit := lift (assert b).
Definition assert_int_equal (a b : Z) : M unit := assert_true (a =? b).
Definition assert_status (a b : Status) : M unit := assert_int_equal (status_code a) (status_code b).
Definition assert_null {A} (p : option A) : M unit :=
  match p with Some _ => fail AssertFailed | None => mret tt end.
Definition assert_non_null {A} (p : option A) : M A :=
  match p with Some a => mret a | None => fail AssertFailed end.
Definition assert_in_range (z min max : Z) : M unit := assert_true ((min <=? z) && (z <=? max)).

(** ** Fixture *)

Section Fixture.
Context `{Host} `{UuidLib} `{UuidGenerator} `{Env}.

(** The uuid of the server is the first one that is generated.  The allocation
    of the view is not checked; there is nothing at a null pointer. *)
Definition setup : outcome World :=
  assert (env_alloc 0);;
  Ok {| w_swim := {| sw_sockfd := -1; sw_last_heartbeat := env_time 0; sw_addr := zeros 16;
          sw_uuid := uuid_generate 0; sw_incarnation := 0; sw_view_capacity := 16;
          sw_view_size := 0; sw_view := if env_alloc 1 then replicate 16 zero_node else [];
          sw_probe := {| pr_order := []; pr_pos := 0; pr_size := 0 |} |};
        w_rands := 0; w_times := 1; w_allocs := 2; w_out := [] |}.

(** The outcome of a test on a fresh fixture. *)
Definition unit_test (test : M unit) : outcome unit := w ← setup; (test w).1.

(** [struct sockaddr_in] as the bytes of a [struct sockaddr_storage]. *)
Definition inet_addr (port addr : Z) : sockaddr_storage :=
  array_of 128 (store 2 AF_INET ++ store 2 (hton 2 port) ++ store 4 (hton 4 addr)).

Definition sizeof_sockaddr_in : Z := 16.

Definition make_node (uuid : uuid_t) (status : Status) (incarnation last_seen : Z)
  : M NodeInfo :=
  info ← lift (swim_node_init uuid (inet_addr 9000 0x7f000001) sizeof_sockaddr_in);
  mret (set_ni_last_seen last_seen (set_ni_incarnation incarnation (set_ni_status status info))).

(** [swim_state_get_node], with the check that the node is found. *)
Definition found (id : uuid_t) : M NodeState :=
  s ← get_swim;
  i ← assert_non_null (swim_state_get_node s id);
  node_at i.

(** The node a function returns, with the check that it returns one. *)
Definition returned (m : M (option nat)) : M NodeState :=
  r ← m;
  i ← assert_non_null r;
  node_at i.

Definition assert_view_size (n : Z) : M unit :=
  s ← get_swim;
  assert_int_equal (Z.of_nat (sw_view_size s)) n.

End Fixture.

(** ** [state_test.c] *)

Module StateTest.
Section Tests.
Context `{Host} `{UuidLib} `{UuidGenerator} `{Env}.

Definition test_add_new_node : M unit :=
  info ← make_node (uuid_generate 1) SWIM_STATUS_ALIVE 1 1000;
  added ← swim_state_add info;
  assert_non_null added;;
  assert_view_size 1;;
  found ← found (uuid_generate 1);
  assert_status (node_status found) SWIM_STATUS_ALIVE;;
  assert_int_equal (ni_incarnation (ns_info found)) 1;;
  assert_int_equal (ni_last_seen (ns_info found)) 1000.

Definition test_add_multiple_sorted : M unit :=
  for_each (seq 0 3) (λ i _,
    info ← make_node (uuid_generate (1 + i)) SWIM_STATUS_ALIVE 1 (1000 + Z.of_nat i);
    swim_state_add info;; mret tt) tt;;
  assert_view_size 3;;
  for_each (seq 0 3) (λ i _, found (uuid_generate (1 + i));; mret tt) tt.

Definition test_del_marks_dead : M unit :=
  info ← make_node (uuid_generate 1) SWIM_STATUS_ALIVE 1 1000;
  swim_state_add info;;
  deleted ← returned (swim_state_del (uuid_generate 1));
  assert_status (node_status deleted) SWIM_STATUS_DEAD.

Definition test_del_self_ignored : M unit :=
  s ← get_swim;
  result ← swim_state_del (sw_uuid s);
  assert_null result;;
  assert_view_size 0.

Definition test_del_missing_returns_null : M unit :=
  result ← swim_state_del (uuid_generate 1);
  assert_null result.

Definition test_suspect_sets_status : M unit :=
  info ← make_node (uuid_generate 1) SWIM_STATUS_ALIVE 1 1000;
  swim_state_add info;;
  result ← returned (swim_state_suspect (uuid_generate 1) (inet_addr 9001 0x7f000002) sizeof_sockaddr_in);
  assert_status (node_status result) SWIM_STATUS_SUSPECT.

Definition test_suspect_records_witness : M unit :=
  info ← make_node (uuid_generate 1) SWIM_STATUS_ALIVE 1 1000;
  swim_state_add info;;
  result ← returned (swim_state_suspect (uuid_generate 1) (inet_addr 9001 0x7f000002) sizeof_sockaddr_in);
  assert_true (swim_node_has_witness result).

Definition test_notice_alive_updates_time : M unit :=
  info ← make_node (uuid_generate 1) SWIM_STATUS_ALIVE 1 1000;
  swim_state_add info;;
  result ← returned (swim_state_notice (uuid_generate 1) 2000 1);
  assert_int_equal (ni_last_seen (ns_info result)) 2000;;
  assert_status (node_status result) SWIM_STATUS_ALIVE.

Definition test_notice_suspect_to_alive : M unit :=
  info ← make_node (uuid_generate 1) SWIM_STATUS_SUSPECT 1 1000;
  swim_state_add info;;
  result ← returned (swim_state_notice (uuid_generate 1) 2000 1);
  assert_status (node_status result) SWIM_STATUS_ALIVE.

Definition test_notice_dead_ignored : M unit :=
  info ← make_node (uuid_generate 1) SWIM_STATUS_DEAD 1 1000;
  swim_state_add info;;
  result ← returned (swim_state_notice (uuid_generate 1) 2000 1);
  assert_status (node_status result) SWIM_STATUS_DEAD;;
  assert_int_equal (ni_last_seen (ns_info result)) 1000.

Definition test_notice_higher_incarnation : M unit :=
  info ← make_node (uuid_generate 1) SWIM_STATUS_SUSPECT 1 1000;
  swim_state_add info;;
  result ← returned (swim_state_notice (uuid_generate 1) 2000 5);
  assert_status (node_status result) SWIM_STATUS_ALIVE;;
  assert_int_equal (ni_incarnation (ns_info result)) 5;;
  assert_int_equal (ni_last_seen (ns_info result)) 2000.

Definition test_notice_stale_incarnation_ignored : M unit :=
  info ← make_node (uuid_generate 1) SWIM_STATUS_ALIVE 5 1000;
  swim_state_add info;;
  result ← returned (swim_state_notice (uuid_generate 1) 2000 3);
  assert_int_equal (ni_incarnation (ns_info result)) 5;;
  assert_int_equal (ni_last_seen (ns_info result)) 1000;;
  assert_status (node_status result) SWIM_STATUS_ALIVE.

Definition test_notice_missing_returns_null : M unit :=
  result ← swim_state_notice (uuid_generate 1) 2000 1;
  assert_null result.

Definition test_merge_new_node_added : M unit :=
  info ← make_node (uuid_generate 1) SWIM_STATUS_ALIVE 1 1000;
  swim_state_merge info;;
  assert_view_size 1;;
  found ← found (uuid_generate 1);
  assert_status (node_status found) SWIM_STATUS_ALIVE.

Definition test_merge_higher_incarnation_updates : M unit :=
  info ← make_node (uuid_generate 1) SWIM_STATUS_ALIVE 1 1000;
  swim_state_add info;;
  gossip ← make_node (uuid_generate 1) SWIM_STATUS_SUSPECT 2 2000;
  swim_state_merge gossip;;
  found ← found (uuid_generate 1);
  assert_int_equal (ni_incarnation (ns_info found)) 2;;
  assert_status (node_status found) SWIM_STATUS_SUSPECT;;
  assert_int_equal (ni_last_seen (ns_info found)) 2000.

Definition test_merge_same_incarnation_newer_time : M unit :=
  info ← make_node (uuid_generate 1) SWIM_STATUS_ALIVE 1 1000;
  swim_state_add info;;
  gossip ← make_node (uuid_generate 1) SWIM_STATUS_SUSPECT 1 2000;
  swim_state_merge gossip;;
  found ← found (uuid_generate 1);
  assert_int_equal (ni_last_seen (ns_info found)) 2000;;
  assert_status (node_status found) SWIM_STATUS_SUSPECT.

Definition test_merge_same_incarnation_older_time_ignored : M unit :=
  info ← make_node (uuid_generate 1) SWIM_STATUS_ALIVE 1 2000;
  swim_state_add info;;
  gossip ← make_node (uuid_generate 1) SWIM_STATUS_SUSPECT 1 1000;
  swim_state_merge gossip;;
  found ← found (uuid_generate 1);
  assert_int_equal (ni_last_seen (ns_info found)) 1000;;
  assert_status (node_status found) SWIM_STATUS_SUSPECT.

Definition test_merge_same_incarnation_alive_no_override_suspect : M unit :=
  info ← make_node (uuid_generate 1) SWIM_STATUS_SUSPECT 1 1000;
  swim_state_add info;;
  gossip ← make_node (uuid_generate 1) SWIM_STATUS_ALIVE 1 2000;
  swim_state_merge gossip;;
  found ← found (uuid_generate 1);
  assert_status (node_status found) SWIM_STATUS_SUSPECT;;
  assert_int_equal (ni_last_seen (ns_info found)) 1000.

Definition test_merge_same_incarnation_same_status_newer_time : M unit :=
  info ← make_node (uuid_generate 1) SWIM_STATUS_ALIVE 1 1000;
  swim_state_add info;;
  gossip ← make_node (uuid_generate 1) SWIM_STATUS_ALIVE 1 2000;
  swim_state_merge gossip;;
  found ← found (uuid_generate 1);
  assert_status (node_status found) SWIM_STATUS_ALIVE;;
  assert_int_equal (ni_last_seen (ns_info found)) 2000.

Definition test_merge_stale_incarnation_ignored : M unit :=
  info ← make_node (uuid_generate 1) SWIM_STATUS_ALIVE 5 1000;
  swim_state_add info;;
  gossip ← make_node (uuid_generate 1) SWIM_STATUS_SUSPECT 3 2000;
  swim_state_merge gossip;;
  found ← found (uuid_generate 1);
  assert_int_equal (ni_incarnation (ns_info found)) 5;;
  assert_status (node_status found) SWIM_STATUS_ALIVE;;
  assert_int_equal (ni_last_seen (ns_info found)) 1000.

Definition test_merge_self_ignored : M unit :=
  s ← get_swim;
  info ← make_node (sw_uuid s) SWIM_STATUS_ALIVE 1 1000;
  swim_state_merge info;;
  assert_view_size 0.

Definition state_tests : list (M unit) :=
  [test_add_new_node;
   test_add_multiple_sorted;
   test_del_marks_dead;
   test_del_self_ignored;
   test_del_missing_returns_null;
   test_suspect_sets_status;
   test_suspect_records_witness;
   test_notice_alive_updates_time;
   test_notice_suspect_to_alive;
   test_notice_dead_ignored;
   test_notice_higher_incarnation;
   test_notice_stale_incarnation_ignored;
   test_notice_missing_returns_null;
   test_merge_new_node_added;
   test_merge_higher_incarnation_updates;
   test_merge_same_incarnation_newer_time;
   test_merge_same_incarnation_older_time_ignored;
   test_merge_same_incarnation_alive_no_override_suspect;
   test_merge_same_incarnation_same_status_newer_time;
   test_merge_stale_incarnation_ignored;
   test_merge_self_ignored].

End Tests.
End StateTest.

(** ** [probe_test.c] *)

Module ProbeTest.

(** [rand] is replaced by a function that returns the values the test has
    queued, here as the numbers the system answers.  There is enough memory. *)
Definition mock_rand (values : list N) (E : Env) : Env :=
  {| env_rand := λ k, nth k values 0%N; env_time := env_time; env_alloc := λ _, true;
     env_heap := env_heap; env_sendto := env_sendto |}.

(** The values for a shuffle of [n] nodes. *)
Definition mock_shuffle_identity (n : nat) : list N := N.of_nat <$> reverse (seq 1 (n - 1)).
Definition mock_shuffle_rotate (n : nat) : list N := replicate (n - 1) 0%N.

(** All of the [n] values queued so far have been returned, and [rand] has not
    been called when there was none: checked wherever a test queues more values,
    and at its end. *)
Definition drained (n : nat) : M unit := λ w, (assert (w_rands w =? n)%nat, w).

Section Tests.
Context `{Host} `{UuidLib} `{UuidGenerator} `{Env}.

Definition add_alive_node (uuid : uuid_t) : M unit :=
  info ← lift (swim_node_init uuid (inet_addr 9000 0x7f000001) sizeof_sockaddr_in);
  swim_state_add (set_ni_incarnation 1 (set_ni_last_seen 1000 (set_ni_status SWIM_STATUS_ALIVE info)));;
  mret tt.

(** The nodes number [first] to [first + n - 1]. *)
Definition add_alive_nodes (first n : nat) : M unit :=
  for_each (seq first n) (λ i _, add_alive_node (uuid_generate (1 + i))) tt.

Definition assert_probe (field : ProbeSchedule → nat) (n : nat) : M unit :=
  s ← get_swim;
  assert_int_equal (Z.of_nat (field (sw_probe s))) (Z.of_nat n).

(** [seen[idx]++] for [n] probes. *)
Definition count_probes (n : nat) (seen : list nat) : M (list nat) :=
  for_each (seq 0 n) (λ _ seen,
    idx ← swim_probe_next;
    assert_in_range idx 0 (Z.of_nat (length seen) - 1);;
    mret (alter S (Z.to_nat idx) seen)) seen.

Definition assert_all (values : list nat) (expected : nat) : M unit :=
  assert_true (forallb (Nat.eqb expected) values).

Definition test_shuffle_permutation_valid : M unit :=
  add_alive_nodes 0 5;;
  drained 0;;
  swim_probe_shuffle;;
  assert_probe pr_size 5;;
  assert_probe pr_pos 0;;
  s ← get_swim;
  assert_true (bool_decide (pr_order (sw_probe s) = seq 0 5));;
  drained 4.

Definition test_full_round_coverage : M unit :=
  add_alive_nodes 0 5;;
  drained 0;;
  seen ← count_probes 5 (replicate 5 0%nat);
  assert_all seen 1;;
  drained 4.

Definition test_auto_reshuffle_after_round : M unit :=
  add_alive_nodes 0 3;;
  drained 0;;
  for_each (seq 0 3) (λ _ _, swim_probe_next;; mret tt) tt;;
  assert_probe pr_pos 3;;
  drained 2;;
  idx ← swim_probe_next;
  assert_int_equal idx 1;;
  assert_probe pr_pos 1;;
  seen ← count_probes 2 (alter S (Z.to_nat idx) (replicate 3 0%nat));
  assert_all seen 1;;
  drained 4.

Definition test_view_change_invalidates : M unit :=
  add_alive_nodes 0 3;;
  drained 0;;
  swim_probe_next;;
  assert_probe pr_size 3;;
  add_alive_nodes 3 1;;
  assert_probe pr_size 0;;
  drained 2;;
  idx ← swim_probe_next;
  assert_in_range idx 0 3;;
  assert_probe pr_size 4;;
  drained 5.

(** [while (pos < size) { ... }]; each probe advances [pos]. *)
Fixpoint walk_round (fuel : nat) (count : Z) : M Z :=
  s ← get_swim;
  if (pr_pos (sw_probe s) <? pr_size (sw_probe s))%nat then
    match fuel with
    | O => fail OutOfBounds
    | S fuel =>
        idx ← swim_probe_next;
        if 0 <=? idx then
          node ← node_at (Z.to_nat idx);
          assert_true (negb (bool_decide (node_status node = SWIM_STATUS_DEAD)));;
          walk_round fuel (count + 1)
        else walk_round fuel count
    end
  else mret count.

Definition test_dead_nodes_skipped : M unit :=
  add_alive_nodes 0 4;;
  set_node 0 (set_node_status SWIM_STATUS_DEAD);;
  set_node 2 (set_node_status SWIM_STATUS_DEAD);;
  drained 0;;
  swim_probe_shuffle;;
  count ← walk_round 4 0;
  assert_int_equal count 2;;
  drained 3.

(** [last_in_round1[idx] = step] *)
Definition record_last (n : nat) (last : list Z) : M (list Z) :=
  for_each (seq 0 n) (λ step last,
    idx ← swim_probe_next;
    assert_in_range idx 0 (Z.of_nat n - 1);;
    mret (<[Z.to_nat idx := Z.of_nat step]> last)) last.

(** [if (first_in_round2[idx] == -1) first_in_round2[idx] = N + step] *)
Definition record_first (n : nat) (first : list Z) : M (list Z) :=
  for_each (seq 0 n) (λ step first,
    idx ← swim_probe_next;
    assert_in_range idx 0 (Z.of_nat n - 1);;
    mret (alter (λ v, if v =? -1 then Z.of_nat (n + step) else v) (Z.to_nat idx) first)) first.

Definition test_probe_gap_bound : M unit :=
  add_alive_nodes 0 5;;
  drained 0;;
  last_in_round1 ← record_last 5 (replicate 5 0);
  drained 4;;
  first_in_round2 ← record_first 5 (replicate 5 (-1));
  assert_true (forallb (λ v, negb (v =? -1)) first_in_round2);;
  assert_true (forallb (λ '(first, last), (1 <=? first - last) && (first - last <=? 2 * 5 - 1))
                 (zip first_in_round2 last_in_round1));;
  drained 8.

Definition test_empty_view : M unit :=
  idx ← swim_probe_next;
  assert_int_equal idx (-1);;
  drained 0.

End Tests.

(** Each test, with the values it queues. *)
Definition probe_tests `{Host} `{UuidLib} `{UuidGenerator} : list (list N * (Env → M unit)) :=
  [(mock_shuffle_identity 5, @test_shuffle_permutation_valid _ _ _);
   (mock_shuffle_identity 5, @test_full_round_coverage _ _ _);
   (mock_shuffle_identity 3 ++ mock_shuffle_rotate 3, @test_auto_reshuffle_after_round _ _ _);
   (mock_shuffle_identity 3 ++ mock_shuffle_identity 4, @test_view_change_invalidates _ _ _);
   (mock_shuffle_identity 4, @test_dead_nodes_skipped _ _ _);
   (mock_shuffle_identity 5 ++ mock_shuffle_rotate 5, @test_probe_gap_bound _ _ _);
   ([], @test_empty_view)].

(** The outcome of a test. *)
Definition mocked_test `{UuidGenerator} (E : Env) (test : list N * (Env → M unit)) : outcome unit :=
  let E' := mock_rand test.1 E in
  @unit_test _ E' (test.2 E').

End ProbeTest.

(** ** [encoding_test.c] *)

(** [uuid_parse(3)], on a string that is the text of a uuid. *)
Class UuidParser := uuid_parse : text → uuid_t.

Module EncodingTest.

(** [for (int i = 0; i < LENGTH_OF(values); i++)] *)
Fixpoint for_values {A} (values : list A) (body : A → outcome unit) : outcome unit :=
  match values with
  | [] => Ok tt
  | v :: values => body v;; for_values values body
  end.

(** What is in a buffer of [n] bytes after an encoder has written to it; it held
    the bytes [stale]. *)
Definition encoded (n : nat) (stale : list byte) (encode : nat → outcome (list byte))
  : outcome (list byte) :=
  b ← encode n;
  Ok (b ++ drop (length b) (take n stale)).

Definition uuid_strings : list text :=
  [lit "d79b445d-dda9-4556-96b9-c42bc00ffde7";
   lit "a609e73c-cb49-4b5e-977c-a0c28bd17f6a";
   lit "ecaed8ba-140f-432a-9bc2-c128c2914769";
   lit "174aa260-e44b-4925-a974-5651465ca210";
   lit "26de9634-025c-4fd5-9d9a-3a2a5dd35ebd";
   lit "e10ba08d-6853-46b7-8363-c11f03ad95fc";
   lit "c0fc7074-b50e-4481-8b22-f5ef3615c6b2";
   lit "2b707ae5-e280-4060-8349-a11386db91fe";
   lit "ca6a667d-3b21-4c8d-8dc0-02a63fe80d3a";
   lit "2f6f1dba-6e9f-456c-be89-dd0558ad08f4"].

Definition string_values : list text :=
  [[];
   lit "1";
   lit "d79b445d-dda9-96b9-c42bc00ffde7";
   lit "a609e73c-cb49-4b5e-977c-a0c28bd17f6a";
   lit "ecaed8ba-140f-432a-9bc2-c128c2914769";
   lit "174aa260-e44b-4925-a974-5651465ca210";
   lit "26de9634-025c-4fd5-9d9a-3a2a5dd35ebd";
   lit "e10ba08d-6853-46b7-8363-c11f03ad95fc";
   lit "c0fc7074-b50e-8b22-f5ef3615c6b2";
   lit "2b707ae5-e280-4060-8349-a11386db91fe";
   lit "ca6a667d-3b21-4c8d-8dc0-02a63fe80d3a";
   lit "2f6f1dba-6e9f-dd0558ad08f4"].

Section Tests.
Context `{Host} `{UuidLib} `{UuidParser}.

(** What the local variables of the tests contain before they are assigned. *)
Variable stale : list byte.
Variable stale_chars : array 128.
Variable stale_header : EventHeader.

Definition test_encoding_uint32 : outcome unit :=
  for_values [1234567890; 0] (λ value,
    buf ← encoded 4 stale (λ n, swim_encode_uint32 n value);
    '(actual, _) ← swim_decode_uint32 buf;
    assert (actual =? value)).

Definition test_encoding_uint16 : outcome unit :=
  for_values [12345; 0] (λ value,
    buf ← encoded 2 stale (λ n, swim_encode_uint16 n value);
    '(actual, _) ← swim_decode_uint16 buf;
    assert (actual =? value)).

Definition test_encoding_uuid : outcome unit :=
  for_values uuid_strings (λ s,
    let uuid := uuid_parse s in
    buf ← encoded 16 stale (λ n, swim_encode_uuid n uuid);
    '(actual, _) ← swim_decode_uuid buf (array_of 16 stale);
    assert (uuid_compare uuid actual =? 0)).

Definition test_encoding_varlen : outcome unit :=
  for_values string_values (λ s,
    let bytes := to_signed 2 (Z.of_nat (length s)) in
    buf ← encoded 128 stale (λ n, swim_encode_varlen n (s ++ [x00]) bytes);
    '(actual, length, _) ← swim_decode_varlen buf stale_chars;
    assert (bytes =? length);;
    assert (bool_decide (take (Z.to_nat length) (s ++ [x00])
                         = take (Z.to_nat length) (vec_to_list actual)))).

Definition test_encoding_fixlen : outcome unit :=
  for_values string_values (λ s,
    let bytes := Z.of_nat (length s) in
    buf ← encoded 128 stale (λ n, swim_encode_fixlen n (s ++ [x00]) bytes);
    '(actual, _) ← swim_decode_fixlen buf stale_chars bytes;
    assert (bool_decide (take (Z.to_nat bytes) (s ++ [x00])
                         = take (Z.to_nat bytes) (vec_to_list actual)))).

(** The headers and the texts of their uuids; fields that are not initialised
    explicitly are zero. *)
Definition headers : list (EventHeader * text) :=
  zip ((λ '(type, time), {| eh_type := type; eh_uuid := zeros 16; eh_time := time;
                            eh_incarnation := 0 |}) <$>
         [(EVENT_TYPE_PING, 1766383853); (EVENT_TYPE_ACK, 1766373853);
          (EVENT_TYPE_JOIN, 1766393853); (EVENT_TYPE_LEAVE, 1766483853);
          (EVENT_TYPE_PING_REQ, 1766283853)]) uuid_strings.

(** The body of the loop. *)
Definition header_case (header : EventHeader) : outcome unit :=
  buf ← encoded (Z.to_nat SWIM_MAX_PACKET_SIZE) stale (λ n, swim_encode_event_header n header);
  '(actual, _) ← swim_decode_event_header buf stale_header;
  assert (event_type_code (eh_type header) =? event_type_code (eh_type actual));;
  assert (uuid_compare (eh_uuid header) (eh_uuid actual) =? 0);;
  assert (eh_time header =? eh_time actual).

Definition test_encoding_header : outcome unit :=
  for_values headers (λ '(header, s), header_case
    {| eh_type := eh_type header; eh_uuid := uuid_parse s;
       eh_time := eh_time header; eh_incarnation := eh_incarnation header |}).

(** [sin_family], [sin_port] and [sin_addr] of a [struct sockaddr_in]. *)
Definition sin_family (a : sockaddr_storage) : Z := load (take 2 (vec_to_list a)).
Definition sin_port (a : sockaddr_storage) : Z := load (take 2 (drop 2 (vec_to_list a))).
Definition sin_addr (a : sockaddr_storage) : Z := load (take 4 (drop 4 (vec_to_list a))).

(** The addresses 8.8.8.8 and 127.0.0.1. *)
Definition test_encoding_sockaddr : outcome unit :=
  for_values [(0x08080808, 1234); (0x7f000001, 4321)] (λ '(ip, port),
    let addr := inet_addr port ip in
    buf ← encoded (Z.to_nat SWIM_MAX_PACKET_SIZE) stale
            (λ n, swim_encode_sockaddr n addr sizeof_sockaddr_in);
    '(actual, actual_len, _) ← swim_decode_sockaddr buf stale_chars;
    assert (sizeof_sockaddr_in =? actual_len);;
    assert (sin_family addr =? sin_family actual);;
    assert (sin_port addr =? sin_port actual);;
    assert (sin_addr addr =? sin_addr actual)).

(** All tests but that of the header. *)
Definition encoding_tests : list (outcome unit) :=
  [test_encoding_uint32; test_encoding_uint16; test_encoding_uuid; test_encoding_varlen;
   test_encoding_fixlen; test_encoding_sockaddr].

End Tests.
End EncodingTest.

(** ** Running the tests of the state *)

Section Running.
Context {H : Host} {U : UuidLib} {UL : UuidLaws U} {G : UuidGenerator} {GL : UuidGeneratorLaws G}.
Context {E : Env}.

(** The fixture. *)
Definition fixture : World :=
  {| w_swim := {| sw_sockfd := -1; sw_last_heartbeat := env_time 0; sw_addr := zeros 16;
       sw_uuid := uuid_generate 0; sw_incarnation := 0; sw_view_capacity := 16;
       sw_view_size := 0; sw_view := replicate 16 zero_node;
       sw_probe := {| pr_order := []; pr_pos := 0; pr_size := 0 |} |};
     w_rands := 0; w_times := 1; w_allocs := 2; w_out := [] |}.

(** The fixture with one node. *)
Definition alone (n : NodeState) : World :=
  with_swim (set_sw_view (n :: replicate 15 zero_node) (set_sw_view_size 1 (w_swim fixture)))
    fixture.

Definition test_info (uuid : uuid_t) (status : Status) (incarnation last_seen : Z) : NodeInfo :=
  {| ni_uuid := uuid; ni_last_seen := last_seen; ni_incarnation := incarnation;
     ni_status := status; ni_addr := inet_addr 9000 0x7f000001; ni_addrlen := 16 |}.

Lemma setup_ok : (∀ k, env_alloc k = true) → setup = Ok fixture.
Proof. intros Ha. unfold setup. by rewrite !Ha. Qed.

Lemma id_not_self : uuid_generate 1 ≠ uuid_generate 0.
Proof. intros Hu. by apply uuid_generate_distinct in Hu; [|lia..]. Qed.

Lemma node_init_run uuid :
  swim_node_init uuid (inet_addr 9000 0x7f000001) sizeof_sockaddr_in
  = Ok (test_info uuid SWIM_STATUS_UNKNOWN 0 0).
Proof.
  unfold swim_node_init.
  assert (memcpy (ni_addr zero_info) (vec_to_list (inet_addr 9000 0x7f000001)) sizeof_sockaddr_in
    = Ok (inet_addr 9000 0x7f000001)) as ->; [|done].
  destruct host_endian eqn:Eh; unfold inet_addr, store, hton; rewrite Eh; vm_compute; reflexivity.
Qed.

Lemma make_node_run uuid status inc seen w :
  make_node uuid status inc seen w = (Ok (test_info uuid status inc seen), w).
Proof. unfold make_node. by rewrite node_init_run. Qed.

Lemma get_fixture : swim_state_get_node (w_swim fixture) (uuid_generate 1) = None.
Proof. done. Qed.

Lemma add_alone info :
  ni_uuid info = uuid_generate 1 →
  swim_state_add info fixture = (Ok (Some 0%nat), alone (set_ns_info info zero_node)).
Proof.
  intros Hu. unfold swim_state_add, mbind at 1, M_bind at 1. cbn [get_swim].
  rewrite Hu. cbn [sw_uuid w_swim fixture]. rewrite uuid_compare_neq by apply id_not_self.
  reflexivity.
Qed.

Lemma get_alone n :
  node_uuid n = uuid_generate 1 →
  swim_state_get_node (w_swim (alone n)) (uuid_generate 1) = Some 0%nat.
Proof.
  intros Hu. unfold swim_state_get_node, bsearch. simpl.
  unfold node_compare. rewrite Hu.
  by rewrite (proj2 (uuid_compare_eq (uuid_generate 1) (uuid_generate 1))).
Qed.

(** The operations on a view of one node. *)
Lemma found_alone n :
  node_uuid n = uuid_generate 1 → found (uuid_generate 1) (alone n) = (Ok n, alone n).
Proof.
  intros Hu. unfold found. rewrite (bind_run get_swim _ _ (w_swim (alone n)) (alone n)) by done.
  by rewrite get_alone.
Qed.

Lemma notice_alone t inc n :
  node_uuid n = uuid_generate 1 → known_info (ns_info n) = true →
  returned (swim_state_notice (uuid_generate 1) t inc) (alone n)
  = (Ok (notice_node t inc n), alone (notice_node t inc n)).
Proof.
  intros Hu Hk. unfold returned, swim_state_notice, mbind, M_bind. cbn [get_swim].
  rewrite get_alone by done. change (node_at 0 (alone n)) with (Ok n, alone n). cbv iota beta. by rewrite Hk.
Qed.

Lemma del_alone n :
  node_uuid n = uuid_generate 1 →
  returned (swim_state_del (uuid_generate 1)) (alone n)
  = (Ok (set_node_status SWIM_STATUS_DEAD n), alone (set_node_status SWIM_STATUS_DEAD n)).
Proof.
  intros Hu. unfold returned, swim_state_del, mbind, M_bind. cbn [get_swim].
  change (sw_uuid (w_swim (alone n))) with (uuid_generate 0).
  rewrite uuid_compare_neq by apply id_not_self. by rewrite get_alone.
Qed.

Lemma merge_alone info n :
  ni_uuid info = uuid_generate 1 → node_uuid n = uuid_generate 1 →
  swim_state_merge info (alone n) = (Ok tt, alone (merge_node info n)).
Proof.
  intros Hi Hu. unfold swim_state_merge, mbind, M_bind. cbn [get_swim]. rewrite Hi.
  change (sw_uuid (w_swim (alone n))) with (uuid_generate 0).
  rewrite uuid_compare_neq by apply id_not_self. by rewrite get_alone.
Qed.

Lemma merge_fixture info :
  ni_uuid info = uuid_generate 1 →
  swim_state_merge info fixture = (Ok tt, alone (set_ns_info info zero_node)).
Proof.
  intros Hi. unfold swim_state_merge, mbind at 1, M_bind at 1. cbn [get_swim]. rewrite Hi.
  change (sw_uuid (w_swim fixture)) with (uuid_generate 0).
  rewrite uuid_compare_neq, get_fixture by apply id_not_self.
  by rewrite (bind_run _ _ _ _ _ (add_alone info Hi)).
Qed.

Definition witness_addr : Witness :=
  {| wi_addr := inet_addr 9001 0x7f000002; wi_addrlen := sizeof_sockaddr_in |}.

Lemma suspect_alone n :
  node_uuid n = uuid_generate 1 → ns_witness n = no_witness →
  let n' := set_ns_witness witness_addr (set_node_status SWIM_STATUS_SUSPECT n) in
  returned (swim_state_suspect (uuid_generate 1) (inet_addr 9001 0x7f000002) sizeof_sockaddr_in)
    (alone n) = (Ok n', alone n').
Proof.
  intros Hu Hw. unfold returned, swim_state_suspect, mbind, M_bind. cbn [get_swim].
  rewrite get_alone by done.
  change (set_node 0 (set_node_status SWIM_STATUS_SUSPECT) (alone n))
    with (Ok tt, alone (set_node_status SWIM_STATUS_SUSPECT n)).
  set (n1 := set_node_status SWIM_STATUS_SUSPECT n). cbv iota beta.
  change (node_at 0 (alone n1)) with (Ok n1, alone n1). cbv iota beta.
  change (ns_witness n1) with (ns_witness n). rewrite Hw. cbn [wi_addr no_witness].
  assert (memcpy (zeros 128) (vec_to_list (inet_addr 9001 0x7f000002)) sizeof_sockaddr_in
    = Ok (inet_addr 9001 0x7f000002)) as Hm; [|by rewrite Hm].
  destruct host_endian eqn:Eh; unfold inet_addr, store, hton; rewrite Eh; vm_compute; reflexivity.
Qed.

(** ** Several nodes *)

(** [n] nodes have been added, all of them alive. *)
Record populated (n : nat) (w : World) : Prop := {
  po_wf : swim_wf (w_swim w);
  po_self : sw_uuid (w_swim w) = uuid_generate 0;
  po_capacity : sw_view_capacity (w_swim w) = 16%nat;
  po_size : sw_view_size (w_swim w) = n;
  po_map u : is_Some (view_map (w_swim w) !! u) ↔ ∃ i, (i < n)%nat ∧ u = uuid_generate (1 + i);
  po_alive : Forall (λ c, node_status c = SWIM_STATUS_ALIVE) (live (w_swim w))
}.

Lemma populated_fixture : populated 0 fixture.
Proof.
  split; try done.
  - split; simpl; [done|lia|lia| |by left]. split; [constructor|apply not_elem_of_nil].
  - intros u. split; [|intros (i & ? & _); lia]. intros [n Hn].
    by apply view_map_lookup in Hn as [?%elem_of_nil _].
Qed.

Lemma populated_add n seen w :
  (n < 16)%nat → populated n w →
  ∃ s, swim_state_add (test_info (uuid_generate (1 + n)) SWIM_STATUS_ALIVE 1 seen) w
       = (Ok (Some n), with_swim s w) ∧ populated (S n) (with_swim s w) ∧
       pr_size (sw_probe s) = 0%nat.
Proof.
  intros Hn [Hwf Hself Hcap Hsize Hmap Halive].
  set (info := test_info _ _ _ _).
  assert (ni_uuid info ≠ sw_uuid (w_swim w)) as Hne.
  { rewrite Hself. simpl. intros Hu. by apply uuid_generate_distinct in Hu; [|lia..]. }
  assert (view_map (w_swim w) !! ni_uuid info = None) as Hnew.
  { apply eq_None_not_Some. rewrite Hmap. simpl. intros (i & Hi & Hu).
    apply uuid_generate_distinct in Hu; lia. }
  destruct (lookup_lt_is_Some_2 (sw_view (w_swim w)) (sw_view_size (w_swim w))) as [cell Hcell].
  { rewrite (wf_capacity _ Hwf), Hcap, Hsize. lia. }
  pose proof (place_added _ info cell Hwf Hcell Hne Hnew) as Hadd.
  exists (place info cell (w_swim w)). split; [|split; [|done]].
  - rewrite add_checks by done. unfold add_checked.
    rewrite (proj2 (Nat.leb_gt _ _)) by (rewrite Hcap, Hsize; lia).
    rewrite (bind_run (mret true) _ w true w), (bind_run get_swim _ w (w_swim w) w) by done.
    rewrite (place_run info cell) by done. by rewrite Hsize.
  - split; cbn [w_swim with_swim]; try apply Hadd; try done.
    + by rewrite (na_size _ _ _ _ Hadd), Hsize.
    + intros u. rewrite (na_map _ _ _ _ Hadd), lookup_insert_is_Some, Hmap. split.
      * intros [<-|[_ (i & Hi & ->)]]; [exists n; split; [lia|done]|exists i; split; [lia|done]].
      * intros (i & Hi & ->). destruct (decide (i = n)) as [->|Hin]; [by left|right].
        split; [|exists i; split; [lia|done]]. simpl. intros Hu. apply uuid_generate_distinct in Hu; lia.
    + rewrite (na_live _ _ _ _ Hadd), qsort_permutation. by apply Forall_app_2; [|repeat constructor].
Qed.

Lemma populated_found n i w :
  populated n w → (i < n)%nat → ∃ c, found (uuid_generate (1 + i)) w = (Ok c, w).
Proof.
  intros [Hwf _ _ _ Hmap _] Hi.
  destruct (proj2 (Hmap (uuid_generate (1 + i)))) as [c Hc]; [by exists i|].
  destruct (get_node_cases (w_swim w) (uuid_generate (1 + i)) Hwf)
    as [[_ ?]|(j & c' & Hg & _ & Hj & _)]; [congruence|].
  exists c'. unfold found. rewrite (bind_run get_swim _ w (w_swim w) w) by done.
  rewrite Hg. by apply node_at_run.
Qed.

(** A loop that adds nodes. *)
Lemma populate body m :
  (∀ n w, (n < 16)%nat → populated n w →
     ∃ s, body n tt w = (Ok tt, with_swim s w) ∧ populated (S n) (with_swim s w) ∧
          pr_size (sw_probe s) = 0%nat) →
  ∀ k w, (k + m ≤ 16)%nat → populated k w →
    ∃ s, for_each (seq k m) body tt w = (Ok tt, with_swim s w) ∧ populated (k + m) (with_swim s w) ∧
      ((0 < m)%nat ∨ pr_size (sw_probe (w_swim w)) = 0%nat → pr_size (sw_probe s) = 0%nat).
Proof.
  intros Hbody. induction m as [|m IH]; intros k w Hk Hw.
  { exists (w_swim w). rewrite with_swim_id, Nat.add_0_r. split; [done|]. split; [done|].
    intros [?|?]; [lia|done]. }
  destruct (Hbody k w ltac:(lia) Hw) as (s1 & Hrun & Hp & Hz).
  destruct (IH (S k) (with_swim s1 w) ltac:(lia) Hp) as (s2 & Hrun2 & Hp2 & Hz2).
  exists s2. split; [|split].
  - cbn [seq for_each]. by rewrite (bind_run _ _ _ _ _ Hrun).
  - by rewrite <-Nat.add_succ_comm.
  - intros _. apply Hz2. by right.
Qed.

(** ** The tests of the state pass *)

Hypothesis alloc_ok : ∀ k, env_alloc k = true.

Lemma add_multiple_passes : unit_test StateTest.test_add_multiple_sorted = Ok tt.
Proof.
  unfold unit_test. rewrite setup_ok by done. bind_step. unfold StateTest.test_add_multiple_sorted.
  destruct (populate (λ i _,
      info ← make_node (uuid_generate (1 + i)) SWIM_STATUS_ALIVE 1 (1000 + Z.of_nat i);
      swim_state_add info;; mret tt) 3) with (k := 0%nat) (w := fixture)
    as (s & Hrun & Hp & _); [|lia|apply populated_fixture|].
  { intros n w Hn Hw. destruct (populated_add n (1000 + Z.of_nat n) w Hn Hw) as (s & Hadd & Hp & Hz).
    exists s. split; [|done].
    rewrite (bind_run _ _ _ _ _ (make_node_run _ _ _ _ w)). by rewrite (bind_run _ _ _ _ _ Hadd). }
  rewrite (bind_run _ _ _ _ _ Hrun). set (w := with_swim s fixture) in *.
  rewrite (bind_run (assert_view_size 3) _ w tt w).
  2: { unfold assert_view_size. rewrite (bind_run get_swim _ w (w_swim w) w) by done.
       by rewrite (po_size _ _ Hp). }
  assert (∀ i, (i < 3)%nat → (found (uuid_generate (1 + i));; mret tt) w = (Ok tt, w)) as Hfound.
  { intros i Hi. destruct (populated_found 3 i w Hp Hi) as [c Hc]. by rewrite (bind_run _ _ _ _ _ Hc). }
  cbn [seq for_each].
  rewrite (bind_run _ _ _ _ _ (Hfound 0%nat ltac:(lia))).
  rewrite (bind_run _ _ _ _ _ (Hfound 1%nat ltac:(lia))).
  by rewrite (bind_run _ _ _ _ _ (Hfound 2%nat ltac:(lia))).
Qed.

(** One step of a test: the lemma that says what it does. *)
Ltac test_step :=
  match goal with
  | |- context [(make_node ?u ?s ?i ?t ≫= _) ?w] =>
      rewrite (bind_run _ _ _ _ _ (make_node_run u s i t w))
  | |- context [(swim_state_add ?i ≫= _) fixture] =>
      rewrite (bind_run _ _ _ _ _ (add_alone i eq_refl))
  | |- context [(swim_state_merge ?i ≫= _) fixture] =>
      rewrite (bind_run _ _ _ _ _ (merge_fixture i eq_refl))
  | |- context [(swim_state_merge ?i ≫= _) (alone ?n)] =>
      rewrite (bind_run _ _ _ _ _ (merge_alone i n eq_refl eq_refl))
  | |- context [(returned (swim_state_notice _ ?t ?i) ≫= _) (alone ?n)] =>
      rewrite (bind_run _ _ _ _ _ (notice_alone t i n eq_refl eq_refl))
  | |- context [(returned (swim_state_del _) ≫= _) (alone ?n)] =>
      rewrite (bind_run _ _ _ _ _ (del_alone n eq_refl))
  | |- context [(returned (swim_state_suspect _ _ _) ≫= _) (alone ?n)] =>
      rewrite (bind_run _ _ _ _ _ (suspect_alone n eq_refl eq_refl))
  | |- context [(assert_view_size 1 ≫= _) (alone ?n)] =>
      rewrite (bind_run (assert_view_size 1) _ (alone n) tt (alone n) eq_refl)
  | |- context [(assert_non_null (Some ?a) ≫= _) ?w] =>
      rewrite (bind_run (assert_non_null (Some a)) _ w a w eq_refl)
  | |- context [(found _ ≫= _) (alone ?n)] =>
      rewrite (bind_run _ _ _ _ _ (found_alone n eq_refl))
  | |- context [(get_swim ≫= _) ?w] => rewrite (bind_run get_swim _ w (w_swim w) w eq_refl)
  end.

Lemma state_tests_pass : Forall (λ test, unit_test test = Ok tt) StateTest.state_tests.
Proof.
  unfold StateTest.state_tests. repeat apply Forall_cons_2; [..|apply Forall_nil_2].
  2: apply add_multiple_passes.
  all: unfold unit_test; rewrite setup_ok by done; bind_step.
  all: match goal with |- (?t _).1 = _ => let h := eval red in t in change t with h end.
  all: repeat test_step; try reflexivity.
  - unfold swim_state_del, mbind, M_bind. cbn [get_swim]. by rewrite uuid_compare_same.
  - unfold swim_state_del, mbind, M_bind. cbn [get_swim].
    change (sw_uuid (w_swim fixture)) with (uuid_generate 0).
    by rewrite uuid_compare_neq by apply id_not_self.
  - unfold swim_state_merge, mbind, M_bind. cbn [get_swim]. simpl ni_uuid.
    by rewrite uuid_compare_same.
Qed.

End Running.

(** ** Running the tests of the probe schedule *)

Section RunningProbes.
Context {H : Host} {U : UuidLib} {UL : UuidLaws U} {G : UuidGenerator} {GL : UuidGeneratorLaws G}.
Context {E : Env}.

Lemma add_alive_node_run n w :
  (n < 16)%nat → populated n w →
  ∃ s, ProbeTest.add_alive_node (uuid_generate (1 + n)) w = (Ok tt, with_swim s w) ∧
    populated (S n) (with_swim s w) ∧ pr_size (sw_probe s) = 0%nat.
Proof.
  intros Hn Hw. destruct (populated_add n 1000 w Hn Hw) as (s & Hadd & Hp & Hz).
  exists s. split; [|done]. unfold ProbeTest.add_alive_node. rewrite node_init_run.
  by rewrite (bind_run (lift (Ok _)) _ w _ w eq_refl), (bind_run _ _ _ _ _ Hadd).
Qed.

Lemma add_alive_nodes_run first n w :
  (0 < n)%nat → (first + n ≤ 16)%nat → populated first w →
  ∃ s, ProbeTest.add_alive_nodes first n w = (Ok tt, with_swim s w) ∧
    populated (first + n) (with_swim s w) ∧ pr_size (sw_probe s) = 0%nat.
Proof.
  intros Hpos Hn Hw. unfold ProbeTest.add_alive_nodes.
  destruct (populate (λ i _, ProbeTest.add_alive_node (uuid_generate (1 + i))) n
    add_alive_node_run first w Hn Hw) as (s & Hrun & Hp & Hz).
  exists s. split; [done|]. split; [done|]. apply Hz. by left.
Qed.

(** The first cells of the view. *)
Lemma populated_cells n w :
  populated n w →
  ∃ cells rest, sw_view (w_swim w) = cells ++ rest ∧ length cells = n ∧
    Forall (λ c, node_status c = SWIM_STATUS_ALIVE) cells.
Proof.
  intros [Hwf _ _ Hsize _ Halive].
  exists (live (w_swim w)), (drop (sw_view_size (w_swim w)) (sw_view (w_swim w))).
  split_and!; [symmetry; apply take_drop| |done]. unfold live. rewrite length_take.
  pose proof (wf_size _ Hwf). rewrite (wf_capacity _ Hwf). lia.
Qed.

End RunningProbes.

(** Everything about a view of [n] nodes that a test can depend on. *)
Ltac expose s Hp :=
  let cells := fresh "cells" in let rest := fresh "rest" in
  let Hv := fresh "Hv" in let Hl := fresh "Hl" in let Ha := fresh "Ha" in
  pose proof (po_size _ _ Hp);
  destruct (populated_cells _ _ Hp) as (cells & rest & Hv & Hl & Ha);
  repeat (destruct cells as [|? cells]; simpl in Hl; try discriminate Hl);
  repeat match goal with Ha : Forall _ (?c :: _) |- _ =>
    apply Forall_cons in Ha as [? Ha]; destruct c as [[] ? ? ?] end;
  clear Hp; destruct s as [? ? ? ? ? ? ? ? []];
  cbn in *; subst.

Section ProbesPass.
Context {H : Host} {U : UuidLib} {UL : UuidLaws U} {G : UuidGenerator} {GL : UuidGeneratorLaws G}.
Variable E : Env.

(** A test that begins by adding [n] nodes. *)
Ltac probe_test n :=
  unfold ProbeTest.mocked_test; set (E' := ProbeTest.mock_rand _ _); simpl snd;
  unfold unit_test; rewrite setup_ok by done; bind_step;
  let s := fresh "s" in let Hrun := fresh "Hrun" in let Hp := fresh "Hp" in
  let Hz := fresh "Hz" in
  destruct (add_alive_nodes_run 0 n fixture) as (s & Hrun & Hp & Hz);
    [lia|lia|apply populated_fixture|];
  match goal with |- (?t _).1 = _ => let h := eval red in t in change t with h end;
  rewrite (bind_run _ _ _ _ _ Hrun); clear Hrun; simpl in Hp; expose s Hp;
  vm_compute; reflexivity.

Lemma test_view_change_passes :
  ProbeTest.mocked_test E (ProbeTest.mock_shuffle_identity 3 ++ ProbeTest.mock_shuffle_identity 4,
    @ProbeTest.test_view_change_invalidates _ _ _) = Ok tt.
Proof.
  unfold ProbeTest.mocked_test. set (E' := ProbeTest.mock_rand _ _). simpl snd.
  unfold unit_test. rewrite setup_ok by done. bind_step.
  destruct (add_alive_nodes_run 0 3 fixture) as (s & Hrun & Hp & Hz);
    [lia|lia|apply populated_fixture|].
  unfold ProbeTest.test_view_change_invalidates. rewrite (bind_run _ _ _ _ _ Hrun).
  set (w := with_swim s fixture) in *.
  rewrite (bind_run (ProbeTest.drained 0) _ w tt w eq_refl).
  set (s1 := set_sw_probe {| pr_order := [0; 1; 2]%nat; pr_pos := 1; pr_size := 3 |} s).
  set (w1 := {| w_swim := s1; w_rands := 2; w_times := 1; w_allocs := 3; w_out := [] |}).
  assert (swim_probe_next w = (Ok 0, w1)) as Hnext.
  { clear Hrun. subst w1 s1 w. expose s Hp. vm_compute. reflexivity. }
  assert (populated 3 w1) as Hp1.
  { pose proof (po_size _ _ Hp) as Hs. simpl in Hs. destruct Hp as [[] ? ? ? ? ?].
    split; try done. split; try done. right. simpl. by rewrite Hs. }
  rewrite (bind_run _ _ _ _ _ Hnext).
  rewrite (bind_run (ProbeTest.assert_probe pr_size 3) _ w1 tt w1 eq_refl).
  destruct (add_alive_nodes_run 3 1 w1 ltac:(lia) ltac:(lia) Hp1) as (s2 & Hrun2 & Hp2 & Hz2).
  rewrite (bind_run _ _ _ _ _ Hrun2). clear Hrun Hrun2 Hnext Hp1 Hp Hz. subst w. unfold w1 in *.
  clearbody s1. clear s. simpl in Hp2. expose s2 Hp2. vm_compute. reflexivity.
Qed.

Lemma probe_tests_pass :
  Forall (λ test, ProbeTest.mocked_test E test = Ok tt) ProbeTest.probe_tests.
Proof.
  unfold ProbeTest.probe_tests. repeat apply Forall_cons_2; [..|apply Forall_nil_2].
  - probe_test 5%nat.
  - probe_test 5%nat.
  - probe_test 3%nat.
  - apply test_view_change_passes.
  - probe_test 4%nat.
  - probe_test 5%nat.
  - reflexivity.
Qed.

End ProbesPass.

(** ** The tests of the encoding *)

Section EncodingsPass.
Context {H : Host} {U : UuidLib} {UL : UuidLaws U} {P : UuidParser}.

Lemma encoded_ok n stale encode b :
  encode n = Ok b → EncodingTest.encoded n stale encode = Ok (b ++ drop (length b) (take n stale)).
Proof. intros E. unfold EncodingTest.encoded. by rewrite E. Qed.

Lemma for_values_ok {A} (l : list A) body :
  Forall (λ v, body v = Ok tt) l → EncodingTest.for_values l body = Ok tt.
Proof. induction 1 as [|v l Hv _ IH]; [done|]. simpl. by rewrite Hv. Qed.

Lemma assert_same (a : uuid_t) : assert (uuid_compare a a =? 0) = Ok tt.
Proof. by rewrite uuid_compare_same. Qed.

(** A string, through [swim_encode_varlen] and back. *)
Lemma encode_varlen_ok n (s rest : list byte) :
  (length s ≤ 126)%nat → (length s + 2 ≤ n)%nat →
  swim_encode_varlen n (s ++ rest) (Z.of_nat (length s)) = Ok (be_split 2 (Z.of_nat (length s)) ++ s).
Proof.
  intros Hs Hn. unfold swim_encode_varlen. rewrite (to_unsigned_small 8 _ 126) by (simpl; lia).
  rewrite assert_then by (apply Z.leb_le; lia). rewrite assert_then by (apply Z.ltb_lt; lia).
  rewrite emit_ok with (b := be_split 2 (Z.of_nat (length s))) by (apply make_encoder_ok; simpl; lia).
  bind_step. cbn [app]. rewrite emit_ok with (b := s); [done|].
  rewrite encode_fixlen_ok by (rewrite ?length_be_split, ?length_app; lia).
  by rewrite Nat2Z.id, take_app_length.
Qed.

Lemma decode_fixlen_string (s rest : list byte) (old : array 128) :
  (length s ≤ 128)%nat →
  ∃ actual, swim_decode_fixlen (s ++ rest) old (Z.of_nat (length s)) = Ok (actual, rest) ∧
    take (length s) (vec_to_list actual) = s.
Proof.
  intros Hs. unfold swim_decode_fixlen.
  rewrite assert_then by (apply Z.leb_le; rewrite length_app; lia).
  rewrite memcpy_ok by (rewrite ?length_app; lia). bind_step.
  rewrite Nat2Z.id, take_app_length, drop_app_length. eexists. split; [done|].
  rewrite array_of_to_list; [by rewrite take_app_length|].
  rewrite length_app, length_drop, length_array. lia.
Qed.

Lemma decode_varlen_string (s rest : list byte) (old : array 128) :
  (length s ≤ 126)%nat →
  ∃ actual, swim_decode_varlen (be_split 2 (Z.of_nat (length s)) ++ s ++ rest) old
            = Ok (actual, Z.of_nat (length s), rest) ∧ take (length s) (vec_to_list actual) = s.
Proof.
  intros Hs. destruct (decode_fixlen_string s rest old ltac:(lia)) as (actual & Hd & Ht).
  exists actual. split; [|done]. unfold swim_decode_varlen, swim_decode_int16.
  rewrite (decode_signed_ok 2) by (unfold is_signed; simpl; lia). bind_step.
  rewrite (to_unsigned_small 8 _ 126) by (simpl; lia).
  rewrite assert_then; [by rewrite Hd|].
  apply andb_true_intro; split; apply Z.leb_le; [lia|]. rewrite !length_app. lia.
Qed.

Lemma strings_short : Forall (λ s : text, (length s ≤ 126)%nat) EncodingTest.string_values.
Proof.
  unfold EncodingTest.string_values.
  repeat (apply Forall_cons_2; [vm_compute; lia|]). apply Forall_nil_2.
Qed.

Variable stale : list byte.
Variable stale_chars : array 128.

Lemma varlen_passes : EncodingTest.test_encoding_varlen stale stale_chars = Ok tt.
Proof.
  apply for_values_ok. eapply Forall_impl; [apply strings_short|]. intros s Hs. cbn beta zeta in *.
  rewrite to_signed_small by (simpl; lia).
  erewrite encoded_ok by (apply encode_varlen_ok; lia). bind_step. rewrite <-(assoc_L (++)).
  match goal with |- context [s ++ ?rest] =>
    destruct (decode_varlen_string s rest stale_chars Hs) as (actual & -> & Ht) end.
  bind_step. rewrite Z.eqb_refl. cbn [assert]. bind_step.
  by rewrite Nat2Z.id, take_app_length, Ht, bool_decide_eq_true_2.
Qed.

Lemma fixlen_passes : EncodingTest.test_encoding_fixlen stale stale_chars = Ok tt.
Proof.
  apply for_values_ok. eapply Forall_impl; [apply strings_short|]. intros s Hs. cbn beta zeta in *.
  erewrite encoded_ok.
  2: { rewrite encode_fixlen_ok by (rewrite ?length_app; lia). by rewrite Nat2Z.id, take_app_length. }
  bind_step.
  match goal with |- context [s ++ ?rest] =>
    destruct (decode_fixlen_string s rest stale_chars ltac:(lia)) as (actual & -> & Ht) end.
  bind_step. by rewrite Nat2Z.id, take_app_length, Ht, bool_decide_eq_true_2.
Qed.

Lemma uuid_passes : EncodingTest.test_encoding_uuid stale = Ok tt.
Proof.
  apply for_values_ok, Forall_forall. intros s _. cbn zeta.
  erewrite encoded_ok by (apply encode_uuid_ok; lia). bind_step.
  unfold swim_decode_uuid. rewrite decode_uuid_ok. bind_step. apply assert_same.
Qed.

Lemma integers_pass :
  EncodingTest.test_encoding_uint32 stale = Ok tt ∧ EncodingTest.test_encoding_uint16 stale = Ok tt.
Proof.
  split; apply for_values_ok; repeat apply Forall_cons_2; try apply Forall_nil_2;
    (erewrite encoded_ok by (apply make_encoder_ok; lia)); bind_step;
    unfold swim_decode_uint32, swim_decode_uint16;
    (rewrite decode_unsigned_ok by (unfold is_unsigned; simpl; lia)); bind_step; reflexivity.
Qed.

(** The first bytes of an address that was received are those of the original. *)
Lemma received_slice (addr : sockaddr_storage) n k :
  (n + k ≤ 16)%nat →
  take k (drop n (vec_to_list (received_addr stale_chars addr sizeof_sockaddr_in)))
  = take k (drop n (vec_to_list addr)).
Proof.
  intros Hn. unfold received_addr. change (Z.to_nat sizeof_sockaddr_in) with 16%nat.
  rewrite array_of_to_list by (rewrite length_app, length_take, length_drop, !length_array; done).
  rewrite !take_drop_commute, take_app_le, take_take by (rewrite length_take, length_array; lia).
  by rewrite Nat.min_l by lia.
Qed.

Lemma sockaddr_passes : EncodingTest.test_encoding_sockaddr stale stale_chars = Ok tt.
Proof.
  pose proof (λ addr, received_slice addr 0 2 ltac:(lia)) as Hfamily. unfold drop in Hfamily.
  apply for_values_ok; repeat apply Forall_cons_2; try apply Forall_nil_2; cbn beta iota zeta;
    (erewrite encoded_ok by (apply encode_sockaddr_ok; by vm_compute)); bind_step;
    (rewrite decode_sockaddr_ok by (by vm_compute)); bind_step;
    unfold EncodingTest.sin_family, EncodingTest.sin_port, EncodingTest.sin_addr;
    (rewrite !received_slice by lia); rewrite Hfamily; by rewrite !Z.eqb_refl.
Qed.

(** The time of a header is what the decoder sees on a little-endian host. *)
Lemma header_case_run stale_header header :
  wf_header header →
  EncodingTest.header_case stale stale_header header = assert (eh_time header =? wire_time (eh_time header)).
Proof.
  intros Hh. unfold EncodingTest.header_case.
  erewrite encoded_ok by (apply encode_header_ok; vm_compute; lia). bind_step.
  rewrite decode_header_ok by done. bind_step.
  rewrite Z.eqb_refl, uuid_compare_same. reflexivity.
Qed.

Lemma header_passes stale_header :
  EncodingTest.test_encoding_header stale stale_header = Ok tt ↔ host_endian = LittleEndian.
Proof.
  assert (∀ type time u, (type, time) ∈
      [(EVENT_TYPE_PING, 1766383853); (EVENT_TYPE_ACK, 1766373853);
       (EVENT_TYPE_JOIN, 1766393853); (EVENT_TYPE_LEAVE, 1766483853);
       (EVENT_TYPE_PING_REQ, 1766283853)] →
    EncodingTest.header_case stale stale_header
      {| eh_type := type; eh_uuid := u; eh_time := time; eh_incarnation := 0 |}
    = match host_endian with LittleEndian => Ok tt | BigEndian => Fault AssertFailed end) as Hcase.
  { intros type time u Hin.
    repeat (apply elem_of_cons in Hin as [[= -> ->]|Hin]);
      [..|by apply elem_of_nil in Hin];
      (rewrite header_case_run by (split; [done|unfold is_unsigned; simpl; lia]));
      unfold wire_time; cbn [eh_time]; by destruct host_endian. }
  unfold EncodingTest.test_encoding_header, EncodingTest.headers.
  cbn [fmap list_fmap zip_with EncodingTest.uuid_strings].
  split.
  - intros Hpass. destruct host_endian; [done|].
    cbn [EncodingTest.for_values eh_type eh_time eh_incarnation] in Hpass.
    rewrite (Hcase EVENT_TYPE_PING 1766383853) in Hpass by (by left). discriminate Hpass.
  - intros Hle. rewrite Hle in Hcase. apply for_values_ok.
    repeat apply Forall_cons_2; [..|apply Forall_nil_2]; apply Hcase; set_solver.
Qed.

End EncodingsPass.

(** ** Theorem *)

(** C28: The unit tests of the program hold of these definitions.  All 21 tests
    of the state and all 7 of the probe schedule pass, whichever distinct uuids
    are generated; so do the tests of the encoding, whatever the buffers
    contained and whatever the order of bytes of the host - except that of the
    header of events, which passes if and only if the host is little-endian. *)
Theorem swim_unit_tests {H : Host} {U : UuidLib} {UL : UuidLaws U} {G : UuidGenerator}
  {GL : UuidGeneratorLaws G} {P : UuidParser} {E : Env}
  (stale : list byte) (stale_chars : array 128) (stale_header : EventHeader) :
  (∀ k, env_alloc k = true) →
  Forall (λ test, unit_test test = Ok tt) StateTest.state_tests ∧
  Forall (λ test, ProbeTest.mocked_test E test = Ok tt) ProbeTest.probe_tests ∧
  Forall (λ result, result = Ok tt) (EncodingTest.encoding_tests stale stale_chars) ∧
  (EncodingTest.test_encoding_header stale stale_header = Ok tt ↔ host_endian = LittleEndian).
Proof.
  intros Ha. split; [by apply state_tests_pass|]. split; [apply probe_tests_pass|].
  split; [|apply header_passes]. destruct (integers_pass stale).
  repeat apply Forall_cons_2; auto using uuid_passes, varlen_passes, fixlen_passes, sockaddr_passes.
Qed.

(** ** Witness *)

#[local] Existing Instance lexicographic.
#[local] Instance sample_host : Host := BigEndian.
#[local] Existing Instance sample_env.
#[local] Instance sample_generator : UuidGenerator := λ k, sample_uuid (Z.of_nat k).
#[local] Instance sample_parser : UuidParser := λ s, array_of 16 s.

#[local] Instance sample_generator_laws : UuidGeneratorLaws sample_generator.
Proof.
  assert (∀ i, (i ≤ 16)%nat → be_combine (vec_to_list (sample_generator i)) = Z.of_nat i) as Hk.
  { intros i Hi. do 17 (destruct i as [|i]; [vm_compute; reflexivity|]). lia. }
  intros i j Hi Hj Hu. apply Nat2Z.inj. rewrite <-(Hk i), <-(Hk j) by done.
  by change (sample_generator i) with (uuid_generate i); rewrite Hu.
Qed.

(** On a big-endian host, the test of the header fails. *)
Lemma swim_unit_tests_witness :
  Forall (λ test, unit_test test = Ok tt) StateTest.state_tests ∧
  Forall (λ test, ProbeTest.mocked_test sample_env test = Ok tt) ProbeTest.probe_tests ∧
  Forall (λ result, result = Ok tt) (EncodingTest.encoding_tests [] (zeros 128)) ∧
  EncodingTest.test_encoding_header []
    {| eh_type := EVENT_TYPE_PING; eh_uuid := zeros 16; eh_time := 0; eh_incarnation := 0 |}
    ≠ Ok tt.
Proof.
  destruct (swim_unit_tests [] (zeros 128)
    {| eh_type := EVENT_TYPE_PING; eh_uuid := zeros 16; eh_time := 0; eh_incarnation := 0 |})
    as (Hs & Hp & He & Hh); [done|].
  split; [exact Hs|]. split; [exact Hp|]. split; [exact He|].
  intros Hok. apply Hh in Hok. discriminate Hok.
Defined.
